(** * TechTap: the NDEF codec and the two tag transports

    A shallow embedding of [techtap/ndef_encoder.py], of the serial
    transport [techtap/rfid_reader.py] and of the phone bridge
    [techtap/phone_nfc.py], followed by the properties of the
    specification.

    Integers are [Z].  A Python [str] is the list of its code points, a
    [bytes] object the list of its byte values.  Python exceptions are the
    [Raise] results of an error monad. *)

From Stdlib Require Import String Ascii ZArith List Bool Lia DecimalString.
Import ListNotations.
Open Scope list_scope.
Open Scope Z_scope.

(* ===================================================================== *)
(** * The Python values and built-ins the program uses                    *)
(* ===================================================================== *)

Module Py.

Definition str := list Z.
Definition bytes := list Z.

(** The exceptions that occur in the three modules. *)
Inductive exn : Type :=
| IndexError
| StructError
| UnicodeEncodeError
| UnicodeDecodeError
| AttributeError
| TypeError
| OverflowError
| OperationalError (msg : str)
| ValueError (msg : str)
| ConnectionError (msg : str)
| SerialException (msg : str).

Inductive res (A : Type) : Type :=
| Ok (a : A)
| Raise (e : exn).
Arguments Ok {A} a.
Arguments Raise {A} e.

Definition bind {A B} (c : res A) (k : A -> res B) : res B :=
  match c with
  | Ok a => k a
  | Raise e => Raise e
  end.

Definition is_ok {A} (c : res A) : bool :=
  match c with Ok _ => true | Raise _ => false end.

(** A string literal of the source, as code points. *)
Definition lit (s : string) : str :=
  map (fun a => Z.of_N (N_of_ascii a)) (list_ascii_of_string s).

(** [len(x)] *)
Definition len {A} (l : list A) : Z := Z.of_nat (length l).

(** [x[i:]] and [x[i:j]] for [0 <= i <= j]; slices never raise. *)
Definition slice_from {A} (i : Z) (l : list A) : list A :=
  skipn (Z.to_nat i) l.
Definition slice {A} (i j : Z) (l : list A) : list A :=
  firstn (Z.to_nat (j - i)) (skipn (Z.to_nat i) l).

(** [x[i]] for [0 <= i]; raises IndexError out of range. *)
Definition index (l : list Z) (i : Z) : res Z :=
  match nth_error l (Z.to_nat i) with
  | Some b => Ok b
  | None => Raise IndexError
  end.

Fixpoint list_eqb (a b : list Z) : bool :=
  match a, b with
  | [], [] => true
  | x :: a', y :: b' => (x =? y) && list_eqb a' b'
  | _, _ => false
  end.

Fixpoint startswith (s p : str) {struct p} : bool :=
  match p with
  | [] => true
  | c :: p' =>
      match s with
      | [] => false
      | d :: s' => (d =? c) && startswith s' p'
      end
  end.

(** [sub in s] *)
Fixpoint contains (s sub : str) : bool :=
  startswith s sub ||
  match s with
  | [] => false
  | _ :: s' => contains s' sub
  end.

Fixpoint dropwhile (p : Z -> bool) (s : str) : str :=
  match s with
  | [] => []
  | c :: s' => if p c then dropwhile p s' else s
  end.

Fixpoint takewhile (p : Z -> bool) (s : str) : str :=
  match s with
  | [] => []
  | c :: s' => if p c then c :: takewhile p s' else []
  end.

(** [str.isspace] of one code point: the white space table of CPython. *)
Definition isspace (c : Z) : bool :=
  ((9 <=? c) && (c <=? 13)) || ((28 <=? c) && (c <=? 32))
  || (c =? 0x85) || (c =? 0xA0) || (c =? 0x1680)
  || ((0x2000 <=? c) && (c <=? 0x200A))
  || (c =? 0x2028) || (c =? 0x2029) || (c =? 0x202F)
  || (c =? 0x205F) || (c =? 0x3000).

Definition lstrip (s : str) : str := dropwhile isspace s.
Fixpoint rstrip (s : str) : str :=
  match s with
  | [] => []
  | c :: s' =>
      match rstrip s' with
      | [] => if isspace c then [] else [c]
      | r => c :: r
      end
  end.
Definition strip (s : str) : str := rstrip (lstrip s).

(** [s.lstrip(chars)] *)
Definition lstrip_chars (chars s : str) : str :=
  dropwhile (fun c => existsb (Z.eqb c) chars) s.

(** [s.replace(c, "")] for a one-character [c] *)
Definition remove_char (c : Z) (s : str) : str :=
  filter (fun x => negb (x =? c)) s.

(** [s.split(maxsplit=1)]: white space separated, at most two parts; the
    second part is the rest of the string after the separating run. *)
Definition split_max1 (s : str) : list str :=
  match dropwhile isspace s with
  | [] => []
  | s1 =>
      let tok := takewhile (fun c => negb (isspace c)) s1 in
      match dropwhile isspace (dropwhile (fun c => negb (isspace c)) s1) with
      | [] => [tok]
      | rest => [tok; rest]
      end
  end.

(** [sep.join(parts)] *)
Fixpoint join (sep : str) (parts : list str) : str :=
  match parts with
  | [] => []
  | [p] => p
  | p :: ps => p ++ sep ++ join sep ps
  end.

(** [template.format(arg)] for a template whose only replacement fields
    are [{}]. *)
Fixpoint format1 (template arg : str) : str :=
  match template with
  | [] => []
  | c :: t =>
      match t with
      | d :: t' =>
          if (c =? 123) && (d =? 125) then arg ++ format1 t' arg
          else c :: format1 t arg
      | [] => [c]
      end
  end.

(** ** Case mapping

    On a string of ASCII characters [str.lower] and [str.upper] map the
    letters and leave everything else; what they do to other strings is
    decided by the Unicode character database, which the model takes as
    given. *)
Class UnicodeData : Type := {
  unicode_lower : str -> str;
  unicode_upper : str -> str
}.

Definition is_ascii (c : Z) : bool := (0 <=? c) && (c <? 128).

Definition ascii_lower (c : Z) : Z :=
  if (65 <=? c) && (c <=? 90) then c + 32 else c.
Definition ascii_upper (c : Z) : Z :=
  if (97 <=? c) && (c <=? 122) then c - 32 else c.

Definition lower `{UnicodeData} (s : str) : str :=
  if forallb is_ascii s then map ascii_lower s else unicode_lower s.
Definition upper `{UnicodeData} (s : str) : str :=
  if forallb is_ascii s then map ascii_upper s else unicode_upper s.

(** The instance the examples run with; they use ASCII strings only. *)
#[export] Instance ascii_case : UnicodeData := {
  unicode_lower := fun s => s;
  unicode_upper := fun s => s
}.

(** ** Codecs *)

(** UTF-8 of one code point; [None] for a surrogate ([str.encode] raises
    UnicodeEncodeError) and for a number that is no code point. *)
Definition utf8_char (c : Z) : option bytes :=
  if c <? 0 then None
  else if c <? 0x80 then Some [c]
  else if c <? 0x800 then Some [0xC0 + c / 64; 0x80 + c mod 64]
  else if c <? 0x10000 then
    if (0xD800 <=? c) && (c <=? 0xDFFF) then None
    else Some [0xE0 + c / 4096; 0x80 + (c / 64) mod 64; 0x80 + c mod 64]
  else if c <? 0x110000 then
    Some [0xF0 + c / 262144; 0x80 + (c / 4096) mod 64;
          0x80 + (c / 64) mod 64; 0x80 + c mod 64]
  else None.

(** [s.encode("utf-8")] *)
Fixpoint utf8_encode (s : str) : res bytes :=
  match s with
  | [] => Ok []
  | c :: s' =>
      match utf8_char c with
      | None => Raise UnicodeEncodeError
      | Some b => bind (utf8_encode s') (fun bs => Ok (b ++ bs))
      end
  end.

(** [s.encode("ascii")] *)
Fixpoint ascii_encode (s : str) : res bytes :=
  match s with
  | [] => Ok []
  | c :: s' =>
      if is_ascii c then bind (ascii_encode s') (fun bs => Ok (c :: bs))
      else Raise UnicodeEncodeError
  end.

(** [b.decode("ascii")] *)
Fixpoint ascii_decode (b : bytes) : res str :=
  match b with
  | [] => Ok []
  | c :: b' =>
      if c <? 128 then bind (ascii_decode b') (fun s => Ok (c :: s))
      else Raise UnicodeDecodeError
  end.

(** [b.decode("ascii", errors="replace")] *)
Definition ascii_decode_replace (b : bytes) : str :=
  map (fun c => if c <? 128 then c else 0xFFFD) b.

Definition is_cont (b : Z) : bool := (0x80 <=? b) && (b <? 0xC0).

(** The UTF-8 decoder of CPython, run over the whole buffer: [Some c]
    for a decoded code point, [None] for an ill-formed run (an invalid
    start byte, or the beginning of a sequence cut short by a wrong byte or
    by the end of the data); decoding resumes behind the run. *)
Fixpoint utf8_scan (b : bytes) : list (option Z) :=
  match b with
  | [] => []
  | ch :: r1 =>
      if ch <? 0x80 then Some ch :: utf8_scan r1
      else if ch <? 0xC2 then None :: utf8_scan r1
      else if ch <? 0xE0 then
        match r1 with
        | [] => [None]
        | ch2 :: r2 =>
            if is_cont ch2
            then Some (ch * 64 + ch2 - 0x3080) :: utf8_scan r2
            else None :: utf8_scan r1
        end
      else if ch <? 0xF0 then
        match r1 with
        | [] => [None]
        | ch2 :: r2 =>
            if negb (is_cont ch2)
               || (if ch2 <? 0xA0 then ch =? 0xE0 else ch =? 0xED)
            then None :: utf8_scan r1
            else
              match r2 with
              | [] => [None]
              | ch3 :: r3 =>
                  if is_cont ch3
                  then Some (ch * 4096 + ch2 * 64 + ch3 - 0xE2080)
                         :: utf8_scan r3
                  else None :: utf8_scan r2
              end
        end
      else if ch <? 0xF5 then
        match r1 with
        | [] => [None]
        | ch2 :: r2 =>
            if negb (is_cont ch2)
               || (if ch2 <? 0x90 then ch =? 0xF0 else ch =? 0xF4)
            then None :: utf8_scan r1
            else
              match r2 with
              | [] => [None]
              | ch3 :: r3 =>
                  if negb (is_cont ch3)
                  then None :: utf8_scan r2
                  else
                    match r3 with
                    | [] => [None]
                    | ch4 :: r4 =>
                        if is_cont ch4
                        then Some (ch * 262144 + ch2 * 4096 + ch3 * 64 + ch4
                                   - 0x3C82080) :: utf8_scan r4
                        else None :: utf8_scan r3
                    end
              end
        end
      else None :: utf8_scan r1
  end.

(** [b.decode("utf-8", errors="replace")]: every ill-formed run becomes
    one U+FFFD. *)
Definition utf8_decode_replace (b : bytes) : str :=
  map (fun o => match o with Some c => c | None => 0xFFFD end) (utf8_scan b).

(** [b.decode("utf-8")]: the first ill-formed run raises. *)
Fixpoint all_decoded (l : list (option Z)) : res str :=
  match l with
  | [] => Ok []
  | Some c :: l' => bind (all_decoded l') (fun s => Ok (c :: s))
  | None :: _ => Raise UnicodeDecodeError
  end.
Definition utf8_decode (b : bytes) : res str := all_decoded (utf8_scan b).

(** [b.hex()] *)
Definition hex_digit (n : Z) : Z := if n <? 10 then 48 + n else 87 + n.
Definition hex (b : bytes) : str :=
  flat_map (fun x => [hex_digit (x / 16); hex_digit (x mod 16)]) b.

(** ** [struct.pack] and [struct.unpack]

    A value outside the range of its format character raises
    [struct.error]; so does unpacking a buffer of the wrong size. *)
Definition pack_B (v : Z) : res bytes :=
  if (0 <=? v) && (v <=? 0xFF) then Ok [v] else Raise StructError.
Definition pack_H (v : Z) : res bytes :=
  if (0 <=? v) && (v <=? 0xFFFF) then Ok [v / 256; v mod 256]
  else Raise StructError.
Definition pack_I (v : Z) : res bytes :=
  if (0 <=? v) && (v <=? 0xFFFFFFFF)
  then Ok [v / 16777216; (v / 65536) mod 256; (v / 256) mod 256; v mod 256]
  else Raise StructError.

(** [struct.pack(fmt, v1, ..., vn)], big-endian, one packer per value. *)
Fixpoint pack (fields : list (res bytes)) : res bytes :=
  match fields with
  | [] => Ok []
  | f :: fs => bind f (fun b => bind (pack fs) (fun bs => Ok (b ++ bs)))
  end.

(** [struct.unpack(">H", b)[0]] and [struct.unpack(">I", b)[0]] *)
Definition unpack_H (b : bytes) : res Z :=
  match b with
  | [h; l] => Ok (h * 256 + l)
  | _ => Raise StructError
  end.
Definition unpack_I (b : bytes) : res Z :=
  match b with
  | [b3; b2; b1; b0] => Ok (b3 * 16777216 + b2 * 65536 + b1 * 256 + b0)
  | _ => Raise StructError
  end.

(** [sorted(l, key=...)]: stable, ascending in the key. *)
Fixpoint insert_by {A} (key : A -> Z) (x : A) (l : list A) : list A :=
  match l with
  | [] => [x]
  | y :: r => if key x <=? key y then x :: l else y :: insert_by key x r
  end.
Definition sorted {A} (key : A -> Z) (l : list A) : list A :=
  fold_right (insert_by key) [] l.

(** [s.split(c)] and the first cut of [s.split(c, 1)] for a one-character
    separator: [cut c s] is [None] when [c] does not occur in [s]. *)
Fixpoint cut (c : Z) (s : str) : option (str * str) :=
  match s with
  | [] => None
  | x :: s' =>
      if x =? c then Some ([], s')
      else
        match cut c s' with
        | Some (a, b) => Some (x :: a, b)
        | None => None
        end
  end.

Fixpoint split_on (c : Z) (s : str) : list str :=
  match s with
  | [] => [[]]
  | x :: s' =>
      if x =? c then [] :: split_on c s'
      else
        match split_on c s' with
        | p :: ps => (x :: p) :: ps
        | [] => [[x]]
        end
  end.

(** [str(n)] of an integer *)
Definition str_of_int (n : Z) : str :=
  lit (DecimalString.NilZero.string_of_int (Z.to_int n)).

(** ** Dictionaries

    A dictionary is the list of its items in insertion order; the values
    are the Python objects that the result dictionaries and the decoded
    JSON messages hold. *)
Fixpoint lookup {V} (d : list (str * V)) (k : str) : option V :=
  match d with
  | [] => None
  | (k', v) :: d' => if list_eqb k' k then Some v else lookup d' k
  end.

Fixpoint dict_set {V} (d : list (str * V)) (k : str) (v : V)
    : list (str * V) :=
  match d with
  | [] => [(k, v)]
  | (k', v') :: d' =>
      if list_eqb k' k then (k', v) :: d' else (k', v') :: dict_set d' k v
  end.

#[local] Unset Elimination Schemes.
Inductive value : Type :=
| VNone
| VBool (b : bool)
| VInt (n : Z)
| VStr (s : str)
| VList (l : list value)
| VDict (d : list (str * value)).
#[local] Set Elimination Schemes.

Definition dict := list (str * value).

(** [d.get(k, default)] *)
Definition get (d : dict) (k : str) (default : value) : value :=
  match lookup d k with
  | Some v => v
  | None => default
  end.

(** [v == "literal"] *)
Definition is_str (v : value) (s : str) : bool :=
  match v with
  | VStr x => list_eqb x s
  | _ => false
  end.

(** The truth value of an object in a condition. *)
Definition truthy (v : value) : bool :=
  match v with
  | VNone => false
  | VBool b => b
  | VInt n => negb (n =? 0)
  | VStr s => match s with [] => false | _ => true end
  | VList l => match l with [] => false | _ => true end
  | VDict d => match d with [] => false | _ => true end
  end.

End Py.

Import Py.

Declare Scope py_scope.
Notation "x <- c ;; k" := (bind c (fun x => k))
  (at level 61, c at next level, right associativity) : py_scope.
Notation "' pat <- c ;; k" := (bind c (fun x => match x with pat => k end))
  (at level 61, pat pattern, c at next level, right associativity) : py_scope.
Open Scope py_scope.

(* ===================================================================== *)
(** * techtap/ndef_encoder.py                                             *)
(* ===================================================================== *)

Module NdefEncoder.

(** NDEF URI prefix codes, in the order of the source dictionary. *)
Definition URI_PREFIXES : list (str * Z) :=
  [ (lit "http://www.", 0x01); (lit "https://www.", 0x02);
    (lit "http://", 0x03); (lit "https://", 0x04);
    (lit "tel:", 0x05); (lit "mailto:", 0x06);
    (lit "ftp://anonymous:anonymous@", 0x07); (lit "ftp://ftp.", 0x08);
    (lit "ftps://", 0x09); (lit "sftp://", 0x0A);
    (lit "smb://", 0x0B); (lit "nfs://", 0x0C);
    (lit "ftp://", 0x0D); (lit "dav://", 0x0E);
    (lit "news:", 0x0F); (lit "telnet://", 0x10);
    (lit "imap:", 0x11); (lit "rtsp://", 0x12);
    (lit "urn:", 0x13); (lit "pop:", 0x14);
    (lit "sip:", 0x15); (lit "sips:", 0x16);
    (lit "tftp:", 0x17); (lit "btspp://", 0x18);
    (lit "btl2cap://", 0x19); (lit "btgoep://", 0x1A);
    (lit "tcpobex://", 0x1B); (lit "irdaobex://", 0x1C);
    (lit "file://", 0x1D); (lit "urn:epc:id:", 0x1E);
    (lit "urn:epc:tag:", 0x1F); (lit "urn:epc:pat:", 0x20);
    (lit "urn:epc:raw:", 0x21); (lit "urn:epc:", 0x22);
    (lit "urn:nfc:", 0x23) ].

(** Social media URL templates. *)
Definition SOCIAL_PLATFORMS : list (str * str) :=
  [ (lit "facebook", lit "https://facebook.com/{}");
    (lit "instagram", lit "https://instagram.com/{}");
    (lit "twitter", lit "https://twitter.com/{}");
    (lit "x", lit "https://x.com/{}");
    (lit "tiktok", lit "https://tiktok.com/@{}");
    (lit "youtube", lit "https://youtube.com/@{}");
    (lit "linkedin", lit "https://linkedin.com/in/{}");
    (lit "github", lit "https://github.com/{}");
    (lit "telegram", lit "https://t.me/{}");
    (lit "snapchat", lit "https://snapchat.com/add/{}");
    (lit "reddit", lit "https://reddit.com/u/{}");
    (lit "pinterest", lit "https://pinterest.com/{}");
    (lit "whatsapp", lit "https://wa.me/{}");
    (lit "discord", lit "https://discord.gg/{}");
    (lit "spotify", lit "https://open.spotify.com/user/{}");
    (lit "twitch", lit "https://twitch.tv/{}");
    (lit "threads", lit "https://threads.net/@{}") ].

(** ** Low-level helpers *)

Definition _make_ndef_record (tnf : Z) (rec_type payload : bytes)
    (is_first is_last : bool) : res bytes :=
  let flags := Z.land tnf 0x07 in
  let flags := if is_first then Z.lor flags 0x80 else flags in
  let flags := if is_last then Z.lor flags 0x40 else flags in
  header <-
    (if len payload <=? 255
     then
       let flags := Z.lor flags 0x10 in
       pack [pack_B flags; pack_B (len rec_type); pack_B (len payload)]
     else
       pack [pack_B flags; pack_B (len rec_type); pack_I (len payload)]) ;;
  Ok (header ++ rec_type ++ payload).

Definition _wrap_tlv (ndef_message : bytes) : res bytes :=
  let length := len ndef_message in
  if length <? 0xFF
  then Ok ([0x03; length] ++ ndef_message ++ [0xFE])
  else
    l <- pack [pack_H length] ;;
    Ok ([0x03; 0xFF] ++ l ++ ndef_message ++ [0xFE]).

Definition encode_empty_ndef : bytes := [0x03; 0x00; 0xFE].

(** ** Public encoders *)

(** The loop of [encode_url] over the prefixes, longest first. *)
Fixpoint scan_prefixes `{UnicodeData} (url : str) (table : list (str * Z))
    : Z * str :=
  match table with
  | [] => (0x00, url)
  | (prefix, code) :: rest =>
      if startswith (lower url) prefix
      then (code, slice_from (len prefix) url)
      else scan_prefixes url rest
  end.

Definition encode_url `{UnicodeData} (url : str) : res bytes :=
  let url := strip url in
  let '(prefix_code, uri_field) :=
    scan_prefixes url (sorted (fun x => - len (fst x)) URI_PREFIXES) in
  field <- utf8_encode uri_field ;;
  let payload := [prefix_code] ++ field in
  record <- _make_ndef_record 0x01 (lit "U") payload true true ;;
  _wrap_tlv record.

Definition encode_text (text lang : str) : res bytes :=
  let text := strip text in
  lang_bytes <- ascii_encode lang ;;
  let status_byte := Z.land (len lang_bytes) 0x3F in
  text_bytes <- utf8_encode text ;;
  let payload := [status_byte] ++ lang_bytes ++ text_bytes in
  record <- _make_ndef_record 0x01 (lit "T") payload true true ;;
  _wrap_tlv record.

(** [lines.append(...)] under [if field:] *)
Definition optional_line (label field tail : str) : list str :=
  match field with
  | [] => []
  | _ => [label ++ strip field ++ tail]
  end.

(** The text block that [encode_vcard] builds before it encodes it. *)
Definition vcard_text (name phone email org title url address note : str)
    : res str :=
  let lines := [lit "BEGIN:VCARD"; lit "VERSION:3.0"; lit "FN:" ++ strip name] in
  let parts := split_max1 (strip name) in
  n_line <-
    (match parts with
     | [p0; p1] => Ok (lit "N:" ++ p1 ++ lit ";" ++ p0 ++ lit ";;;")
     | p0 :: _ => Ok (lit "N:" ++ p0 ++ lit ";;;;")
     | [] => Raise IndexError
     end) ;;
  let lines := lines ++ [n_line] in
  let lines := lines ++ optional_line (lit "TEL;TYPE=CELL:") phone [] in
  let lines := lines ++ optional_line (lit "EMAIL:") email [] in
  let lines := lines ++ optional_line (lit "ORG:") org [] in
  let lines := lines ++ optional_line (lit "TITLE:") title [] in
  let lines := lines ++ optional_line (lit "URL:") url [] in
  let lines := lines ++ optional_line (lit "ADR;TYPE=HOME:;;") address (lit ";;;;") in
  let lines := lines ++ optional_line (lit "NOTE:") note [] in
  let lines := lines ++ [lit "END:VCARD"] in
  Ok (join [13; 10] lines).

Definition encode_vcard (name phone email org title url address note : str)
    : res bytes :=
  vcard_str <- vcard_text name phone email org title url address note ;;
  let mime_type := lit "text/vcard" in
  payload <- utf8_encode vcard_str ;;
  record <- _make_ndef_record 0x02 mime_type payload true true ;;
  _wrap_tlv record.

Definition encode_phone (phone : str) : res bytes :=
  let phone := remove_char 45 (remove_char 32 (strip phone)) in
  phone_bytes <- utf8_encode phone ;;
  let payload := [0x05] ++ phone_bytes in
  record <- _make_ndef_record 0x01 (lit "U") payload true true ;;
  _wrap_tlv record.

Definition encode_email (email subject body : str) : res bytes :=
  let email := strip email in
  let params :=
    (match subject with [] => [] | _ => [lit "subject=" ++ subject] end)
    ++ (match body with [] => [] | _ => [lit "body=" ++ body] end) in
  let mailto :=
    match params with
    | [] => email
    | _ => email ++ lit "?" ++ join (lit "&") params
    end in
  mailto_bytes <- utf8_encode mailto ;;
  let payload := [0x06] ++ mailto_bytes in
  record <- _make_ndef_record 0x01 (lit "U") payload true true ;;
  _wrap_tlv record.

(** [sorted(SOCIAL_PLATFORMS.keys())]: the keys are ASCII and distinct, so
    the order is that of their code points. *)
Fixpoint str_leb (a b : str) : bool :=
  match a, b with
  | [], _ => true
  | _ :: _, [] => false
  | x :: a', y :: b' => (x <? y) || ((x =? y) && str_leb a' b')
  end.
Fixpoint insert_str (x : str) (l : list str) : list str :=
  match l with
  | [] => [x]
  | y :: r => if str_leb x y then x :: l else y :: insert_str x r
  end.
Definition get_social_platforms : list str :=
  fold_right insert_str [] (map fst SOCIAL_PLATFORMS).

Definition unknown_platform (platform : str) : exn :=
  ValueError (lit "Unknown platform '" ++ platform ++ lit "'. Supported: "
              ++ join (lit ", ") get_social_platforms).

Definition encode_social `{UnicodeData} (platform username : str) : res bytes :=
  let platform := lower (strip platform) in
  let username := lstrip_chars (lit "@") (strip username) in
  match lookup SOCIAL_PLATFORMS platform with
  | None => Raise (unknown_platform platform)
  | Some template => encode_url (format1 template username)
  end.

(** The two values [encode_wifi] derives from the authentication name. *)
Definition auth_map : list (str * Z) :=
  [ (lit "OPEN", 0x0001); (lit "WPA", 0x0002);
    (lit "WPA2", 0x0020); (lit "WPA2-EAP", 0x0020) ].

Definition wifi_auth_val `{UnicodeData} (auth_type : str) : Z :=
  match lookup auth_map (upper auth_type) with
  | Some v => v
  | None => 0x0020
  end.

Definition wifi_enc_val `{UnicodeData} (auth_type : str) : Z :=
  if negb (list_eqb (upper auth_type) (lit "OPEN")) then 0x0004 else 0x0001.

(** The credential block of [encode_wifi], before the outer attribute. *)
Definition wifi_credential `{UnicodeData} (ssid password auth_type : str)
    : res bytes :=
  let credential := [] in
  h <- pack [pack_H 0x1026; pack_H 1] ;;
  let credential := credential ++ h ++ [0x01] in
  ssid_bytes <- utf8_encode ssid ;;
  h <- pack [pack_H 0x1045; pack_H (len ssid_bytes)] ;;
  let credential := credential ++ h ++ ssid_bytes in
  let auth_val := wifi_auth_val auth_type in
  h <- pack [pack_H 0x1003; pack_H 2; pack_H auth_val] ;;
  let credential := credential ++ h in
  let enc_val := wifi_enc_val auth_type in
  h <- pack [pack_H 0x100F; pack_H 2; pack_H enc_val] ;;
  let credential := credential ++ h in
  credential <-
    (match password with
     | [] => Ok credential
     | _ =>
         pw_bytes <- utf8_encode password ;;
         h <- pack [pack_H 0x1027; pack_H (len pw_bytes)] ;;
         Ok (credential ++ h ++ pw_bytes)
     end) ;;
  h <- pack [pack_H 0x1020; pack_H 6] ;;
  Ok (credential ++ h ++ repeat 0xFF 6).

Definition wifi_payload `{UnicodeData} (ssid password auth_type : str)
    : res bytes :=
  credential <- wifi_credential ssid password auth_type ;;
  h <- pack [pack_H 0x100E; pack_H (len credential)] ;;
  Ok (h ++ credential).

Definition encode_wifi `{UnicodeData} (ssid password auth_type : str)
    (hidden : bool) : res bytes :=
  payload <- wifi_payload ssid password auth_type ;;
  let mime_type := lit "application/vnd.wfa.wsc" in
  record <- _make_ndef_record 0x02 mime_type payload true true ;;
  _wrap_tlv record.

Definition bytes_to_hex (data : bytes) : str := map ascii_upper (hex data).

(** ** The decoder *)

(** The summary dictionary of [get_ndef_payload_info]. *)
Record info : Type := {
  info_type : str;
  info_tnf : Z;
  raw_payload : bytes;
  content_type : str;
  content : str;
  language : option str
}.

(** The reverse look-up of a prefix code, first match in dictionary order. *)
Fixpoint prefix_of_code (table : list (str * Z)) (prefix_code : Z) : str :=
  match table with
  | [] => []
  | (p, c) :: rest =>
      if c =? prefix_code then p else prefix_of_code rest prefix_code
  end.

(** The second half of the [try] block, under the comment [# Interpret]:
    the summary for a record type, a TNF and a payload. *)
Definition interpret `{UnicodeData} (rec_type : str) (tnf : Z)
    (payload : bytes) : res (option info) :=
  let mk ct c l :=
    {| info_type := rec_type; info_tnf := tnf; raw_payload := payload;
       content_type := ct; content := c; language := l |} in
  if list_eqb rec_type (lit "U") && (tnf =? 0x01) then
    prefix_code <- index payload 0 ;;
    let uri_suffix := utf8_decode_replace (slice_from 1 payload) in
    let prefix := prefix_of_code URI_PREFIXES prefix_code in
    Ok (Some (mk (lit "URL") (prefix ++ uri_suffix) None))
  else if list_eqb rec_type (lit "T") && (tnf =? 0x01) then
    p0 <- index payload 0 ;;
    let lang_len := Z.land p0 0x3F in
    lang <- ascii_decode (slice 1 (1 + lang_len) payload) ;;
    let text := utf8_decode_replace (slice_from (1 + lang_len) payload) in
    Ok (Some (mk (lit "Text") text (Some lang)))
  else if contains (lower rec_type) (lit "vcard") then
    Ok (Some (mk (lit "vCard") (utf8_decode_replace payload) None))
  else if contains (lower rec_type) (lit "wfa.wsc") then
    Ok (Some (mk (lit "WiFi") (lit "[WiFi Configuration Data]") None))
  else
    Ok (Some (mk (lit "Unknown") (hex payload) None)).

(** The first half of the [try] block: the container and the record
    header.  [None] stands for the two early [return None]. *)
Definition parse_header (data : bytes) : res (option (str * Z * bytes)) :=
  if len data <? 5 then Ok None
  else
    let idx := 0 in
    d0 <- index data idx ;;
    if negb (d0 =? 0x03) then Ok None
    else
      let idx := idx + 1 in
      d1 <- index data idx ;;
      '(msg_len, idx) <-
        (if d1 =? 0xFF
         then m <- unpack_H (slice (idx + 1) (idx + 3) data) ;; Ok (m, idx + 3)
         else Ok (d1, idx + 1)) ;;
      header <- index data idx ;;
      let tnf := Z.land header 0x07 in
      let sr := negb (Z.land header 0x10 =? 0) in
      let idx := idx + 1 in
      type_len <- index data idx ;;
      let idx := idx + 1 in
      '(payload_len, idx) <-
        (if sr
         then p <- index data idx ;; Ok (p, idx + 1)
         else p <- unpack_I (slice idx (idx + 4) data) ;; Ok (p, idx + 4)) ;;
      let rec_type := ascii_decode_replace (slice idx (idx + type_len) data) in
      let idx := idx + type_len in
      let payload := slice idx (idx + payload_len) data in
      Ok (Some (rec_type, tnf, payload)).

(** The body of the [try] block. *)
Definition parse_ndef `{UnicodeData} (data : bytes) : res (option info) :=
  h <- parse_header data ;;
  match h with
  | None => Ok None
  | Some (rec_type, tnf, payload) => interpret rec_type tnf payload
  end.

(** [except (IndexError, struct.error): return None]; any other exception
    leaves the function. *)
Definition get_ndef_payload_info `{UnicodeData} (data : bytes)
    : res (option info) :=
  match parse_ndef data with
  | Raise IndexError => Ok None
  | Raise StructError => Ok None
  | r => r
  end.

End NdefEncoder.

(* ===================================================================== *)
(** * techtap/rfid_reader.py                                              *)
(* ===================================================================== *)

Module RfidReader.

Import NdefEncoder.

Definition CMD_WRITE_RAW : str := lit "WRITE_RAW".
Definition CMD_ERASE : str := lit "ERASE".
Definition CMD_READ : str := lit "READ".
Definition CMD_LOCK : str := lit "LOCK".
Definition CMD_INFO : str := lit "INFO".

Definition RESP_WRITE_OK : str := lit "WRITE_OK".
Definition RESP_ERASE_OK : str := lit "ERASE_OK".
Definition RESP_READ_OK : str := lit "READ_OK".
Definition RESP_LOCK_OK : str := lit "LOCK_OK".
Definition RESP_TAP_CARD : str := lit "TAP_CARD".
Definition RESP_ERROR : str := lit "ERROR".
Definition RESP_VERIFY_OK : str := lit "VERIFY_OK".
Definition RESP_TAG_INFO : str := lit "TAG_INFO".
Definition RESP_NO_TAG : str := lit "NO_TAG".
Definition RESP_WRITE_FAIL : str := lit "WRITE_FAIL".
Definition RESP_DATA : str := lit "DATA".
Definition RESP_DUPLICATE : str := lit "DUPLICATE".
Definition TIMEOUT : str := lit "TIMEOUT".

(** ** The serial line

    One call of [serial.readline()] with its one second timeout, as the
    line answers it, with the milliseconds it took. *)
Inductive read_event : Type :=
| Received (elapsed : Z) (raw : bytes)
| Quiet (elapsed : Z)
| Faulted (elapsed : Z) (msg : str).

(** [serial.write] and [flush] of one line: the device takes it and
    queues its answer, or the call raises SerialException. *)
Inductive write_result : Type :=
| Written (answer : list read_event)
| WriteFails (msg : str).

Section Session.

(** The microcontroller, the tag and the person holding it. *)
Context {Dev : Type}.
Variable firmware : Dev -> bytes -> Dev * write_result.

Record serial_port : Type := {
  is_open : bool;
  device : Dev;
  inbox : list read_event;
  written : list bytes
}.

(** The fields of [RFIDReader] the commands read or change, and the number
    of times the tap prompt callback has been called.  One thread uses the
    reader, so [_lock] is free whenever a command starts. *)
Record reader : Type := {
  max_retries : Z;
  verify_after_write : bool;
  _serial : option serial_port;
  _connected : bool;
  prompts : nat
}.

Definition connected (r : reader) : bool :=
  _connected r &&
  match _serial r with
  | Some p => is_open p
  | None => false
  end.

Definition with_port (r : reader) (p : serial_port) : reader :=
  {| max_retries := max_retries r;
     verify_after_write := verify_after_write r;
     _serial := Some p;
     _connected := _connected r;
     prompts := prompts r |}.

Definition _send (command : str) (r : reader) : res unit * reader :=
  match _serial r with
  | None => (Raise (ConnectionError (lit "Not connected to Arduino.")), r)
  | Some p =>
      if negb (is_open p)
      then (Raise (ConnectionError (lit "Not connected to Arduino.")), r)
      else
        match utf8_encode (command ++ [10]) with
        | Raise e => (Raise e, r)
        | Ok line =>
            let '(d, w) := firmware (device p) line in
            match w with
            | Written answer =>
                (Ok tt,
                 with_port r {| is_open := true; device := d;
                                inbox := inbox p ++ answer;
                                written := written p ++ [line] |})
            | WriteFails msg =>
                (Raise (SerialException msg),
                 with_port r {| is_open := true; device := d;
                                inbox := inbox p;
                                written := written p ++ [line] |})
            end
        end
  end.

(** What [_read_line] returns for one read, and how long the read took. *)
Definition line_of (ev : read_event) : option str :=
  match ev with
  | Received _ [] => None
  | Received _ raw => Some (strip (utf8_decode_replace raw))
  | Quiet _ => None
  | Faulted _ _ => None
  end.

Definition time_of (ev : read_event) : Z :=
  match ev with
  | Received t _ => t
  | Quiet t => t
  | Faulted t _ => t
  end.

Record response : Type := {
  status : str;
  resp_data : str;
  resp_raw : list str
}.

(** [line.split("|", 1)], then the two parts stripped. *)
Definition status_and_data (line : str) : str * str :=
  match cut 124 line with
  | Some (a, b) => (strip a, strip b)
  | None => (strip line, [])
  end.

(** The loop of [_wait_for_response] over the reads of an open port.  A
    line that has nothing more to deliver stays silent: every further read
    times out, until the waiting time is over. *)
Fixpoint wait_loop (expected : list str) (timeout elapsed : Z)
    (lines : list str) (pending : list read_event)
    : response * list read_event :=
  if elapsed <? timeout then
    match pending with
    | [] => ({| status := TIMEOUT; resp_data := []; resp_raw := lines |}, [])
    | ev :: rest =>
        match line_of ev with
        | None => wait_loop expected timeout (elapsed + time_of ev) lines rest
        | Some line =>
            let lines := lines ++ [line] in
            let '(st, data) := status_and_data line in
            if existsb (list_eqb st) expected
            then ({| status := st; resp_data := data; resp_raw := lines |},
                  rest)
            else if list_eqb st RESP_ERROR
            then ({| status := RESP_ERROR; resp_data := data;
                     resp_raw := lines |}, rest)
            else wait_loop expected timeout (elapsed + time_of ev) lines rest
        end
    end
  else ({| status := TIMEOUT; resp_data := []; resp_raw := lines |}, pending).

(** Without a port object [_read_line] returns [None] at once, and the
    loop spins until the time is over. *)
Definition _wait_for_response (expected : list str) (timeout : Z)
    (r : reader) : response * reader :=
  match _serial r with
  | None => ({| status := TIMEOUT; resp_data := []; resp_raw := [] |}, r)
  | Some p =>
      let '(resp, rest) := wait_loop expected timeout 0 [] (inbox p) in
      (resp,
       with_port r {| is_open := is_open p; device := device p;
                      inbox := rest; written := written p |})
  end.

(** [if on_tap_prompt: on_tap_prompt()] *)
Definition tap_prompt (on_tap_prompt : bool) (r : reader) : reader :=
  if on_tap_prompt
  then {| max_retries := max_retries r;
          verify_after_write := verify_after_write r;
          _serial := _serial r;
          _connected := _connected r;
          prompts := S (prompts r) |}
  else r.

(** How a command ends: it returns its result dictionary, an exception
    leaves it, or it waits for ever for the lock it holds itself. *)
Inductive completion : Type :=
| Returns (result : dict)
| Escapes (e : exn)
| Deadlock.

Definition failure (error : str) : dict :=
  [(lit "success", VBool false); (lit "error", VStr error)].

(** The [for attempt in range(1, self.max_retries + 1)] loop of
    [write_ndef].  A SerialException is answered with [self.reconnect()],
    whose [disconnect] takes [self._lock]: the lock is not reentrant and
    [write_ndef] holds it. *)
Fixpoint write_attempts (remaining : nat) (attempt : Z) (command : str)
    (on_tap_prompt : bool) (r : reader) : completion * reader :=
  match remaining with
  | O =>
      (Returns (failure (lit "Failed after " ++ str_of_int (max_retries r)
                         ++ lit " attempts")), r)
  | S remaining' =>
      let next := write_attempts remaining' (attempt + 1) command
                    on_tap_prompt in
      match _send command r with
      | (Raise (SerialException _), r) => (Deadlock, r)
      | (Raise e, r) => (Escapes e, r)
      | (Ok _, r) =>
          let '(resp, r) :=
            _wait_for_response [RESP_TAP_CARD; RESP_ERROR] 5000 r in
          if list_eqb (status resp) RESP_TAP_CARD then
            let r := tap_prompt on_tap_prompt r in
            let '(result, r) :=
              _wait_for_response
                [RESP_WRITE_OK; RESP_WRITE_FAIL; RESP_ERROR;
                 RESP_VERIFY_OK; RESP_DUPLICATE] 30000 r in
            if list_eqb (status result) RESP_WRITE_OK then
              (Returns [(lit "success", VBool true);
                        (lit "uid", VStr (resp_data result));
                        (lit "attempts", VInt attempt);
                        (lit "verified", VBool false)], r)
            else if list_eqb (status result) RESP_VERIFY_OK then
              (Returns [(lit "success", VBool true);
                        (lit "uid", VStr (resp_data result));
                        (lit "attempts", VInt attempt);
                        (lit "verified", VBool true)], r)
            else if list_eqb (status result) RESP_DUPLICATE then
              (Returns [(lit "success", VBool false);
                        (lit "error", VStr (lit "Tag already contains data"));
                        (lit "duplicate", VBool true);
                        (lit "uid", VStr (resp_data result))], r)
            else next r
          else if list_eqb (status resp) RESP_ERROR then
            (Returns (failure (resp_data resp)), r)
          else next r
      end
  end.

Definition write_ndef (ndef_data : bytes) (record_type : str)
    (on_tap_prompt : bool) (r : reader) : completion * reader :=
  if negb (connected r) then (Returns (failure (lit "Not connected")), r)
  else
    let hex_data := bytes_to_hex ndef_data in
    let command := CMD_WRITE_RAW ++ lit "|" ++ hex_data in
    write_attempts (Z.to_nat (max_retries r)) 1 command on_tap_prompt r.

Definition erase_tag (on_tap_prompt : bool) (r : reader)
    : completion * reader :=
  if negb (connected r) then (Returns (failure (lit "Not connected")), r)
  else
    match _send CMD_ERASE r with
    | (Raise (SerialException msg), r) => (Returns (failure msg), r)
    | (Raise e, r) => (Escapes e, r)
    | (Ok _, r) =>
        let '(resp, r) :=
          _wait_for_response [RESP_TAP_CARD; RESP_ERROR] 5000 r in
        if list_eqb (status resp) RESP_TAP_CARD then
          let r := tap_prompt on_tap_prompt r in
          let '(result, r) :=
            _wait_for_response [RESP_ERASE_OK; RESP_ERROR] 30000 r in
          if list_eqb (status result) RESP_ERASE_OK then
            (Returns [(lit "success", VBool true);
                      (lit "uid", VStr (resp_data result))], r)
          else (Returns (failure (resp_data resp)), r)
        else (Returns (failure (resp_data resp)), r)
    end.

Definition read_tag (on_tap_prompt : bool) (r : reader)
    : completion * reader :=
  if negb (connected r) then (Returns (failure (lit "Not connected")), r)
  else
    match _send CMD_READ r with
    | (Raise (SerialException msg), r) => (Returns (failure msg), r)
    | (Raise e, r) => (Escapes e, r)
    | (Ok _, r) =>
        let '(resp, r) :=
          _wait_for_response [RESP_TAP_CARD; RESP_ERROR] 5000 r in
        if list_eqb (status resp) RESP_TAP_CARD then
          let r := tap_prompt on_tap_prompt r in
          let '(result, r) :=
            _wait_for_response
              [RESP_READ_OK; RESP_TAG_INFO; RESP_DATA; RESP_NO_TAG;
               RESP_ERROR] 30000 r in
          if existsb (list_eqb (status result))
               [RESP_READ_OK; RESP_DATA; RESP_TAG_INFO] then
            (Returns [(lit "success", VBool true);
                      (lit "data", VStr (resp_data result));
                      (lit "raw", VList (map VStr (resp_raw result)))], r)
          else if list_eqb (status result) RESP_NO_TAG then
            (Returns (failure (lit "No tag detected")), r)
          else (Returns (failure (resp_data resp)), r)
        else (Returns (failure (resp_data resp)), r)
    end.

Definition lock_tag (on_tap_prompt : bool) (r : reader)
    : completion * reader :=
  if negb (connected r) then (Returns (failure (lit "Not connected")), r)
  else
    match _send CMD_LOCK r with
    | (Raise (SerialException msg), r) => (Returns (failure msg), r)
    | (Raise e, r) => (Escapes e, r)
    | (Ok _, r) =>
        let '(resp, r) :=
          _wait_for_response [RESP_TAP_CARD; RESP_ERROR] 5000 r in
        if list_eqb (status resp) RESP_TAP_CARD then
          let r := tap_prompt on_tap_prompt r in
          let '(result, r) :=
            _wait_for_response [RESP_LOCK_OK; RESP_ERROR] 30000 r in
          if list_eqb (status result) RESP_LOCK_OK then
            (Returns [(lit "success", VBool true);
                      (lit "uid", VStr (resp_data result))], r)
          else (Returns (failure (resp_data resp)), r)
        else (Returns (failure (resp_data resp)), r)
    end.

(** The [key:value] pairs of a TAG_INFO line. *)
Fixpoint tag_info_pairs (pairs : list str) (info : dict) : dict :=
  match pairs with
  | [] => info
  | item :: rest =>
      match cut 58 item with
      | Some (k, v) =>
          tag_info_pairs rest (dict_set info (strip k) (VStr (strip v)))
      | None => tag_info_pairs rest info
      end
  end.

Definition get_tag_info (on_tap_prompt : bool) (r : reader)
    : completion * reader :=
  if negb (connected r) then (Returns (failure (lit "Not connected")), r)
  else
    match _send CMD_INFO r with
    | (Raise (SerialException msg), r) => (Returns (failure msg), r)
    | (Raise e, r) => (Escapes e, r)
    | (Ok _, r) =>
        let '(resp, r) :=
          _wait_for_response [RESP_TAP_CARD; RESP_ERROR] 5000 r in
        if list_eqb (status resp) RESP_TAP_CARD then
          let r := tap_prompt on_tap_prompt r in
          let '(result, r) :=
            _wait_for_response
              [RESP_TAG_INFO; RESP_NO_TAG; RESP_ERROR] 30000 r in
          if list_eqb (status result) RESP_TAG_INFO then
            (Returns [(lit "success", VBool true);
                      (lit "info",
                       VDict (tag_info_pairs
                                (split_on 44 (resp_data result)) []))], r)
          else (Returns (failure (resp_data resp)), r)
        else (Returns (failure (resp_data resp)), r)
    end.

End Session.

End RfidReader.

(* ===================================================================== *)
(** * techtap/phone_nfc.py                                                *)
(* ===================================================================== *)

Module PhoneNfc.

Import NdefEncoder.

(** ** The bridge to the phone

    What happens to one command: sending it on the socket fails; nothing
    comes back within the waiting time; the page answers with a message;
    the page announces itself again, which sets the reply signal but
    leaves no reply; or the socket closes. *)
Inductive reply : Type :=
| SendFails
| NoReply
| Message (msg : dict)
| Announces (nfc_supported : bool)
| Closes.

Section Bridge.

Context `{UnicodeData}.

(** The phone, its browser page, the tag and the person holding it. *)
Context {Phone : Type}.
Variable browser : Phone -> dict -> Phone * reply.

(** [str(x)] of an object that is no string, as an f-string formats it. *)
Variable format_object : value -> str.

(** The fields of [PhoneNFCReader] the commands read or change, the
    commands handed to the socket and the number of times the tap prompt
    callback has been called. *)
Record bridge : Type := {
  max_retries : Z;
  verify_after_write : bool;
  _ws_client : bool;
  _loop : bool;
  _connected : bool;
  _phone_ready : bool;
  _nfc_supported : bool;
  _pending_response : option dict;
  phone : Phone;
  sent : list dict;
  prompts : nat
}.

Definition connected (b : bridge) : bool := _connected b && _phone_ready b.

(** [_send_command]: the reply, or [None]. *)
Definition _send_command (cmd : dict) (b : bridge) : option dict * bridge :=
  if negb (_ws_client b && _loop b) then (None, b)
  else
    let '(ph, answer) := browser (phone b) cmd in
    let after ws ready nfc pending :=
      {| max_retries := max_retries b;
         verify_after_write := verify_after_write b;
         _ws_client := ws;
         _loop := _loop b;
         _connected := _connected b;
         _phone_ready := ready;
         _nfc_supported := nfc;
         _pending_response := pending;
         phone := ph;
         sent := sent b ++ [cmd];
         prompts := prompts b |} in
    match answer with
    | SendFails =>
        (None, after (_ws_client b) (_phone_ready b) (_nfc_supported b) None)
    | NoReply =>
        (None, after (_ws_client b) (_phone_ready b) (_nfc_supported b) None)
    | Message msg =>
        (Some msg,
         after (_ws_client b) (_phone_ready b) (_nfc_supported b) (Some msg))
    | Announces nfc => (None, after (_ws_client b) true nfc None)
    | Closes => (None, after false false (_nfc_supported b) None)
    end.

Definition raw_command (ndef_data : bytes) : dict :=
  [(lit "cmd", VStr (lit "write")); (lit "type", VStr (lit "raw"));
   (lit "hex_data", VStr (bytes_to_hex ndef_data))].

Definition _ndef_to_web_nfc (ndef_data : bytes) (record_type : str)
    : res dict :=
  info <- get_ndef_payload_info ndef_data ;;
  match info with
  | None => Ok (raw_command ndef_data)
  | Some info =>
      let rec_type_raw := info_type info in
      if list_eqb (content_type info) (lit "URL") then
        Ok [(lit "cmd", VStr (lit "write")); (lit "type", VStr (lit "url"));
            (lit "url", VStr (content info))]
      else if list_eqb (content_type info) (lit "Text") then
        Ok [(lit "cmd", VStr (lit "write")); (lit "type", VStr (lit "text"));
            (lit "text", VStr (content info));
            (lit "lang",
             VStr (match language info with
                   | Some l => l
                   | None => lit "en"
                   end))]
      else if list_eqb (content_type info) (lit "vCard") then
        Ok [(lit "cmd", VStr (lit "write")); (lit "type", VStr (lit "mime"));
            (lit "mime_type", VStr (lit "text/vcard"));
            (lit "text_data", VStr (content info))]
      else if list_eqb (content_type info) (lit "WiFi") then
        Ok [(lit "cmd", VStr (lit "write")); (lit "type", VStr (lit "mime"));
            (lit "mime_type", VStr (lit "application/vnd.wfa.wsc"));
            (lit "hex_data", VStr (bytes_to_hex (raw_payload info)))]
      else if (info_tnf info =? 2)
              && match rec_type_raw with [] => false | _ => true end then
        match utf8_decode (raw_payload info) with
        | Ok text_data =>
            Ok [(lit "cmd", VStr (lit "write"));
                (lit "type", VStr (lit "mime"));
                (lit "mime_type", VStr rec_type_raw);
                (lit "text_data", VStr text_data)]
        | Raise UnicodeDecodeError =>
            Ok [(lit "cmd", VStr (lit "write"));
                (lit "type", VStr (lit "mime"));
                (lit "mime_type", VStr rec_type_raw);
                (lit "hex_data", VStr (bytes_to_hex (raw_payload info)))]
        | Raise e => Raise e
        end
      else Ok (raw_command ndef_data)
  end.

Definition tap_prompt (on_tap_prompt : bool) (b : bridge) : bridge :=
  if on_tap_prompt
  then {| max_retries := max_retries b;
          verify_after_write := verify_after_write b;
          _ws_client := _ws_client b;
          _loop := _loop b;
          _connected := _connected b;
          _phone_ready := _phone_ready b;
          _nfc_supported := _nfc_supported b;
          _pending_response := _pending_response b;
          phone := phone b;
          sent := sent b;
          prompts := S (prompts b) |}
  else b.

Inductive completion : Type :=
| Returns (result : dict)
| Escapes (e : exn).

Definition failure (error : value) : dict :=
  [(lit "success", VBool false); (lit "error", error)].

(** The [for attempt in range(1, self.max_retries + 1)] loop of
    [write_ndef]. *)
Fixpoint write_attempts (remaining : nat) (attempt : Z) (cmd : dict)
    (b : bridge) : completion * bridge :=
  match remaining with
  | O =>
      (Returns (failure (VStr (lit "Failed after "
                               ++ str_of_int (max_retries b)
                               ++ lit " attempts"))), b)
  | S remaining' =>
      let next := write_attempts remaining' (attempt + 1) cmd in
      let '(response, b) := _send_command cmd b in
      match response with
      | None => next b
      | Some response =>
          let event := get response (lit "event") (VStr []) in
          if is_str event (lit "write_ok") then
            (Returns [(lit "success", VBool true);
                      (lit "uid", get response (lit "uid")
                                    (VStr (lit "Unknown")));
                      (lit "attempts", VInt attempt);
                      (lit "verified", get response (lit "verified")
                                         (VBool false))], b)
          else if is_str event (lit "error") then
            let error := get response (lit "error")
                           (VStr (lit "Unknown error")) in
            if attempt <? max_retries b then next b
            else (Returns (failure error), b)
          else next b
      end
  end.

Definition write_ndef (ndef_data : bytes) (record_type : str)
    (on_tap_prompt : bool) (b : bridge) : completion * bridge :=
  if negb (connected b)
  then (Returns (failure (VStr (lit "Phone not connected"))), b)
  else if negb (_nfc_supported b)
  then (Returns (failure (VStr (lit "Web NFC not supported on phone"))), b)
  else
    match _ndef_to_web_nfc ndef_data record_type with
    | Raise e => (Escapes e, b)
    | Ok cmd =>
        let b := tap_prompt on_tap_prompt b in
        write_attempts (Z.to_nat (max_retries b)) 1 cmd b
    end.

(** The common end of erase, read, lock and info when the expected event
    did not come. *)
Definition no_result (response : option dict) (default : str) : dict :=
  match response with
  | Some ((_ :: _) as response) =>
      failure (get response (lit "error") (VStr default))
  | _ => failure (VStr (lit "No response from phone"))
  end.

(** [response and response.get("event") == name] *)
Definition has_event (response : option dict) (name : str) : bool :=
  match response with
  | Some ((_ :: _) as response) =>
      is_str (get response (lit "event") VNone) name
  | _ => false
  end.

Definition reply_dict (response : option dict) : dict :=
  match response with
  | Some d => d
  | None => []
  end.

Definition erase_tag (on_tap_prompt : bool) (b : bridge)
    : completion * bridge :=
  if negb (connected b)
  then (Returns (failure (VStr (lit "Phone not connected"))), b)
  else
    let b := tap_prompt on_tap_prompt b in
    let '(response, b) := _send_command [(lit "cmd", VStr (lit "erase"))] b in
    if has_event response (lit "erase_ok") then
      (Returns [(lit "success", VBool true);
                (lit "uid", get (reply_dict response) (lit "uid") (VStr []))],
       b)
    else (Returns (no_result response (lit "Erase failed")), b).

(** One display line of [read_tag] for one record of the reply. *)
Definition raw_line (rec : value) : res str :=
  match rec with
  | VDict rec =>
      match get rec (lit "type") (VStr (lit "unknown")) with
      | VStr rtype =>
          let shown :=
            match get rec (lit "content") (VStr []) with
            | VStr s => s
            | v => format_object v
            end in
          Ok (upper rtype ++ lit ": " ++ shown)
      | _ => Raise AttributeError
      end
  | _ => Raise AttributeError
  end.

Fixpoint raw_lines (records : list value) : res (list value) :=
  match records with
  | [] => Ok []
  | rec :: rest =>
      l <- raw_line rec ;;
      ls <- raw_lines rest ;;
      Ok (VStr l :: ls)
  end.

(** [for rec in records] with the lines it appends: a list gives its
    elements; a JSON object gives its keys and a string its characters,
    which have no [get]; a number, a truth value or [None] cannot be
    iterated. *)
Definition lines_of (records : value) : res (list value) :=
  match records with
  | VList recs => raw_lines recs
  | VDict [] | VStr [] => Ok []
  | VDict (_ :: _) | VStr (_ :: _) => Raise AttributeError
  | VNone | VBool _ | VInt _ => Raise TypeError
  end.

Definition read_tag (on_tap_prompt : bool) (b : bridge)
    : completion * bridge :=
  if negb (connected b)
  then (Returns (failure (VStr (lit "Phone not connected"))), b)
  else
    let b := tap_prompt on_tap_prompt b in
    let '(response, b) := _send_command [(lit "cmd", VStr (lit "read"))] b in
    if has_event response (lit "read_ok") then
      let records := get (reply_dict response) (lit "records") (VList []) in
      match lines_of records with
      | Ok lines =>
          (Returns [(lit "success", VBool true);
                    (lit "data", VStr []);
                    (lit "records", records);
                    (lit "raw", VList lines)], b)
      | Raise e => (Escapes e, b)
      end
    else (Returns (no_result response (lit "Read failed")), b).

Definition lock_tag (on_tap_prompt : bool) (b : bridge)
    : completion * bridge :=
  if negb (connected b)
  then (Returns (failure (VStr (lit "Phone not connected"))), b)
  else
    let b := tap_prompt on_tap_prompt b in
    let '(response, b) := _send_command [(lit "cmd", VStr (lit "lock"))] b in
    if has_event response (lit "lock_ok") then
      (Returns [(lit "success", VBool true);
                (lit "uid", get (reply_dict response) (lit "uid") (VStr []))],
       b)
    else (Returns (no_result response (lit "Lock failed")), b).

Definition get_tag_info (on_tap_prompt : bool) (b : bridge)
    : completion * bridge :=
  if negb (connected b)
  then (Returns (failure (VStr (lit "Phone not connected"))), b)
  else
    let b := tap_prompt on_tap_prompt b in
    let '(response, b) := _send_command [(lit "cmd", VStr (lit "info"))] b in
    if has_event response (lit "tag_info") then
      (Returns [(lit "success", VBool true);
                (lit "info", get (reply_dict response) (lit "info")
                               (VDict []))], b)
    else (Returns (no_result response (lit "Info failed")), b).

End Bridge.

End PhoneNfc.

(* ===================================================================== *)
(** * The seven public encoders as one function                           *)
(* ===================================================================== *)

Module Codec.

Import NdefEncoder.

Inductive content_kind : Type :=
| Url (url : str)
| Text (text lang : str)
| VCard (name phone email org title url address note : str)
| Phone (phone : str)
| Email (email subject body : str)
| Social (platform username : str)
| Wifi (ssid password auth_type : str) (hidden : bool).

Definition encode `{UnicodeData} (x : content_kind) : res bytes :=
  match x with
  | Url url => encode_url url
  | Text text lang => encode_text text lang
  | VCard name phone email org title url address note =>
      encode_vcard name phone email org title url address note
  | Phone phone => encode_phone phone
  | Email email subject body => encode_email email subject body
  | Social platform username => encode_social platform username
  | Wifi ssid password auth_type hidden =>
      encode_wifi ssid password auth_type hidden
  end.

(** A byte of a [bytes] object. *)
Definition is_byte (b : Z) : Prop := 0 <= b < 256.

(** The container of the specification: type 0x03, the length field, the
    message, the terminator 0xFE; the length field is one byte below 255
    and 0xFF with two big-endian bytes from there on. *)
Definition tlv_container (out message : bytes) : Prop :=
  exists field,
    out = [0x03] ++ field ++ message ++ [0xFE] /\
    ((len message < 255 /\ field = [len message]) \/
     (255 <= len message /\
      exists hi lo, field = [0xFF; hi; lo] /\ is_byte hi /\ is_byte lo /\
                    hi * 256 + lo = len message)).

(** The bytes of a single-record message as the specification lays them
    out: flags with MB, ME and the TNF, SR and a one-byte length up to 255
    bytes of payload, four big-endian length bytes beyond. *)
Definition record_bytes (tnf : Z) (rec_type payload : bytes) : bytes :=
  if len payload <=? 255
  then [0xD0 + tnf; len rec_type; len payload] ++ rec_type ++ payload
  else [0xC0 + tnf; len rec_type;
        len payload / 16777216; (len payload / 65536) mod 256;
        (len payload / 256) mod 256; len payload mod 256]
       ++ rec_type ++ payload.

Definition tlv_bytes (message : bytes) : bytes :=
  if len message <? 255
  then [0x03; len message] ++ message ++ [0xFE]
  else [0x03; 0xFF; len message / 256; len message mod 256]
       ++ message ++ [0xFE].

(** A record the encoder built: [_make_ndef_record] with both message
    flags at their defaults. *)
Definition built_record (record : bytes) : Prop :=
  exists tnf rec_type payload,
    _make_ndef_record tnf rec_type payload true true = Ok record.


(** ** What the decoder finds in its input

    The record begins behind the type byte and the length field of the
    container: at offset 4 when the length byte is 0xFF, at offset 2
    otherwise.  Its header is the flag byte, the type length and one
    (short record) or four bytes of payload length. *)
Definition byte_at (data : bytes) (i : Z) : Z := nth (Z.to_nat i) data 0.

Definition record_at (data : bytes) : Z :=
  if byte_at data 1 =? 0xFF then 4 else 2.

Definition flag_byte (data : bytes) : Z := byte_at data (record_at data).

Definition short_record (data : bytes) : bool :=
  negb (Z.land (flag_byte data) 0x10 =? 0).

Definition header_end (data : bytes) : Z :=
  record_at data + (if short_record data then 3 else 6).

(** At least five bytes, the container type 0x03, and no byte of the
    record header beyond the end of the input. *)
Definition header_present (data : bytes) : Prop :=
  5 <= len data /\ byte_at data 0 = 0x03 /\ header_end data <= len data.

Definition declared_type_len (data : bytes) : Z :=
  byte_at data (record_at data + 1).

Definition declared_payload_len (data : bytes) : Z :=
  let i := record_at data + 2 in
  if short_record data then byte_at data i
  else byte_at data i * 16777216 + byte_at data (i + 1) * 65536
       + byte_at data (i + 2) * 256 + byte_at data (i + 3).

(** The bytes of the type and of the payload that are there: as many as
    the header declares, or fewer where the input ends before. *)
Definition type_present (data : bytes) : bytes :=
  slice (header_end data) (header_end data + declared_type_len data) data.

Definition payload_present (data : bytes) : bytes :=
  slice (header_end data + declared_type_len data)
    (header_end data + declared_type_len data + declared_payload_len data)
    data.

(** A well-known record (TNF 1) whose type is the one letter [ty]. *)
Definition well_known (data : bytes) (ty : Z) : Prop :=
  type_present data = [ty] /\ Z.land (flag_byte data) 0x07 = 1.

(** The language field of a text payload: as many bytes behind the status
    byte as its low six bits say. *)
Definition language_field (payload : bytes) : bytes :=
  slice 1 (1 + Z.land (byte_at payload 0) 0x3F) payload.

(** A text record whose language field holds a byte that is not ASCII. *)
Definition non_ascii_language (data : bytes) : Prop :=
  well_known data 0x54 /\
  exists b, In b (language_field (payload_present data)) /\ 128 <= b.


(** ** What decoding gives back

    The recognised prefix of a URL is the longest prefix of the table that
    the URL, in lower case, starts with; it is empty when the URL starts
    with none of them. *)
Definition recognised_prefix `{UnicodeData} (url : str) : str :=
  fold_left
    (fun best prefix =>
       if startswith (lower url) prefix && (len best <? len prefix)
       then prefix else best)
    (map fst URI_PREFIXES) [].

(** The URI field of a URL: the stripped URL behind its recognised
    prefix. *)
Definition uri_field `{UnicodeData} (url : str) : str :=
  slice_from (len (recognised_prefix (strip url))) (strip url).

(** The URL that comes back is the stripped URL with the recognised prefix
    as the table spells it. *)
Definition url_recovered `{UnicodeData} (url recovered : str) : Prop :=
  recovered = recognised_prefix (strip url) ++ uri_field url.

(** What follows the address in a mailto URI: the subject and the body
    that are not empty. *)
Definition mailto_query (subject body : str) : str :=
  match subject, body with
  | [], [] => []
  | _ :: _, [] => lit "?subject=" ++ subject
  | [], _ :: _ => lit "?body=" ++ body
  | _ :: _, _ :: _ => lit "?subject=" ++ subject ++ lit "&body=" ++ body
  end.

(** A table whose prefixes get no longer from entry to entry. *)
Fixpoint descending (table : list (str * Z)) : bool :=
  match table with
  | [] => true
  | (p, _) :: rest =>
      forallb (fun e => len (fst e) <=? len p) rest && descending rest
  end.

(** The prefix of the URL is written as the table spells it. *)
Definition prefix_as_in_table `{UnicodeData} (url : str) : Prop :=
  forall prefix,
    In prefix (map fst URI_PREFIXES) ->
    startswith (lower (strip url)) prefix = true ->
    startswith (strip url) prefix = true.

(** The vCard block of a contact that has a name: the first word of the
    name is the given name and what follows the white space behind it is
    the family name; a name of one word is the family name. *)
Definition first_word (s : str) : str :=
  takewhile (fun c => negb (isspace c)) s.

Definition after_first_word (s : str) : str :=
  dropwhile isspace (dropwhile (fun c => negb (isspace c)) s).

Definition name_line (name : str) : str :=
  match after_first_word name with
  | [] => lit "N:" ++ first_word name ++ lit ";;;;"
  | family => lit "N:" ++ family ++ lit ";" ++ first_word name ++ lit ";;;"
  end.

Definition vcard_block (name phone email org title url address note : str)
    : str :=
  join [13; 10]
    ([lit "BEGIN:VCARD"; lit "VERSION:3.0"; lit "FN:" ++ strip name;
      name_line (strip name)]
     ++ optional_line (lit "TEL;TYPE=CELL:") phone []
     ++ optional_line (lit "EMAIL:") email []
     ++ optional_line (lit "ORG:") org []
     ++ optional_line (lit "TITLE:") title []
     ++ optional_line (lit "URL:") url []
     ++ optional_line (lit "ADR;TYPE=HOME:;;") address (lit ";;;;")
     ++ optional_line (lit "NOTE:") note []
     ++ [lit "END:VCARD"]).

(** The status byte of a text record has six bits for the length of the
    language code. *)
Definition language_fits (x : content_kind) : Prop :=
  match x with
  | Text _ lang => len lang < 64
  | _ => True
  end.

Definition recovers `{UnicodeData} (x : content_kind) (i : info) : Prop :=
  match x with
  | Url url =>
      content_type i = lit "URL" /\
      url_recovered url (content i) /\
      (prefix_as_in_table url -> content i = strip url)
  | Text text lang =>
      content_type i = lit "Text" /\
      content i = strip text /\ language i = Some lang
  | VCard name phone email org title url address note =>
      content_type i = lit "vCard" /\
      content i = vcard_block name phone email org title url address note
  | Phone phone =>
      content_type i = lit "URL" /\
      content i = lit "tel:" ++ remove_char 45 (remove_char 32 (strip phone))
  | Email email subject body =>
      content_type i = lit "URL" /\
      content i = lit "mailto:" ++ strip email ++ mailto_query subject body
  | Social platform username =>
      exists template,
        lookup SOCIAL_PLATFORMS (lower (strip platform)) = Some template /\
        content_type i = lit "URL" /\
        url_recovered
          (format1 template (lstrip_chars (lit "@") (strip username)))
          (content i)
  | Wifi ssid password auth_type hidden =>
      content_type i = lit "WiFi" /\
      content i = lit "[WiFi Configuration Data]" /\
      wifi_payload ssid password auth_type = Ok (raw_payload i)
  end.

(** One entry of the prefix table survives compression: the prefix alone
    is encoded as its code and nothing else, and decoded as itself. *)
Definition prefix_reversible `{UnicodeData} (entry : str * Z) : bool :=
  let '(prefix, code) := entry in
  match encode_url prefix with
  | Ok out =>
      list_eqb out (tlv_bytes (record_bytes 0x01 (lit "U") [code])) &&
      match get_ndef_payload_info out with
      | Ok (Some i) => list_eqb (content i) prefix
      | _ => false
      end
  | Raise _ => false
  end.


(** ** The WiFi Simple Configuration attributes of the specification

    An attribute is a two-byte ID, a two-byte length and the value, all
    big-endian. *)
Definition be16 (v : Z) : bytes := [v / 256; v mod 256].

Definition wsc_attribute (id : Z) (value : bytes) : bytes :=
  be16 id ++ be16 (len value) ++ value.

(** OPEN is no authentication and no encryption, WPA is WPA with AES, and
    every other name is WPA2 with AES. *)
Definition wsc_auth `{UnicodeData} (auth_type : str) : Z :=
  if list_eqb (upper auth_type) (lit "OPEN") then 0x0001
  else if list_eqb (upper auth_type) (lit "WPA") then 0x0002
  else 0x0020.

Definition wsc_encryption `{UnicodeData} (auth_type : str) : Z :=
  if list_eqb (upper auth_type) (lit "OPEN") then 0x0001 else 0x0004.

(** Network index, SSID, authentication type, encryption type, the
    network key when there is a password, and the broadcast MAC address. *)
Definition wsc_credential (ssid_bytes : bytes) (key : option bytes)
    (auth enc : Z) : bytes :=
  wsc_attribute 0x1026 [0x01]
  ++ wsc_attribute 0x1045 ssid_bytes
  ++ wsc_attribute 0x1003 (be16 auth)
  ++ wsc_attribute 0x100F (be16 enc)
  ++ match key with
     | Some pw_bytes => wsc_attribute 0x1027 pw_bytes
     | None => []
     end
  ++ wsc_attribute 0x1020 (repeat 0xFF 6).

Definition network_key (password : str) (pw_bytes : bytes) : option bytes :=
  match password with
  | [] => None
  | _ => Some pw_bytes
  end.


(** ** Inputs the encoders accept

    A code point that UTF-8 can encode: none of the surrogates. *)
Definition scalar (c : Z) : bool :=
  ((0 <=? c) && (c <? 0xD800)) || ((0xDFFF <? c) && (c <? 0x110000)).

(** The number of bytes that UTF-8 takes for a code point and for a
    string. *)
Definition utf8_width (c : Z) : Z :=
  if c <? 0x80 then 1
  else if c <? 0x800 then 2
  else if c <? 0x10000 then 3
  else 4.

Definition utf8_size (s : str) : Z :=
  fold_right (fun c n => utf8_width c + n) 0 s.

(** Text that UTF-8 can encode: no lone surrogate. *)
Definition encodable (s : str) : Prop := forallb scalar s = true.

(** A URI field whose record fits the two length bytes of the container:
    eight bytes of framing and the field are at most 65535 bytes. *)
Definition uri_fits (field : str) : Prop :=
  encodable field /\ utf8_size field <= 65527.

(** An input with a name: a contact whose name is not blank. *)
Definition named (x : content_kind) : Prop :=
  match x with
  | VCard name _ _ _ _ _ _ _ => strip name <> []
  | _ => True
  end.

(** Inputs the encoders accept: text that UTF-8 can encode, an ASCII
    language code, a known platform, and a size with which the record
    fits the two length bytes of the container (65535 bytes with six bytes
    of record header and the record type). *)
Definition accepted `{UnicodeData} (x : content_kind) : Prop :=
  match x with
  | Url url => uri_fits (uri_field url)
  | Text text lang =>
      forallb is_ascii lang = true /\ encodable (strip text) /\
      len lang + utf8_size (strip text) <= 65527
  | VCard name phone email org title url address note =>
      encodable (vcard_block name phone email org title url address note) /\
      utf8_size (vcard_block name phone email org title url address note)
      <= 65519
  | Phone phone => uri_fits (remove_char 45 (remove_char 32 (strip phone)))
  | Email email subject body =>
      uri_fits (strip email ++ mailto_query subject body)
  | Social platform username =>
      exists template,
        lookup SOCIAL_PLATFORMS (lower (strip platform)) = Some template /\
        uri_fits
          (uri_field
             (format1 template (lstrip_chars (lit "@") (strip username))))
  | Wifi ssid password auth_type hidden =>
      encodable ssid /\ encodable password /\
      utf8_size ssid
      + match password with [] => 0 | _ => 4 + utf8_size password end
      <= 65471
  end.


End Codec.

(* ===================================================================== *)
(** * cli.py: the write handler                                           *)
(* ===================================================================== *)

Module Cli.

Import RfidReader.

(** The two questions of [do_write] to the operator. *)
Inductive question : Type :=
| ProceedWithWrite
| OverwriteExistingData.

(** How [do_write] ends: it returns, it waits for an answer that does not
    come, an exception leaves it, or the reader hangs. *)
Inductive ending : Type :=
| Finished
| AwaitingAnswer
| Failed (e : exn)
| Hung.

Section Operator.

Context {Dev : Type}.
Variable firmware : Dev -> bytes -> Dev * write_result.

(** [do_write] with the answers the operator gives to [Confirm.ask], in
    order; the result lists the questions asked with their answers.  The
    preview, the messages and the history log of the handler touch neither
    the reader nor the tag and are left out. *)
Fixpoint do_write (answers : list bool) (ndef_data : bytes)
    (record_type : str) (r : reader)
    : ending * list (question * bool) * reader :=
  match answers with
  | [] => (AwaitingAnswer, [], r)
  | proceed :: answers =>
      if negb proceed then (Finished, [(ProceedWithWrite, false)], r)
      else
        match write_ndef firmware ndef_data record_type true r with
        | (Escapes e, r) => (Failed e, [(ProceedWithWrite, true)], r)
        | (Deadlock, r) => (Hung, [(ProceedWithWrite, true)], r)
        | (Returns result, r) =>
            if truthy (get result (lit "success") VNone)
            then (Finished, [(ProceedWithWrite, true)], r)
            else if truthy (get result (lit "duplicate") VNone)
            then
              match answers with
              | [] => (AwaitingAnswer, [(ProceedWithWrite, true)], r)
              | overwrite :: answers =>
                  if overwrite then
                    match erase_tag firmware true r with
                    | (Escapes e, r) =>
                        (Failed e, [(ProceedWithWrite, true);
                                    (OverwriteExistingData, true)], r)
                    | (Deadlock, r) =>
                        (Hung, [(ProceedWithWrite, true);
                                (OverwriteExistingData, true)], r)
                    | (Returns erase_result, r) =>
                        if truthy (get erase_result (lit "success") VNone)
                        then
                          let '(e, asked, r) :=
                            do_write answers ndef_data record_type r in
                          (e, (ProceedWithWrite, true)
                              :: (OverwriteExistingData, true) :: asked, r)
                        else
                          (Finished, [(ProceedWithWrite, true);
                                      (OverwriteExistingData, true)], r)
                    end
                  else
                    (Finished, [(ProceedWithWrite, true);
                                (OverwriteExistingData, false)], r)
              end
            else (Finished, [(ProceedWithWrite, true)], r)
        end
  end.

End Operator.

End Cli.

(* ===================================================================== *)
(** * The protocol as the specification describes it                      *)
(* ===================================================================== *)

Module Protocol.

Import NdefEncoder RfidReader.

(** The line of a command as it is written to the port. *)
Definition command_line (command : str) : bytes := command ++ [10].

Definition write_command (ndef_data : bytes) : str :=
  CMD_WRITE_RAW ++ lit "|" ++ bytes_to_hex ndef_data.

(** A [bytes] object holds bytes. *)
Definition is_bytes (data : bytes) : Prop :=
  Forall (fun b => 0 <= b < 256) data.

(** A read delivers a line with the given status. *)
Definition says (st : str) (ev : read_event) : Prop :=
  exists line, line_of ev = Some line /\ fst (status_and_data line) = st.

(** A read delivers a line with the given status and data. *)
Definition says_with (st data : str) (ev : read_event) : Prop :=
  exists line, line_of ev = Some line /\ status_and_data line = (st, data).

(** The answers to WRITE_RAW after which [write_ndef] tries again: nothing
    (the wait for TAP_CARD times out), TAP_CARD alone (the wait for the
    result times out), TAP_CARD and WRITE_FAIL. *)
Definition silence (answer : list read_event) : Prop := answer = [].

Definition tap_only (answer : list read_event) : Prop :=
  exists e1, answer = [e1] /\ says RESP_TAP_CARD e1.

Definition tap_then_fail (answer : list read_event) : Prop :=
  exists e1 e2,
    answer = [e1; e2] /\ says RESP_TAP_CARD e1 /\ says RESP_WRITE_FAIL e2.

Definition retried (answer : list read_event) : Prop :=
  silence answer \/ tap_only answer \/ tap_then_fail answer.

Section Line.

Context {Dev : Type}.

(** An open port with nothing left to read. *)
Definition idle (r : @reader Dev) (p : @serial_port Dev) : Prop :=
  _serial r = Some p /\ is_open p = true /\ inbox p = [].

(** The device after it has taken the same line [k] times, and what it
    answers to the line then. *)
Fixpoint device_after (firmware : Dev -> bytes -> Dev * write_result)
    (line : bytes) (k : nat) (d : Dev) : Dev :=
  match k with
  | O => d
  | S k' => device_after firmware line k' (fst (firmware d line))
  end.

Definition answer_after (firmware : Dev -> bytes -> Dev * write_result)
    (line : bytes) (k : nat) (d : Dev) : write_result :=
  snd (firmware (device_after firmware line k d) line).

(** Everything written to the port so far. *)
Definition written_of (r : @reader Dev) : list bytes :=
  match _serial r with
  | Some p => written p
  | None => []
  end.

(** The result of the session when all attempts are used up. *)
Definition attempts_exhausted (r : @reader Dev) : dict :=
  failure (lit "Failed after " ++ str_of_int (max_retries r)
           ++ lit " attempts").

End Line.

(** The number of confirmed overwrites among the questions asked. *)
Definition confirmed_overwrites (asked : list (Cli.question * bool)) : nat :=
  List.length
    (filter (fun qa => match qa with
                       | (Cli.OverwriteExistingData, true) => true
                       | _ => false
                       end) asked).

(** The number of ERASE lines among the lines written. *)
Definition erase_lines (lines : list bytes) : nat :=
  List.length (filter (list_eqb (command_line CMD_ERASE)) lines).

(** ** Example sessions

    A device that always answers TAP_CARD and WRITE_FAIL, one that never
    answers, and a serial session with three attempts. *)
Definition failing_device (d : unit) (line : bytes) : unit * write_result :=
  (tt, Written [Received 120 (lit "TAP_CARD" ++ [10]);
                Received 900 (lit "WRITE_FAIL|timeout" ++ [10])]).

Definition silent_device (d : unit) (line : bytes) : unit * write_result :=
  (tt, Written []).

Definition duplicate_device (d : unit) (line : bytes)
    : unit * write_result :=
  (tt, Written [Received 120 (lit "TAP_CARD" ++ [10]);
                Received 900 (lit "DUPLICATE|04A1B2C3" ++ [10])]).

Definition fresh_port : @serial_port unit :=
  {| is_open := true; device := tt; inbox := []; written := [] |}.

Definition fresh_reader : @reader unit :=
  {| max_retries := 3; verify_after_write := true;
     _serial := Some fresh_port; _connected := true; prompts := 0 |}.

Definition closed_reader : @reader unit :=
  {| max_retries := 3; verify_after_write := true;
     _serial := None; _connected := false; prompts := 0 |}.

(** A device on which the first write fails and the second finds the tag
    written already; its state is whether a line has been taken. *)
Definition second_try_device (d : bool) (line : bytes)
    : bool * write_result :=
  if d
  then (true, Written [Received 120 (lit "TAP_CARD" ++ [10]);
                       Received 900 (lit "DUPLICATE|04A1B2C3" ++ [10])])
  else (true, Written [Received 120 (lit "TAP_CARD" ++ [10]);
                       Received 900 (lit "WRITE_FAIL|timeout" ++ [10])]).

Definition second_try_port : @serial_port bool :=
  {| is_open := true; device := false; inbox := []; written := [] |}.

Definition second_try_reader : @reader bool :=
  {| max_retries := 3; verify_after_write := true;
     _serial := Some second_try_port; _connected := true; prompts := 0 |}.

(** ** The bridge *)

Section BridgeSessions.

Context {Phone : Type}.

(** A bridge session on which a command can be sent. *)
Definition linked (b : @PhoneNfc.bridge Phone) : Prop :=
  PhoneNfc._connected b = true /\ PhoneNfc._phone_ready b = true /\
  PhoneNfc._ws_client b = true /\ PhoneNfc._loop b = true.

End BridgeSessions.

(** A phone that never answers, and a bridge session with three attempts
    before and after the phone has linked. *)
Definition mute_phone (ph : unit) (cmd : dict) : unit * PhoneNfc.reply :=
  (tt, PhoneNfc.NoReply).

Definition linked_bridge : @PhoneNfc.bridge unit :=
  {| PhoneNfc.max_retries := 3; PhoneNfc.verify_after_write := true;
     PhoneNfc._ws_client := true; PhoneNfc._loop := true;
     PhoneNfc._connected := true; PhoneNfc._phone_ready := true;
     PhoneNfc._nfc_supported := true; PhoneNfc._pending_response := None;
     PhoneNfc.phone := tt; PhoneNfc.sent := []; PhoneNfc.prompts := 0 |}.



(** The shape of the templates of the platform table: text without a
    brace, then the replacement field. *)
Definition template_shape (entry : str * str) : bool :=
  let t := snd entry in
  let pre := firstn (length t - 2) t in
  list_eqb t (pre ++ [123; 125])
  && forallb (fun c => negb (c =? 123)) pre
  && forallb Codec.scalar pre
  && (len pre <=? 40).

End Protocol.


(* ===================================================================== *)
(** * techtap/ndef_encoder.py: hexadecimal text                           *)
(* ===================================================================== *)

Module HexBytes.

Import NdefEncoder.

(** The white space [bytes.fromhex] skips between two bytes: the ASCII
    characters of [Py_ISSPACE]. *)
Definition ascii_space (c : Z) : bool :=
  ((9 <=? c) && (c <=? 13)) || (c =? 32).

(** The value of a hexadecimal digit, in either case. *)
Definition hex_value (c : Z) : option Z :=
  if (48 <=? c) && (c <=? 57) then Some (c - 48)
  else if (97 <=? c) && (c <=? 102) then Some (c - 87)
  else if (65 <=? c) && (c <=? 70) then Some (c - 55)
  else None.

(** The ValueError of [bytes.fromhex], with the position it names. *)
Definition fromhex_error (position : Z) : exn :=
  ValueError (lit "non-hexadecimal number found in fromhex() arg at position "
              ++ str_of_int position).

Fixpoint first_non_ascii (s : str) (position : Z) : Z :=
  match s with
  | [] => position
  | c :: s' =>
      if is_ascii c then first_non_ascii s' (position + 1) else position
  end.

(** The loop of [bytes.fromhex] over an ASCII string: white space is
    skipped in front of a byte, never between its two digits; a digit
    that is missing at the end is reported like a wrong one. *)
Fixpoint fromhex_pairs (s : str) (position : Z) : res bytes :=
  match s with
  | [] => Ok []
  | c :: s1 =>
      if ascii_space c then fromhex_pairs s1 (position + 1)
      else
        match hex_value c with
        | None => Raise (fromhex_error position)
        | Some top =>
            match s1 with
            | [] => Raise (fromhex_error (position + 1))
            | d :: s2 =>
                match hex_value d with
                | None => Raise (fromhex_error (position + 1))
                | Some bot =>
                    rest <- fromhex_pairs s2 (position + 2) ;;
                    Ok ((top * 16 + bot) :: rest)
                end
            end
        end
  end.

(** [bytes.fromhex(s)] *)
Definition fromhex (s : str) : res bytes :=
  if forallb is_ascii s then fromhex_pairs s 0
  else Raise (fromhex_error (first_non_ascii s 0)).

Definition hex_to_bytes (hex_str : str) : res bytes := fromhex hex_str.

End HexBytes.

(* ===================================================================== *)
(** * utils.py                                                            *)
(* ===================================================================== *)

Module Utils.

Import NdefEncoder HexBytes.

(** ** Regular expressions

    The patterns of the module, as syntax trees.  [re.match] on a pattern
    between [^] and [$] finds a match when some way through the pattern
    takes the whole string, or the whole string but for a last line feed:
    that is membership in the language of the pattern, decided here with
    derivatives. *)
Inductive regex : Type :=
| Never
| Empty
| Class (p : Z -> bool)
| Seq (a b : regex)
| Or (a b : regex)
| Many (a : regex).

Fixpoint nullable (r : regex) : bool :=
  match r with
  | Never => false
  | Empty => true
  | Class _ => false
  | Seq a b => nullable a && nullable b
  | Or a b => nullable a || nullable b
  | Many _ => true
  end.

Fixpoint derive (c : Z) (r : regex) : regex :=
  match r with
  | Never => Never
  | Empty => Never
  | Class p => if p c then Empty else Never
  | Seq a b =>
      if nullable a then Or (Seq (derive c a) b) (derive c b)
      else Seq (derive c a) b
  | Or a b => Or (derive c a) (derive c b)
  | Many a => Seq (derive c a) (Many a)
  end.

Fixpoint matches (r : regex) (s : str) : bool :=
  match s with
  | [] => nullable r
  | c :: s' => matches (derive c r) s'
  end.

(** [r?], [r+], [r{n}] and [r{n,m}] *)
Definition optional (r : regex) : regex := Or Empty r.
Definition some (r : regex) : regex := Seq r (Many r).
Fixpoint times (n : nat) (r : regex) : regex :=
  match n with
  | O => Empty
  | S n' => Seq r (times n' r)
  end.
Fixpoint upto (n : nat) (r : regex) : regex :=
  match n with
  | O => Empty
  | S n' => optional (Seq r (upto n' r))
  end.
Definition between (n m : nat) (r : regex) : regex :=
  Seq (times n r) (upto (m - n) r).
Definition at_least (n : nat) (r : regex) : regex :=
  Seq (times n r) (Many r).

Definition char (c : Z) : regex := Class (Z.eqb c).
Definition one_of (chars : str) (c : Z) : bool := existsb (Z.eqb c) chars.
Definition char_range (lo hi c : Z) : bool := (lo <=? c) && (c <=? hi).

(** [bool(re.compile("^" body "$").match(s))]: [$] is the end of the
    string, or the place before a line feed that ends the string. *)
Definition re_match (body : regex) (s : str) : bool :=
  matches (Seq body (optional (char 10))) s.

(** [\d] of a [str] pattern is a decimal digit of Unicode: the ten ASCII
    digits, and outside ASCII what the character database says. *)
Class UnicodeDigits : Type := {
  unicode_decimal : Z -> bool
}.

Definition isdecimal `{UnicodeDigits} (c : Z) : bool :=
  if is_ascii c then char_range 48 57 c else unicode_decimal c.

(** The instance the examples run with; they use ASCII strings only. *)
#[export] Instance ascii_digits : UnicodeDigits := {
  unicode_decimal := fun _ => false
}.

(** ** Validation *)

(** [[a-zA-Z]], [[a-zA-Z0-9._%+-]] and [[a-zA-Z0-9.-]] *)
Definition letter (c : Z) : bool :=
  char_range 97 122 c || char_range 65 90 c.
Definition local_char (c : Z) : bool :=
  letter c || char_range 48 57 c || one_of (lit "._%+-") c.
Definition domain_char (c : Z) : bool :=
  letter c || char_range 48 57 c || one_of (lit ".-") c.

(** [^[a-zA-Z0-9._%+-]+@[a-zA-Z0-9.-]+\.[a-zA-Z]{2,}$], without the
    anchors. *)
Definition EMAIL_PATTERN : regex :=
  Seq (some (Class local_char))
    (Seq (char 64)
       (Seq (some (Class domain_char))
          (Seq (char 46) (at_least 2 (Class letter))))).

Definition validate_email (email : str) : bool :=
  re_match EMAIL_PATTERN (strip email).

(** [phone.strip().replace(" ", "").replace("-", "").replace("(", "")
    .replace(")", "")] *)
Definition cleaned (phone : str) : str :=
  remove_char 41 (remove_char 40 (remove_char 45 (remove_char 32
    (strip phone)))).

(** [^\+?\d{7,15}$], without the anchors. *)
Definition PHONE_PATTERN `{UnicodeDigits} : regex :=
  Seq (optional (char 43)) (between 7 15 (Class isdecimal)).

Definition validate_phone `{UnicodeDigits} (phone : str) : bool :=
  re_match PHONE_PATTERN (cleaned phone).

(** [re.sub(r'\D', '', s)] *)
Definition digits_of `{UnicodeDigits} (s : str) : str := filter isdecimal s.

Definition sanitize_phone `{UnicodeDigits} (phone : str) : str :=
  let cleaned := cleaned phone in
  if startswith cleaned (lit "+")
  then lit "+" ++ digits_of (slice_from 1 cleaned)
  else digits_of cleaned.

(** ** Formatting *)

(** [f"{b:02X}"] for a byte *)
Definition hex_byte (b : Z) : str :=
  map ascii_upper [hex_digit (b / 16); hex_digit (b mod 16)].

Definition format_uid (uid_bytes : bytes) : str :=
  join (lit " ") (map hex_byte uid_bytes).

(** ** Tag capacities *)

Record ntag_spec : Type := {
  user_bytes : Z;
  pages : Z;
  total_memory : Z
}.

Definition NTAG_SPECS : list (str * ntag_spec) :=
  [ (lit "NTAG213",
     {| user_bytes := 144; pages := 45; total_memory := 180 |});
    (lit "NTAG215",
     {| user_bytes := 504; pages := 135; total_memory := 540 |});
    (lit "NTAG216",
     {| user_bytes := 888; pages := 231; total_memory := 924 |}) ].

(** [NTAG_SPECS["NTAG215"]] *)
Definition NTAG215 : ntag_spec :=
  {| user_bytes := 504; pages := 135; total_memory := 540 |}.

Section Capacity.

Context `{UnicodeData}.

(** [min(100, round(data_size / capacity * 100, 1))], a number that
    floating point arithmetic computes. *)
Variable usage_percent : Z -> Z -> value.

Definition check_tag_capacity (tag_type : str) (data_size : Z) : dict :=
  let spec :=
    match lookup NTAG_SPECS (upper tag_type) with
    | Some spec => spec
    | None => NTAG215
    end in
  let fits := data_size <=? user_bytes spec in
  [ (lit "tag_type", VStr (upper tag_type));
    (lit "capacity", VInt (user_bytes spec));
    (lit "data_size", VInt data_size);
    (lit "fits", VBool fits);
    (lit "remaining", VInt (Z.max 0 (user_bytes spec - data_size)));
    (lit "usage_percent", usage_percent data_size (user_bytes spec)) ].

End Capacity.

End Utils.

(* ===================================================================== *)
(** * techtap/rfid_reader.py: finding the port and connecting             *)
(* ===================================================================== *)

Module SerialPorts.

(** What [serial.tools.list_ports.comports()] tells about one port. *)
Record port_info : Type := {
  device : str;
  description : option str;
  vid : option Z;
  pid : option Z
}.

Definition ARDUINO_VID_PID : list (Z * option Z) :=
  [ (0x2341, None); (0x1A86, Some 0x7523); (0x10C4, Some 0xEA60);
    (0x0403, Some 0x6001); (0x2A03, None); (0x1B4F, None);
    (0x239A, None) ].

Definition KEYWORDS : list str :=
  [ lit "arduino"; lit "ch340"; lit "cp210"; lit "ftdi"; lit "usb serial" ].

(** The test of the first loop: the port has a vendor number, and an
    entry of the table has this number and no product number or the
    product number of the port. *)
Definition listed (port : port_info) : bool :=
  match vid port with
  | None => false
  | Some v =>
      existsb
        (fun entry =>
           (v =? fst entry) &&
           match snd entry with
           | None => true
           | Some p =>
               match pid port with
               | Some q => q =? p
               | None => false
               end
           end)
        ARDUINO_VID_PID
  end.

(** The test of the second loop, on [(port.description or "").lower()]. *)
Definition described `{UnicodeData} (port : port_info) : bool :=
  let desc :=
    lower (match description port with Some d => d | None => [] end) in
  existsb (fun kw => contains desc kw) KEYWORDS.

Definition find_arduino_port `{UnicodeData} (ports : list port_info)
    : option str :=
  match find listed ports with
  | Some port => Some (device port)
  | None =>
      match find described ports with
      | Some port => Some (device port)
      | None => None
      end
  end.

End SerialPorts.

Module Connection.

Import NdefEncoder RfidReader.

Definition CMD_PING : str := lit "PING".
Definition RESP_PONG : str := lit "PONG".

Section Line.

Context `{UnicodeData}.
Context {Dev : Type}.
Variable firmware : Dev -> bytes -> Dev * write_result.

(** The ports of the machine, and what [serial.Serial(port=...)] does
    with a port name: it opens the port on a device, or raises
    SerialException. *)
Variable comports : list SerialPorts.port_info.
Variable open_serial : str -> Dev + str.

(** One [_read_line], as [_ping] calls it with a timeout of its own: the
    port answers it with its next read, whatever the time that read took,
    and a port with nothing to deliver lets it time out. *)
Definition _read_line (r : @reader Dev) : option str * @reader Dev :=
  match _serial r with
  | None => (None, r)
  | Some p =>
      match inbox p with
      | [] => (None, r)
      | ev :: rest =>
          (line_of ev,
           with_port r {| is_open := is_open p; device := device p;
                          inbox := rest; written := written p |})
      end
  end.

(** [_ping]: every exception is answered with [False]. *)
Definition _ping (r : @reader Dev) : bool * @reader Dev :=
  match _serial r with
  | None => (false, r)
  | Some p =>
      if negb (is_open p) then (false, r)
      else
        match utf8_encode (CMD_PING ++ [10]) with
        | Raise _ => (false, r)
        | Ok line =>
            let '(d, w) := firmware (device p) line in
            match w with
            | WriteFails _ =>
                (false,
                 with_port r {| is_open := true; device := d;
                                inbox := inbox p;
                                written := written p ++ [line] |})
            | Written answer =>
                let r :=
                  with_port r {| is_open := true; device := d;
                                 inbox := inbox p ++ answer;
                                 written := written p ++ [line] |} in
                let '(response, r) := _read_line r in
                (match response with
                 | Some line => contains line RESP_PONG
                 | None => false
                 end, r)
            end
        end
  end.

Definition set_link (r : @reader Dev) (port : option (@serial_port Dev))
    (up : bool) : @reader Dev :=
  {| max_retries := max_retries r;
     verify_after_write := verify_after_write r;
     _serial := port;
     _connected := up;
     prompts := prompts r |}.

(** [connect], with [self.port] beside the reader: the result, the port
    name afterwards, the reader afterwards.  The port that has just been
    opened has its buffers emptied before the ping. *)
Definition connect (port : str) (r : @reader Dev)
    : bool * str * @reader Dev :=
  if connected r then (true, port, r)
  else
    let target :=
      if list_eqb port (lit "auto")
      then
        match SerialPorts.find_arduino_port comports with
        | Some ((_ :: _) as found) => Some found
        | _ => None
        end
      else Some port in
    match target with
    | None => (false, port, r)
    | Some target =>
        match open_serial target with
        | inr _ => (false, port, set_link r None false)
        | inl d =>
            let opened :=
              {| is_open := true; device := d; inbox := [];
                 written := [] |} in
            let '(_, r) := _ping (set_link r (Some opened) (_connected r)) in
            (true, target, set_link r (_serial r) true)
        end
    end.

Definition disconnect (r : @reader Dev) : @reader Dev :=
  set_link r None false.

Definition reconnect (port : str) (r : @reader Dev)
    : bool * str * @reader Dev :=
  connect port (disconnect r).

End Line.

End Connection.

(* ===================================================================== *)
(** * techtap/phone_nfc.py: the devices of ADB, and leaving the bridge    *)
(* ===================================================================== *)

Module PhoneLink.

Import PhoneNfc.

(** [get_adb_devices] on what [adb devices] printed; [None] when running
    it raised, which the function answers with the empty list. *)
Definition get_adb_devices (stdout : option str) : list str :=
  match stdout with
  | None => []
  | Some stdout =>
      let lines := split_on 10 (strip stdout) in
      flat_map
        (fun line =>
           match split_on 9 (strip line) with
           | [serial; state] =>
               if list_eqb state (lit "device") then [serial] else []
           | _ => []
           end)
        (tl lines)
  end.

(** [disconnect]: closing the servers and the port forwarding can fail
    without consequence; the three fields are reset in any case. *)
Definition disconnect {Phone : Type} (b : @bridge Phone) : @bridge Phone :=
  {| max_retries := max_retries b;
     verify_after_write := verify_after_write b;
     _ws_client := false;
     _loop := _loop b;
     _connected := false;
     _phone_ready := false;
     _nfc_supported := _nfc_supported b;
     _pending_response := _pending_response b;
     phone := phone b;
     sent := sent b;
     prompts := prompts b |}.

End PhoneLink.

(* ===================================================================== *)
(** * techtap/database.py                                                 *)
(* ===================================================================== *)

Module Database.

(** The rows of the three tables, with the columns in the order of
    [CREATE TABLE]; a column that can be NULL is an option. *)
Record tag_row : Type := {
  tag_id : Z;
  uid : str;
  tag_type : str;
  first_seen : str;
  last_written : option str;
  write_count : Z;
  is_locked : Z;
  notes : str
}.

Record log_row : Type := {
  log_id : Z;
  log_uid : str;
  timestamp : str;
  operation : str;
  record_type : str;
  content_summary : str;
  data_size : Z;
  success : Z;
  error_message : str
}.

(** A REAL of SQLite is a double: a whole number times a power of two, an
    infinity, or no number. *)
Inductive real : Type :=
| Dyadic (mantissa exponent : Z)
| Infinity (negative : bool)
| NotANumber.

(** What a numeric column holds: an INTEGER of 64 bits or a REAL. *)
Inductive number : Type :=
| Integer (n : Z)
| Real (r : real).

Record session_row : Type := {
  session_id : Z;
  started_at : str;
  ended_at : option str;
  session_record_type : str;
  content_template : str;
  total_written : number;
  total_failed : number
}.

(** A number that fits the 64 bits of an INTEGER. *)
Definition int64 (n : Z) : bool := (- 2 ^ 63 <=? n) && (n <? 2 ^ 63).

(** The database: the rows of each table in the order of their insertion,
    and the last number AUTOINCREMENT has given out in each table. *)
Record database : Type := {
  tags : list tag_row;
  tags_seq : Z;
  write_log : list log_row;
  write_log_seq : Z;
  bulk_sessions : list session_row;
  bulk_sessions_seq : Z
}.

(** The tables [_init_db] creates in a new file. *)
Definition _init_db : database :=
  {| tags := []; tags_seq := 0; write_log := []; write_log_seq := 0;
     bulk_sessions := []; bulk_sessions_seq := 0 |}.

Definition opt_value (o : option str) : value :=
  match o with
  | Some s => VStr s
  | None => VNone
  end.

(** [dict(row)] *)
Definition tag_dict (row : tag_row) : dict :=
  [ (lit "id", VInt (tag_id row)); (lit "uid", VStr (uid row));
    (lit "tag_type", VStr (tag_type row));
    (lit "first_seen", VStr (first_seen row));
    (lit "last_written", opt_value (last_written row));
    (lit "write_count", VInt (write_count row));
    (lit "is_locked", VInt (is_locked row));
    (lit "notes", VStr (notes row)) ].

(** The objects in the [dict(row)] of a session: [None], an [int], a
    [float] or a [str]. *)
Inductive cell : Type :=
| CNone
| CInt (n : Z)
| CFloat (r : real)
| CStr (s : str).

Definition opt_cell (o : option str) : cell :=
  match o with
  | Some s => CStr s
  | None => CNone
  end.

Definition number_cell (v : number) : cell :=
  match v with
  | Integer n => CInt n
  | Real r => CFloat r
  end.

Definition session_dict (row : session_row) : list (str * cell) :=
  [ (lit "id", CInt (session_id row));
    (lit "started_at", CStr (started_at row));
    (lit "ended_at", opt_cell (ended_at row));
    (lit "record_type", CStr (session_record_type row));
    (lit "content_template", CStr (content_template row));
    (lit "total_written", number_cell (total_written row));
    (lit "total_failed", number_cell (total_failed row)) ].

Definition with_tags (db : database) (rows : list tag_row) (seq : Z)
    : database :=
  {| tags := rows; tags_seq := seq;
     write_log := write_log db; write_log_seq := write_log_seq db;
     bulk_sessions := bulk_sessions db;
     bulk_sessions_seq := bulk_sessions_seq db |}.

Definition with_sessions (db : database) (rows : list session_row) (seq : Z)
    : database :=
  {| tags := tags db; tags_seq := tags_seq db;
     write_log := write_log db; write_log_seq := write_log_seq db;
     bulk_sessions := rows; bulk_sessions_seq := seq |}.

Section Tables.

Context `{UnicodeData}.

(** [uid.upper().strip()] *)
Definition normalized (uid : str) : str := strip (upper uid).

(** [SELECT * FROM tags WHERE uid = ?], [fetchone()] *)
Definition select_tag (db : database) (key : str) : option tag_row :=
  find (fun row => list_eqb (uid row) key) (tags db).

(** [UPDATE tags SET ... WHERE uid = ?] *)
Definition update_tags (db : database) (key : str)
    (change : tag_row -> tag_row) : database :=
  with_tags db
    (map (fun row => if list_eqb (uid row) key then change row else row)
       (tags db))
    (tags_seq db).

(** [register_tag]; [now] is the reading of the clock. *)
Definition register_tag (uid tag_type now : str) (db : database)
    : dict * database :=
  let uid := normalized uid in
  match select_tag db uid with
  | Some existing => (tag_dict existing, db)
  | None =>
      let row :=
        {| tag_id := tags_seq db + 1; uid := uid; tag_type := tag_type;
           first_seen := now; last_written := None; write_count := 0;
           is_locked := 0; notes := [] |} in
      ([ (lit "uid", VStr uid); (lit "tag_type", VStr tag_type);
         (lit "first_seen", VStr now); (lit "write_count", VInt 0);
         (lit "is_locked", VBool false) ],
       with_tags db (tags db ++ [row]) (tags_seq db + 1))
  end.

Definition update_tag_write (uid now : str) (db : database) : database :=
  update_tags db (normalized uid)
    (fun row =>
       {| tag_id := tag_id row; uid := Database.uid row;
          tag_type := tag_type row; first_seen := first_seen row;
          last_written := Some now; write_count := write_count row + 1;
          is_locked := is_locked row; notes := notes row |}).

Definition set_tag_locked (uid : str) (locked : bool) (db : database)
    : database :=
  update_tags db (normalized uid)
    (fun row =>
       {| tag_id := tag_id row; uid := Database.uid row;
          tag_type := tag_type row; first_seen := first_seen row;
          last_written := last_written row;
          write_count := write_count row;
          is_locked := if locked then 1 else 0; notes := notes row |}).

Definition get_tag (uid : str) (db : database) : option dict :=
  match select_tag db (normalized uid) with
  | Some row => Some (tag_dict row)
  | None => None
  end.

(** [tag is not None and tag.get("write_count", 0) > 0] *)
Definition tag_has_data (uid : str) (db : database) : bool :=
  match get_tag uid db with
  | Some tag =>
      match get tag (lit "write_count") (VInt 0) with
      | VInt n => 0 <? n
      | _ => false
      end
  | None => false
  end.

(** [log_write]; the clock is read once here, once in [register_tag] and
    once in [update_tag_write]. *)
Definition log_write (uid operation record_type content_summary : str)
    (data_size : Z) (success : bool) (error_message : str)
    (now now_registered now_updated : str) (db : database) : database :=
  let uid := normalized uid in
  let row :=
    {| log_id := write_log_seq db + 1; log_uid := uid; timestamp := now;
       operation := operation; record_type := record_type;
       content_summary := slice 0 200 content_summary;
       data_size := data_size; success := if success then 1 else 0;
       error_message := error_message |} in
  let db :=
    {| tags := tags db; tags_seq := tags_seq db;
       write_log := write_log db ++ [row];
       write_log_seq := write_log_seq db + 1;
       bulk_sessions := bulk_sessions db;
       bulk_sessions_seq := bulk_sessions_seq db |} in
  if success
  then
    let '(_, db) := register_tag uid (lit "UNKNOWN") now_registered db in
    update_tag_write uid now_updated db
  else db.

End Tables.

(** ** Bulk sessions

    The [sqlite3] module refuses a Python integer outside the 64 bits of an
    INTEGER with OverflowError before the statement runs.  SQLite adds two
    INTEGERs as such while the sum stays within 64 bits; any other sum it
    computes in floating point and stores by the INTEGER affinity of the
    column.  What that gives is taken as given. *)
Section Sessions.

Variable float_sum : number -> Z -> number.

(** [total + ?] *)
Definition sql_add (total : number) (n : Z) : number :=
  match total with
  | Integer t => if int64 (t + n) then Integer (t + n) else float_sum total n
  | Real _ => float_sum total n
  end.

(** AUTOINCREMENT gives out the number behind the last one, and fails with
    SQLITE_FULL when the last one was the largest INTEGER. *)
Definition start_bulk_session (record_type content_template now : str)
    (db : database) : res (Z * database) :=
  if bulk_sessions_seq db <? 2 ^ 63 - 1 then
    let row :=
      {| session_id := bulk_sessions_seq db + 1; started_at := now;
         ended_at := None; session_record_type := record_type;
         content_template := content_template;
         total_written := Integer 0; total_failed := Integer 0 |} in
    Ok (bulk_sessions_seq db + 1,
        with_sessions db (bulk_sessions db ++ [row])
          (bulk_sessions_seq db + 1))
  else Raise (OperationalError (lit "database or disk is full")).

Definition update_sessions (db : database) (id : Z)
    (change : session_row -> session_row) : database :=
  with_sessions db
    (map (fun row => if session_id row =? id then change row else row)
       (bulk_sessions db))
    (bulk_sessions_seq db).

Definition update_bulk_session (id written failed : Z) (db : database)
    : res database :=
  if int64 written && int64 failed && int64 id then
    Ok (update_sessions db id
          (fun row =>
             {| session_id := session_id row; started_at := started_at row;
                ended_at := ended_at row;
                session_record_type := session_record_type row;
                content_template := content_template row;
                total_written := sql_add (total_written row) written;
                total_failed := sql_add (total_failed row) failed |}))
  else Raise OverflowError.

Definition end_bulk_session (id : Z) (now : str) (db : database)
    : res (list (str * cell) * database) :=
  if int64 id then
    let db :=
      update_sessions db id
        (fun row =>
           {| session_id := session_id row; started_at := started_at row;
              ended_at := Some now;
              session_record_type := session_record_type row;
              content_template := content_template row;
              total_written := total_written row;
              total_failed := total_failed row |}) in
    Ok (match find (fun row => session_id row =? id) (bulk_sessions db) with
        | Some row => session_dict row
        | None => []
        end, db)
  else Raise OverflowError.

End Sessions.

End Database.

(* ===================================================================== *)
(** * cli.py: the menu handlers in front of the write handler             *)
(* ===================================================================== *)

Module CliHandlers.

Import NdefEncoder HexBytes Utils.

(** What a handler does with the answers to its prompts: it shows an
    error and returns; it calls [do_write] with the encoded data, the
    record type and the summary, after the warnings it has shown; or an
    exception of the encoder leaves it. *)
Inductive outcome : Type :=
| ShowsError (msg : str)
| CallsDoWrite (warnings : list str) (ndef_data : bytes)
    (record_type content_summary : str)
| Raises (warnings : list str) (e : exn).

Definition written_with (warnings : list str) (encoded : res bytes)
    (record_type content_summary : str) : outcome :=
  match encoded with
  | Ok ndef_data => CallsDoWrite warnings ndef_data record_type content_summary
  | Raise e => Raises warnings e
  end.

(** [if field:] on a string *)
Definition given (field : str) : bool :=
  match field with
  | [] => false
  | _ => true
  end.

Section Handlers.

Context `{UnicodeData} `{UnicodeDigits}.

Definition handle_write_vcard (name phone email org title url : str)
    : outcome :=
  if negb (given (strip name)) then ShowsError (lit "Name is required.")
  else
    let warnings :=
      (if given email && negb (validate_email email)
       then [lit "Email format looks invalid, but proceeding anyway."]
       else [])
      ++ (if given phone && negb (validate_phone phone)
          then [lit "Phone format looks invalid, but proceeding anyway."]
          else []) in
    let ndef_data :=
      encode_vcard name (if given phone then sanitize_phone phone else [])
        email org title url [] [] in
    let summary := name in
    let summary := if given phone then summary ++ lit " | " ++ phone
                   else summary in
    let summary := if given email then summary ++ lit " | " ++ email
                   else summary in
    written_with warnings ndef_data (lit "vCard") summary.

Definition handle_write_phone (phone : str) : outcome :=
  if negb (validate_phone phone)
  then ShowsError (lit "Invalid phone number. Use format: +639123456789")
  else
    let clean_phone := sanitize_phone phone in
    written_with [] (encode_phone clean_phone) (lit "Phone") clean_phone.

Definition handle_write_email (email subject body : str) : outcome :=
  if negb (validate_email email)
  then ShowsError (lit "Invalid email format.")
  else written_with [] (encode_email email subject body) (lit "Email") email.

Definition handle_write_text (text : str) : outcome :=
  if negb (given (strip text)) then ShowsError (lit "Text cannot be empty.")
  else
    written_with [] (encode_text text (lit "en")) (lit "Text")
      (slice 0 80 text).

(** The three answers the authentication prompt accepts. *)
Inductive authentication : Type :=
| WPA2
| WPA
| OPEN.

Definition auth_name (auth : authentication) : str :=
  match auth with
  | WPA2 => lit "WPA2"
  | WPA => lit "WPA"
  | OPEN => lit "OPEN"
  end.

(** [password] is the answer to the password prompt, which comes only
    when the authentication is not OPEN. *)
Definition handle_write_wifi (ssid : str) (auth : authentication)
    (password : str) : outcome :=
  if negb (given (strip ssid)) then ShowsError (lit "SSID is required.")
  else
    let password :=
      match auth with
      | OPEN => []
      | _ => password
      end in
    written_with [] (encode_wifi ssid password (auth_name auth) false)
      (lit "WiFi")
      (lit "SSID: " ++ ssid ++ lit " (" ++ auth_name auth ++ lit ")").

Definition handle_write_social (platform username : str) : outcome :=
  let platform := lower (strip platform) in
  let username := strip username in
  if negb (given username) then ShowsError (lit "Username is required.")
  else
    match encode_social platform username with
    | Raise (ValueError msg) => ShowsError msg
    | Raise e => Raises [] e
    | Ok ndef_data =>
        let template :=
          match lookup SOCIAL_PLATFORMS platform with
          | Some t => t
          | None => []
          end in
        let url := format1 template (lstrip_chars (lit "@") username) in
        CallsDoWrite [] ndef_data (lit "Social")
          (platform ++ lit ": @" ++ username ++ lit " " ++ [8594]
           ++ lit " " ++ url)
    end.

(** The part of [handle_read] for the hexadecimal data of the Arduino
    reader (the block under [if raw_data:]): the table that is shown, or
    [None] when the handler goes on to show the raw lines.  Every
    exception in the block is passed over. *)
Definition read_summary (raw_data : str) : option (list (str * str)) :=
  if negb (given raw_data) then None
  else
    match hex_to_bytes raw_data with
    | Raise _ => None
    | Ok data_bytes =>
        match get_ndef_payload_info data_bytes with
        | Ok (Some info) =>
            Some [ (lit "Type", content_type info);
                   (lit "Content", content info);
                   (lit "Size", str_of_int (len data_bytes) ++ lit " bytes") ]
        | _ => None
        end
    end.

End Handlers.

End CliHandlers.

(* ===================================================================== *)
(** * Notions the properties are stated with                            *)
(* ===================================================================== *)

Module Notions.

Import NdefEncoder HexBytes Codec.

(** The command [_ndef_to_web_nfc] makes of an encoded content, in terms
    of the summary of the decoder. *)
Definition web_command (x : content_kind) (i : info) : dict :=
  match x with
  | Text _ lang =>
      [ (lit "cmd", VStr (lit "write")); (lit "type", VStr (lit "text"));
        (lit "text", VStr (content i)); (lit "lang", VStr lang) ]
  | VCard _ _ _ _ _ _ _ _ =>
      [ (lit "cmd", VStr (lit "write")); (lit "type", VStr (lit "mime"));
        (lit "mime_type", VStr (lit "text/vcard"));
        (lit "text_data", VStr (content i)) ]
  | Wifi _ _ _ _ =>
      [ (lit "cmd", VStr (lit "write")); (lit "type", VStr (lit "mime"));
        (lit "mime_type", VStr (lit "application/vnd.wfa.wsc"));
        (lit "hex_data", VStr (bytes_to_hex (raw_payload i))) ]
  | _ =>
      [ (lit "cmd", VStr (lit "write")); (lit "type", VStr (lit "url"));
        (lit "url", VStr (content i)) ]
  end.

(** The text that [fromhex] stands for: the white space dropped, the
    digits in upper case. *)
Definition canonical (s : str) : str :=
  map ascii_upper (filter (fun c => negb (ascii_space c)) s).

(** ** The serial line *)

Section Line.

Import RfidReader.

Context {Dev : Type}.

(** What the port has received and not delivered yet. *)
Definition unread (r : @reader Dev) : list read_event :=
  match _serial r with
  | Some p => inbox p
  | None => []
  end.

End Line.

(** The lines that a run of reads delivers. *)
Definition lines_read (events : list RfidReader.read_event) : list str :=
  flat_map (fun ev => match RfidReader.line_of ev with
                      | Some line => [line]
                      | None => []
                      end) events.

(** TAP_CARD, then ERROR. *)
Definition tap_then_error (answer : list RfidReader.read_event) : Prop :=
  exists e1 e2,
    answer = [e1; e2] /\ Protocol.says RfidReader.RESP_TAP_CARD e1 /\
    Protocol.says RfidReader.RESP_ERROR e2.

(** The data of a TAG_INFO line for a list of keys and values. *)
Definition tag_info_data (pairs : list (str * str)) : str :=
  join (lit ",") (map (fun kv => fst kv ++ lit ":" ++ snd kv) pairs).

(** A key or a value that the line carries unchanged: no comma in it, no
    white space around it, and in a key no colon. *)
Definition plain_value (v : str) : Prop :=
  ~ In 44 v /\ strip v = v.
Definition plain_key (k : str) : Prop :=
  ~ In 44 k /\ ~ In 58 k /\ strip k = k.

(** ** Example sessions

    A device that fails the first write and accepts the second. *)
Definition flaky_device (failed_before : bool) (line : bytes)
    : bool * RfidReader.write_result :=
  if failed_before
  then (true,
        RfidReader.Written
          [RfidReader.Received 120 (lit "TAP_CARD" ++ [10]);
           RfidReader.Received 900 (lit "WRITE_OK|04A1B2C3" ++ [10])])
  else (true,
        RfidReader.Written
          [RfidReader.Received 120 (lit "TAP_CARD" ++ [10]);
           RfidReader.Received 900 (lit "WRITE_FAIL|timeout" ++ [10])]).

Definition flaky_reader : @RfidReader.reader bool :=
  {| RfidReader.max_retries := 3; RfidReader.verify_after_write := true;
     RfidReader._serial :=
       Some {| RfidReader.is_open := true; RfidReader.device := false;
               RfidReader.inbox := []; RfidReader.written := [] |};
     RfidReader._connected := true; RfidReader.prompts := 0 |}.

(** A device on which every command finds the tag and then fails with a
    message. *)
Definition refusing_device (d : unit) (line : bytes)
    : unit * RfidReader.write_result :=
  (tt,
   RfidReader.Written
     [RfidReader.Received 120 (lit "TAP_CARD" ++ [10]);
      RfidReader.Received 900 (lit "ERROR|Tag is locked" ++ [10])]).

(** The dictionary of a list of keys and values, a later value for a key
    in the place of the earlier one. *)
Definition dict_of (pairs : list (str * str)) : dict :=
  fold_left (fun d kv => dict_set d (fst kv) (VStr (snd kv))) pairs [].

(** A device that knows the tag. *)
Definition informing_device (d : unit) (line : bytes)
    : unit * RfidReader.write_result :=
  (tt,
   RfidReader.Written
     [RfidReader.Received 120 (lit "TAP_CARD" ++ [10]);
      RfidReader.Received 300
        (lit "TAG_INFO|uid:04A1B2C3,type:NTAG215,size:504,locked:0"
         ++ [10])]).

(** ** The bridge

    A phone that answers every command with the same error, and one whose
    socket closes when a command is sent. *)
Definition failing_phone (ph : unit) (cmd : dict) : unit * PhoneNfc.reply :=
  (tt, PhoneNfc.Message [ (lit "event", VStr (lit "error"));
                          (lit "error", VStr (lit "NotAllowedError")) ]).

Definition leaving_phone (ph : unit) (cmd : dict) : unit * PhoneNfc.reply :=
  (tt, PhoneNfc.Closes).

(** A bridge in session with a phone that has reported no Web NFC. *)
Definition unsupported_bridge : @PhoneNfc.bridge unit :=
  {| PhoneNfc.max_retries := 3; PhoneNfc.verify_after_write := true;
     PhoneNfc._ws_client := true; PhoneNfc._loop := true;
     PhoneNfc._connected := true; PhoneNfc._phone_ready := true;
     PhoneNfc._nfc_supported := false; PhoneNfc._pending_response := None;
     PhoneNfc.phone := tt; PhoneNfc.sent := []; PhoneNfc.prompts := 0 |}.

(** ** Ports

    A port that opens on any name, and one that does not exist. *)
Definition opening (name : str) : unit + str := inl tt.
Definition missing (name : str) : unit + str :=
  inr (lit "could not open port").

(** ** The devices of ADB

    A word: a string that is not empty and holds no white space. *)
Definition word (s : str) : Prop :=
  s <> [] /\ forallb (fun c => negb (isspace c)) s = true.

(** What [adb devices] prints for a list of serial numbers and states:
    the heading, a line for each device, an empty line. *)
Definition adb_output (entries : list (str * str)) : str :=
  lit "List of devices attached" ++ [10]
  ++ concat (map (fun e => fst e ++ [9] ++ snd e ++ [10]) entries)
  ++ [10].

(** ** The log of the database

    One call of [log_write]: its arguments, and the three readings of the
    clock. *)
Record logged : Type := {
  l_uid : str;
  l_operation : str;
  l_record_type : str;
  l_summary : str;
  l_size : Z;
  l_success : bool;
  l_error : str;
  l_now : str;
  l_now_registered : str;
  l_now_updated : str
}.

Section Logs.

Import Database.

Context `{UnicodeData}.

Definition log_call (c : logged) (db : database) : database :=
  log_write (l_uid c) (l_operation c) (l_record_type c) (l_summary c)
    (l_size c) (l_success c) (l_error c)
    (l_now c) (l_now_registered c) (l_now_updated c) db.

Definition replay (calls : list logged) (db : database) : database :=
  fold_left (fun db c => log_call c db) calls db.

(** The number of successful calls for a UID. *)
Definition successes (key : str) (calls : list logged) : Z :=
  len (filter (fun c => l_success c && list_eqb (normalized (l_uid c)) key)
         calls).

(** The table of the tags agrees with the calls of [log_write]. *)
Definition counted (calls : list logged) (db : database) : Prop :=
  (forall row, In row (tags db) ->
               write_count row = successes (uid row) calls) /\
  (forall key, successes key calls <> 0 -> In key (map uid (tags db))) /\
  NoDup (map uid (tags db)) /\
  len (write_log db) = len calls.

End Logs.

(** One call of [update_bulk_session]: the session and what is added to
    its two counters. *)
Inductive session_step : Type :=
| Counted (id written failed : Z).

(** A call whose three arguments fit an INTEGER. *)
Definition bound (s : session_step) : bool :=
  match s with
  | Counted id written failed =>
      Database.int64 written && Database.int64 failed && Database.int64 id
  end.

(** The database after the calls; a call that raises leaves it as it
    was. *)
Definition session_run (float_sum : Database.number -> Z -> Database.number)
    (steps : list session_step) (db : Database.database)
    : Database.database :=
  fold_left
    (fun db s =>
       match s with
       | Counted id written failed =>
           match Database.update_bulk_session float_sum id written failed db
           with
           | Ok db' => db'
           | Raise _ => db
           end
       end) steps db.

(** What the calls that are made add to the two counters of a session. *)
Definition counted_written (id : Z) (steps : list session_step) : Z :=
  fold_right (fun s n => match s with
                         | Counted i written _ =>
                             if bound s && (i =? id) then written + n else n
                         end) 0 steps.

Definition counted_failed (id : Z) (steps : list session_step) : Z :=
  fold_right (fun s n => match s with
                         | Counted i _ failed =>
                             if bound s && (i =? id) then failed + n else n
                         end) 0 steps.

(** The two counters of a session fit an INTEGER after every call. *)
Definition within_int64 (id : Z) (steps : list session_step) : Prop :=
  forall k,
    Database.int64 (counted_written id (firstn k steps)) = true /\
    Database.int64 (counted_failed id (firstn k steps)) = true.

(** No session has a number beyond the last one given out. *)
Definition numbered (db : Database.database) : Prop :=
  Forall (fun row => Database.session_id row <= Database.bulk_sessions_seq db)
    (Database.bulk_sessions db).

(** Three operations on two tags. *)
Definition first_call : logged :=
  {| l_uid := lit "04a1b2c3"; l_operation := lit "WRITE";
     l_record_type := lit "URL"; l_summary := lit "https://a.b";
     l_size := 11; l_success := true; l_error := [];
     l_now := lit "2024-05-01T10:00:00";
     l_now_registered := lit "2024-05-01T10:00:01";
     l_now_updated := lit "2024-05-01T10:00:02" |}.

Definition three_calls : list logged :=
  [ first_call;
    {| l_uid := lit "04A1B2C3 "; l_operation := lit "LOCK";
       l_record_type := lit "LOCK"; l_summary := lit "Tag locked";
       l_size := 0; l_success := true; l_error := [];
       l_now := lit "2024-05-01T10:05:00";
       l_now_registered := lit "2024-05-01T10:05:01";
       l_now_updated := lit "2024-05-01T10:05:02" |};
    {| l_uid := lit "04FFEE11"; l_operation := lit "WRITE";
       l_record_type := lit "Text"; l_summary := lit "hello";
       l_size := 14; l_success := false; l_error := lit "Timeout";
       l_now := lit "2024-05-01T10:06:00";
       l_now_registered := lit "2024-05-01T10:06:01";
       l_now_updated := lit "2024-05-01T10:06:02" |} ].

(** A bulk session of three cards, with a count for another session and
    a call that is refused in between. *)
Definition bulk_steps : list session_step :=
  [ Counted 1 1 0; Counted 1 0 1; Counted 7 5 5; Counted 1 (2 ^ 63) 0;
    Counted 1 1 0 ].

(** The examples stay within 64 bits, where no sum is computed in floating
    point. *)
Definition no_float_sum (total : Database.number) (n : Z)
    : Database.number :=
  Database.Real Database.NotANumber.

(** ** The language of a pattern *)
Inductive lang : Utils.regex -> str -> Prop :=
| lang_empty : lang Utils.Empty []
| lang_class (p : Z -> bool) (c : Z) : p c = true -> lang (Utils.Class p) [c]
| lang_seq (a b : Utils.regex) (s t : str) :
    lang a s -> lang b t -> lang (Utils.Seq a b) (s ++ t)
| lang_or_left (a b : Utils.regex) (s : str) :
    lang a s -> lang (Utils.Or a b) s
| lang_or_right (a b : Utils.regex) (s : str) :
    lang b s -> lang (Utils.Or a b) s
| lang_many_none (a : Utils.regex) : lang (Utils.Many a) []
| lang_many_more (a : Utils.regex) (s t : str) :
    lang a s -> lang (Utils.Many a) t -> lang (Utils.Many a) (s ++ t).

(** A phone number as the tag gets it: a plus sign or none, and seven to
    fifteen decimal digits. *)
Definition dialable `{Utils.UnicodeDigits} (number : str) : Prop :=
  exists sign digits,
    number = sign ++ digits /\ (sign = [] \/ sign = lit "+") /\
    forallb Utils.isdecimal digits = true /\ 7 <= len digits <= 15.

End Notions.

(* ===================================================================== *)
(** * Properties of the codec                                             *)
(* ===================================================================== *)

Module CodecProps.

Import NdefEncoder Codec.

Lemma len_nonneg {A} (l : list A) : 0 <= len l.
Proof. unfold len. lia. Qed.

Lemma len_app {A} (a b : list A) : len (a ++ b) = len a + len b.
Proof. unfold len. rewrite length_app. lia. Qed.

Lemma len_cons {A} (x : A) (l : list A) : len (x :: l) = 1 + len l.
Proof. unfold len. simpl length. lia. Qed.

Lemma bind_ok {A B} (c : res A) (k : A -> res B) (b : B) :
  bind c k = Ok b -> exists a, c = Ok a /\ k a = Ok b.
Proof. destruct c as [a|e]; simpl; [eauto | discriminate]. Qed.

(** Turn the successful binds of a hypothesis into their parts. *)
Ltac ok_inv H :=
  repeat match type of H with
         | bind ?c ?k = Ok _ =>
             let a := fresh "v" in
             let Ha := fresh "E" in
             apply bind_ok in H; destruct H as (a & Ha & H); cbv beta in H
         end.

Lemma list_eqb_eq (a b : list Z) : list_eqb a b = true <-> a = b.
Proof.
  revert b. induction a as [| x a IH]; intros [| y b]; simpl;
    try (split; [discriminate | discriminate]); try tauto.
  rewrite andb_true_iff, Z.eqb_eq, IH. split.
  - intros [-> ->]. reflexivity.
  - intros E. injection E as -> ->. auto.
Qed.

Lemma list_eqb_refl (a : list Z) : list_eqb a a = true.
Proof. apply list_eqb_eq. reflexivity. Qed.

Lemma list_eqb_sym (a b : list Z) : list_eqb a b = list_eqb b a.
Proof.
  destruct (list_eqb a b) eqn:E, (list_eqb b a) eqn:F; try reflexivity.
  - apply list_eqb_eq in E. subst. rewrite list_eqb_refl in F. discriminate.
  - apply list_eqb_eq in F. subst. rewrite list_eqb_refl in E. discriminate.
Qed.

(** ** Packing *)

Lemma in_range (lo v hi : Z) :
  lo <= v <= hi -> (lo <=? v) && (v <=? hi) = true.
Proof. intros. apply andb_true_iff. split; apply Z.leb_le; lia. Qed.

Lemma range_inv (lo v hi : Z) :
  (lo <=? v) && (v <=? hi) = true -> lo <= v <= hi.
Proof.
  intros E. apply andb_true_iff in E. destruct E as [A B].
  apply Z.leb_le in A, B. lia.
Qed.

Lemma pack_B_ok (v : Z) : 0 <= v <= 255 -> pack_B v = Ok [v].
Proof. intros Hv. unfold pack_B. rewrite in_range by lia. reflexivity. Qed.

Lemma pack_H_ok (v : Z) :
  0 <= v <= 65535 -> pack_H v = Ok [v / 256; v mod 256].
Proof. intros Hv. unfold pack_H. rewrite in_range by lia. reflexivity. Qed.

Lemma pack_I_ok (v : Z) :
  0 <= v <= 0xFFFFFFFF ->
  pack_I v = Ok [v / 16777216; (v / 65536) mod 256; (v / 256) mod 256;
                 v mod 256].
Proof. intros Hv. unfold pack_I. rewrite in_range by lia. reflexivity. Qed.

Lemma pack_B_inv (v : Z) (b : bytes) :
  pack_B v = Ok b -> 0 <= v <= 255 /\ b = [v].
Proof.
  unfold pack_B. destruct ((0 <=? v) && (v <=? 255)) eqn:E; [| discriminate].
  apply range_inv in E. intros [= <-]. auto.
Qed.

Lemma pack_H_inv (v : Z) (b : bytes) :
  pack_H v = Ok b -> 0 <= v <= 65535 /\ b = [v / 256; v mod 256].
Proof.
  unfold pack_H. destruct ((0 <=? v) && (v <=? 65535)) eqn:E;
    [| discriminate].
  apply range_inv in E. intros [= <-]. auto.
Qed.

Lemma pack_I_inv (v : Z) (b : bytes) :
  pack_I v = Ok b ->
  0 <= v <= 0xFFFFFFFF /\
  b = [v / 16777216; (v / 65536) mod 256; (v / 256) mod 256; v mod 256].
Proof.
  unfold pack_I. destruct ((0 <=? v) && (v <=? 4294967295)) eqn:E;
    [| discriminate].
  apply range_inv in E. intros [= <-]. auto.
Qed.

(** Every successful bind among the hypotheses, taken apart. *)
Ltac ok_all :=
  repeat match goal with
         | H : bind ?c ?k = Ok _ |- _ =>
             let a := fresh "v" in
             let Ha := fresh "E" in
             apply bind_ok in H; destruct H as (a & Ha & H); cbv beta in H
         end.

(** ** The record header *)

Lemma flags_short (tnf : Z) :
  0 <= tnf < 8 -> Z.lor (Z.lor (Z.lor (Z.land tnf 7) 128) 64) 16 = 208 + tnf.
Proof.
  intros Ht.
  assert (C : tnf = 0 \/ tnf = 1 \/ tnf = 2 \/ tnf = 3 \/ tnf = 4 \/
              tnf = 5 \/ tnf = 6 \/ tnf = 7) by lia.
  repeat (destruct C as [-> | C]; [reflexivity |]). subst. reflexivity.
Qed.

Lemma flags_long (tnf : Z) :
  0 <= tnf < 8 -> Z.lor (Z.lor (Z.land tnf 7) 128) 64 = 192 + tnf.
Proof.
  intros Ht.
  assert (C : tnf = 0 \/ tnf = 1 \/ tnf = 2 \/ tnf = 3 \/ tnf = 4 \/
              tnf = 5 \/ tnf = 6 \/ tnf = 7) by lia.
  repeat (destruct C as [-> | C]; [reflexivity |]). subst. reflexivity.
Qed.

Lemma make_record_ok (tnf : Z) (rec_type payload : bytes) :
  0 <= tnf < 8 -> len rec_type <= 255 -> len payload <= 0xFFFFFFFF ->
  _make_ndef_record tnf rec_type payload true true
    = Ok (record_bytes tnf rec_type payload).
Proof.
  intros Ht Hty Hp.
  pose proof (len_nonneg rec_type). pose proof (len_nonneg payload).
  unfold _make_ndef_record, record_bytes.
  destruct (len payload <=? 255) eqn:Hs.
  - apply Z.leb_le in Hs. rewrite flags_short by lia. cbn [pack].
    rewrite !pack_B_ok by lia. reflexivity.
  - apply Z.leb_gt in Hs. rewrite flags_long by lia. cbn [pack].
    rewrite !pack_B_ok by lia. rewrite pack_I_ok by lia. reflexivity.
Qed.

Lemma make_record_inv (tnf : Z) (rec_type payload record : bytes) :
  0 <= tnf < 8 ->
  _make_ndef_record tnf rec_type payload true true = Ok record ->
  len rec_type <= 255 /\ len payload <= 0xFFFFFFFF /\
  record = record_bytes tnf rec_type payload.
Proof.
  intros Ht Hm.
  assert (Hr : len rec_type <= 255 /\ len payload <= 0xFFFFFFFF).
  { unfold _make_ndef_record in Hm.
    destruct (len payload <=? 255) eqn:Hs; cbn [pack] in Hm; ok_all.
    - match goal with
      | B : pack_B (len rec_type) = Ok _ |- _ => apply pack_B_inv in B
      end.
      apply Z.leb_le in Hs. lia.
    - match goal with
      | B : pack_B (len rec_type) = Ok _ |- _ => apply pack_B_inv in B
      end.
      match goal with
      | B : pack_I (len payload) = Ok _ |- _ => apply pack_I_inv in B
      end.
      lia. }
  destruct Hr as [Hty Hp]. repeat split; try assumption.
  rewrite make_record_ok in Hm by assumption. congruence.
Qed.

Lemma wrap_tlv_ok (message : bytes) :
  len message <= 65535 -> _wrap_tlv message = Ok (tlv_bytes message).
Proof.
  intros Hm. pose proof (len_nonneg message).
  unfold _wrap_tlv, tlv_bytes. destruct (len message <? 255); [reflexivity |].
  cbn [pack]. rewrite pack_H_ok by lia. reflexivity.
Qed.

Lemma wrap_tlv_inv (message out : bytes) :
  _wrap_tlv message = Ok out ->
  len message <= 65535 /\ out = tlv_bytes message.
Proof.
  intros Hw.
  assert (Hm : len message <= 65535).
  { unfold _wrap_tlv in Hw. destruct (len message <? 255) eqn:Hs.
    - apply Z.ltb_lt in Hs. lia.
    - cbn [pack] in Hw. ok_all.
      match goal with
      | B : pack_H (len message) = Ok _ |- _ => apply pack_H_inv in B
      end.
      lia. }
  split; [assumption |]. rewrite wrap_tlv_ok in Hw by assumption. congruence.
Qed.

Lemma flags_of_tnf (tnf : Z) :
  0 <= tnf < 8 ->
  Z.lor (Z.lor (Z.land tnf 7) 128) 64 = 192 + tnf.
Proof.
  intros Ht.
  assert (C : tnf = 0 \/ tnf = 1 \/ tnf = 2 \/ tnf = 3 \/ tnf = 4 \/
              tnf = 5 \/ tnf = 6 \/ tnf = 7) by lia.
  repeat (destruct C as [-> | C]; [reflexivity |]). subst. reflexivity.
Qed.

Lemma pack_I_bytes (v : Z) :
  0 <= v <= 0xFFFFFFFF ->
  exists b3 b2 b1 b0,
    pack_I v = Ok [b3; b2; b1; b0] /\
    is_byte b3 /\ is_byte b2 /\ is_byte b1 /\ is_byte b0 /\
    b3 * 16777216 + b2 * 65536 + b1 * 256 + b0 = v.
Proof.
  intros Hv. unfold pack_I.
  replace ((0 <=? v) && (v <=? 0xFFFFFFFF)) with true
    by (symmetry; apply andb_true_iff; split; apply Z.leb_le; lia).
  do 4 eexists. split; [reflexivity |]. unfold is_byte.
  pose proof (Z.mod_pos_bound v 256 ltac:(lia)).
  pose proof (Z.mod_pos_bound (v / 256) 256 ltac:(lia)).
  pose proof (Z.mod_pos_bound (v / 65536) 256 ltac:(lia)).
  pose proof (Z.div_mod v 256 ltac:(lia)).
  pose proof (Z.div_mod (v / 256) 256 ltac:(lia)).
  pose proof (Z.div_mod (v / 65536) 256 ltac:(lia)).
  replace (v / 256 / 256) with (v / 65536) in *
    by (rewrite Z.div_div by lia; reflexivity).
  replace (v / 65536 / 256) with (v / 16777216) in *
    by (rewrite Z.div_div by lia; reflexivity).
  assert (0 <= v / 16777216 < 256).
  { split; [apply Z.div_pos; lia | apply Z.div_lt_upper_bound; lia]. }
  repeat split; lia.
Qed.

Lemma pack_H_bytes (v : Z) :
  0 <= v <= 0xFFFF ->
  exists hi lo,
    pack_H v = Ok [hi; lo] /\ is_byte hi /\ is_byte lo /\ hi * 256 + lo = v.
Proof.
  intros Hv. unfold pack_H.
  replace ((0 <=? v) && (v <=? 0xFFFF)) with true
    by (symmetry; apply andb_true_iff; split; apply Z.leb_le; lia).
  do 2 eexists. split; [reflexivity |]. unfold is_byte.
  pose proof (Z.mod_pos_bound v 256 ltac:(lia)).
  pose proof (Z.div_mod v 256 ltac:(lia)).
  assert (0 <= v / 256 < 256).
  { split; [apply Z.div_pos; lia | apply Z.div_lt_upper_bound; lia]. }
  repeat split; lia.
Qed.

(** C3.  Every record the encoder builds ([_make_ndef_record] with both
    message flags at their defaults, a TNF of three bits, a type of at
    most 255 bytes and a payload length of 32 bits) starts with a flag
    byte whose bits 7 (message begin) and 6 (message end) are set and whose
    low three bits are the TNF, followed by the type length.  With a
    payload of at most 255 bytes bit 4 (short record) is set and the
    payload length is one byte; from 256 bytes on bit 4 is clear and the
    payload length is four big-endian bytes.  Type and payload follow. *)
Theorem record_header_form (tnf : Z) (rec_type payload : bytes) :
  0 <= tnf < 8 ->
  len rec_type <= 255 ->
  len payload <= 0xFFFFFFFF ->
  exists flags length_field,
    _make_ndef_record tnf rec_type payload true true
      = Ok ([flags; len rec_type] ++ length_field ++ rec_type ++ payload) /\
    Z.testbit flags 7 = true /\
    Z.testbit flags 6 = true /\
    Z.land flags 0x07 = tnf /\
    (len payload <= 255 ->
       Z.testbit flags 4 = true /\ length_field = [len payload]) /\
    (256 <= len payload ->
       Z.testbit flags 4 = false /\
       exists b3 b2 b1 b0,
         length_field = [b3; b2; b1; b0] /\
         is_byte b3 /\ is_byte b2 /\ is_byte b1 /\ is_byte b0 /\
         b3 * 16777216 + b2 * 65536 + b1 * 256 + b0 = len payload).
Proof.
  intros Ht Hty Hp.
  pose proof (len_nonneg rec_type) as Hty0.
  pose proof (len_nonneg payload) as Hp0.
  assert (C : tnf = 0 \/ tnf = 1 \/ tnf = 2 \/ tnf = 3 \/ tnf = 4 \/
              tnf = 5 \/ tnf = 6 \/ tnf = 7) by lia.
  unfold _make_ndef_record. rewrite (flags_of_tnf tnf Ht).
  assert (Bty : pack_B (len rec_type) = Ok [len rec_type]).
  { unfold pack_B.
    replace ((0 <=? len rec_type) && (len rec_type <=? 255)) with true;
      [reflexivity |].
    symmetry; apply andb_true_iff; split; apply Z.leb_le; lia. }
  destruct (len payload <=? 255) eqn:Hshort.
  - apply Z.leb_le in Hshort.
    assert (Bp : pack_B (len payload) = Ok [len payload]).
    { unfold pack_B.
      replace ((0 <=? len payload) && (len payload <=? 255)) with true;
        [reflexivity |].
      symmetry; apply andb_true_iff; split; apply Z.leb_le; lia. }
    exists (Z.lor (192 + tnf) 16), [len payload].
    split.
    { simpl pack. rewrite Bty, Bp.
      repeat (destruct C as [-> | C]; [reflexivity |]). subst. reflexivity. }
    repeat split;
      try (repeat (destruct C as [-> | C]; [reflexivity |]);
           subst; reflexivity);
      try reflexivity; lia.
  - apply Z.leb_gt in Hshort.
    destruct (pack_I_bytes (len payload) ltac:(lia))
      as (b3 & b2 & b1 & b0 & E & R3 & R2 & R1 & R0 & S).
    exists (192 + tnf), [b3; b2; b1; b0].
    split.
    { simpl pack. rewrite Bty, E.
      repeat (destruct C as [-> | C]; [reflexivity |]). subst. reflexivity. }
    repeat split;
      try (repeat (destruct C as [-> | C]; [reflexivity |]);
           subst; reflexivity);
      try lia.
    exists b3, b2, b1, b0. repeat split; try apply R3; try apply R2;
      try apply R1; try apply R0; lia.
Qed.

(** ** The container *)

Lemma last_app_one (a : bytes) (x d : Z) : last (a ++ [x]) d = x.
Proof. apply last_last. Qed.

Lemma wrap_tlv_container (message out : bytes) :
  _wrap_tlv message = Ok out ->
  tlv_container out message /\ hd_error out = Some 0x03 /\ last out 0 = 0xFE.
Proof.
  unfold _wrap_tlv. destruct (len message <? 255) eqn:Hl; intros Hw.
  - apply Z.ltb_lt in Hl. injection Hw as <-. split; [| split].
    + exists [len message]. split; [reflexivity |]. left. auto.
    + reflexivity.
    + exact (last_app_one (3 :: len message :: message) 254 0).
  - apply Z.ltb_ge in Hl. simpl pack in Hw.
    destruct (pack_H (len message)) as [field | e] eqn:Ep;
      [| discriminate].
    unfold pack_H in Ep.
    destruct ((0 <=? len message) && (len message <=? 65535)) eqn:Hr;
      [| discriminate].
    apply andb_true_iff in Hr. destruct Hr as [H0 H1].
    apply Z.leb_le in H0, H1.
    destruct (pack_H_bytes (len message) ltac:(lia))
      as (hi & lo & Eq & Rh & Rl & Hs).
    unfold pack_H in Eq.
    replace ((0 <=? len message) && (len message <=? 65535)) with true in Eq
      by (symmetry; apply andb_true_iff; split; apply Z.leb_le; lia).
    injection Eq as Ehi Elo. injection Ep as <-.
    simpl in Hw. injection Hw as <-.
    rewrite Ehi, Elo. split; [| split].
    + exists [255; hi; lo]. split; [reflexivity |]. right.
      split; [lia |]. exists hi, lo. auto.
    + reflexivity.
    + exact (last_app_one (3 :: 255 :: hi :: lo :: message) 254 0).
Qed.

Lemma wrapped_record (tnf : Z) (rec_type payload record out : bytes) :
  _make_ndef_record tnf rec_type payload true true = Ok record ->
  _wrap_tlv record = Ok out ->
  exists record,
    built_record record /\ tlv_container out record /\
    hd_error out = Some 0x03 /\ last out 0 = 0xFE.
Proof.
  intros Hm Hw. exists record. split.
  - exists tnf, rec_type, payload. exact Hm.
  - apply wrap_tlv_container. exact Hw.
Qed.

Lemma encode_url_container `{UnicodeData} (url out : bytes) :
  encode_url url = Ok out ->
  exists record,
    built_record record /\ tlv_container out record /\
    hd_error out = Some 0x03 /\ last out 0 = 0xFE.
Proof.
  unfold encode_url.
  destruct (scan_prefixes _ _) as [prefix_code uri_field].
  intros Hx. ok_inv Hx. eauto using wrapped_record.
Qed.

(** C2.  Whatever one of the seven encoders returns begins with 0x03 and
    ends with 0xFE, and between them stand the length field and a record
    the encoder built: the length of the record in one byte when the
    record is shorter than 255 bytes, and 0xFF with the length in two
    big-endian bytes otherwise. *)
Theorem encode_container `{UnicodeData} (x : content_kind) (out : bytes) :
  encode x = Ok out ->
  exists record,
    built_record record /\ tlv_container out record /\
    hd_error out = Some 0x03 /\ last out 0 = 0xFE.
Proof.
  destruct x; simpl encode.
  - apply encode_url_container.
  - unfold encode_text. intros Hx. ok_inv Hx. eauto using wrapped_record.
  - unfold encode_vcard. intros Hx. ok_inv Hx. eauto using wrapped_record.
  - unfold encode_phone. intros Hx. ok_inv Hx. eauto using wrapped_record.
  - unfold encode_email. intros Hx. ok_inv Hx. eauto using wrapped_record.
  - unfold encode_social.
    destruct (lookup SOCIAL_PLATFORMS _); [| discriminate].
    apply encode_url_container.
  - unfold encode_wifi. intros Hx. ok_inv Hx. eauto using wrapped_record.
Qed.

Lemma encode_container_witness :
  exists record,
    built_record record /\
    tlv_container
      [3; 8; 209; 1; 4; 85; 4; 97; 46; 98; 254] record /\
    hd_error [3; 8; 209; 1; 4; 85; 4; 97; 46; 98; 254] = Some 0x03 /\
    last [3; 8; 209; 1; 4; 85; 4; 97; 46; 98; 254] 0 = 0xFE.
Proof.
  apply (encode_container (Url (lit "https://a.b"))). reflexivity.
Defined.

(** Both length encodings, on the two sides of the boundary: a text record
    of 254 bytes and one of 255 bytes. *)
Lemma container_boundary :
  (exists rest,
     encode (Text (repeat 97 247) (lit "en")) = Ok (3 :: 254 :: rest) /\
    len rest = 254 + 1) /\
    (exists rest,
     encode (Text (repeat 97 248) (lit "en")) = Ok (3 :: 255 :: 0 :: 255 :: rest) /\
    len rest = 255 + 1).
Proof.
  split; eexists; split; try (vm_compute; reflexivity); reflexivity.
Qed.

(** ** Decoding what was encoded *)

Lemma firstn_exact {A} (a b : list A) : firstn (length a) (a ++ b) = a.
Proof. induction a; simpl; congruence. Qed.
Lemma skipn_exact {A} (a b : list A) : skipn (length a) (a ++ b) = b.
Proof. induction a; simpl; congruence. Qed.

Ltac idx :=
  repeat first
    [ progress cbn [bind]
    | match goal with
      | |- context [index (?x :: ?l) ?i] =>
          let r := eval cbv in (index (x :: l) i) in
          progress change (index (x :: l) i) with r
      end ].

Lemma slice_mid {A} (pre mid post : list A) (i j : Z) :
  i = len pre -> j = i + len mid -> slice i j (pre ++ mid ++ post) = mid.
Proof.
  intros -> ->. unfold slice, len.
  replace (Z.of_nat (length pre) + Z.of_nat (length mid)
           - Z.of_nat (length pre)) with (Z.of_nat (length mid)) by lia.
  rewrite !Nat2Z.id, skipn_exact. apply firstn_exact.
Qed.

Ltac header_slice :=
  match goal with
  | |- context [slice ?a ?b (?x :: ?l)] =>
      match goal with
      | |- context [unpack_H (slice a b (x :: l))] => idtac
      | |- context [unpack_I (slice a b (x :: l))] => idtac
      end;
      let r := eval cbv in (slice a b (x :: l)) in
      change (slice a b (x :: l)) with r
  end; cbn [unpack_H unpack_I].

Lemma parse_short_record `{UnicodeData} L F TL PL ty p :
  (L =? 255) = false -> (Z.land F 16 =? 0) = false ->
  TL = len ty -> PL = len p ->
  parse_ndef (3 :: L :: F :: TL :: PL :: (ty ++ p) ++ [254])
  = interpret (ascii_decode_replace ty) (Z.land F 7) p.
Proof.
  intros HL HF HT HP.
  unfold parse_ndef, parse_header.
  rewrite !len_cons.
  pose proof (len_nonneg ((ty ++ p) ++ [254])).
  destruct (_ <? 5) eqn:E; [apply Z.ltb_lt in E; lia|]. clear E.
  idx. rewrite Z.eqb_refl. cbn [negb]. idx. rewrite HL. idx.
  rewrite HF. cbn [negb]. idx.
  rewrite <- app_assoc. f_equal; [f_equal |].
  - apply (slice_mid [3; L; F; TL; PL] ty (p ++ [254])); [reflexivity | subst; reflexivity].
  - apply (slice_mid ([3; L; F; TL; PL] ++ ty) p [254]).
    + rewrite len_app. subst. reflexivity.
    + subst. reflexivity.
Qed.

Lemma parse_long_tlv `{UnicodeData} h l F TL PL ty p :
  (Z.land F 16 =? 0) = false ->
  TL = len ty -> PL = len p ->
  parse_ndef (3 :: 255 :: h :: l :: F :: TL :: PL :: (ty ++ p) ++ [254])
  = interpret (ascii_decode_replace ty) (Z.land F 7) p.
Proof.
  intros HF HT HP.
  unfold parse_ndef, parse_header.
  rewrite !len_cons.
  pose proof (len_nonneg ((ty ++ p) ++ [254])).
  destruct (_ <? 5) eqn:E; [apply Z.ltb_lt in E; lia|]. clear E.
  idx. rewrite !Z.eqb_refl. cbn [negb]. header_slice. idx.
  rewrite HF. cbn [negb]. idx.
  rewrite <- app_assoc. f_equal; [f_equal |].
  - apply (slice_mid [3; 255; h; l; F; TL; PL] ty (p ++ [254])); [reflexivity | subst; reflexivity].
  - apply (slice_mid ([3; 255; h; l; F; TL; PL] ++ ty) p [254]).
    + rewrite len_app. subst. reflexivity.
    + subst. reflexivity.
Qed.

Lemma parse_long_record `{UnicodeData} h l F TL b3 b2 b1 b0 ty p :
  (Z.land F 16 =? 0) = true ->
  TL = len ty -> b3 * 16777216 + b2 * 65536 + b1 * 256 + b0 = len p ->
  parse_ndef (3 :: 255 :: h :: l :: F :: TL :: b3 :: b2 :: b1 :: b0
                :: (ty ++ p) ++ [254])
  = interpret (ascii_decode_replace ty) (Z.land F 7) p.
Proof.
  intros HF HT HP.
  unfold parse_ndef, parse_header.
  rewrite !len_cons.
  pose proof (len_nonneg ((ty ++ p) ++ [254])).
  destruct (_ <? 5) eqn:E; [apply Z.ltb_lt in E; lia|]. clear E.
  idx. rewrite !Z.eqb_refl. cbn [negb]. header_slice. idx.
  rewrite HF. cbn [negb]. header_slice. idx. rewrite HP.
  rewrite <- app_assoc. f_equal; [f_equal |].
  - apply (slice_mid [3; 255; h; l; F; TL; b3; b2; b1; b0] ty (p ++ [254])); [reflexivity | subst; reflexivity].
  - apply (slice_mid ([3; 255; h; l; F; TL; b3; b2; b1; b0] ++ ty) p [254]).
    + rewrite len_app. subst. reflexivity.
    + subst. reflexivity.
Qed.

(** ** UTF-8 *)

Lemma utf8_scan_cons (ch : Z) (r1 : bytes) :
  utf8_scan (ch :: r1) =
      if ch <? 0x80 then Some ch :: utf8_scan r1
      else if ch <? 0xC2 then None :: utf8_scan r1
      else if ch <? 0xE0 then
        match r1 with
        | [] => [None]
        | ch2 :: r2 =>
            if is_cont ch2
            then Some (ch * 64 + ch2 - 0x3080) :: utf8_scan r2
            else None :: utf8_scan r1
        end
      else if ch <? 0xF0 then
        match r1 with
        | [] => [None]
        | ch2 :: r2 =>
            if negb (is_cont ch2)
               || (if ch2 <? 0xA0 then ch =? 0xE0 else ch =? 0xED)
            then None :: utf8_scan r1
            else
              match r2 with
              | [] => [None]
              | ch3 :: r3 =>
                  if is_cont ch3
                  then Some (ch * 4096 + ch2 * 64 + ch3 - 0xE2080)
                         :: utf8_scan r3
                  else None :: utf8_scan r2
              end
        end
      else if ch <? 0xF5 then
        match r1 with
        | [] => [None]
        | ch2 :: r2 =>
            if negb (is_cont ch2)
               || (if ch2 <? 0x90 then ch =? 0xF0 else ch =? 0xF4)
            then None :: utf8_scan r1
            else
              match r2 with
              | [] => [None]
              | ch3 :: r3 =>
                  if negb (is_cont ch3)
                  then None :: utf8_scan r2
                  else
                    match r3 with
                    | [] => [None]
                    | ch4 :: r4 =>
                        if is_cont ch4
                        then Some (ch * 262144 + ch2 * 4096 + ch3 * 64 + ch4
                                   - 0x3C82080) :: utf8_scan r4
                        else None :: utf8_scan r3
                    end
              end
        end
      else None :: utf8_scan r1.
Proof. reflexivity. Qed.

Ltac head_if :=
  repeat (match goal with
          | |- (if ?b then _ else _) = _ =>
              match b with
              | context [?x <? ?y] =>
                  destruct (Z.ltb_spec x y); try (exfalso; lia)
              | context [?x <=? ?y] =>
                  destruct (Z.leb_spec x y); try (exfalso; lia)
              | context [?x =? ?y] =>
                  destruct (Z.eqb_spec x y); try (exfalso; lia)
              end
          end; cbv beta iota delta [andb orb negb]).

Lemma split64 (c : Z) : c = 64 * (c / 64) + c mod 64 /\ 0 <= c mod 64 < 64.
Proof.
  split; [apply Z.div_mod; lia | apply Z.mod_pos_bound; lia].
Qed.

Lemma div_4096 (c : Z) : c / 4096 = c / 64 / 64.
Proof. rewrite Z.div_div by lia. reflexivity. Qed.

Lemma div_262144 (c : Z) : c / 262144 = c / 64 / 64 / 64.
Proof. rewrite !Z.div_div by lia. reflexivity. Qed.

Lemma Some_inj {A} (a b : A) : Some a = Some b -> a = b.
Proof. intros E. congruence. Qed.

Lemma utf8_char_scan (c : Z) (bc rest : bytes) :
  utf8_char c = Some bc -> utf8_scan (bc ++ rest) = Some c :: utf8_scan rest.
Proof.
  unfold utf8_char.
  destruct (Z.ltb_spec c 0); [discriminate |].
  destruct (Z.ltb_spec c 128).
  { intros E. apply Some_inj in E. subst bc.
    change ([c] ++ rest) with (c :: rest).
    rewrite utf8_scan_cons. head_if. reflexivity. }
  pose proof (split64 c) as [D1 R1].
  pose proof (split64 (c / 64)) as [D2 R2].
  pose proof (split64 (c / 64 / 64)) as [D3 R3].
  rewrite div_4096, div_262144.
  revert D1 R1 D2 R2 D3 R3.
  generalize ((c / 64 / 64) mod 64) as r3.
  generalize (c / 64 / 64 / 64) as q3.
  generalize ((c / 64) mod 64) as r2.
  generalize (c / 64 / 64) as q2.
  generalize (c mod 64) as r1.
  generalize (c / 64) as q1.
  intros q1 r1 q2 r2 q3 r3 D1 R1 D2 R2 D3 R3.
  destruct (Z.ltb_spec c 2048).
  { intros E. apply Some_inj in E. subst bc.
    change ([192 + q1; 128 + r1] ++ rest)
      with ((192 + q1) :: (128 + r1) :: rest).
    rewrite utf8_scan_cons. unfold is_cont.
    head_if. f_equal. f_equal. lia. }
  destruct (Z.ltb_spec c 65536).
  { destruct (Z.leb_spec 55296 c); destruct (Z.leb_spec c 57343);
      cbv beta iota delta [andb]; try discriminate;
      intros E; apply Some_inj in E; subst bc;
      change ([224 + q2; 128 + r2; 128 + r1] ++ rest)
        with ((224 + q2) :: (128 + r2) :: (128 + r1) :: rest);
      rewrite utf8_scan_cons; unfold is_cont;
      head_if; f_equal; f_equal; lia. }
  destruct (Z.ltb_spec c 1114112); [| discriminate].
  intros E. apply Some_inj in E. subst bc.
  change ([240 + q3; 128 + r3; 128 + r2; 128 + r1] ++ rest)
    with ((240 + q3) :: (128 + r3) :: (128 + r2) :: (128 + r1) :: rest).
  rewrite utf8_scan_cons. unfold is_cont.
  head_if; f_equal; f_equal; lia.
Qed.

Lemma utf8_roundtrip (s : str) (b : bytes) :
  utf8_encode s = Ok b -> utf8_decode_replace b = s.
Proof.
  revert b. induction s as [| c s IH]; intros b; simpl.
  - intros [= <-]. reflexivity.
  - destruct (utf8_char c) as [bc |] eqn:Ec; [| discriminate].
    destruct (utf8_encode s) as [bs | e]; [| discriminate].
    simpl. intros [= <-]. unfold utf8_decode_replace.
    rewrite (utf8_char_scan c bc bs Ec). simpl. f_equal. apply IH. reflexivity.
Qed.

Lemma flag_bits (tnf : Z) :
  0 <= tnf < 8 ->
  (Z.land (208 + tnf) 16 =? 0) = false /\ Z.land (208 + tnf) 7 = tnf /\
  (Z.land (192 + tnf) 16 =? 0) = true /\ Z.land (192 + tnf) 7 = tnf.
Proof.
  intros Ht.
  assert (C : tnf = 0 \/ tnf = 1 \/ tnf = 2 \/ tnf = 3 \/ tnf = 4 \/
              tnf = 5 \/ tnf = 6 \/ tnf = 7) by lia.
  repeat (destruct C as [-> | C]; [repeat split; reflexivity |]).
  subst. repeat split; reflexivity.
Qed.

Lemma be32_sum (v : Z) :
  v / 16777216 * 16777216 + (v / 65536) mod 256 * 65536
  + (v / 256) mod 256 * 256 + v mod 256 = v.
Proof.
  pose proof (Z.div_mod v 256 ltac:(lia)).
  pose proof (Z.div_mod (v / 256) 256 ltac:(lia)).
  pose proof (Z.div_mod (v / 256 / 256) 256 ltac:(lia)).
  replace (v / 65536) with (v / 256 / 256)
    by (rewrite Z.div_div by lia; reflexivity).
  replace (v / 16777216) with (v / 256 / 256 / 256)
    by (rewrite !Z.div_div by lia; reflexivity).
  lia.
Qed.

Lemma len_record_bytes (tnf : Z) (rec_type payload : bytes) :
  len (record_bytes tnf rec_type payload)
  = (if len payload <=? 255 then 3 else 6) + len rec_type + len payload.
Proof.
  unfold record_bytes. destruct (len payload <=? 255);
    rewrite !len_app; unfold len; simpl length; lia.
Qed.

(** The decoder reads back the type, the TNF and the payload of every
    record in its container. *)
Lemma parse_framed `{UnicodeData} (tnf : Z) (rec_type payload : bytes) :
  0 <= tnf < 8 ->
  parse_ndef (tlv_bytes (record_bytes tnf rec_type payload))
  = interpret (ascii_decode_replace rec_type) tnf payload.
Proof.
  intros Ht. destruct (flag_bits tnf Ht) as (S16 & S7 & L16 & L7).
  pose proof (len_record_bytes tnf rec_type payload) as Hlen.
  pose proof (len_nonneg rec_type). pose proof (len_nonneg payload).
  unfold tlv_bytes.
  destruct (len (record_bytes tnf rec_type payload) <? 255) eqn:El.
  - apply Z.ltb_lt in El.
    revert El Hlen. generalize (len (record_bytes tnf rec_type payload)) as L.
    unfold record_bytes. destruct (len payload <=? 255) eqn:Ep.
    + intros L El Hlen.
      rewrite <- S7 at 2.
      apply (parse_short_record L (208 + tnf) (len rec_type) (len payload)
               rec_type payload); try reflexivity; try assumption.
      apply Z.eqb_neq. lia.
    + apply Z.leb_gt in Ep. intros. lia.
  - revert Hlen.
    generalize (len (record_bytes tnf rec_type payload) / 256) as h.
    generalize (len (record_bytes tnf rec_type payload) mod 256) as l.
    generalize (len (record_bytes tnf rec_type payload)) as L.
    unfold record_bytes. destruct (len payload <=? 255) eqn:Ep.
    + intros L l h Hlen.
      rewrite <- S7 at 2.
      apply (parse_long_tlv h l (208 + tnf) (len rec_type) (len payload)
               rec_type payload); try reflexivity; assumption.
    + intros L l h Hlen.
      rewrite <- L7 at 2.
      apply (parse_long_record h l (192 + tnf) (len rec_type)
               (len payload / 16777216) ((len payload / 65536) mod 256)
               ((len payload / 256) mod 256) (len payload mod 256)
               rec_type payload); try reflexivity; try assumption.
      apply be32_sum.
Qed.

(** What an encoder returns once its payload is known. *)
Lemma framed_inv (tnf : Z) (rec_type payload out : bytes) :
  0 <= tnf < 8 ->
  (record <- _make_ndef_record tnf rec_type payload true true ;;
   _wrap_tlv record) = Ok out ->
  out = tlv_bytes (record_bytes tnf rec_type payload) /\
  len rec_type <= 255 /\
  len (record_bytes tnf rec_type payload) <= 65535.
Proof.
  intros Ht Hx. ok_all.
  match goal with
  | M : _make_ndef_record _ _ _ _ _ = Ok _ |- _ =>
      apply make_record_inv in M; [| assumption];
      destruct M as (Hty & Hp & ->)
  end.
  apply wrap_tlv_inv in Hx. destruct Hx as [Hm ->]. auto.
Qed.

Lemma framed_ok (tnf : Z) (rec_type payload : bytes) :
  0 <= tnf < 8 ->
  len rec_type <= 255 ->
  6 + len rec_type + len payload <= 65535 ->
  (record <- _make_ndef_record tnf rec_type payload true true ;;
   _wrap_tlv record) = Ok (tlv_bytes (record_bytes tnf rec_type payload)).
Proof.
  intros Ht Hty Hp. pose proof (len_nonneg rec_type).
  rewrite make_record_ok by lia. cbn [bind].
  apply wrap_tlv_ok. rewrite len_record_bytes.
  destruct (len payload <=? 255); lia.
Qed.

(** A summary that is returned is the one that was computed. *)
Lemma get_info_some `{UnicodeData} (data : bytes) (i : info) :
  parse_ndef data = Ok (Some i) -> get_ndef_payload_info data = Ok (Some i).
Proof. unfold get_ndef_payload_info. intros ->. reflexivity. Qed.


(** ** URI records *)

Lemma startswith_split (s p : str) :
  startswith s p = true -> p ++ slice_from (len p) s = s.
Proof.
  revert s. induction p as [| c p IH]; intros s.
  - reflexivity.
  - destruct s as [| d s]; cbn [startswith]; [discriminate |].
    intros E. apply andb_true_iff in E. destruct E as [Ec Hs].
    apply Z.eqb_eq in Ec. subst d.
    specialize (IH s Hs). unfold slice_from, len in *.
    rewrite Nat2Z.id in *. cbn [length skipn app]. f_equal. exact IH.
Qed.

Lemma scan_prefixes_spec `{UnicodeData} (url : str) (table : list (str * Z))
    (code : Z) (field : str) :
  scan_prefixes url table = (code, field) ->
  (code = 0 /\ field = url) \/
  (exists prefix,
     In (prefix, code) table /\ startswith (lower url) prefix = true /\
     field = slice_from (len prefix) url).
Proof.
  induction table as [| [p c] table IH]; simpl.
  - intros [= <- <-]. left. auto.
  - destruct (startswith (lower url) p) eqn:Es.
    + intros [= <- <-]. right. exists p. auto.
    + intros Hs. destruct (IH Hs) as [? | (q & Hin & ? & ?)]; [left; auto |].
      right. exists q. auto.
Qed.

Lemma sorted_table_codes :
  forallb
    (fun entry =>
       existsb (list_eqb (fst entry)) (map fst URI_PREFIXES)
       && list_eqb (prefix_of_code URI_PREFIXES (snd entry)) (fst entry))
    (sorted (fun x => - len (fst x)) URI_PREFIXES) = true.
Proof. vm_compute. reflexivity. Qed.

Lemma sorted_entry (prefix : str) (code : Z) :
  In (prefix, code) (sorted (fun x => - len (fst x)) URI_PREFIXES) ->
  In prefix (map fst URI_PREFIXES) /\
  prefix_of_code URI_PREFIXES code = prefix.
Proof.
  intros Hin.
  pose proof (proj1 (forallb_forall _ _) sorted_table_codes _ Hin) as Hc.
  cbn [fst snd] in Hc. apply andb_true_iff in Hc. destruct Hc as [Hm Hp].
  apply list_eqb_eq in Hp. split; [| exact Hp].
  apply existsb_exists in Hm. destruct Hm as (q & Hq & Heq).
  apply list_eqb_eq in Heq. subst q. exact Hq.
Qed.

Lemma interpret_uri `{UnicodeData} (code : Z) (field : bytes) :
  interpret (ascii_decode_replace (lit "U")) 1 (code :: field)
  = Ok (Some {| info_type := lit "U"; info_tnf := 1;
                raw_payload := code :: field;
                content_type := lit "URL";
                content := prefix_of_code URI_PREFIXES code
                           ++ utf8_decode_replace field;
                language := None |}).
Proof. reflexivity. Qed.

Lemma uri_record_decoded `{UnicodeData} (code : Z) (field : str)
    (out : bytes) :
  (fb <- utf8_encode field ;;
   record <- _make_ndef_record 0x01 (lit "U") ([code] ++ fb) true true ;;
   _wrap_tlv record) = Ok out ->
  exists i,
    get_ndef_payload_info out = Ok (Some i) /\
    content_type i = lit "URL" /\
    content i = prefix_of_code URI_PREFIXES code ++ field.
Proof.
  intros Hx. apply bind_ok in Hx. destruct Hx as (fb & Ef & Hx).
  apply framed_inv in Hx; [| lia]. destruct Hx as (-> & _ & _).
  eexists. split.
  - apply get_info_some. rewrite parse_framed by lia. apply interpret_uri.
  - cbn [content_type content]. split; [reflexivity |].
    rewrite (utf8_roundtrip field fb Ef). reflexivity.
Qed.

(** ** The recognised prefix *)

Lemma scan_prefixes_longest `{UnicodeData} (url : str)
    (table : list (str * Z)) (code : Z) (field : str) :
  descending table = true ->
  scan_prefixes url table = (code, field) ->
  (code = 0 /\ field = url /\
   forall e, In e table -> startswith (lower url) (fst e) = false) \/
  (exists p,
     In (p, code) table /\ startswith (lower url) p = true /\
     field = slice_from (len p) url /\
     forall e, In e table -> startswith (lower url) (fst e) = true ->
               len (fst e) <= len p).
Proof.
  induction table as [| [p c] table IH]; cbn [descending scan_prefixes].
  - intros _ [= <- <-]. left. repeat split. intros e [].
  - intros Hd. apply andb_true_iff in Hd. destruct Hd as [Hall Hd].
    destruct (startswith (lower url) p) eqn:Es.
    + intros [= <- <-]. right. exists p. split; [left; reflexivity |].
      split; [exact Es |]. split; [reflexivity |].
      intros e [<- | He] _; [cbn [fst]; lia |].
      pose proof (proj1 (forallb_forall _ _) Hall e He) as Hle.
      apply Z.leb_le in Hle. exact Hle.
    + intros Hs. destruct (IH Hd Hs) as [(-> & -> & Hno) | (q & Hin & Hq & -> & Hmax)].
      * left. repeat split. intros e [<- | He]; [exact Es | apply Hno, He].
      * right. exists q. split; [right; exact Hin |]. split; [exact Hq |].
        split; [reflexivity |].
        intros e [<- | He] Hm; [cbn [fst] in Hm; congruence |].
        apply Hmax; assumption.
Qed.

Lemma longest_match_spec (m : str -> bool) (l : list str) (b : str) :
  let r := fold_left
             (fun best p => if m p && (len best <? len p) then p else best)
             l b in
  (r = b \/ (In r l /\ m r = true)) /\ len b <= len r /\
  forall q, In q l -> m q = true -> len q <= len r.
Proof.
  revert b. induction l as [| p l IH]; intros b; cbn [fold_left].
  - split; [left; reflexivity |]. split; [lia |]. intros q [].
  - specialize (IH (if m p && (len b <? len p) then p else b)).
    cbv zeta in IH. destruct IH as (Hr & Hb & Hmax).
    destruct (m p) eqn:Hp; cbn [andb] in *.
    + destruct (Z.ltb_spec (len b) (len p)) as [Hlt | Hge].
      * split; [| split; [lia |]].
        -- destruct Hr as [-> | [Hin Hm]]; right;
             [split; [left; reflexivity | exact Hp] |
              split; [right; exact Hin | exact Hm]].
        -- intros q [<- | Hq] Hm; [lia | apply Hmax; assumption].
      * split; [| split; [lia |]].
        -- destruct Hr as [-> | [Hin Hm]]; [left; reflexivity |].
           right. split; [right; exact Hin | exact Hm].
        -- intros q [<- | Hq] Hm; [lia | apply Hmax; assumption].
    + split; [| split; [lia |]].
      * destruct Hr as [-> | [Hin Hm]]; [left; reflexivity |].
        right. split; [right; exact Hin | exact Hm].
      * intros q [<- | Hq] Hm; [congruence | apply Hmax; assumption].
Qed.

Lemma table_prefixes_nonempty :
  forallb (fun p => 0 <? len p) (map fst URI_PREFIXES) = true.
Proof. vm_compute. reflexivity. Qed.

(** The recognised prefix is the longest prefix of the table that the URL
    in lower case starts with, and empty when there is none. *)
Lemma recognised_prefix_spec `{UnicodeData} (url : str) :
  (recognised_prefix url = [] /\
   forall q, In q (map fst URI_PREFIXES) ->
             startswith (lower url) q = false) \/
  (In (recognised_prefix url) (map fst URI_PREFIXES) /\
   startswith (lower url) (recognised_prefix url) = true /\
   forall q, In q (map fst URI_PREFIXES) ->
             startswith (lower url) q = true ->
             len q <= len (recognised_prefix url)).
Proof.
  unfold recognised_prefix.
  pose proof (longest_match_spec (startswith (lower url))
                (map fst URI_PREFIXES) []) as Hs.
  cbv zeta in Hs. destruct Hs as (Hr & _ & Hmax).
  destruct Hr as [Hr | [Hin Hm]].
  - left. split; [exact Hr |]. intros q Hq.
    destruct (startswith (lower url) q) eqn:Eq; [| reflexivity].
    specialize (Hmax q Hq Eq). rewrite Hr in Hmax.
    pose proof (proj1 (forallb_forall _ _) table_prefixes_nonempty q Hq)
      as Hn.
    apply Z.ltb_lt in Hn. change (len (@nil Z)) with 0 in Hmax. lia.
  - right. auto.
Qed.

Lemma startswith_same_length (s p q : str) :
  startswith s p = true -> startswith s q = true -> len p = len q -> p = q.
Proof.
  revert s q. induction p as [| c p IH]; intros s q Hp Hq Hl.
  - destruct q; [reflexivity |]. unfold len in Hl. cbn [length] in Hl. lia.
  - destruct q as [| d q]; [unfold len in Hl; cbn [length] in Hl; lia |].
    destruct s as [| x s]; cbn [startswith] in Hp, Hq; [discriminate |].
    apply andb_true_iff in Hp. destruct Hp as [Ec Hp].
    apply andb_true_iff in Hq. destruct Hq as [Ed Hq].
    apply Z.eqb_eq in Ec. apply Z.eqb_eq in Ed. subst c d. f_equal.
    apply (IH s q Hp Hq). rewrite !len_cons in Hl. lia.
Qed.

Lemma sorted_table_descending :
  descending (sorted (fun x => - len (fst x)) URI_PREFIXES) = true.
Proof. vm_compute. reflexivity. Qed.

Lemma table_in_sorted :
  forallb
    (fun p =>
       existsb (fun e => list_eqb (fst e) p)
         (sorted (fun x => - len (fst x)) URI_PREFIXES))
    (map fst URI_PREFIXES) = true.
Proof. vm_compute. reflexivity. Qed.

Lemma in_sorted_table (p : str) :
  In p (map fst URI_PREFIXES) ->
  exists c, In (p, c) (sorted (fun x => - len (fst x)) URI_PREFIXES).
Proof.
  intros Hp.
  pose proof (proj1 (forallb_forall _ _) table_in_sorted p Hp) as He.
  apply existsb_exists in He. destruct He as ([q c] & Hin & Heq).
  cbn [fst] in Heq. apply list_eqb_eq in Heq. subst q. exists c. exact Hin.
Qed.

(** The loop of [encode_url] finds the recognised prefix. *)
Lemma scan_longest `{UnicodeData} (url r : str) (code : Z) (field : str) :
  scan_prefixes url (sorted (fun x => - len (fst x)) URI_PREFIXES)
    = (code, field) ->
  (r = [] /\
   forall q, In q (map fst URI_PREFIXES) ->
             startswith (lower url) q = false) \/
  (In r (map fst URI_PREFIXES) /\
   startswith (lower url) r = true /\
   forall q, In q (map fst URI_PREFIXES) ->
             startswith (lower url) q = true -> len q <= len r) ->
  field = slice_from (len r) url /\ prefix_of_code URI_PREFIXES code = r.
Proof.
  intros Hs Hspec.
  apply (scan_prefixes_longest url _ code field sorted_table_descending)
    in Hs.
  destruct Hspec as [[Hr Hno] | (Hin & Hm & Hmax)].
  - rewrite Hr.
    destruct Hs as [(-> & -> & _) | (p & Hp & Hq & _)].
    + split; reflexivity.
    + apply sorted_entry in Hp. destruct Hp as [Hp _].
      rewrite (Hno p Hp) in Hq. discriminate.
  - destruct Hs as [(_ & _ & Hno) | (p & Hp & Hq & -> & Hlong)].
    + destruct (in_sorted_table _ Hin) as (c & Hc).
      specialize (Hno _ Hc). cbn [fst] in Hno. congruence.
    + destruct (in_sorted_table _ Hin) as (c & Hc).
      pose proof (Hlong _ Hc Hm) as H1. cbn [fst] in H1.
      destruct (sorted_entry _ _ Hp) as [Hpt Hcode].
      pose proof (Hmax p Hpt Hq) as H2.
      assert (E : p = r)
        by (apply (startswith_same_length (lower url)); [assumption .. | lia]).
      rewrite Hcode, <- E. split; reflexivity.
Qed.

(** The loop of [encode_url] finds the recognised prefix. *)
Lemma scan_recognised `{UnicodeData} (url : str) (code : Z) (field : str) :
  scan_prefixes url (sorted (fun x => - len (fst x)) URI_PREFIXES)
    = (code, field) ->
  field = slice_from (len (recognised_prefix url)) url /\
  prefix_of_code URI_PREFIXES code = recognised_prefix url.
Proof.
  intros Hs.
  exact (scan_longest url (recognised_prefix url) code field Hs
           (recognised_prefix_spec url)).
Qed.

Lemma split_recognised `{UnicodeData} (url r : str) :
  (r = [] /\
   forall q, In q (map fst URI_PREFIXES) ->
             startswith (lower (strip url)) q = false) \/
  (In r (map fst URI_PREFIXES) /\
   startswith (lower (strip url)) r = true /\
   forall q, In q (map fst URI_PREFIXES) ->
             startswith (lower (strip url)) q = true -> len q <= len r) ->
  prefix_as_in_table url ->
  r ++ slice_from (len r) (strip url) = strip url.
Proof.
  intros [[-> _] | (Hin & Hm & _)] Hlit.
  - reflexivity.
  - apply startswith_split. apply Hlit; assumption.
Qed.

Lemma uri_field_eq `{UnicodeData} (url : str) :
  uri_field url
  = slice_from (len (recognised_prefix (strip url))) (strip url).
Proof. reflexivity. Qed.

Lemma url_decoded `{UnicodeData} (url : str) (out : bytes) :
  encode_url url = Ok out ->
  exists i,
    get_ndef_payload_info out = Ok (Some i) /\
    content_type i = lit "URL" /\
    url_recovered url (content i) /\
    (prefix_as_in_table url -> content i = strip url).
Proof.
  unfold encode_url, url_recovered.
  destruct (scan_prefixes _ _) as [code field] eqn:Es. intros Hx.
  apply uri_record_decoded in Hx. destruct Hx as (i & Hi & Ht & Hc).
  exists i. split; [exact Hi |]. split; [exact Ht |].
  apply scan_recognised in Es. destruct Es as [-> Hp].
  rewrite uri_field_eq, Hc, Hp. split; [reflexivity |].
  exact (split_recognised url _ (recognised_prefix_spec (strip url))).
Qed.


Lemma startswith_app (a b : str) : startswith (a ++ b) a = true.
Proof.
  induction a as [| c a IH]; [reflexivity |].
  cbn [app startswith]. rewrite Z.eqb_refl. exact IH.
Qed.

Lemma phone_decoded `{UnicodeData} (phone : str) (out : bytes) :
  encode_phone phone = Ok out ->
  exists i,
    get_ndef_payload_info out = Ok (Some i) /\
    content_type i = lit "URL" /\
    content i = lit "tel:" ++ remove_char 45 (remove_char 32 (strip phone)).
Proof. unfold encode_phone. intros Hx. apply uri_record_decoded in Hx. exact Hx. Qed.

Lemma email_decoded `{UnicodeData} (email subject body : str)
    (out : bytes) :
  encode_email email subject body = Ok out ->
  exists i,
    get_ndef_payload_info out = Ok (Some i) /\
    content_type i = lit "URL" /\
    content i = lit "mailto:" ++ strip email ++ mailto_query subject body.
Proof.
  unfold encode_email. cbv zeta. intros Hx.
  apply uri_record_decoded in Hx.
  destruct Hx as (i & Hi & Ht & Hc). exists i. split; [exact Hi |].
  split; [exact Ht |]. rewrite Hc.
  change (prefix_of_code URI_PREFIXES 6) with (lit "mailto:").
  destruct subject as [| s0 subject]; destruct body as [| b0 body];
    cbn [app join mailto_query]; rewrite ?app_nil_r; try reflexivity.
Qed.

(** ** Text records *)

Lemma ascii_roundtrip (s : str) (b : bytes) :
  ascii_encode s = Ok b -> b = s /\ ascii_decode b = Ok s.
Proof.
  revert b. induction s as [| c s IH]; intros b; cbn [ascii_encode].
  - intros E. injection E as <-. auto.
  - destruct (is_ascii c) eqn:Ec; [| discriminate].
    destruct (ascii_encode s) as [bs | e]; [| discriminate].
    cbn [bind]. intros E. injection E as <-.
    destruct (IH bs eq_refl) as [-> Hd]. split; [reflexivity |].
    cbn [ascii_decode]. unfold is_ascii in Ec.
    apply andb_true_iff in Ec. destruct Ec as [_ Ec]. rewrite Ec, Hd.
    reflexivity.
Qed.

Lemma land_63 (n : Z) : 0 <= n < 64 -> Z.land n 63 = n.
Proof.
  intros Hn. change 63 with (Z.ones 6). rewrite Z.land_ones by lia.
  apply Z.mod_small. exact Hn.
Qed.

Lemma slice_from_app {A} (pre post : list A) :
  slice_from (len pre) (pre ++ post) = post.
Proof. unfold slice_from, len. rewrite Nat2Z.id. apply skipn_exact. Qed.

Lemma interpret_text `{UnicodeData} (st : Z) (lang_bytes text_bytes : bytes)
    (lang : str) :
  Z.land st 63 = len lang_bytes ->
  ascii_decode lang_bytes = Ok lang ->
  interpret (ascii_decode_replace (lit "T")) 1
    (st :: lang_bytes ++ text_bytes)
  = Ok (Some {| info_type := lit "T"; info_tnf := 1;
                raw_payload := st :: lang_bytes ++ text_bytes;
                content_type := lit "Text";
                content := utf8_decode_replace text_bytes;
                language := Some lang |}).
Proof.
  intros Hst Hl. unfold interpret.
  change (list_eqb (ascii_decode_replace (lit "T")) (lit "U") && (1 =? 1))
    with false.
  change (list_eqb (ascii_decode_replace (lit "T")) (lit "T") && (1 =? 1))
    with true.
  cbv beta iota zeta.
  change (index (st :: lang_bytes ++ text_bytes) 0) with (@Ok Z st).
  cbn [bind]. rewrite Hst.
  replace (slice 1 (1 + len lang_bytes) (st :: lang_bytes ++ text_bytes))
    with lang_bytes
    by (symmetry;
        exact (slice_mid [st] lang_bytes text_bytes 1 (1 + len lang_bytes)
                 eq_refl eq_refl)).
  rewrite Hl. cbn [bind].
  replace (slice_from (1 + len lang_bytes) (st :: lang_bytes ++ text_bytes))
    with text_bytes; [reflexivity |].
  symmetry.
  replace (1 + len lang_bytes) with (len (st :: lang_bytes))
    by (unfold len; simpl length; lia).
  exact (slice_from_app (st :: lang_bytes) text_bytes).
Qed.

Lemma text_decoded `{UnicodeData} (text lang : str) (out : bytes) :
  encode_text text lang = Ok out ->
  len lang < 64 ->
  exists i,
    get_ndef_payload_info out = Ok (Some i) /\
    content_type i = lit "Text" /\
    content i = strip text /\ language i = Some lang.
Proof.
  unfold encode_text. intros Hx Hlang.
  apply bind_ok in Hx. destruct Hx as (lb & El & Hx).
  apply bind_ok in Hx. destruct Hx as (tb & Et & Hx).
  apply framed_inv in Hx; [| lia]. destruct Hx as (-> & _ & _).
  apply ascii_roundtrip in El. destruct El as [-> Hd].
  pose proof (len_nonneg lang).
  eexists. split.
  - apply get_info_some. rewrite parse_framed by lia.
    apply (interpret_text (Z.land (len lang) 63) lang tb lang);
      [| exact Hd].
    rewrite !land_63; try reflexivity; rewrite ?land_63; lia.
  - cbn [content_type content language].
    rewrite (utf8_roundtrip _ _ Et). auto.
Qed.

(** ** MIME records *)

Lemma interpret_vcard `{UnicodeData} (payload : bytes) :
  interpret (ascii_decode_replace (lit "text/vcard")) 2 payload
  = Ok (Some {| info_type := lit "text/vcard"; info_tnf := 2;
                raw_payload := payload;
                content_type := lit "vCard";
                content := utf8_decode_replace payload;
                language := None |}).
Proof. reflexivity. Qed.

Lemma interpret_wifi `{UnicodeData} (payload : bytes) :
  interpret (ascii_decode_replace (lit "application/vnd.wfa.wsc")) 2 payload
  = Ok (Some {| info_type := lit "application/vnd.wfa.wsc"; info_tnf := 2;
                raw_payload := payload;
                content_type := lit "WiFi";
                content := lit "[WiFi Configuration Data]";
                language := None |}).
Proof. reflexivity. Qed.

(** ** The contact block *)

Lemma dropwhile_head (p : Z -> bool) (s : str) :
  match dropwhile p s with
  | [] => True
  | c :: _ => p c = false
  end.
Proof.
  induction s as [| c s IH]; cbn [dropwhile]; [exact I |].
  destruct (p c) eqn:Ec; [exact IH | exact Ec].
Qed.

Lemma rstrip_head (c : Z) (s : str) :
  isspace c = false -> exists r, rstrip (c :: s) = c :: r.
Proof.
  intros Hc. cbn [rstrip]. destruct (rstrip s) as [| r0 r].
  - rewrite Hc. eauto.
  - eauto.
Qed.

Lemma strip_no_leading_space (s : str) :
  dropwhile isspace (strip s) = strip s.
Proof.
  unfold strip, lstrip. pose proof (dropwhile_head isspace s) as Hh.
  destruct (dropwhile isspace s) as [| c t]; [reflexivity |].
  destruct (rstrip_head c t Hh) as (r & ->).
  cbn [dropwhile]. rewrite Hh. reflexivity.
Qed.

Lemma vcard_text_named (name phone email org title url address note : str) :
  strip name <> [] ->
  vcard_text name phone email org title url address note
  = Ok (vcard_block name phone email org title url address note).
Proof.
  intros Hn. unfold vcard_text, vcard_block, split_max1, name_line,
    after_first_word, first_word.
  rewrite strip_no_leading_space.
  destruct (strip name) as [| c t] eqn:En; [contradiction |].
  destruct (dropwhile isspace
              (dropwhile (fun c0 => negb (isspace c0)) (c :: t)))
    as [| f family]; cbn [bind]; rewrite <- !app_assoc; reflexivity.
Qed.

Lemma vcard_decoded `{UnicodeData}
    (name phone email org title url address note : str) (out : bytes) :
  encode_vcard name phone email org title url address note = Ok out ->
  exists i,
    get_ndef_payload_info out = Ok (Some i) /\
    content_type i = lit "vCard" /\
    content i = vcard_block name phone email org title url address note.
Proof.
  unfold encode_vcard. intros Hx.
  apply bind_ok in Hx. destruct Hx as (vt & Ev & Hx).
  apply bind_ok in Hx. destruct Hx as (pb & Ep & Hx).
  apply framed_inv in Hx; [| lia]. destruct Hx as (-> & _ & _).
  assert (Hn : strip name <> []).
  { intros Hn. unfold vcard_text in Ev. rewrite Hn in Ev. discriminate. }
  rewrite (vcard_text_named name phone email org title url address note Hn)
    in Ev.
  injection Ev as <-.
  eexists. split.
  - apply get_info_some. rewrite parse_framed by lia. apply interpret_vcard.
  - cbn [content_type content]. split; [reflexivity |].
    exact (utf8_roundtrip _ _ Ep).
Qed.

Lemma wifi_decoded `{UnicodeData} (ssid password auth_type : str)
    (hidden : bool) (out : bytes) :
  encode_wifi ssid password auth_type hidden = Ok out ->
  exists i,
    get_ndef_payload_info out = Ok (Some i) /\
    content_type i = lit "WiFi" /\
    content i = lit "[WiFi Configuration Data]" /\
    wifi_payload ssid password auth_type = Ok (raw_payload i).
Proof.
  unfold encode_wifi. intros Hx.
  apply bind_ok in Hx. destruct Hx as (pb & Ep & Hx).
  apply framed_inv in Hx; [| lia]. destruct Hx as (-> & _ & _).
  eexists. split.
  - apply get_info_some. rewrite parse_framed by lia. apply interpret_wifi.
  - cbn [content_type content raw_payload]. auto.
Qed.

Lemma prefix_table_reversible :
  forallb prefix_reversible URI_PREFIXES = true.
Proof. vm_compute. reflexivity. Qed.

(** C1, in the form the code satisfies.  Whenever one of the encoders
    returns, the decoder returns a summary of its output, and the summary
    gives back: for a URL (and the URL of a social handle) the stripped
    URL with its recognised prefix as the table spells it, which is the
    stripped URL itself when the prefix is written that way; for a text
    with a language code shorter than 64 characters the stripped text and
    the language code; for a contact the vCard text block of the fields;
    for a phone number the tel: URI of the number without spaces and
    dashes; for an e-mail address the mailto: URI of the stripped address
    with the subject and the body that are not empty; for a WiFi
    credential the record kind, the fixed placeholder text and the raw
    payload, but neither SSID nor authentication type.  The recognised
    prefix is the longest prefix of the table that the URL in lower case
    starts with, and empty when there is none.  Every entry of the prefix
    table is encoded as its code alone and decoded as itself, and
    'https://example.com/path' is encoded with prefix code 0x04 before
    'example.com/path' and decoded as 'https://example.com/path'. *)
Theorem decode_encode_recovers :
  (forall (U : UnicodeData) (x : content_kind) (out : bytes),
     encode x = Ok out ->
     language_fits x ->
     exists i, get_ndef_payload_info out = Ok (Some i) /\ recovers x i) /\
  (forall (U : UnicodeData) (url : str),
     (recognised_prefix url = [] /\
      forall q, In q (map fst URI_PREFIXES) ->
                startswith (lower url) q = false) \/
     (In (recognised_prefix url) (map fst URI_PREFIXES) /\
      startswith (lower url) (recognised_prefix url) = true /\
      forall q, In q (map fst URI_PREFIXES) ->
                startswith (lower url) q = true ->
                len q <= len (recognised_prefix url))) /\
  forallb prefix_reversible URI_PREFIXES = true /\
  encode (Url (lit "https://example.com/path"))
    = Ok (tlv_bytes (record_bytes 0x01 (lit "U")
                       ([0x04] ++ lit "example.com/path"))) /\
  exists i,
    get_ndef_payload_info
      (tlv_bytes (record_bytes 0x01 (lit "U")
                    ([0x04] ++ lit "example.com/path")))
      = Ok (Some i) /\
    content i = lit "https://example.com/path".
Proof.
  split; [| split; [| split; [| split]]].
  2:{ intros U url. exact (recognised_prefix_spec url). }
  - intros U x out Hx Hfit.
    destruct x; cbn [encode] in Hx; cbn [recovers]; cbn [language_fits] in Hfit.
    + apply url_decoded in Hx. exact Hx.
    + apply text_decoded; assumption.
    + apply vcard_decoded in Hx. exact Hx.
    + apply phone_decoded in Hx. exact Hx.
    + apply email_decoded in Hx. exact Hx.
    + unfold encode_social in Hx.
      destruct (lookup SOCIAL_PLATFORMS _) as [template |] eqn:Et;
        [| discriminate].
      apply url_decoded in Hx. destruct Hx as (i & Hi & Ht & Hr & _).
      exists i. split; [exact Hi |]. exists template. auto.
    + apply wifi_decoded in Hx. exact Hx.
  - exact prefix_table_reversible.
  - vm_compute. reflexivity.
  - eexists. split; vm_compute; reflexivity.
Qed.


(** ** Exceptions of the decoder *)

Lemma bind_raise {A B} (c : res A) (k : A -> res B) (e : exn) :
  bind c k = Raise e -> c = Raise e \/ exists a, c = Ok a /\ k a = Raise e.
Proof. destruct c as [a | e']; cbn [bind]; [eauto | intros [= ->]; auto]. Qed.

Lemma index_raise (l : list Z) (i : Z) (e : exn) :
  index l i = Raise e -> e = IndexError.
Proof. unfold index. destruct (nth_error _ _); congruence. Qed.

Lemma unpack_H_raise (b : bytes) (e : exn) :
  unpack_H b = Raise e -> e = StructError.
Proof.
  destruct b as [| ? [| ? [| ? ?]]]; cbn [unpack_H]; congruence.
Qed.

Lemma unpack_I_raise (b : bytes) (e : exn) :
  unpack_I b = Raise e -> e = StructError.
Proof.
  destruct b as [| ? [| ? [| ? [| ? [| ? ?]]]]]; cbn [unpack_I]; congruence.
Qed.

Lemma ascii_decode_raise (b : bytes) (e : exn) :
  ascii_decode b = Raise e -> e = UnicodeDecodeError.
Proof.
  induction b as [| c b IH]; cbn [ascii_decode]; [discriminate |].
  destruct (c <? 128); [| congruence].
  destruct (ascii_decode b); cbn [bind]; [discriminate |].
  intros [= <-]. apply IH. reflexivity.
Qed.

(** Every raising step of a hypothesis, traced to the primitive that
    raised. *)
Ltac raise_inv :=
  repeat match goal with
         | H : Ok _ = Raise _ |- _ => discriminate H
         | H : bind ?c ?k = Raise _ |- _ =>
             let a := fresh "v" in
             let Ha := fresh "E" in
             apply bind_raise in H;
             destruct H as [H | (a & Ha & H)]; cbv beta in H
         | H : (if ?b then _ else _) = Raise _ |- _ => destruct b
         | H : (if ?b then _ else _) = Ok _ |- _ => destruct b
         | H : (let (_, _) := ?p in _) = Raise _ |- _ => destruct p
         | H : index _ _ = Raise _ |- _ => apply index_raise in H
         | H : unpack_H _ = Raise _ |- _ => apply unpack_H_raise in H
         | H : unpack_I _ = Raise _ |- _ => apply unpack_I_raise in H
         end.

Lemma parse_header_raise (data : bytes) (e : exn) :
  parse_header data = Raise e -> e = IndexError \/ e = StructError.
Proof. unfold parse_header. intros Hp. raise_inv; auto. Qed.

Lemma interpret_raise `{UnicodeData} (rec_type : str) (tnf : Z)
    (payload : bytes) (e : exn) :
  interpret rec_type tnf payload = Raise e ->
  e = IndexError \/
  (e = UnicodeDecodeError /\ rec_type = lit "T" /\ tnf = 1 /\
   exists p0,
     index payload 0 = Ok p0 /\
     ascii_decode (slice 1 (1 + Z.land p0 0x3F) payload)
       = Raise UnicodeDecodeError).
Proof.
  unfold interpret.
  destruct (list_eqb rec_type (lit "U") && (tnf =? 1)).
  { intros Hi. raise_inv. auto. }
  destruct (list_eqb rec_type (lit "T") && (tnf =? 1)) eqn:Et.
  { apply andb_true_iff in Et. destruct Et as [Ety Etnf].
    apply list_eqb_eq in Ety. apply Z.eqb_eq in Etnf.
    intros Hi. apply bind_raise in Hi.
    destruct Hi as [Hi | (p0 & E0 & Hi)];
      [apply index_raise in Hi; auto |].
    apply bind_raise in Hi.
    destruct Hi as [Hi | (l & El & Hi)]; [| discriminate].
    pose proof (ascii_decode_raise _ _ Hi) as ->.
    right. repeat split; try assumption. exists p0. auto. }
  destruct (contains _ _); [discriminate |].
  destruct (contains _ _); discriminate.
Qed.

Lemma short_is_none `{UnicodeData} (data : bytes) :
  len data < 5 -> get_ndef_payload_info data = Ok None.
Proof.
  intros Hl. unfold get_ndef_payload_info, parse_ndef, parse_header.
  apply Z.ltb_lt in Hl. rewrite Hl. reflexivity.
Qed.

Lemma wrong_tag_is_none `{UnicodeData} (data : bytes) :
  hd_error data <> Some 0x03 -> get_ndef_payload_info data = Ok None.
Proof.
  intros Hh. unfold get_ndef_payload_info, parse_ndef, parse_header.
  destruct (len data <? 5); [reflexivity |].
  destruct data as [| d0 data]; [reflexivity |].
  change (index (d0 :: data) 0) with (@Ok Z d0). cbn [bind].
  destruct (Z.eqb_spec d0 3) as [-> | Hd]; [| reflexivity].
  exfalso. apply Hh. reflexivity.
Qed.

Ltac read_bytes :=
  cbn [bind];
  repeat match goal with
         | |- context [index ?l ?i] =>
             let v := eval cbv in (index l i) in
             change (index l i) with v; cbn [bind]
         | |- context [unpack_H (slice ?i ?j ?l)] =>
             let v := eval cbv in (slice i j l) in
             change (slice i j l) with v; cbn [unpack_H bind]
         | |- context [unpack_I (slice ?i ?j ?l)] =>
             let v := eval cbv in (slice i j l) in
             change (slice i j l) with v; cbn [unpack_I bind]
         end.

Ltac too_short H := exfalso; unfold len in H; cbn [length] in H; lia.

Lemma parse_header_present (data : bytes) :
  header_present data ->
  parse_header data
  = Ok (Some (ascii_decode_replace (type_present data),
              Z.land (flag_byte data) 0x07, payload_present data)).
Proof.
  intros (Hl & H0 & He).
  destruct data as [| d0 [| d1 [| d2 [| d3 [| d4 rest]]]]];
    try too_short Hl.
  unfold byte_at in H0. cbn in H0. subst d0.
  unfold parse_header.
  destruct (Z.ltb_spec (len (3 :: d1 :: d2 :: d3 :: d4 :: rest)) 5); [lia |].
  read_bytes. change (negb (3 =? 3)) with false. cbv iota. read_bytes.
  unfold type_present, payload_present, declared_type_len,
    declared_payload_len, header_end, short_record, flag_byte, record_at
    in *.
  change (byte_at (3 :: d1 :: d2 :: d3 :: d4 :: rest) 1) with d1 in *.
  destruct (d1 =? 255).
  - read_bytes.
    change (byte_at (3 :: d1 :: d2 :: d3 :: d4 :: rest) 4) with d4 in *.
    destruct rest as [| d5 rest].
    { destruct (negb (Z.land d4 16 =? 0)); too_short He. }
    read_bytes.
    change (byte_at (3 :: d1 :: d2 :: d3 :: d4 :: d5 :: rest) (4 + 1))
      with d5 in *.
    destruct (negb (Z.land d4 16 =? 0)).
    + destruct rest as [| d6 rest]; [too_short He |].
      read_bytes. reflexivity.
    + destruct rest as [| d6 [| d7 [| d8 [| d9 rest]]]]; try too_short He.
      read_bytes. reflexivity.
  - read_bytes.
    change (byte_at (3 :: d1 :: d2 :: d3 :: d4 :: rest) 2) with d2 in *.
    change (byte_at (3 :: d1 :: d2 :: d3 :: d4 :: rest) (2 + 1)) with d3 in *.
    destruct (negb (Z.land d2 16 =? 0)).
    + read_bytes. reflexivity.
    + destruct rest as [| d5 [| d6 [| d7 rest]]]; try too_short He.
      read_bytes. reflexivity.
Qed.

Lemma parse_header_absent (data : bytes) :
  ~ header_present data ->
  parse_header data = Ok None \/ parse_header data = Raise IndexError \/
  parse_header data = Raise StructError.
Proof.
  intros Hn. unfold parse_header.
  destruct (Z.ltb_spec (len data) 5) as [Hl | Hl]; [auto |].
  destruct data as [| d0 [| d1 [| d2 [| d3 [| d4 rest]]]]];
    try too_short Hl.
  read_bytes.
  destruct (Z.eqb_spec d0 3) as [-> | H0]; cbn [negb]; [| auto].
  assert (He : ~ header_end (3 :: d1 :: d2 :: d3 :: d4 :: rest)
                 <= len (3 :: d1 :: d2 :: d3 :: d4 :: rest)).
  { intros He. apply Hn. repeat split; [lia | exact He]. }
  clear Hn. read_bytes.
  unfold header_end, short_record, flag_byte, record_at in He.
  change (byte_at (3 :: d1 :: d2 :: d3 :: d4 :: rest) 1) with d1 in *.
  destruct (d1 =? 255).
  - read_bytes.
    change (byte_at (3 :: d1 :: d2 :: d3 :: d4 :: rest) 4) with d4 in *.
    destruct rest as [| d5 rest]; [read_bytes; auto |].
    read_bytes.
    destruct (negb (Z.land d4 16 =? 0)).
    + destruct rest as [| d6 rest]; [read_bytes; auto |].
      exfalso. apply He. unfold len. cbn [length]. lia.
    + destruct rest as [| d6 [| d7 [| d8 [| d9 rest]]]];
        try (read_bytes; auto; fail).
      exfalso. apply He. unfold len. cbn [length]. lia.
  - read_bytes.
    change (byte_at (3 :: d1 :: d2 :: d3 :: d4 :: rest) 2) with d2 in *.
    destruct (negb (Z.land d2 16 =? 0)).
    + exfalso. apply He. unfold len. cbn [length]. lia.
    + destruct rest as [| d5 [| d6 [| d7 rest]]];
        try (read_bytes; auto; fail).
      exfalso. apply He. unfold len. cbn [length]. lia.
Qed.

Lemma replaced_is_letter (tb : bytes) (c : Z) :
  c < 128 ->
  list_eqb (ascii_decode_replace tb) [c] = true <-> tb = [c].
Proof.
  intros Hc. unfold ascii_decode_replace. split.
  - destruct tb as [| x [| y t]]; cbn [map list_eqb]; try discriminate.
    + destruct (Z.ltb_spec x 128); rewrite andb_true_r; intros E;
        apply Z.eqb_eq in E; [subst; reflexivity | lia].
    + rewrite andb_false_r. discriminate.
  - intros ->. cbn [map]. destruct (Z.ltb_spec c 128); [| lia].
    cbn [list_eqb]. rewrite Z.eqb_refl. reflexivity.
Qed.

Lemma ascii_decode_returns (b : bytes) :
  (forall c, In c b -> c < 128) -> exists s, ascii_decode b = Ok s.
Proof.
  induction b as [| c b IH]; intros Hb; cbn [ascii_decode]; [eauto |].
  destruct (Z.ltb_spec c 128) as [_ | Hc].
  - destruct IH as (s & ->); [intros x Hx; apply Hb; right; exact Hx |].
    cbn [bind]. eauto.
  - specialize (Hb c (or_introl eq_refl)). lia.
Qed.

Lemma language_field_cons (p0 : Z) (rest : bytes) :
  language_field (p0 :: rest) = slice 1 (1 + Z.land p0 0x3F) (p0 :: rest).
Proof. reflexivity. Qed.

(** What [interpret] returns for the type and payload bytes of a record. *)
Lemma interpret_cases `{UnicodeData} (tb payload : bytes) (tnf : Z) :
  let ty := ascii_decode_replace tb in
  let lettered c := tb = [c] /\ tnf = 1 in
  ((lettered 0x55 \/ lettered 0x54) -> payload = [] ->
   interpret ty tnf payload = Raise IndexError) /\
  (((lettered 0x55 \/ lettered 0x54) -> payload <> []) ->
   ~ (lettered 0x54 /\
      exists b, In b (language_field payload) /\ 128 <= b) ->
   exists i,
     interpret ty tnf payload = Ok (Some i) /\
     info_type i = ty /\ info_tnf i = tnf /\ raw_payload i = payload).
Proof.
  intros ty lettered. unfold interpret.
  change (lit "U") with [0x55]. change (lit "T") with [0x54].
  assert (HU : list_eqb ty [0x55] && (tnf =? 1) = true <-> lettered 0x55).
  { unfold lettered, ty. rewrite andb_true_iff, Z.eqb_eq.
    rewrite (replaced_is_letter tb 0x55) by lia. reflexivity. }
  assert (HT : list_eqb ty [0x54] && (tnf =? 1) = true <-> lettered 0x54).
  { unfold lettered, ty. rewrite andb_true_iff, Z.eqb_eq.
    rewrite (replaced_is_letter tb 0x54) by lia. reflexivity. }
  fold ty.
  destruct (list_eqb ty [0x55] && (tnf =? 1)) eqn:EU.
  { split.
    - intros _ ->. reflexivity.
    - intros Hp _. destruct payload as [| p0 rest].
      + exfalso. apply Hp; [left; apply HU; reflexivity | reflexivity].
      + change (index (p0 :: rest) 0) with (@Ok Z p0). cbn [bind].
        eexists. split; [reflexivity |]. cbn. auto. }
  destruct (list_eqb ty [0x54] && (tnf =? 1)) eqn:ET.
  { split.
    - intros _ ->. reflexivity.
    - intros Hp Hl. destruct payload as [| p0 rest].
      + exfalso. apply Hp; [right; apply HT; reflexivity | reflexivity].
      + change (index (p0 :: rest) 0) with (@Ok Z p0). cbn [bind].
        rewrite <- language_field_cons.
        destruct (ascii_decode_returns (language_field (p0 :: rest)))
          as (s & ->).
        * intros c Hc. destruct (Z.lt_ge_cases c 128) as [Hlt | Hge];
            [exact Hlt |].
          exfalso. apply Hl. split; [apply HT; reflexivity |].
          exists c. split; [exact Hc | lia].
        * cbn [bind]. eexists. split; [reflexivity |]. cbn. auto. }
  split.
  - intros [HL | HL]; [apply HU in HL | apply HT in HL]; discriminate.
  - intros _ _.
    destruct (contains _ _);
      [eexists; split; [reflexivity |]; cbn; auto |].
    destruct (contains _ _); eexists; (split; [reflexivity |]); cbn; auto.
Qed.

Lemma decoder_of_header `{UnicodeData} (data : bytes) :
  header_present data ->
  get_ndef_payload_info data
  = match interpret (ascii_decode_replace (type_present data))
            (Z.land (flag_byte data) 0x07) (payload_present data) with
    | Raise IndexError => Ok None
    | Raise StructError => Ok None
    | r => r
    end.
Proof.
  intros Hp. unfold get_ndef_payload_info, parse_ndef.
  rewrite (parse_header_present data Hp). reflexivity.
Qed.

Lemma no_header_is_none `{UnicodeData} (data : bytes) :
  ~ header_present data -> get_ndef_payload_info data = Ok None.
Proof.
  intros Hn. unfold get_ndef_payload_info, parse_ndef.
  destruct (parse_header_absent data Hn) as [-> | [-> | ->]]; reflexivity.
Qed.

Lemma header_present_dec (data : bytes) :
  header_present data \/ ~ header_present data.
Proof.
  unfold header_present.
  destruct (Z_le_gt_dec 5 (len data)); [| right; lia].
  destruct (Z.eq_dec (byte_at data 0) 3); [| right; tauto].
  destruct (Z_le_gt_dec (header_end data) (len data)); [| right; lia].
  left. auto.
Qed.

Lemma well_known_dec (data : bytes) (ty : Z) :
  well_known data ty \/ ~ well_known data ty.
Proof.
  unfold well_known.
  destruct (list_eq_dec Z.eq_dec (type_present data) [ty]);
    [| right; tauto].
  destruct (Z.eq_dec (Z.land (flag_byte data) 7) 1); [| right; tauto].
  left. auto.
Qed.

(** C4, in the form the code satisfies.  The decoder returns "no result"
    for an input shorter than five bytes, for an input whose first byte is
    not 0x03, where a byte of the container or of the record header lies
    beyond the end of the input, and for a URI or text record (TNF 1, type
    U or T) with no payload byte in the input.  Every other input,
    truncated or with wrong lengths as it may be, is summarised from the
    type and payload bytes that are there, and no exception leaves the
    decoder; a text record whose language field holds a byte that is not
    ASCII is left aside. *)
Theorem decoder_faults (U : UnicodeData) (data : bytes) :
  (len data < 5 -> get_ndef_payload_info data = Ok None) /\
  (hd_error data <> Some 0x03 -> get_ndef_payload_info data = Ok None) /\
  (~ header_present data -> get_ndef_payload_info data = Ok None) /\
  (header_present data ->
   well_known data 0x55 \/ well_known data 0x54 ->
   payload_present data = [] ->
   get_ndef_payload_info data = Ok None) /\
  (header_present data ->
   (well_known data 0x55 \/ well_known data 0x54 ->
    payload_present data <> []) ->
   ~ non_ascii_language data ->
   exists i,
     get_ndef_payload_info data = Ok (Some i) /\
     info_type i = ascii_decode_replace (type_present data) /\
     info_tnf i = Z.land (flag_byte data) 0x07 /\
     raw_payload i = payload_present data) /\
  (~ non_ascii_language data ->
   exists r, get_ndef_payload_info data = Ok r).
Proof.
  pose proof (interpret_cases (type_present data) (payload_present data)
                (Z.land (flag_byte data) 0x07)) as [Hnone Hsome].
  cbv zeta in Hnone, Hsome.
  fold (well_known data 0x55) in Hnone, Hsome.
  fold (well_known data 0x54) in Hnone, Hsome.
  fold (non_ascii_language data) in Hsome.
  split; [apply short_is_none |]. split; [apply wrong_tag_is_none |].
  split; [apply no_header_is_none |]. split; [| split].
  - intros Hp Hk He. rewrite (decoder_of_header data Hp), (Hnone Hk He).
    reflexivity.
  - intros Hp Hk Hl. destruct (Hsome Hk Hl) as (i & Hi & Hr).
    exists i. rewrite (decoder_of_header data Hp), Hi. auto.
  - intros Hl.
    destruct (header_present_dec data) as [Hp | Hp].
    2:{ exists None. apply no_header_is_none, Hp. }
    rewrite (decoder_of_header data Hp).
    assert (Hk : (well_known data 0x55 \/ well_known data 0x54) \/
                 ~ (well_known data 0x55 \/ well_known data 0x54)).
    { destruct (well_known_dec data 0x55); [auto |].
      destruct (well_known_dec data 0x54); [auto |]. right. tauto. }
    destruct (payload_present data) as [| p0 rest] eqn:Ep.
    + destruct Hk as [Hk | Hk].
      * rewrite (Hnone Hk eq_refl). eauto.
      * destruct (Hsome ltac:(tauto) Hl) as (i & -> & _). eauto.
    + destruct (Hsome ltac:(discriminate) Hl) as (i & -> & _). eauto.
Qed.

(** The specification's wording does not hold on a truncated record: the
    header announces five bytes of payload, two are there, and the decoder
    returns a summary
    of those two. *)
Lemma truncated_input_is_summarised :
  len [3; 3; 0xD1; 1; 5; 0x55; 4; 0x61] >= 5 /\
  get_ndef_payload_info [3; 3; 0xD1; 1; 5; 0x55; 4; 0x61]
    = Ok (Some {| info_type := lit "U"; info_tnf := 1;
                  raw_payload := [4; 0x61];
                  content_type := lit "URL";
                  content := lit "https://a";
                  language := None |}) /\
  get_ndef_payload_info [3; 3; 0xD1; 1; 5; 0x55; 4; 0x61] <> Ok None.
Proof.
  split; [vm_compute; discriminate |].
  split; [vm_compute; reflexivity | vm_compute; discriminate].
Qed.

(** A text record whose language field holds the byte 0x80: the strict
    ASCII decoding of the field raises, and the handler of the decoder does
    not catch that exception. *)
Lemma text_language_raises :
  get_ndef_payload_info [3; 5; 0xD1; 1; 2; 0x54; 1; 0x80; 0xFE]
    = Raise UnicodeDecodeError.
Proof. vm_compute. reflexivity. Qed.


(** ** WiFi records *)

Lemma wifi_auth_val_spec `{UnicodeData} (auth_type : str) :
  wifi_auth_val auth_type = wsc_auth auth_type /\
  wifi_enc_val auth_type = wsc_encryption auth_type.
Proof.
  unfold wifi_auth_val, wifi_enc_val, wsc_auth, wsc_encryption, auth_map.
  cbn [lookup].
  rewrite (list_eqb_sym (lit "OPEN")), (list_eqb_sym (lit "WPA")).
  destruct (list_eqb (upper auth_type) (lit "OPEN")) eqn:Eo;
    [split; reflexivity |].
  destruct (list_eqb (upper auth_type) (lit "WPA")) eqn:Ew;
    [split; reflexivity |].
  destruct (list_eqb (lit "WPA2") (upper auth_type));
    [split; reflexivity |].
  destruct (list_eqb (lit "WPA2-EAP") (upper auth_type)); split; reflexivity.
Qed.

Lemma wsc_auth_range `{UnicodeData} (auth_type : str) :
  0 <= wsc_auth auth_type <= 65535 /\ 0 <= wsc_encryption auth_type <= 65535.
Proof.
  unfold wsc_auth, wsc_encryption.
  destruct (list_eqb _ (lit "OPEN")); [lia |].
  destruct (list_eqb _ (lit "WPA")); lia.
Qed.

Lemma pack_HH (a b : Z) :
  0 <= a <= 65535 -> 0 <= b <= 65535 ->
  pack [pack_H a; pack_H b] = Ok (be16 a ++ be16 b).
Proof.
  intros Ha Hb. cbn [pack]. rewrite !pack_H_ok by lia. reflexivity.
Qed.

Lemma pack_HHH (a b c : Z) :
  0 <= a <= 65535 -> 0 <= b <= 65535 -> 0 <= c <= 65535 ->
  pack [pack_H a; pack_H b; pack_H c] = Ok (be16 a ++ be16 b ++ be16 c).
Proof.
  intros Ha Hb Hc. cbn [pack]. rewrite !pack_H_ok by lia. reflexivity.
Qed.

Lemma len_wsc_attribute (id : Z) (value : bytes) :
  len (wsc_attribute id value) = 4 + len value.
Proof.
  unfold wsc_attribute, be16. rewrite !len_app. unfold len. simpl length. lia.
Qed.

Lemma len_wsc_credential (ssid_bytes : bytes) (key : option bytes)
    (auth enc : Z) :
  len (wsc_credential ssid_bytes key auth enc)
  = 31 + len ssid_bytes
    + match key with Some pw_bytes => 4 + len pw_bytes | None => 0 end.
Proof.
  unfold wsc_credential. rewrite !len_app, !len_wsc_attribute.
  destruct key; rewrite ?len_wsc_attribute; unfold be16, len;
    simpl length; lia.
Qed.

Lemma wifi_credential_spec `{UnicodeData} (ssid password auth_type : str)
    (ssid_bytes pw_bytes : bytes) :
  utf8_encode ssid = Ok ssid_bytes ->
  utf8_encode password = Ok pw_bytes ->
  len ssid_bytes <= 65535 -> len pw_bytes <= 65535 ->
  wifi_credential ssid password auth_type
  = Ok (wsc_credential ssid_bytes (network_key password pw_bytes)
          (wsc_auth auth_type) (wsc_encryption auth_type)).
Proof.
  intros Es Ep Hs Hp.
  pose proof (len_nonneg ssid_bytes). pose proof (len_nonneg pw_bytes).
  destruct (wifi_auth_val_spec auth_type) as [Ea Ee].
  destruct (wsc_auth_range auth_type) as [Ra Re].
  unfold wifi_credential. rewrite Ea, Ee, Es.
  repeat (cbn [bind]; rewrite ?pack_HH, ?pack_HHH by lia).
  unfold wsc_credential, wsc_attribute, network_key.
  change (len [1]) with 1. change (len (be16 (wsc_auth auth_type))) with 2.
  change (len (be16 (wsc_encryption auth_type))) with 2.
  change (len (repeat 255 6)) with 6.
  destruct password as [| c password].
  - cbn [bind]. rewrite <- !app_assoc. reflexivity.
  - rewrite Ep. cbn [bind]. rewrite pack_HH by lia. cbn [bind].
    rewrite <- !app_assoc. reflexivity.
Qed.


Lemma encode_wifi_spec `{UnicodeData} (ssid password auth_type : str)
    (hidden : bool) (ssid_bytes pw_bytes : bytes) :
  utf8_encode ssid = Ok ssid_bytes ->
  utf8_encode password = Ok pw_bytes ->
  len ssid_bytes + len pw_bytes <= 65467 ->
  encode_wifi ssid password auth_type hidden
    = Ok (tlv_bytes
            (record_bytes 0x02 (lit "application/vnd.wfa.wsc")
               (wsc_attribute 0x100E
                  (wsc_credential ssid_bytes
                     (network_key password pw_bytes)
                     (wsc_auth auth_type) (wsc_encryption auth_type))))).
Proof.
  intros Es Ep Hlen.
  pose proof (len_nonneg ssid_bytes). pose proof (len_nonneg pw_bytes).
  unfold encode_wifi, wifi_payload.
  rewrite (wifi_credential_spec ssid password auth_type ssid_bytes pw_bytes)
    by (assumption || lia).
  cbn [bind].
  assert (Hc : len (wsc_credential ssid_bytes
                      (network_key password pw_bytes)
                      (wsc_auth auth_type) (wsc_encryption auth_type))
               <= 35 + len ssid_bytes + len pw_bytes).
  { rewrite len_wsc_credential. unfold network_key.
    destruct password; lia. }
  pose proof (len_nonneg (wsc_credential ssid_bytes
                            (network_key password pw_bytes)
                            (wsc_auth auth_type)
                            (wsc_encryption auth_type))).
  rewrite pack_HH by lia. cbn [bind].
  apply framed_ok; [lia | vm_compute; discriminate |].
  change (len (lit "application/vnd.wfa.wsc")) with 23.
  change (be16 4110 ++ be16 (len (wsc_credential ssid_bytes
                                     (network_key password pw_bytes)
                                     (wsc_auth auth_type)
                                     (wsc_encryption auth_type)))
          ++ wsc_credential ssid_bytes (network_key password pw_bytes)
               (wsc_auth auth_type) (wsc_encryption auth_type))
    with (wsc_attribute 0x100E
            (wsc_credential ssid_bytes (network_key password pw_bytes)
               (wsc_auth auth_type) (wsc_encryption auth_type))).
  rewrite len_wsc_attribute. lia.
Qed.

(** C6, in the form the code satisfies.
    For an SSID and a password that UTF-8 can encode and
    that together take at most 65467 bytes, [encode_wifi] returns a MIME
    record (TNF 2) of type application/vnd.wfa.wsc in its container; the
    payload is one Credential attribute (0x100E) around the attributes
    network index, SSID, authentication type, encryption type, network key
    and broadcast MAC address, each a two-byte ID, a two-byte length and
    the value; the network key is there when the password is not empty.
    The authentication name is compared in upper case: OPEN gives
    authentication 0x0001 and encryption 0x0001, WPA gives 0x0002 and
    0x0004, every other name gives 0x0020 and 0x0004.  For SSID "HomeNet",
    password "secret123" and WPA2 the attributes hold the SSID bytes,
    0x0020 and 0x0004. *)
Theorem wifi_record (U : UnicodeData) (ssid password auth_type : str)
    (hidden : bool) (ssid_bytes pw_bytes : bytes) :
  utf8_encode ssid = Ok ssid_bytes ->
  utf8_encode password = Ok pw_bytes ->
  len ssid_bytes + len pw_bytes <= 65467 ->
  encode_wifi ssid password auth_type hidden
    = Ok (tlv_bytes
            (record_bytes 0x02 (lit "application/vnd.wfa.wsc")
               (wsc_attribute 0x100E
                  (wsc_credential ssid_bytes
                     (network_key password pw_bytes)
                     (wsc_auth auth_type) (wsc_encryption auth_type))))) /\
  (upper auth_type = lit "OPEN" ->
   wsc_auth auth_type = 0x0001 /\ wsc_encryption auth_type = 0x0001) /\
  (upper auth_type = lit "WPA" ->
   wsc_auth auth_type = 0x0002 /\ wsc_encryption auth_type = 0x0004) /\
  (upper auth_type <> lit "OPEN" -> upper auth_type <> lit "WPA" ->
   wsc_auth auth_type = 0x0020 /\ wsc_encryption auth_type = 0x0004) /\
  encode_wifi (lit "HomeNet") (lit "secret123") (lit "WPA2") false
    = Ok (tlv_bytes
            (record_bytes 0x02 (lit "application/vnd.wfa.wsc")
               (wsc_attribute 0x100E
                  (wsc_attribute 0x1026 [0x01]
                   ++ wsc_attribute 0x1045 (lit "HomeNet")
                   ++ wsc_attribute 0x1003 [0x00; 0x20]
                   ++ wsc_attribute 0x100F [0x00; 0x04]
                   ++ wsc_attribute 0x1027 (lit "secret123")
                   ++ wsc_attribute 0x1020 (repeat 0xFF 6))))).
Proof.
  intros Es Ep Hlen.
  pose proof (len_nonneg ssid_bytes). pose proof (len_nonneg pw_bytes).
  split; [| split; [| split; [| split]]].
  - apply encode_wifi_spec; assumption.
  - intros E. unfold wsc_auth, wsc_encryption. rewrite E. auto.
  - intros E. unfold wsc_auth, wsc_encryption. rewrite E. auto.
  - intros Eo Ew. unfold wsc_auth, wsc_encryption.
    destruct (list_eqb (upper auth_type) (lit "OPEN")) eqn:E1.
    { apply list_eqb_eq in E1. contradiction. }
    destruct (list_eqb (upper auth_type) (lit "WPA")) eqn:E2.
    { apply list_eqb_eq in E2. contradiction. }
    auto.
  - vm_compute. reflexivity.
Qed.

Lemma wifi_record_witness :
  encode_wifi (lit "Cafe") [] (lit "open") false
    = Ok (tlv_bytes
            (record_bytes 0x02 (lit "application/vnd.wfa.wsc")
               (wsc_attribute 0x100E
                  (wsc_credential (lit "Cafe") None 0x0001 0x0001)))).
Proof.
  exact (proj1 (wifi_record ascii_case (lit "Cafe") [] (lit "open") false
                  (lit "Cafe") [] eq_refl eq_refl
                  ltac:(vm_compute; discriminate))).
Defined.

(** The specification's wording does not hold for the name WPA, which has
    its own authentication value, and for an empty password, which leaves the
    network key out. *)
Lemma wifi_wpa_and_open_network :
  encode_wifi (lit "HomeNet") (lit "secret123") (lit "WPA") false
    = Ok (tlv_bytes
            (record_bytes 0x02 (lit "application/vnd.wfa.wsc")
               (wsc_attribute 0x100E
                  (wsc_attribute 0x1026 [0x01]
                   ++ wsc_attribute 0x1045 (lit "HomeNet")
                   ++ wsc_attribute 0x1003 [0x00; 0x02]
                   ++ wsc_attribute 0x100F [0x00; 0x04]
                   ++ wsc_attribute 0x1027 (lit "secret123")
                   ++ wsc_attribute 0x1020 (repeat 0xFF 6))))) /\
  wifi_auth_val (lit "WPA") <> 0x0020 /\
  encode_wifi (lit "HomeNet") [] (lit "WPA2") false
    = Ok (tlv_bytes
            (record_bytes 0x02 (lit "application/vnd.wfa.wsc")
               (wsc_attribute 0x100E
                  (wsc_attribute 0x1026 [0x01]
                   ++ wsc_attribute 0x1045 (lit "HomeNet")
                   ++ wsc_attribute 0x1003 [0x00; 0x20]
                   ++ wsc_attribute 0x100F [0x00; 0x04]
                   ++ wsc_attribute 0x1020 (repeat 0xFF 6))))).
Proof.
  split; [vm_compute; reflexivity |].
  split; [vm_compute; discriminate | vm_compute; reflexivity].
Qed.


(** ** Instances *)

Lemma record_header_form_witness :
  exists flags length_field,
    _make_ndef_record 1 (lit "U") [4; 97] true true
      = Ok ([flags; len (lit "U")] ++ length_field ++ lit "U" ++ [4; 97]) /\
    Z.testbit flags 7 = true /\
    Z.testbit flags 6 = true /\
    Z.land flags 0x07 = 1 /\
    (len [4; 97] <= 255 ->
       Z.testbit flags 4 = true /\ length_field = [len [4; 97]]) /\
    (256 <= len [4; 97] ->
       Z.testbit flags 4 = false /\
       exists b3 b2 b1 b0,
         length_field = [b3; b2; b1; b0] /\
         is_byte b3 /\ is_byte b2 /\ is_byte b1 /\ is_byte b0 /\
         b3 * 16777216 + b2 * 65536 + b1 * 256 + b0 = len [4; 97]).
Proof.
  apply (record_header_form 1 (lit "U") [4; 97]);
    [lia | vm_compute; discriminate | vm_compute; discriminate].
Defined.

(** The two sides of the payload boundary: 255 bytes are a short record,
    256 bytes have the four-byte length 00 00 01 00. *)
Lemma payload_boundary :
  _make_ndef_record 1 (lit "U") (repeat 0 255) true true
    = Ok ([0xD1; 1; 255] ++ lit "U" ++ repeat 0 255) /\
  _make_ndef_record 1 (lit "U") (repeat 0 256) true true
    = Ok ([0xC1; 1; 0; 0; 1; 0] ++ lit "U" ++ repeat 0 256).
Proof. split; vm_compute; reflexivity. Qed.

Lemma decode_encode_recovers_witness :
  exists i,
    get_ndef_payload_info [3; 8; 209; 1; 4; 85; 4; 97; 46; 98; 254]
      = Ok (Some i) /\
    recovers (Url (lit "https://a.b")) i.
Proof.
  apply (proj1 decode_encode_recovers ascii_case (Url (lit "https://a.b")));
    [reflexivity | exact I].
Defined.

(** The specification's wording does not hold: two authentication types
    have one and the same encoding, and the decoder gives the fixed placeholder for every
    WiFi record; the prefix of a URL comes back in lower case and the URL
    without the white space around it; a language code of 64 characters
    comes back empty, in front of the text. *)
Lemma content_not_recovered :
  (encode (Wifi (lit "HomeNet") (lit "secret123") (lit "WPA2") false)
   = encode (Wifi (lit "HomeNet") (lit "secret123") (lit "WPA2-EAP") false)
   /\ lit "WPA2" <> lit "WPA2-EAP" /\
   exists out i,
     encode (Wifi (lit "HomeNet") (lit "secret123") (lit "WPA2") false)
       = Ok out /\
     get_ndef_payload_info out = Ok (Some i) /\
     content i = lit "[WiFi Configuration Data]") /\
  (exists out i,
     encode (Url (lit " HTTPS://Example.com ")) = Ok out /\
     get_ndef_payload_info out = Ok (Some i) /\
     content i = lit "https://Example.com" /\
     content i <> lit " HTTPS://Example.com ") /\
  (exists out i,
     encode (Text (lit "hi") (repeat 97 64)) = Ok out /\
     get_ndef_payload_info out = Ok (Some i) /\
     language i = Some [] /\
     content i = repeat 97 64 ++ lit "hi").
Proof.
  split; [| split].
  - split; [vm_compute; reflexivity |].
    split; [vm_compute; discriminate |].
    eexists. eexists. split; [vm_compute; reflexivity |].
    split; vm_compute; reflexivity.
  - eexists. eexists. split; [vm_compute; reflexivity |].
    split; [vm_compute; reflexivity |].
    split; [vm_compute; reflexivity | vm_compute; discriminate].
  - eexists. eexists. split; [vm_compute; reflexivity |].
    split; [vm_compute; reflexivity |].
    split; vm_compute; reflexivity.
Qed.

Lemma decoder_faults_witness :
  get_ndef_payload_info [3; 0; 254] = Ok None.
Proof.
  apply (proj1 (decoder_faults ascii_case [3; 0; 254])).
  vm_compute. reflexivity.
Defined.


(** ** Where the encoders return *)

Lemma utf8_char_some (c : Z) :
  scalar c = true -> exists b, utf8_char c = Some b /\ len b <= 4.
Proof.
  unfold scalar, utf8_char. intros Hc.
  assert (R : 0 <= c < 55296 \/ 57343 < c < 1114112).
  { apply orb_true_iff in Hc. destruct Hc as [Hc | Hc];
      apply andb_true_iff in Hc; destruct Hc as [A B];
      [apply Z.leb_le in A | apply Z.ltb_lt in A]; apply Z.ltb_lt in B; lia. }
  destruct (Z.ltb_spec c 0); [lia |].
  destruct (Z.ltb_spec c 128); [eexists; split; [reflexivity | vm_compute; discriminate] |].
  destruct (Z.ltb_spec c 2048); [eexists; split; [reflexivity | vm_compute; discriminate] |].
  destruct (Z.ltb_spec c 65536).
  - destruct (Z.leb_spec 55296 c); destruct (Z.leb_spec c 57343);
      cbv beta iota delta [andb]; try lia;
      eexists; (split; [reflexivity | vm_compute; discriminate]).
  - destruct (Z.ltb_spec c 1114112); [| lia].
    eexists; split; [reflexivity | vm_compute; discriminate].
Qed.

Lemma utf8_encode_ok (s : str) :
  forallb scalar s = true ->
  exists b, utf8_encode s = Ok b /\ len b <= 4 * len s.
Proof.
  induction s as [| c s IH]; cbn [forallb utf8_encode].
  - intros _. exists []. split; [reflexivity | vm_compute; discriminate].
  - intros Hs. apply andb_true_iff in Hs. destruct Hs as [Hc Hs].
    destruct (utf8_char_some c Hc) as (bc & -> & Hbc).
    destruct (IH Hs) as (bs & -> & Hbs). cbn [bind].
    exists (bc ++ bs). split; [reflexivity |].
    rewrite len_app, len_cons. lia.
Qed.

Lemma ascii_encode_ok (s : str) :
  forallb is_ascii s = true -> ascii_encode s = Ok s.
Proof.
  induction s as [| c s IH]; cbn [forallb ascii_encode]; [reflexivity |].
  intros Hs. apply andb_true_iff in Hs. destruct Hs as [-> Hs].
  rewrite (IH Hs). reflexivity.
Qed.

Lemma forallb_incl (f : Z -> bool) (s t : str) :
  (forall c, In c t -> In c s) -> forallb f s = true -> forallb f t = true.
Proof.
  intros Hin Hs. apply forallb_forall. intros c Hc.
  apply (proj1 (forallb_forall f s) Hs). apply Hin. exact Hc.
Qed.

Lemma In_dropwhile (p : Z -> bool) (s : str) (c : Z) :
  In c (dropwhile p s) -> In c s.
Proof.
  induction s as [| d s IH]; cbn [dropwhile]; [auto |].
  destruct (p d); [right; auto | auto].
Qed.

Lemma len_dropwhile (p : Z -> bool) (s : str) : len (dropwhile p s) <= len s.
Proof.
  induction s as [| d s IH]; cbn [dropwhile]; [lia |].
  destruct (p d); rewrite ?len_cons; lia.
Qed.

Lemma len_rev {A} (l : list A) : len (rev l) = len l.
Proof. unfold len. rewrite length_rev. reflexivity. Qed.

Lemma In_rstrip (s : str) (c : Z) : In c (rstrip s) -> In c s.
Proof.
  induction s as [| d s IH]; cbn [rstrip]; [auto |].
  destruct (rstrip s) as [| r0 r].
  - destruct (isspace d); [intros [] |]. intros [-> | []]. left. reflexivity.
  - intros [-> | Hc]; [left; reflexivity | right; apply IH; exact Hc].
Qed.

Lemma len_rstrip (s : str) : len (rstrip s) <= len s.
Proof.
  induction s as [| d s IH]; cbn [rstrip]; [lia |].
  destruct (rstrip s) as [| r0 r].
  - destruct (isspace d); rewrite ?len_cons in *;
      pose proof (len_nonneg s); unfold len in *; simpl length; lia.
  - rewrite !len_cons in *. lia.
Qed.

Lemma In_strip (s : str) (c : Z) : In c (strip s) -> In c s.
Proof.
  unfold strip, lstrip. intros Hc. apply In_rstrip in Hc.
  apply In_dropwhile in Hc. exact Hc.
Qed.

Lemma len_strip (s : str) : len (strip s) <= len s.
Proof.
  unfold strip, lstrip.
  pose proof (len_rstrip (dropwhile isspace s)).
  pose proof (len_dropwhile isspace s). lia.
Qed.

Lemma In_slice_from (k : Z) (s : str) (c : Z) :
  In c (slice_from k s) -> In c s.
Proof.
  unfold slice_from. generalize (Z.to_nat k) as n. intros n. revert s.
  induction n as [| n IH]; intros [| d s]; cbn [skipn]; auto.
  intros Hc. right. apply IH. exact Hc.
Qed.

Lemma len_slice_from (k : Z) (s : str) : len (slice_from k s) <= len s.
Proof.
  unfold slice_from, len. rewrite length_skipn. lia.
Qed.

(** ** Social handles *)

Lemma format1_suffix (pre arg : str) :
  forallb (fun c => negb (c =? 123)) pre = true ->
  format1 (pre ++ [123; 125]) arg = pre ++ arg.
Proof.
  induction pre as [| c pre IH]; cbn [forallb app].
  - intros _. cbn [format1]. change ((123 =? 123) && (125 =? 125)) with true.
    cbv iota. apply app_nil_r.
  - intros Hp. apply andb_true_iff in Hp. destruct Hp as [Hc Hp].
    cbn [format1].
    destruct (pre ++ [123; 125]) as [| d t'] eqn:Et.
    + destruct pre; discriminate.
    + apply negb_true_iff in Hc. rewrite Hc. cbn [andb].
      f_equal. apply IH. exact Hp.
Qed.

Lemma social_templates :
  forallb Protocol.template_shape SOCIAL_PLATFORMS = true.
Proof. vm_compute. reflexivity. Qed.

Lemma lookup_in {V} (d : list (str * V)) (k : str) (v : V) :
  lookup d k = Some v -> exists k', In (k', v) d.
Proof.
  induction d as [| [k' v'] d IH]; cbn [lookup]; [discriminate |].
  destruct (list_eqb k' k).
  - intros [= ->]. exists k'. left. reflexivity.
  - intros Hl. destruct (IH Hl) as (k'' & Hin). exists k''. right. exact Hin.
Qed.

Lemma utf8_encode_raise (s : str) (e : exn) :
  utf8_encode s = Raise e -> e = UnicodeEncodeError.
Proof.
  induction s as [| c s IH]; cbn [utf8_encode]; [discriminate |].
  destruct (utf8_char c); [| congruence].
  destruct (utf8_encode s); cbn [bind]; [discriminate |].
  intros [= <-]. apply IH. reflexivity.
Qed.

Lemma pack_B_raise (v : Z) (e : exn) : pack_B v = Raise e -> e = StructError.
Proof. unfold pack_B. destruct (_ && _); congruence. Qed.

Lemma pack_H_raise (v : Z) (e : exn) : pack_H v = Raise e -> e = StructError.
Proof. unfold pack_H. destruct (_ && _); congruence. Qed.

Lemma pack_I_raise (v : Z) (e : exn) : pack_I v = Raise e -> e = StructError.
Proof. unfold pack_I. destruct (_ && _); congruence. Qed.

Lemma framed_raise (tnf : Z) (rec_type payload : bytes) (e : exn) :
  (record <- _make_ndef_record tnf rec_type payload true true ;;
   _wrap_tlv record) = Raise e ->
  e = StructError.
Proof.
  unfold _make_ndef_record, _wrap_tlv. cbn [pack]. intros Hx.
  repeat match goal with
         | H : Ok _ = Raise _ |- _ => discriminate H
         | H : bind ?c ?k = Raise _ |- _ =>
             let a := fresh "v" in
             let Ha := fresh "E" in
             apply bind_raise in H;
             destruct H as [H | (a & Ha & H)]; cbv beta in H
         | H : (if ?b then _ else _) = Raise _ |- _ => destruct b
         | H : pack_B _ = Raise _ |- _ => apply pack_B_raise in H
         | H : pack_H _ = Raise _ |- _ => apply pack_H_raise in H
         | H : pack_I _ = Raise _ |- _ => apply pack_I_raise in H
         end; assumption.
Qed.

Lemma encode_url_raise `{UnicodeData} (url : str) (e : exn) :
  encode_url url = Raise e -> e = UnicodeEncodeError \/ e = StructError.
Proof.
  unfold encode_url. destruct (scan_prefixes _ _) as [code field].
  intros Hx. apply bind_raise in Hx.
  destruct Hx as [Hx | (fb & _ & Hx)].
  - left. apply (utf8_encode_raise _ _ Hx).
  - right. apply (framed_raise _ _ _ _ Hx).
Qed.

(** ** Exactly where the encoders return *)

Lemma utf8_char_exact (c : Z) :
  match utf8_char c with
  | Some b => scalar c = true /\ len b = utf8_width c
  | None => scalar c = false
  end.
Proof.
  unfold utf8_char, scalar, utf8_width.
  destruct (Z.ltb_spec c 0).
  { destruct (Z.leb_spec 0 c); [lia |]. cbn [andb orb].
    destruct (Z.ltb_spec 57343 c); [lia | reflexivity]. }
  destruct (Z.leb_spec 0 c); [| lia]. cbn [andb].
  destruct (Z.ltb_spec c 128).
  { destruct (Z.ltb_spec c 55296); [| lia]. split; reflexivity. }
  destruct (Z.ltb_spec c 2048).
  { destruct (Z.ltb_spec c 55296); [| lia]. split; reflexivity. }
  destruct (Z.ltb_spec c 65536).
  { destruct (Z.leb_spec 55296 c); destruct (Z.leb_spec c 57343);
      destruct (Z.ltb_spec c 55296); destruct (Z.ltb_spec 57343 c);
      destruct (Z.ltb_spec c 1114112); cbn [andb orb]; try lia;
      try reflexivity; split; reflexivity. }
  destruct (Z.ltb_spec c 55296); [lia |].
  destruct (Z.ltb_spec 57343 c); [| lia].
  destruct (Z.ltb_spec c 1114112); cbn [andb orb];
    [split; reflexivity | reflexivity].
Qed.

Lemma utf8_encode_exact (s : str) :
  match utf8_encode s with
  | Ok b => encodable s /\ len b = utf8_size s
  | Raise _ => ~ encodable s
  end.
Proof.
  unfold encodable. induction s as [| c s IH];
    cbn [utf8_encode forallb utf8_size fold_right].
  - split; reflexivity.
  - pose proof (utf8_char_exact c) as Hc.
    destruct (utf8_char c) as [bc |].
    + destruct Hc as [Hc Hw]. rewrite Hc. cbn [andb].
      destruct (utf8_encode s) as [bs | e]; cbn [bind].
      * destruct IH as [Hs Hl]. split; [exact Hs |].
        rewrite len_app. fold (utf8_size s). lia.
      * exact IH.
    + rewrite Hc. cbn [andb]. discriminate.
Qed.

Lemma utf8_encode_returns (s : str) :
  encodable s -> exists b, utf8_encode s = Ok b /\ len b = utf8_size s.
Proof.
  intros Hs. pose proof (utf8_encode_exact s) as He.
  destruct (utf8_encode s) as [b | e]; [| contradiction].
  exists b. split; [reflexivity | apply He].
Qed.

Lemma utf8_encode_returned (s : str) (b : bytes) :
  utf8_encode s = Ok b -> encodable s /\ len b = utf8_size s.
Proof.
  intros Hb. pose proof (utf8_encode_exact s) as He. rewrite Hb in He.
  exact He.
Qed.

Lemma framed_exact (tnf : Z) (rec_type payload : bytes) :
  0 <= tnf < 8 ->
  (exists out,
     (record <- _make_ndef_record tnf rec_type payload true true ;;
      _wrap_tlv record) = Ok out) <->
  len rec_type <= 255 /\ 6 + len rec_type + len payload <= 65535.
Proof.
  intros Ht. split.
  - intros (out & Hx). apply framed_inv in Hx; [| exact Ht].
    destruct Hx as (_ & Hty & Hr). split; [exact Hty |].
    rewrite len_record_bytes in Hr.
    pose proof (len_nonneg rec_type).
    destruct (Z.leb_spec (len payload) 255); lia.
  - intros [Hty Hp]. eexists. apply framed_ok; assumption.
Qed.

Lemma uri_record_exact (code : Z) (field : str) :
  (exists out,
     (fb <- utf8_encode field ;;
      record <- _make_ndef_record 0x01 (lit "U") ([code] ++ fb) true true ;;
      _wrap_tlv record) = Ok out) <->
  uri_fits field.
Proof.
  unfold uri_fits. split.
  - intros (out & Hx). apply bind_ok in Hx. destruct Hx as (fb & Ef & Hx).
    apply utf8_encode_returned in Ef. destruct Ef as [He Hl].
    split; [exact He |].
    assert (Hf : exists out,
               (record <- _make_ndef_record 0x01 (lit "U") ([code] ++ fb)
                            true true ;; _wrap_tlv record) = Ok out)
      by eauto.
    apply framed_exact in Hf; [| lia]. destruct Hf as [_ Hf].
    change (len (lit "U")) with 1 in Hf. rewrite len_app in Hf.
    change (len [code]) with 1 in Hf. lia.
  - intros [He Hl]. destruct (utf8_encode_returns field He) as (fb & -> & Hb).
    cbn [bind]. apply framed_exact; [lia |].
    change (len (lit "U")) with 1. rewrite len_app.
    change (len [code]) with 1. lia.
Qed.

Lemma encode_url_exact `{UnicodeData} (url : str) :
  (exists out, encode_url url = Ok out) <-> uri_fits (uri_field url).
Proof.
  unfold encode_url.
  destruct (scan_prefixes _ _) as [code field] eqn:Es.
  apply scan_recognised in Es. destruct Es as [-> _].
  rewrite uri_field_eq. apply uri_record_exact.
Qed.

Lemma encode_phone_exact (phone : str) :
  (exists out, encode_phone phone = Ok out) <->
  uri_fits (remove_char 45 (remove_char 32 (strip phone))).
Proof. unfold encode_phone. apply uri_record_exact. Qed.

Lemma mailto_field (email subject body : str) :
  (match
     (match subject with [] => [] | _ :: _ => [lit "subject=" ++ subject] end
      ++ match body with [] => [] | _ :: _ => [lit "body=" ++ body] end)
   with
   | [] => email
   | _ :: _ =>
       email ++ lit "?"
       ++ join (lit "&")
            (match subject with
             | [] => []
             | _ :: _ => [lit "subject=" ++ subject]
             end
             ++ match body with [] => [] | _ :: _ => [lit "body=" ++ body] end)
   end) = email ++ mailto_query subject body.
Proof.
  destruct subject as [| s0 subject]; destruct body as [| b0 body];
    cbn [app join mailto_query]; rewrite ?app_nil_r; reflexivity.
Qed.

Lemma encode_email_exact (email subject body : str) :
  (exists out, encode_email email subject body = Ok out) <->
  uri_fits (strip email ++ mailto_query subject body).
Proof.
  unfold encode_email. cbv zeta. rewrite mailto_field.
  apply uri_record_exact.
Qed.

Lemma ascii_encode_exact (s : str) :
  match ascii_encode s with
  | Ok b => forallb is_ascii s = true /\ b = s
  | Raise _ => forallb is_ascii s = false
  end.
Proof.
  induction s as [| c s IH]; cbn [ascii_encode forallb]; [auto |].
  destruct (is_ascii c); cbn [andb]; [| reflexivity].
  destruct (ascii_encode s) as [b | e]; cbn [bind]; [| exact IH].
  destruct IH as [Ha ->]. auto.
Qed.

Lemma encode_text_exact (text lang : str) :
  (exists out, encode_text text lang = Ok out) <->
  forallb is_ascii lang = true /\ encodable (strip text) /\
  len lang + utf8_size (strip text) <= 65527.
Proof.
  unfold encode_text. pose proof (ascii_encode_exact lang) as Ha.
  destruct (ascii_encode lang) as [lb | e]; cbn [bind].
  2:{ split; [intros (out & Hx); discriminate |].
      intros (Hl & _). congruence. }
  destruct Ha as [Ha ->].
  pose proof (utf8_encode_exact (strip text)) as Hu.
  destruct (utf8_encode (strip text)) as [tb | e]; cbn [bind].
  2:{ split; [intros (out & Hx); discriminate |].
      intros (_ & He & _). contradiction. }
  destruct Hu as [He Hl].
  rewrite (framed_exact 1 (lit "T")) by lia.
  change (len (lit "T")) with 1. rewrite !len_app.
  change (len [Z.land (len lang) 63]) with 1. rewrite Hl.
  split; [intros [_ Hs]; repeat split; try assumption; lia |].
  intros (_ & _ & Hs). split; lia.
Qed.
Lemma encode_vcard_exact (name phone email org title url address note : str) :
  strip name <> [] ->
  (exists out,
     encode_vcard name phone email org title url address note = Ok out) <->
  encodable (vcard_block name phone email org title url address note) /\
  utf8_size (vcard_block name phone email org title url address note)
  <= 65519.
Proof.
  intros Hn. unfold encode_vcard.
  rewrite (vcard_text_named name phone email org title url address note Hn).
  cbn [bind].
  generalize (vcard_block name phone email org title url address note).
  intros block.
  pose proof (utf8_encode_exact block) as Hu.
  destruct (utf8_encode block) as [pb | e]; cbn [bind].
  2:{ split; [intros (out & Hx); discriminate |].
      intros (He & _). contradiction. }
  destruct Hu as [He Hl].
  rewrite (framed_exact 2 (lit "text/vcard")) by lia.
  change (len (lit "text/vcard")) with 10. rewrite Hl.
  split; [intros [_ Hs]; split; [assumption | lia] |].
  intros (_ & Hs). split; lia.
Qed.

Lemma encode_social_exact `{UnicodeData} (platform username : str) :
  (exists out, encode_social platform username = Ok out) <->
  exists template,
    lookup SOCIAL_PLATFORMS (lower (strip platform)) = Some template /\
    uri_fits
      (uri_field
         (format1 template (lstrip_chars (lit "@") (strip username)))).
Proof.
  unfold encode_social.
  destruct (lookup SOCIAL_PLATFORMS (lower (strip platform)))
    as [template |].
  - rewrite encode_url_exact. split.
    + intros Hf. exists template. auto.
    + intros (t & [= <-] & Hf). exact Hf.
  - split; [intros (out & Hx); discriminate |].
    intros (t & Hx & _). discriminate.
Qed.

(** ** WiFi credentials *)

Lemma wifi_credential_returned `{UnicodeData} (ssid password auth_type : str)
    (credential : bytes) :
  wifi_credential ssid password auth_type = Ok credential ->
  exists ssid_bytes pw_bytes,
    utf8_encode ssid = Ok ssid_bytes /\
    utf8_encode password = Ok pw_bytes /\
    len ssid_bytes <= 65535 /\ len pw_bytes <= 65535.
Proof.
  unfold wifi_credential. cbn [pack]. intros Hx. ok_all.
  repeat match goal with
         | B : pack_H (len _) = Ok _ |- _ => apply pack_H_inv in B
         end.
  destruct password as [| c password].
  - eexists. exists []. repeat split; try eassumption; try reflexivity;
      try lia. vm_compute. discriminate.
  - cbn [pack] in *. ok_all.
    repeat match goal with
           | B : pack_H (len _) = Ok _ |- _ => apply pack_H_inv in B
           end.
    eexists. eexists. repeat split; try eassumption; lia.
Qed.

Lemma encode_wifi_exact `{UnicodeData} (ssid password auth_type : str)
    (hidden : bool) :
  (exists out, encode_wifi ssid password auth_type hidden = Ok out) <->
  encodable ssid /\ encodable password /\
  utf8_size ssid
  + match password with [] => 0 | _ => 4 + utf8_size password end
  <= 65471.
Proof.
  assert (Hkey : forall pb, len pb = utf8_size password ->
            match network_key password pb with
            | Some k => 4 + len k
            | None => 0
            end
            = match password with [] => 0 | _ => 4 + utf8_size password end).
  { intros pb Hl. unfold network_key. destruct password; [reflexivity | lia]. }
  unfold encode_wifi. split.
  - intros (out & Hx). apply bind_ok in Hx.
    destruct Hx as (payload & Epay & Hx).
    assert (Hf : exists out,
               (record <- _make_ndef_record 0x02
                            (lit "application/vnd.wfa.wsc") payload
                            true true ;; _wrap_tlv record) = Ok out)
      by eauto.
    apply framed_exact in Hf; [| lia]. destruct Hf as [_ Hf].
    change (len (lit "application/vnd.wfa.wsc")) with 23 in Hf.
    clear Hx. unfold wifi_payload in Epay. apply bind_ok in Epay.
    destruct Epay as (credential & C & Epay).
    pose proof (wifi_credential_returned _ _ _ _ C)
      as (sb & pb & Es & Ep & Ls & Lp).
    rewrite (wifi_credential_spec ssid password auth_type sb pb Es Ep Ls Lp)
      in C.
    injection C as <-.
    destruct (utf8_encode_returned _ _ Es) as [Hs Hsl].
    destruct (utf8_encode_returned _ _ Ep) as [Hp Hpl].
    split; [exact Hs |]. split; [exact Hp |].
    apply bind_ok in Epay. destruct Epay as (h & Eh & Epay).
    injection Epay as <-.
    assert (Lh : 0 <= len h) by apply len_nonneg.
    rewrite !len_app, len_wsc_credential in Hf.
    rewrite (Hkey pb Hpl) in Hf. rewrite Hsl in Hf.
    cbn [pack] in Eh. ok_all.
    repeat match goal with
           | B : pack_H _ = Ok _ |- _ =>
               apply pack_H_inv in B; destruct B as [_ ->]
           | B : Ok _ = Ok _ |- _ => injection B as <-
           end.
    cbn [app] in Hf. unfold len in Hf at 1. cbn [length] in Hf. lia.
  - intros (Hs & Hp & Hl).
    destruct (utf8_encode_returns ssid Hs) as (sb & Es & Hsl).
    destruct (utf8_encode_returns password Hp) as (pb & Ep & Hpl).
    pose proof (len_nonneg sb). pose proof (len_nonneg pb).
    assert (Lp : len pb <= 65535 /\ len sb <= 65535).
    { destruct password as [| c password].
      - cbn [utf8_encode] in Ep. injection Ep as <-.
        change (len (@nil Z)) with 0. lia.
      - cbv beta iota in Hl. lia. }
    unfold wifi_payload.
    rewrite (wifi_credential_spec ssid password auth_type sb pb Es Ep)
      by lia.
    cbn [bind].
    pose proof (len_wsc_credential sb (network_key password pb)
                  (wsc_auth auth_type) (wsc_encryption auth_type)) as Hc.
    rewrite (Hkey pb Hpl) in Hc.
    assert (Hk0 : 0 <= match password with
                       | [] => 0
                       | _ :: _ => 4 + utf8_size password
                       end)
      by (destruct password; lia).
    revert Hl Hc Hk0.
    generalize (match password with
                | [] => 0
                | _ :: _ => 4 + utf8_size password
                end).
    intros key Hl Hc Hk0.
    rewrite pack_HH by lia. cbn [bind].
    apply framed_exact; [lia |].
    change (len (lit "application/vnd.wfa.wsc")) with 23.
    rewrite !len_app, Hc. unfold be16, len at 1 2. cbn [length]. lia.
Qed.

(** C5, in the form the code satisfies.
    [encode_social] raises its "Unknown platform" error exactly when the
    platform, stripped and in lower case, is not a key of the platform
    table.  For every input other than a contact with a blank name, an
    encoder returns a byte sequence exactly when the input is accepted:
    its text has no lone surrogate, the language code of a text is ASCII,
    the platform of a social handle is known, and the record fits the two
    length bytes of the container, that is the URI field takes at most
    65527 bytes in UTF-8, language code and text together at most 65527,
    the vCard block at most 65519, and SSID and network key attribute
    together at most 65471. *)
Theorem encoders_return (U : UnicodeData) :
  (forall platform username,
     (exists msg,
        encode_social platform username = Raise (ValueError msg)) <->
     lookup SOCIAL_PLATFORMS (lower (strip platform)) = None) /\
  (forall platform username,
     lookup SOCIAL_PLATFORMS (lower (strip platform)) = None ->
     encode_social platform username
       = Raise (unknown_platform (lower (strip platform)))) /\
  (forall x, named x -> ((exists out, encode x = Ok out) <-> accepted x)).
Proof.
  split; [| split].
  - intros platform username. unfold encode_social.
    destruct (lookup SOCIAL_PLATFORMS _) as [template |] eqn:El.
    + split; [| discriminate]. intros (msg & Hx).
      apply encode_url_raise in Hx. destruct Hx; discriminate.
    + split; [reflexivity |]. intros _. eexists. reflexivity.
  - intros platform username El. unfold encode_social. rewrite El.
    reflexivity.
  - intros x Hn. destruct x; cbn [named] in Hn; cbn [accepted encode].
    + apply encode_url_exact.
    + apply encode_text_exact.
    + apply encode_vcard_exact. exact Hn.
    + apply encode_phone_exact.
    + apply encode_email_exact.
    + apply encode_social_exact.
    + apply encode_wifi_exact.
Qed.

Lemma encoders_return_witness :
  exists out,
    encode (VCard (lit "Ann Lee") (lit "555 0100") [] [] [] [] [] [])
    = Ok out.
Proof.
  refine (proj2 (proj2 (proj2 (encoders_return ascii_case))
                   (VCard (lit "Ann Lee") (lit "555 0100") [] [] [] [] [] [])
                   _) _).
  - vm_compute. discriminate.
  - split; vm_compute; [reflexivity | discriminate].
Defined.

(** The specification's wording does not hold: a language code outside
    ASCII and a URL whose record is longer than 65535 bytes are refused. *)
Lemma encoders_refuse :
  encode (Text (lit "hi") [233]) = Raise UnicodeEncodeError /\
  encode (Url (repeat 97 (Z.to_nat 65536))) = Raise StructError.
Proof. split; vm_compute; reflexivity. Qed.

(** A blank name leaves [encode_vcard] with the IndexError of
    [parts[0]]. *)
Lemma blank_name_raises :
  encode_vcard (lit "  ") [] [] [] [] [] [] [] = Raise IndexError.
Proof. vm_compute. reflexivity. Qed.

End CodecProps.

(* ===================================================================== *)
(** * Properties of the serial transport                                  *)
(* ===================================================================== *)

Module SerialProps.

Import NdefEncoder RfidReader Protocol CodecProps.

Lemma utf8_encode_ascii (s : str) :
  forallb is_ascii s = true -> utf8_encode s = Ok s.
Proof.
  induction s as [| c s IH]; cbn [forallb utf8_encode]; [reflexivity |].
  intros Hs. apply andb_true_iff in Hs. destruct Hs as [Hc Hs].
  rewrite (IH Hs). unfold is_ascii in Hc. apply andb_true_iff in Hc.
  destruct Hc as [H0 H1]. apply Z.leb_le in H0. unfold utf8_char.
  destruct (Z.ltb_spec c 0); [lia |]. rewrite H1. reflexivity.
Qed.

Lemma hex_digit_upper_ascii (n : Z) :
  0 <= n < 16 -> is_ascii (ascii_upper (hex_digit n)) = true.
Proof.
  intros Hn. rewrite <- (Z2Nat.id n) by lia.
  assert (Hk : (Z.to_nat n < 16)%nat) by lia.
  revert Hk. generalize (Z.to_nat n) as k. intros k Hk.
  do 16 (destruct k as [| k]; [reflexivity |]). lia.
Qed.

Lemma bytes_to_hex_ascii (data : bytes) :
  is_bytes data -> forallb is_ascii (bytes_to_hex data) = true.
Proof.
  unfold is_bytes, bytes_to_hex, hex.
  induction 1 as [| b data Hb Hd IH]; [reflexivity |].
  cbn [flat_map app map forallb]. rewrite IH.
  rewrite !hex_digit_upper_ascii; [reflexivity | |].
  - apply Z.mod_pos_bound. lia.
  - split; [apply Z.div_pos; lia | apply Z.div_lt_upper_bound; lia].
Qed.

Lemma write_command_encodes (ndef_data : bytes) :
  is_bytes ndef_data ->
  utf8_encode (write_command ndef_data ++ [10])
  = Ok (command_line (write_command ndef_data)).
Proof.
  intros Hd. unfold command_line. apply utf8_encode_ascii.
  unfold write_command.
  rewrite !forallb_app, (bytes_to_hex_ascii _ Hd). reflexivity.
Qed.

Section Line.

Context {Dev : Type}.
Variable firmware : Dev -> bytes -> Dev * write_result.

(** ** Waiting *)

Lemma wait_silent (expected : list str) (timeout : Z) (lines : list str) :
  0 < timeout ->
  wait_loop expected timeout 0 lines []
  = ({| status := TIMEOUT; resp_data := []; resp_raw := lines |}, []).
Proof.
  intros Ht. cbn [wait_loop]. apply Z.ltb_lt in Ht. rewrite Ht. reflexivity.
Qed.

Lemma wait_answered (expected : list str) (timeout : Z) (ev : read_event)
    (rest : list read_event) (line st : str) :
  0 < timeout ->
  line_of ev = Some line ->
  fst (status_and_data line) = st ->
  existsb (list_eqb st) expected = true ->
  wait_loop expected timeout 0 [] (ev :: rest)
  = ({| status := st; resp_data := snd (status_and_data line);
        resp_raw := [line] |}, rest).
Proof.
  intros Ht Hl Hs He. cbn [wait_loop]. apply Z.ltb_lt in Ht. rewrite Ht, Hl.
  destruct (status_and_data line) as [st' dt]. cbn [fst snd] in *. subst st'.
  rewrite He. reflexivity.
Qed.

(** Waiting and prompting write nothing. *)
Lemma wait_written (expected : list str) (timeout : Z) (r : @reader Dev) :
  written_of (snd (_wait_for_response expected timeout r)) = written_of r /\
  max_retries (snd (_wait_for_response expected timeout r)) = max_retries r.
Proof.
  unfold _wait_for_response, written_of.
  destruct (_serial r) as [p |] eqn:Hs; cbn [snd]; [| rewrite Hs; auto].
  destruct (wait_loop _ _ _ _ _) as [resp rest]. cbn. auto.
Qed.

Lemma tap_prompt_written (cb : bool) (r : @reader Dev) :
  written_of (tap_prompt cb r) = written_of r /\
  max_retries (tap_prompt cb r) = max_retries r.
Proof. destruct cb; cbn; auto. Qed.

(** Sending writes the line of the command, once, or nothing. *)
Lemma send_written (command : str) (r : @reader Dev) :
  max_retries (snd (_send firmware command r)) = max_retries r /\
  (written_of (snd (_send firmware command r)) = written_of r \/
   exists line,
     utf8_encode (command ++ [10]) = Ok line /\
     written_of (snd (_send firmware command r)) = written_of r ++ [line]).
Proof.
  unfold _send, written_of.
  destruct (_serial r) as [p |] eqn:Hs; cbn [snd]; [| rewrite Hs; auto].
  destruct (is_open p); cbn [negb]; cbn [snd]; [| rewrite Hs; auto].
  destruct (utf8_encode (command ++ [10])) as [line | e] eqn:El;
    cbn [snd]; [| rewrite Hs; auto].
  destruct (firmware (device p) line) as [d [answer | msg]]; cbn;
    (split; [reflexivity |]); right; exists line; auto.
Qed.

(** ** One attempt that is tried again *)

Lemma attempt_retried (k : nat) (a : Z) (command : str) (line : bytes)
    (cb : bool) (r : reader) (p : serial_port) (d' : Dev)
    (answer : list read_event) :
  idle r p ->
  utf8_encode (command ++ [10]) = Ok line ->
  firmware (device p) line = (d', Written answer) ->
  retried answer ->
  exists r' p',
    write_attempts firmware (S k) a command cb r
      = write_attempts firmware k (a + 1) command cb r' /\
    idle r' p' /\ device p' = d' /\ written p' = written p ++ [line] /\
    max_retries r' = max_retries r /\ _connected r' = _connected r /\
    (prompts r <= prompts r')%nat.
Proof.
  intros (Hs & Ho & Hi) Hl Hf Hr.
  cbn [write_attempts]. unfold _send. rewrite Hs, Ho. cbn [negb].
  rewrite Hl, Hf. rewrite Hi. cbn [app].
  unfold _wait_for_response at 1. cbn [with_port _serial inbox].
  destruct Hr as [-> | [(e1 & -> & (l1 & H1 & S1))
                       | (e1 & e2 & -> & (l1 & H1 & S1) & (l2 & H2 & S2))]].
  - rewrite wait_silent by lia. cbn [status].
    change (list_eqb TIMEOUT RESP_TAP_CARD) with false.
    change (list_eqb TIMEOUT RESP_ERROR) with false. cbv iota.
    eexists. eexists. split; [reflexivity |].
    cbn. repeat split; try reflexivity; lia.
  - rewrite (wait_answered _ _ e1 [] l1 RESP_TAP_CARD)
      by (lia || assumption || reflexivity).
    cbn [status].
    change (list_eqb RESP_TAP_CARD RESP_TAP_CARD) with true. cbv iota.
    unfold _wait_for_response.
    destruct cb; cbn [tap_prompt with_port _serial inbox];
      rewrite wait_silent by lia; cbn [status];
      change (list_eqb TIMEOUT RESP_WRITE_OK) with false;
      change (list_eqb TIMEOUT RESP_VERIFY_OK) with false;
      change (list_eqb TIMEOUT RESP_DUPLICATE) with false; cbv iota;
      (eexists; eexists; split; [reflexivity |]; cbn;
       repeat split; try reflexivity; lia).
  - rewrite (wait_answered _ _ e1 [e2] l1 RESP_TAP_CARD)
      by (lia || assumption || reflexivity).
    cbn [status].
    change (list_eqb RESP_TAP_CARD RESP_TAP_CARD) with true. cbv iota.
    unfold _wait_for_response.
    destruct cb; cbn [tap_prompt with_port _serial inbox];
      rewrite (wait_answered _ _ e2 [] l2 RESP_WRITE_FAIL)
        by (lia || assumption || reflexivity);
      cbn [status];
      change (list_eqb RESP_WRITE_FAIL RESP_WRITE_OK) with false;
      change (list_eqb RESP_WRITE_FAIL RESP_VERIFY_OK) with false;
      change (list_eqb RESP_WRITE_FAIL RESP_DUPLICATE) with false; cbv iota;
      (eexists; eexists; split; [reflexivity |]; cbn;
       repeat split; try reflexivity; lia).
Qed.

(** A device that answers every line in a way that is tried again uses up
    all attempts. *)
Lemma attempts_used_up (command : str) (line : bytes) (cb : bool) :
  utf8_encode (command ++ [10]) = Ok line ->
  (forall d, exists d' answer,
      firmware d line = (d', Written answer) /\ retried answer) ->
  forall (n : nat) (a : Z) (r : reader) (p : serial_port),
    idle r p ->
    exists r' p',
      write_attempts firmware n a command cb r
        = (Returns (attempts_exhausted r), r') /\
      idle r' p' /\ written p' = written p ++ repeat line n /\
      max_retries r' = max_retries r /\ _connected r' = _connected r.
Proof.
  intros Hl Hdev. induction n as [| n IH]; intros a r p Hidle.
  - exists r, p. cbn [write_attempts repeat]. rewrite app_nil_r.
    repeat split; try reflexivity; apply Hidle.
  - destruct (Hdev (device p)) as (d' & answer & Hf & Hr).
    destruct (attempt_retried n a command line cb r p d' answer
                Hidle Hl Hf Hr)
      as (r1 & p1 & Hstep & Hidle1 & _ & Hw1 & Hm1 & Hc1 & _).
    destruct (IH (a + 1) r1 p1 Hidle1) as (r2 & p2 & Hrun & Hidle2 & Hw2 & Hm2 & Hc2).
    exists r2, p2. rewrite Hstep, Hrun. unfold attempts_exhausted.
    rewrite Hm1. split; [reflexivity |]. split; [exact Hidle2 |].
    split; [| split; congruence].
    rewrite Hw2, Hw1, <- app_assoc. reflexivity.
Qed.

End Line.


Section Commands.

Context {Dev : Type}.
Variable firmware : Dev -> bytes -> Dev * write_result.

Lemma send_connected (command : str) (line : bytes) (r : @reader Dev) :
  connected r = true ->
  utf8_encode (command ++ [10]) = Ok line ->
  written_of (snd (_send firmware command r)) = written_of r ++ [line] /\
  (fst (_send firmware command r) = Ok tt \/
   exists msg, fst (_send firmware command r) = Raise (SerialException msg)).
Proof.
  unfold connected, _send, written_of. intros Hc Hl.
  apply andb_true_iff in Hc. destruct Hc as [_ Hc].
  destruct (_serial r) as [p |]; [| discriminate]. rewrite Hc, Hl.
  cbn [negb].
  destruct (firmware (device p) line) as [d [answer | msg]]; cbn; eauto.
Qed.

(** What the four single commands have in common, for every device: one
    line is written, whatever comes back. *)
Ltac single_command Hc Hl :=
  rewrite Hc; cbn [negb];
  match goal with
  | |- context [_send firmware ?cmd ?r] =>
      let Hw := fresh "Hw" in
      let Hres := fresh "Hres" in
      let res := fresh "res" in
      let r1 := fresh "r" in
      let msg := fresh "msg" in
      destruct (send_connected cmd _ r Hc Hl) as [Hw Hres];
      destruct (_send firmware cmd r) as [res r1];
      cbn [fst snd] in Hw, Hres;
      destruct Hres as [-> | (msg & ->)]; [| exact Hw];
      match goal with
      | |- context [_wait_for_response ?e ?t r1] =>
          let W1 := fresh "W" in
          let resp := fresh "resp" in
          let r2 := fresh "r" in
          pose proof (proj1 (wait_written e t r1)) as W1;
          destruct (_wait_for_response e t r1) as [resp r2];
          cbn [snd] in W1;
          destruct (list_eqb (status resp) RESP_TAP_CARD);
            [| cbn [snd]; congruence];
          match goal with
          | |- context [_wait_for_response ?e' ?t' (tap_prompt ?cb r2)] =>
              let W2 := fresh "W" in
              let W3 := fresh "W" in
              let result := fresh "result" in
              let r3 := fresh "r" in
              pose proof (proj1 (tap_prompt_written cb r2)) as W2;
              pose proof (proj1 (wait_written e' t' (tap_prompt cb r2)))
                as W3;
              destruct (_wait_for_response e' t' (tap_prompt cb r2))
                as [result r3];
              cbn [snd] in W3
          end
      end
  end.

Lemma erase_writes_once (cb : bool) (r : @reader Dev) :
  connected r = true ->
  written_of (snd (erase_tag firmware cb r))
  = written_of r ++ [command_line CMD_ERASE].
Proof.
  intros Hc. assert (Hl : utf8_encode (CMD_ERASE ++ [10])
                          = Ok (command_line CMD_ERASE)) by reflexivity.
  unfold erase_tag. single_command Hc Hl.
  destruct (list_eqb _ _); cbn [snd]; congruence.
Qed.




End Commands.


Section Writing.

Context {Dev : Type}.
Variable firmware : Dev -> bytes -> Dev * write_result.

(** For every device, all that the attempts of [write_ndef] write to the
    port is the line of the command, at most once per attempt. *)
Lemma write_attempts_written (command : str) (line : bytes) (cb : bool) :
  utf8_encode (command ++ [10]) = Ok line ->
  forall (n : nat) (a : Z) (r : @reader Dev),
  exists k,
    (k <= n)%nat /\
    written_of (snd (write_attempts firmware n a command cb r))
    = written_of r ++ repeat line k.
Proof.
  intros Hl. induction n as [| n IH]; intros a r.
  - exists 0%nat. cbn. rewrite app_nil_r. auto.
  - cbn [write_attempts].
    destruct (send_written firmware command r) as [_ Hw].
    destruct (_send firmware command r) as [res r1]. cbn [snd] in Hw.
    assert (Hk : exists k, (k <= 1)%nat /\
                           written_of r1 = written_of r ++ repeat line k).
    { destruct Hw as [Hw | (line' & Hl' & Hw)].
      - exists 0%nat. cbn. rewrite app_nil_r. auto.
      - exists 1%nat. cbn. rewrite Hl in Hl'. injection Hl' as <-. auto. }
    destruct Hk as (k1 & Hk1 & Hw1).
    assert (Stop : forall c, exists k,
               (k <= S n)%nat /\
               written_of (snd (c : completion, r1))
               = written_of r ++ repeat line k).
    { intros c. exists k1. split; [lia | exact Hw1]. }
    destruct res as [u | e].
    2:{ destruct e; apply Stop. }
    pose proof (proj1 (wait_written [RESP_TAP_CARD; RESP_ERROR] 5000 r1))
      as W1.
    destruct (_wait_for_response [RESP_TAP_CARD; RESP_ERROR] 5000 r1)
      as [resp r2]. cbn [snd] in W1.
    assert (Next : forall r' : @reader Dev, written_of r' = written_of r1 ->
               exists k,
                 (k <= S n)%nat /\
                 written_of
                   (snd (write_attempts firmware n (a + 1) command cb r'))
                 = written_of r ++ repeat line k).
    { intros r' Hr'. destruct (IH (a + 1) r') as (k & Hk & Hw').
      exists (k1 + k)%nat. split; [lia |].
      rewrite Hw', Hr', Hw1, repeat_app, app_assoc. reflexivity. }
    assert (Done : forall (c : completion) (r' : @reader Dev),
               written_of r' = written_of r1 ->
               exists k,
                 (k <= S n)%nat /\
                 written_of (snd (c, r')) = written_of r ++ repeat line k).
    { intros c r' Hr'. exists k1. split; [lia |]. cbn [snd]. congruence. }
    destruct (list_eqb (status resp) RESP_TAP_CARD).
    + pose proof (proj1 (tap_prompt_written cb r2)) as W2.
      match goal with
      | |- context [_wait_for_response ?e ?t (tap_prompt cb r2)] =>
          pose proof (proj1 (wait_written e t (tap_prompt cb r2))) as W3;
          destruct (_wait_for_response e t (tap_prompt cb r2))
            as [result r3]
      end.
      cbn [snd] in W3.
      assert (W : written_of r3 = written_of r1) by congruence.
      destruct (list_eqb (status result) RESP_WRITE_OK); [apply Done, W |].
      destruct (list_eqb (status result) RESP_VERIFY_OK); [apply Done, W |].
      destruct (list_eqb (status result) RESP_DUPLICATE); [apply Done, W |].
      apply Next, W.
    + destruct (list_eqb (status resp) RESP_ERROR);
        [apply Done, W1 | apply Next, W1].
Qed.

(** One attempt in which TAP_CARD is followed by DUPLICATE. *)
Lemma attempt_duplicate (k : nat) (a : Z) (command : str) (line : bytes)
    (cb : bool) (r : reader) (p : serial_port) (d' : Dev)
    (e1 e2 : read_event) (more : list read_event) (uid : str) :
  idle r p ->
  utf8_encode (command ++ [10]) = Ok line ->
  firmware (device p) line = (d', Written (e1 :: e2 :: more)) ->
  says RESP_TAP_CARD e1 ->
  says_with RESP_DUPLICATE uid e2 ->
  exists r',
    write_attempts firmware (S k) a command cb r
      = (Returns [(lit "success", VBool false);
                  (lit "error", VStr (lit "Tag already contains data"));
                  (lit "duplicate", VBool true);
                  (lit "uid", VStr uid)], r') /\
    written_of r' = written_of r ++ [line].
Proof.
  intros (Hs & Ho & Hi) Hl Hf (l1 & H1 & S1) (l2 & H2 & S2).
  cbn [write_attempts]. unfold _send. rewrite Hs, Ho. cbn [negb].
  rewrite Hl, Hf, Hi. cbn [app].
  unfold _wait_for_response at 1. cbn [with_port _serial inbox].
  rewrite (wait_answered _ _ e1 (e2 :: more) l1 RESP_TAP_CARD)
    by (lia || assumption || reflexivity).
  cbn [status].
  change (list_eqb RESP_TAP_CARD RESP_TAP_CARD) with true. cbv iota.
  unfold _wait_for_response, written_of. rewrite Hs.
  destruct cb; cbn [tap_prompt with_port _serial inbox];
    rewrite (wait_answered _ _ e2 more l2 RESP_DUPLICATE)
      by (lia || assumption || reflexivity || (rewrite S2; reflexivity));
    cbn [status resp_data]; rewrite S2; cbn [snd];
    change (list_eqb RESP_DUPLICATE RESP_WRITE_OK) with false;
    change (list_eqb RESP_DUPLICATE RESP_VERIFY_OK) with false;
    change (list_eqb RESP_DUPLICATE RESP_DUPLICATE) with true; cbv iota;
    (eexists; split; [reflexivity |]; reflexivity).
Qed.

(** Attempts that are tried again, then one in which TAP_CARD is followed
    by DUPLICATE: the loop ends there, whatever attempts are left. *)
Lemma attempts_until_duplicate (command : str) (line : bytes) (cb : bool)
    (e1 e2 : read_event) (more : list read_event) (uid : str) :
  utf8_encode (command ++ [10]) = Ok line ->
  says RESP_TAP_CARD e1 ->
  says_with RESP_DUPLICATE uid e2 ->
  forall (k left : nat) (a : Z) (r : reader) (p : serial_port),
    idle r p ->
    (forall j, (j < k)%nat ->
       exists answer,
         answer_after firmware line j (device p) = Written answer /\
         retried answer) ->
    answer_after firmware line k (device p) = Written (e1 :: e2 :: more) ->
    exists r',
      write_attempts firmware (k + S left) a command cb r
        = (Returns [(lit "success", VBool false);
                    (lit "error", VStr (lit "Tag already contains data"));
                    (lit "duplicate", VBool true);
                    (lit "uid", VStr uid)], r') /\
      written_of r' = written_of r ++ repeat line (S k).
Proof.
  intros Hl H1 H2. induction k as [| k IH]; intros left a r p Hidle Hre Hdup.
  - unfold answer_after in Hdup. cbn [device_after] in Hdup.
    destruct (firmware (device p) line) as [d' w] eqn:Hf. cbn [snd] in Hdup.
    subst w. cbn [Nat.add].
    exact (attempt_duplicate left a command line cb r p d' e1 e2 more uid
             Hidle Hl Hf H1 H2).
  - destruct (Hre 0%nat ltac:(lia)) as (answer & Ha & Hr).
    unfold answer_after in Ha. cbn [device_after] in Ha.
    destruct (firmware (device p) line) as [d' w] eqn:Hf. cbn [snd] in Ha.
    subst w.
    destruct (attempt_retried firmware (k + S left) a command line cb r p d'
                answer Hidle Hl Hf Hr)
      as (r1 & p1 & Hstep & Hidle1 & Hd1 & Hw1 & _).
    destruct (IH left (a + 1) r1 p1 Hidle1) as (r' & Hrun & Hw).
    + intros j Hj. destruct (Hre (S j) ltac:(lia)) as (ans & Hans & Hret).
      exists ans. split; [| exact Hret].
      unfold answer_after in *. cbn [device_after] in Hans.
      rewrite Hf in Hans. cbn [fst] in Hans. rewrite Hd1. exact Hans.
    + unfold answer_after in *. cbn [device_after] in Hdup.
      rewrite Hf in Hdup. cbn [fst] in Hdup. rewrite Hd1. exact Hdup.
    + exists r'. change (S k + S left)%nat with (S (k + S left)).
      rewrite Hstep. split; [exact Hrun |].
      rewrite Hw. unfold written_of.
      destruct Hidle as (Hs & _). destruct Hidle1 as (Hs1 & _).
      rewrite Hs, Hs1, Hw1, <- app_assoc. reflexivity.
Qed.

End Writing.


Section Retries.

Context {Dev : Type}.
Variable firmware : Dev -> bytes -> Dev * write_result.

Lemma idle_connected (r : @reader Dev) (p : serial_port) :
  _connected r = true -> idle r p -> connected r = true.
Proof.
  intros Hc (Hs & Ho & _). unfold connected. rewrite Hc, Hs, Ho. reflexivity.
Qed.

Lemma len_repeat {A} (x : A) (n : Z) : 0 <= n -> len (repeat x (Z.to_nat n)) = n.
Proof. intros Hn. unfold len. rewrite repeat_length. lia. Qed.

(** C7.  On a connected serial session with nothing left to read, whose
    device answers every WRITE_RAW line with TAP_CARD and then WRITE_FAIL,
    [write_ndef] writes the command line exactly [max_retries] times and
    then returns the failure "Failed after [max_retries] attempts". *)
Theorem write_fail_uses_all_attempts (ndef_data : bytes) (record_type : str)
    (cb : bool) (r : reader) (p : serial_port) :
  is_bytes ndef_data ->
  0 <= max_retries r ->
  _connected r = true ->
  idle r p ->
  (forall d, exists d' answer,
      firmware d (command_line (write_command ndef_data))
        = (d', Written answer) /\ tap_then_fail answer) ->
  exists r' p' attempts,
    write_ndef firmware ndef_data record_type cb r
      = (Returns (attempts_exhausted r), r') /\
    get (attempts_exhausted r) (lit "success") VNone = VBool false /\
    get (attempts_exhausted r) (lit "error") VNone
      = VStr (lit "Failed after " ++ str_of_int (max_retries r)
              ++ lit " attempts") /\
    _serial r' = Some p' /\
    written p' = written p ++ attempts /\
    attempts = repeat (command_line (write_command ndef_data))
                 (Z.to_nat (max_retries r)) /\
    len attempts = max_retries r.
Proof.
  intros Hd Hn Hc Hidle Hdev.
  unfold write_ndef. rewrite (idle_connected r p Hc Hidle). cbn [negb].
  destruct (attempts_used_up firmware (write_command ndef_data)
              (command_line (write_command ndef_data)) cb
              (write_command_encodes ndef_data Hd))
    with (n := Z.to_nat (max_retries r)) (a := 1) (r := r) (p := p)
    as (r' & p' & Hrun & (Hs' & _) & Hw & _).
  - intros d. destruct (Hdev d) as (d' & answer & Hf & Ha).
    exists d', answer. split; [exact Hf |]. right. right. exact Ha.
  - exact Hidle.
  - exists r', p', (repeat (command_line (write_command ndef_data))
                      (Z.to_nat (max_retries r))).
    split; [exact Hrun |]. split; [reflexivity |]. split; [reflexivity |].
    split; [exact Hs' |]. split; [exact Hw |]. split; [reflexivity |].
    apply len_repeat. exact Hn.
Qed.

End Retries.

Lemma write_fail_uses_all_attempts_witness :
  exists r' p' attempts,
    write_ndef failing_device [3; 0; 254] (lit "RAW") true fresh_reader
      = (Returns (attempts_exhausted fresh_reader), r') /\
    get (attempts_exhausted fresh_reader) (lit "success") VNone
      = VBool false /\
    get (attempts_exhausted fresh_reader) (lit "error") VNone
      = VStr (lit "Failed after 3 attempts") /\
    _serial r' = Some p' /\
    written p' = written fresh_port ++ attempts /\
    attempts = repeat (command_line (write_command [3; 0; 254]))
                 (Z.to_nat 3) /\
    len attempts = 3.
Proof.
  apply (write_fail_uses_all_attempts failing_device [3; 0; 254] (lit "RAW")
           true fresh_reader fresh_port).
  - repeat constructor; lia.
  - simpl. lia.
  - reflexivity.
  - repeat split; reflexivity.
  - intros d. exists tt. eexists. split; [reflexivity |].
    eexists. eexists. split; [reflexivity |].
    split; eexists; split; reflexivity.
Defined.


Section Duplicate.

Context {Dev : Type}.
Variable firmware : Dev -> bytes -> Dev * write_result.

Lemma erase_lines_app (a b : list bytes) :
  erase_lines (a ++ b) = (erase_lines a + erase_lines b)%nat.
Proof. unfold erase_lines. rewrite filter_app, length_app. reflexivity. Qed.

Lemma write_line_is_no_erase (ndef_data : bytes) (k : nat) :
  erase_lines (repeat (command_line (write_command ndef_data)) k) = 0%nat.
Proof.
  induction k as [| k IH]; [reflexivity |].
  change (repeat (command_line (write_command ndef_data)) (S k))
    with ([command_line (write_command ndef_data)]
          ++ repeat (command_line (write_command ndef_data)) k).
  rewrite erase_lines_app, IH. reflexivity.
Qed.

(** For every device, [write_ndef] writes nothing but its own command. *)
Lemma write_ndef_written (ndef_data : bytes) (record_type : str) (cb : bool)
    (r : @reader Dev) :
  is_bytes ndef_data ->
  exists k,
    (k <= Z.to_nat (max_retries r))%nat /\
    written_of (snd (write_ndef firmware ndef_data record_type cb r))
    = written_of r ++ repeat (command_line (write_command ndef_data)) k.
Proof.
  intros Hd. unfold write_ndef. destruct (connected r); cbn [negb].
  - apply write_attempts_written. apply write_command_encodes. exact Hd.
  - exists 0%nat. cbn. rewrite app_nil_r. split; [lia | reflexivity].
Qed.

Lemma write_ndef_no_erase (ndef_data : bytes) (record_type : str) (cb : bool)
    (r : @reader Dev) :
  is_bytes ndef_data ->
  erase_lines (written_of (snd (write_ndef firmware ndef_data record_type cb r)))
  = erase_lines (written_of r).
Proof.
  intros Hd.
  destruct (write_ndef_written ndef_data record_type cb r Hd) as (k & _ & ->).
  rewrite erase_lines_app, write_line_is_no_erase. lia.
Qed.

Lemma erase_tag_one_erase (cb : bool) (r : @reader Dev) :
  (erase_lines (written_of (snd (erase_tag firmware cb r)))
   <= erase_lines (written_of r) + 1)%nat.
Proof.
  destruct (connected r) eqn:Hc.
  - rewrite (erase_writes_once firmware cb r Hc), erase_lines_app.
    change (erase_lines [command_line CMD_ERASE]) with 1%nat. lia.
  - unfold erase_tag. rewrite Hc. cbn. lia.
Qed.

(** Every ERASE line that [do_write] causes follows an overwrite that the
    operator confirmed. *)
Lemma do_write_erases (ndef_data : bytes) (record_type : str) :
  is_bytes ndef_data ->
  forall (n : nat) (answers : list bool) (r : @reader Dev),
    (List.length answers <= n)%nat ->
    (erase_lines
       (written_of (snd (Cli.do_write firmware answers ndef_data
                           record_type r)))
     <= erase_lines (written_of r)
        + confirmed_overwrites
            (snd (fst (Cli.do_write firmware answers ndef_data
                         record_type r))))%nat.
Proof.
  intros Hd. induction n as [| n IH]; intros answers r Hn.
  - destruct answers; [cbn; lia | cbn in Hn; lia].
  - destruct answers as [| proceed answers]; [cbn; lia |].
    cbn [Cli.do_write]. destruct proceed; cbn [negb]; [| cbn; lia].
    pose proof (write_ndef_no_erase ndef_data record_type true r Hd) as W.
    destruct (write_ndef firmware ndef_data record_type true r) as [c r1].
    cbn [snd] in W.
    destruct c as [result | e |]; [| cbn; lia | cbn; lia].
    destruct (truthy (get result (lit "success") VNone)); [cbn; lia |].
    destruct (truthy (get result (lit "duplicate") VNone)); [| cbn; lia].
    destruct answers as [| overwrite answers]; [cbn; lia |].
    destruct overwrite; [| cbn; lia].
    pose proof (erase_tag_one_erase true r1) as E.
    destruct (erase_tag firmware true r1) as [c2 r2]. cbn [snd] in E.
    destruct c2 as [erase_result | e |];
      [| cbn; lia | cbn; lia].
    destruct (truthy (get erase_result (lit "success") VNone));
      [| cbn; lia].
    assert (Hlen : (List.length answers <= n)%nat) by (cbn in Hn; lia).
    specialize (IH answers r2 Hlen).
    destruct (Cli.do_write firmware answers ndef_data record_type r2)
      as [[e asked] r3].
    cbn [fst snd] in *.
    change (confirmed_overwrites
              ((Cli.ProceedWithWrite, true)
               :: (Cli.OverwriteExistingData, true) :: asked))
      with (S (confirmed_overwrites asked)).
    lia.
Qed.

(** C8.  On a connected serial session with nothing left to read,
    [write_ndef] returns in the attempt in which the device answers the
    command with TAP_CARD and then DUPLICATE with a tag identifier,
    whatever attempts are left: when the answers to the first [k] command
    lines are tried again and the next one is that answer, the result of
    [write_ndef] is a failure with the duplicate flag set and the
    identifier as uid, after [k + 1] command lines and nothing else.  For
    every device [write_ndef] writes only its own command line, never
    ERASE; and [do_write] causes no more ERASE lines than the operator
    confirmed overwrites. *)
Theorem duplicate_is_reported_not_erased (ndef_data : bytes) :
  is_bytes ndef_data ->
  (forall (record_type : str) (cb : bool) (r : reader) (p : serial_port)
          (k : nat) (e1 e2 : read_event) (more : list read_event)
          (uid : str),
     _connected r = true ->
     idle r p ->
     Z.of_nat k < max_retries r ->
     (forall j, (j < k)%nat ->
        exists answer,
          answer_after firmware (command_line (write_command ndef_data)) j
            (device p) = Written answer /\
          retried answer) ->
     answer_after firmware (command_line (write_command ndef_data)) k
       (device p) = Written (e1 :: e2 :: more) ->
     says RESP_TAP_CARD e1 ->
     says_with RESP_DUPLICATE uid e2 ->
     exists r' result,
       write_ndef firmware ndef_data record_type cb r
         = (Returns result, r') /\
       get result (lit "success") VNone = VBool false /\
       get result (lit "duplicate") VNone = VBool true /\
       get result (lit "uid") VNone = VStr uid /\
       written_of r'
       = written_of r
         ++ repeat (command_line (write_command ndef_data)) (S k)) /\
  (forall (record_type : str) (cb : bool) (r : reader),
     exists k,
       written_of (snd (write_ndef firmware ndef_data record_type cb r))
       = written_of r ++ repeat (command_line (write_command ndef_data)) k /\
       erase_lines (repeat (command_line (write_command ndef_data)) k)
       = 0%nat) /\
  (forall (answers : list bool) (record_type : str) (r : reader),
     (erase_lines
        (written_of (snd (Cli.do_write firmware answers ndef_data
                            record_type r)))
      <= erase_lines (written_of r)
         + confirmed_overwrites
             (snd (fst (Cli.do_write firmware answers ndef_data
                          record_type r))))%nat).
Proof.
  intros Hd. split; [| split].
  - intros record_type cb r p k e1 e2 more uid Hc Hidle Hk Hre Hdup H1 H2.
    unfold write_ndef. rewrite (idle_connected r p Hc Hidle). cbn [negb].
    replace (Z.to_nat (max_retries r))
      with (k + S (Z.to_nat (max_retries r) - S k))%nat by lia.
    destruct (attempts_until_duplicate firmware (write_command ndef_data)
                (command_line (write_command ndef_data)) cb e1 e2 more uid
                (write_command_encodes ndef_data Hd) H1 H2 k
                (Z.to_nat (max_retries r) - S k)%nat 1 r p Hidle Hre Hdup)
      as (r' & Hrun & Hw).
    exists r'. eexists. split; [exact Hrun |].
    repeat split; try reflexivity. exact Hw.
  - intros record_type cb r.
    destruct (write_ndef_written ndef_data record_type cb r Hd)
      as (k & _ & Hw).
    exists k. split; [exact Hw | apply write_line_is_no_erase].
  - intros answers record_type r.
    apply (do_write_erases ndef_data record_type Hd (List.length answers)).
    lia.
Qed.

End Duplicate.

Lemma duplicate_is_reported_not_erased_witness :
  exists r' result,
    write_ndef second_try_device [3; 0; 254] (lit "RAW") true
      second_try_reader = (Returns result, r') /\
    get result (lit "success") VNone = VBool false /\
    get result (lit "duplicate") VNone = VBool true /\
    get result (lit "uid") VNone = VStr (lit "04A1B2C3") /\
    written_of r'
    = written_of second_try_reader
      ++ repeat (command_line (write_command [3; 0; 254])) 2.
Proof.
  apply (proj1 (duplicate_is_reported_not_erased second_try_device
                  [3; 0; 254] ltac:(repeat constructor; lia))
           (lit "RAW") true second_try_reader second_try_port 1%nat
           (Received 120 (lit "TAP_CARD" ++ [10]))
           (Received 900 (lit "DUPLICATE|04A1B2C3" ++ [10])) []
           (lit "04A1B2C3")).
  - reflexivity.
  - repeat split; reflexivity.
  - simpl. lia.
  - intros j Hj. assert (j = 0%nat) as -> by lia.
    eexists. split; [reflexivity |]. right. right.
    eexists. eexists. split; [reflexivity |].
    split; eexists; split; reflexivity.
  - reflexivity.
  - eexists. split; reflexivity.
  - eexists. split; reflexivity.
Defined.


Section Timeouts.

Context {Dev : Type}.
Variable firmware : Dev -> bytes -> Dev * write_result.







End Timeouts.

End SerialProps.

(* ===================================================================== *)
(** * Properties of the phone bridge                                      *)
(* ===================================================================== *)

Module BridgeProps.

Import NdefEncoder PhoneNfc Protocol CodecProps.

Section Bridge.

Context {U : UnicodeData}.
Context {Phone : Type}.
Variable browser : Phone -> dict -> Phone * reply.
Variable format_object : value -> str.




Lemma tap_prompt_same (cb : bool) (b : @bridge Phone) :
  sent (tap_prompt cb b) = sent b /\
  max_retries (tap_prompt cb b) = max_retries b /\
  (linked b -> linked (tap_prompt cb b)) /\
  _ws_client (tap_prompt cb b) = _ws_client b /\
  _loop (tap_prompt cb b) = _loop b /\
  phone (tap_prompt cb b) = phone b.
Proof. destruct cb; cbn; unfold linked; cbn; tauto. Qed.






End Bridge.


Section NoReply.

Context {U : UnicodeData}.
Context {Phone : Type}.
Variable browser : Phone -> dict -> Phone * reply.
Variable format_object : value -> str.

Lemma linked_connected (b : @bridge Phone) : linked b -> connected b = true.
Proof. intros (Hc & Hr & _). unfold connected. rewrite Hc, Hr. reflexivity. Qed.







End NoReply.

End BridgeProps.

(* ===================================================================== *)
(** * Properties of both transports                                       *)
(* ===================================================================== *)

Module TransportProps.

Import NdefEncoder Protocol.





End TransportProps.

(* ===================================================================== *)
(** * Hexadecimal text                                                  *)
(* ===================================================================== *)

Module HexProps.

Import NdefEncoder HexBytes Protocol Notions CodecProps.

Lemma small_cases (P : Z -> Prop) (n : Z) :
  0 <= n < 16 ->
  (forall k : nat, (k < 16)%nat -> P (Z.of_nat k)) -> P n.
Proof.
  intros Hn HP. rewrite <- (Z2Nat.id n) by lia. apply HP. lia.
Qed.

Lemma hex_digit_value (n : Z) :
  0 <= n < 16 ->
  hex_value (hex_digit n) = Some n /\
  hex_value (ascii_upper (hex_digit n)) = Some n /\
  ascii_space (hex_digit n) = false /\
  ascii_space (ascii_upper (hex_digit n)) = false /\
  is_ascii (hex_digit n) = true.
Proof.
  intros Hn. pattern n. apply (small_cases _ n Hn). intros k Hk.
  do 16 (destruct k as [| k]; [repeat split; reflexivity |]). lia.
Qed.

Lemma byte_digits (b : Z) :
  0 <= b < 256 -> 0 <= b / 16 < 16 /\ 0 <= b mod 16 < 16 /\
                  b / 16 * 16 + b mod 16 = b.
Proof.
  intros Hb. pose proof (Z.div_mod b 16 ltac:(lia)).
  pose proof (Z.mod_pos_bound b 16 ltac:(lia)).
  assert (0 <= b / 16) by (apply Z.div_pos; lia).
  assert (b / 16 < 16) by (apply Z.div_lt_upper_bound; lia).
  lia.
Qed.

(** The digits of [b.hex()], as they are or in upper case, are read back
    by the loop of [fromhex]. *)
Lemma fromhex_pairs_hex (f : Z -> Z) :
  (forall n, 0 <= n < 16 ->
             hex_value (f (hex_digit n)) = Some n /\
             ascii_space (f (hex_digit n)) = false) ->
  forall (data : bytes) (position : Z),
    is_bytes data ->
    fromhex_pairs (map f (hex data)) position = Ok data.
Proof.
  intros Hf data. unfold is_bytes, hex.
  induction data as [| b data IH]; intros position Hd; [reflexivity |].
  inversion Hd as [| b' data' Hb Hd']; subst.
  destruct (byte_digits b Hb) as (H1 & H2 & H3).
  destruct (Hf _ H1) as [V1 S1]. destruct (Hf _ H2) as [V2 _].
  cbn [flat_map app map fromhex_pairs].
  rewrite S1, V1, V2, (IH _ Hd'). cbn [bind]. rewrite H3. reflexivity.
Qed.

Lemma hex_ascii (data : bytes) :
  is_bytes data -> forallb is_ascii (hex data) = true.
Proof.
  unfold is_bytes, hex. induction 1 as [| b data Hb Hd IH]; [reflexivity |].
  destruct (byte_digits b Hb) as (H1 & H2 & _).
  cbn [flat_map app forallb]. rewrite IH.
  rewrite (proj2 (proj2 (proj2 (proj2 (hex_digit_value _ H1))))).
  rewrite (proj2 (proj2 (proj2 (proj2 (hex_digit_value _ H2))))).
  reflexivity.
Qed.

(** What [bytes_to_hex] writes is read back. *)
Lemma upper_hex_read_back (data : bytes) :
  is_bytes data -> hex_to_bytes (bytes_to_hex data) = Ok data.
Proof.
  intros Hd. unfold hex_to_bytes, fromhex.
  rewrite (SerialProps.bytes_to_hex_ascii data Hd). unfold bytes_to_hex.
  apply fromhex_pairs_hex; [| exact Hd].
  intros n Hn. destruct (hex_digit_value n Hn) as (_ & V & _ & S & _).
  split; assumption.
Qed.

(** What [bytes.hex] writes is read back. *)
Lemma lower_hex_read_back (data : bytes) :
  is_bytes data -> hex_to_bytes (hex data) = Ok data.
Proof.
  intros Hd. unfold hex_to_bytes, fromhex.
  rewrite (hex_ascii data Hd). rewrite <- (map_id (hex data)).
  apply (fromhex_pairs_hex (fun c => c)); [| exact Hd].
  intros n Hn. destruct (hex_digit_value n Hn) as (V & _ & S & _).
  split; assumption.
Qed.

(** X1.  Hexadecimal text is a lossless carrier of bytes: what
    [bytes_to_hex] writes (upper case, as it goes on the serial line) and
    what [bytes.hex] writes (lower case, as the decoder shows unknown
    payloads) is read back by [hex_to_bytes] as the bytes it came from. *)
Theorem hex_round_trip (data : bytes) :
  is_bytes data ->
  hex_to_bytes (bytes_to_hex data) = Ok data /\
  hex_to_bytes (hex data) = Ok data.
Proof.
  intros Hd. split;
    [apply upper_hex_read_back | apply lower_hex_read_back]; exact Hd.
Qed.

Lemma hex_round_trip_witness :
  hex_to_bytes (bytes_to_hex [3; 0; 254]) = Ok [3; 0; 254] /\
  hex_to_bytes (hex [3; 0; 254]) = Ok [3; 0; 254].
Proof.
  apply (hex_round_trip [3; 0; 254]).
  repeat constructor; lia.
Defined.

Lemma hex_value_inv (c v : Z) :
  hex_value c = Some v ->
  0 <= v < 16 /\ ascii_upper (hex_digit v) = ascii_upper c /\
  ascii_space c = false.
Proof.
  unfold hex_value, hex_digit, ascii_upper, ascii_space.
  destruct (Z.leb_spec 48 c), (Z.leb_spec c 57); cbn [andb].
  all: try (intros [= <-]; repeat split; try lia;
            repeat match goal with
                   | |- context [?x <? ?y] => destruct (Z.ltb_spec x y); try lia
                   | |- context [?x <=? ?y] => destruct (Z.leb_spec x y); try lia
                   | |- context [?x =? ?y] => destruct (Z.eqb_spec x y); try lia
                   end; cbn [andb orb]; try lia; reflexivity).
  all: destruct (Z.leb_spec 97 c), (Z.leb_spec c 102); cbn [andb].
  all: try (intros [= <-]; repeat split; try lia;
            repeat match goal with
                   | |- context [?x <? ?y] => destruct (Z.ltb_spec x y); try lia
                   | |- context [?x <=? ?y] => destruct (Z.leb_spec x y); try lia
                   | |- context [?x =? ?y] => destruct (Z.eqb_spec x y); try lia
                   end; cbn [andb orb]; try lia; reflexivity).
  all: destruct (Z.leb_spec 65 c), (Z.leb_spec c 70); cbn [andb].
  all: try discriminate.
  all: try (intros [= <-]; repeat split; try lia;
            repeat match goal with
                   | |- context [?x <? ?y] => destruct (Z.ltb_spec x y); try lia
                   | |- context [?x <=? ?y] => destruct (Z.leb_spec x y); try lia
                   | |- context [?x =? ?y] => destruct (Z.eqb_spec x y); try lia
                   end; cbn [andb orb]; try lia; reflexivity).
Qed.

Lemma pair_digits (top bot : Z) :
  0 <= top < 16 -> 0 <= bot < 16 ->
  0 <= top * 16 + bot < 256 /\
  (top * 16 + bot) / 16 = top /\ (top * 16 + bot) mod 16 = bot.
Proof.
  intros Ht Hb. split; [lia |].
  rewrite Z.add_comm, Z.div_add, Z.mod_add by lia.
  rewrite Z.div_small, Z.mod_small by lia. lia.
Qed.

Lemma fromhex_pairs_sound (n : nat) :
  forall (s : str) (position : Z),
    (length s <= n)%nat ->
    match fromhex_pairs s position with
    | Ok data => is_bytes data /\ bytes_to_hex data = canonical s
    | Raise e => exists p, e = fromhex_error p
    end.
Proof.
  induction n as [| n IH]; intros s position Hn.
  - destruct s; [| cbn in Hn; lia]. cbn. split; [constructor | reflexivity].
  - destruct s as [| c s1]; [cbn; split; [constructor | reflexivity] |].
    cbn [fromhex_pairs]. cbn [length] in Hn.
    destruct (ascii_space c) eqn:Sc.
    + specialize (IH s1 (position + 1) ltac:(lia)).
      destruct (fromhex_pairs s1 (position + 1)); [| exact IH].
      unfold canonical in *. cbn [filter]. rewrite Sc. exact IH.
    + destruct (hex_value c) as [top |] eqn:Vc; [| eexists; reflexivity].
      destruct s1 as [| d s2]; [eexists; reflexivity |].
      destruct (hex_value d) as [bot |] eqn:Vd; [| eexists; reflexivity].
      cbn [length] in Hn.
      specialize (IH s2 (position + 2) ltac:(lia)).
      destruct (fromhex_pairs s2 (position + 2)) as [rest | e];
        cbn [bind]; [| exact IH].
      destruct IH as [Hr Hx].
      destruct (hex_value_inv _ _ Vc) as (Rt & Ut & _).
      destruct (hex_value_inv _ _ Vd) as (Rb & Ub & Sd).
      destruct (pair_digits top bot Rt Rb) as (Rp & Dp & Mp).
      split; [constructor; assumption |].
      unfold canonical in *. cbn [filter]. rewrite Sc, Sd. cbn [negb map].
      unfold bytes_to_hex, hex in *. cbn [flat_map app map].
      rewrite Dp, Mp, Ut, Ub. f_equal. f_equal. exact Hx.
Qed.

(** X2.  [hex_to_bytes] accepts nothing but pairs of hexadecimal digits
    with white space between the pairs: what it returns are bytes whose
    upper-case hexadecimal text is the input without its white space and
    in upper case, and the only exception it raises is ValueError. *)
Theorem hex_to_bytes_sound (hex_str : str) :
  match hex_to_bytes hex_str with
  | Ok data =>
      is_bytes data /\
      bytes_to_hex data
      = map ascii_upper (filter (fun c => negb (ascii_space c)) hex_str)
  | Raise e => exists msg, e = ValueError msg
  end.
Proof.
  unfold hex_to_bytes, fromhex.
  destruct (forallb is_ascii hex_str); [| eexists; reflexivity].
  pose proof (fromhex_pairs_sound (length hex_str) hex_str 0 (le_n _)) as S.
  destruct (fromhex_pairs hex_str 0); [exact S |].
  destruct S as [p ->]. eexists. reflexivity.
Qed.

Import NdefEncoder HexBytes Utils Protocol CodecProps.

Lemma hex_byte_digits (b : Z) :
  0 <= b < 256 ->
  exists h1 h2,
    hex_byte b = [h1; h2] /\
    hex_value h1 = Some (b / 16) /\ hex_value h2 = Some (b mod 16) /\
    ascii_space h1 = false /\ is_ascii h1 = true /\ is_ascii h2 = true.
Proof.
  intros Hb. destruct (byte_digits b Hb) as (H1 & H2 & _).
  unfold hex_byte. cbn [map]. eexists. eexists. split; [reflexivity |].
  destruct (hex_digit_value _ H1) as (_ & V1 & _ & S1 & _).
  destruct (hex_digit_value _ H2) as (_ & V2 & _ & _ & _).
  repeat split; auto; apply SerialProps.hex_digit_upper_ascii; assumption.
Qed.

Lemma fromhex_pairs_uid (data : bytes) :
  is_bytes data ->
  forall position,
    fromhex_pairs (format_uid data) position = Ok data /\
    forallb is_ascii (format_uid data) = true.
Proof.
  unfold format_uid, is_bytes. induction 1 as [| b data Hb Hd IH];
    intros position; [split; reflexivity |].
  destruct (hex_byte_digits b Hb) as (h1 & h2 & Hh & V1 & V2 & S1 & A1 & A2).
  destruct (byte_digits b Hb) as (_ & _ & Hsum).
  cbn [map]. destruct data as [| c data].
  - cbn [map join]. rewrite Hh. cbn [fromhex_pairs forallb].
    rewrite S1, V1, V2, A1, A2. cbn [bind]. rewrite Hsum. auto.
  - change (join (lit " ") (hex_byte b :: map hex_byte (c :: data)))
      with (hex_byte b ++ [32] ++ join (lit " ") (map hex_byte (c :: data))).
    rewrite Hh. cbn [app fromhex_pairs forallb].
    rewrite S1, V1, V2, A1, A2.
    change (ascii_space 32) with true. cbv iota.
    destruct (IH (position + 2 + 1)) as [-> ->]. cbn [bind].
    rewrite Hsum. auto.
Qed.

(** X3.  The UID as it is shown, two upper-case digits for a byte and a
    space between the bytes, is read back by [bytes.fromhex] as the bytes
    of the UID. *)
Theorem uid_round_trip (uid_bytes : bytes) :
  is_bytes uid_bytes ->
  hex_to_bytes (format_uid uid_bytes) = Ok uid_bytes.
Proof.
  intros Hd. unfold hex_to_bytes, fromhex.
  destruct (fromhex_pairs_uid uid_bytes Hd 0) as [Hp ->]. exact Hp.
Qed.

Lemma uid_round_trip_witness :
  format_uid [0xA3; 0xFF; 0x22; 0x19] = lit "A3 FF 22 19" /\
  hex_to_bytes (format_uid [0xA3; 0xFF; 0x22; 0x19])
  = Ok [0xA3; 0xFF; 0x22; 0x19].
Proof.
  split; [reflexivity |].
  apply (uid_round_trip [0xA3; 0xFF; 0x22; 0x19]).
  repeat constructor; lia.
Defined.

End HexProps.

(* ===================================================================== *)
(** * The encoders produce bytes                                        *)
(* ===================================================================== *)

Module BytesProps.

Import NdefEncoder HexBytes Codec Protocol Notions CodecProps.

Lemma is_bytes_app (a b : bytes) :
  is_bytes (a ++ b) <-> is_bytes a /\ is_bytes b.
Proof. unfold is_bytes. apply Forall_app. Qed.

Lemma is_bytes_cons (x : Z) (a : bytes) :
  is_bytes (x :: a) <-> 0 <= x < 256 /\ is_bytes a.
Proof. unfold is_bytes. apply Forall_cons_iff. Qed.

Lemma is_bytes_nil : is_bytes [].
Proof. constructor. Qed.

Ltac in_byte_range :=
  unfold is_bytes; repeat (apply Forall_cons; [lia |]); apply Forall_nil.

Lemma utf8_char_bytes (c : Z) (b : bytes) :
  utf8_char c = Some b -> is_bytes b.
Proof.
  unfold utf8_char.
  destruct (Z.ltb_spec c 0); [discriminate |].
  destruct (Z.ltb_spec c 128).
  { intros E. apply Some_inj in E. subst b. in_byte_range. }
  assert (M : forall x, 0 <= x mod 64 < 64)
    by (intros x; apply Z.mod_pos_bound; lia).
  destruct (Z.ltb_spec c 2048).
  { intros E. apply Some_inj in E. subst b.
    assert (0 <= c / 64 < 32)
      by (split; [apply Z.div_pos | apply Z.div_lt_upper_bound]; lia).
    pose proof (M c). in_byte_range. }
  destruct (Z.ltb_spec c 65536).
  { destruct ((55296 <=? c) && (c <=? 57343)); [discriminate |].
    intros E. apply Some_inj in E. subst b.
    assert (0 <= c / 4096 < 16)
      by (split; [apply Z.div_pos | apply Z.div_lt_upper_bound]; lia).
    pose proof (M c). pose proof (M (c / 64)). in_byte_range. }
  destruct (Z.ltb_spec c 1114112); [| discriminate].
  intros E. apply Some_inj in E. subst b.
  assert (0 <= c / 262144 < 5)
    by (split; [apply Z.div_pos | apply Z.div_lt_upper_bound]; lia).
  pose proof (M c). pose proof (M (c / 64)). pose proof (M (c / 4096)).
  in_byte_range.
Qed.

Lemma utf8_encode_bytes (s : str) (b : bytes) :
  utf8_encode s = Ok b -> is_bytes b.
Proof.
  revert b. induction s as [| c s IH]; intros b; cbn [utf8_encode].
  - intros [= <-]. constructor.
  - destruct (utf8_char c) as [bc |] eqn:Ec; [| discriminate].
    destruct (utf8_encode s) as [bs | e]; [| discriminate].
    cbn [bind]. intros [= <-]. apply is_bytes_app.
    split; [apply (utf8_char_bytes c), Ec | apply IH; reflexivity].
Qed.

Lemma ascii_encode_bytes (s : str) (b : bytes) :
  ascii_encode s = Ok b -> is_bytes b.
Proof.
  revert b. induction s as [| c s IH]; intros b; cbn [ascii_encode].
  - intros [= <-]. constructor.
  - destruct (is_ascii c) eqn:Ec; [| discriminate].
    destruct (ascii_encode s) as [bs | e]; [| discriminate].
    cbn [bind]. intros [= <-]. apply is_bytes_cons.
    split; [| apply IH; reflexivity].
    unfold is_ascii in Ec. apply andb_true_iff in Ec. destruct Ec as [A B].
    apply Z.leb_le in A. apply Z.ltb_lt in B. lia.
Qed.

Lemma be_bytes (v : Z) :
  0 <= v <= 65535 -> is_bytes [v / 256; v mod 256].
Proof.
  intros Hv. pose proof (Z.mod_pos_bound v 256 ltac:(lia)).
  assert (0 <= v / 256 < 256)
    by (split; [apply Z.div_pos | apply Z.div_lt_upper_bound]; lia).
  in_byte_range.
Qed.

Lemma pack_H_is_bytes (v : Z) (b : bytes) : pack_H v = Ok b -> is_bytes b.
Proof.
  intros Hp. apply pack_H_inv in Hp. destruct Hp as [Hv ->].
  apply be_bytes, Hv.
Qed.

(** The bytes of a record in its container. *)
Lemma framed_bytes (tnf : Z) (rec_type payload : bytes) :
  0 <= tnf < 8 -> len rec_type <= 255 ->
  len (record_bytes tnf rec_type payload) <= 65535 ->
  is_bytes rec_type -> is_bytes payload ->
  is_bytes (tlv_bytes (record_bytes tnf rec_type payload)).
Proof.
  intros Ht Hty Hr Bt Bp.
  assert (Br : is_bytes (record_bytes tnf rec_type payload)).
  { unfold record_bytes. pose proof (len_nonneg rec_type).
    pose proof (len_nonneg payload).
    destruct (Z.leb_spec (len payload) 255).
    - cbn [app]. repeat (apply is_bytes_cons; split; [lia |]).
      apply is_bytes_app. auto.
    - rewrite len_record_bytes in Hr.
      destruct (Z.leb_spec (len payload) 255); [lia |].
      assert (Hp : 0 <= len payload <= 0xFFFFFFFF) by lia.
      destruct (pack_I_bytes _ Hp) as (b3 & b2 & b1 & b0 & Hk & R3 & R2 & R1
                                       & R0 & _).
      rewrite pack_I_ok in Hk by exact Hp. injection Hk as <- <- <- <-.
      unfold is_byte in *. cbn [app].
      repeat (apply is_bytes_cons; split; [lia |]).
      apply is_bytes_app. auto. }
  unfold tlv_bytes. pose proof (len_nonneg (record_bytes tnf rec_type payload)).
  destruct (Z.ltb_spec (len (record_bytes tnf rec_type payload)) 255).
  - cbn [app]. repeat (apply is_bytes_cons; split; [lia |]).
    apply is_bytes_app. split; [exact Br | in_byte_range].
  - pose proof (be_bytes (len (record_bytes tnf rec_type payload))
                  ltac:(lia)) as Hb.
    apply is_bytes_cons in Hb. destruct Hb as [H1 Hb].
    apply is_bytes_cons in Hb. destruct Hb as [H2 _]. cbn [app].
    repeat (apply is_bytes_cons; split; [lia |]).
    apply is_bytes_app. split; [exact Br | in_byte_range].
Qed.

Lemma framed_is_bytes (tnf : Z) (rec_type payload out : bytes) :
  0 <= tnf < 8 ->
  (record <- _make_ndef_record tnf rec_type payload true true ;;
   _wrap_tlv record) = Ok out ->
  is_bytes rec_type -> is_bytes payload -> is_bytes out.
Proof.
  intros Ht Hx Bt Bp. apply framed_inv in Hx; [| exact Ht].
  destruct Hx as (-> & Hty & Hr). apply framed_bytes; assumption.
Qed.

Lemma lit_bytes (s : string) : is_bytes (lit s).
Proof.
  unfold lit, is_bytes. apply Forall_map. apply Forall_forall.
  intros a _. cbv beta. pose proof (N_ascii_bounded a). lia.
Qed.

Lemma prefix_codes :
  forallb (fun entry => (0 <=? snd entry) && (snd entry <? 256))
    (sorted (fun x => - len (fst x)) URI_PREFIXES) = true.
Proof. vm_compute. reflexivity. Qed.

Lemma encode_url_bytes `{UnicodeData} (url : str) (out : bytes) :
  encode_url url = Ok out -> is_bytes out.
Proof.
  unfold encode_url.
  destruct (scan_prefixes _ _) as [code field] eqn:Es. intros Hx.
  apply bind_ok in Hx. destruct Hx as (fb & Ef & Hx).
  apply (framed_is_bytes 1 _ _ _ ltac:(lia) Hx); [apply lit_bytes |].
  cbn [app]. apply is_bytes_cons. split; [| apply (utf8_encode_bytes _ _ Ef)].
  apply scan_prefixes_spec in Es.
  destruct Es as [[-> _] | (prefix & Hin & _)]; [lia |].
  pose proof prefix_codes as Hc. rewrite forallb_forall in Hc.
  specialize (Hc _ Hin). cbn [snd] in Hc. apply andb_true_iff in Hc.
  destruct Hc as [A B]. apply Z.leb_le in A. apply Z.ltb_lt in B. lia.
Qed.

Lemma wifi_payload_bytes `{UnicodeData} (ssid password auth_type : str)
    (payload : bytes) :
  wifi_payload ssid password auth_type = Ok payload -> is_bytes payload.
Proof.
  unfold wifi_payload, wifi_credential. cbn [pack]. intros Hx.
  ok_all.
  repeat match goal with
         | H : pack_H _ = Ok _ |- _ => apply pack_H_is_bytes in H
         | H : utf8_encode _ = Ok _ |- _ => apply utf8_encode_bytes in H
         | H : Ok _ = Ok _ |- _ => injection H as <-
         end.
  destruct password as [| c pw].
  - repeat match goal with
           | H : Ok _ = Ok _ |- _ => injection H as <-
           end.
    rewrite ?app_nil_r.
    repeat (apply is_bytes_app; split); auto;
      in_byte_range.
  - ok_all.
    repeat match goal with
           | H : pack_H _ = Ok _ |- _ => apply pack_H_is_bytes in H
           | H : utf8_encode _ = Ok _ |- _ => apply utf8_encode_bytes in H
           | H : Ok _ = Ok _ |- _ => injection H as <-
           end.
    rewrite ?app_nil_r.
    repeat (apply is_bytes_app; split); auto;
      in_byte_range.
Qed.

(** What an encoder returns holds bytes. *)
Lemma encoded_bytes `{UnicodeData} (x : content_kind) (out : bytes) :
  encode x = Ok out -> is_bytes out.
Proof.
  intros Hx. destruct x; cbn [encode] in Hx.
  - apply (encode_url_bytes _ _ Hx).
  - unfold encode_text in Hx.
    apply bind_ok in Hx. destruct Hx as (lb & El & Hx).
    apply bind_ok in Hx. destruct Hx as (tb & Et & Hx).
    apply (framed_is_bytes 1 _ _ _ ltac:(lia) Hx); [apply lit_bytes |].
    cbn [app]. apply is_bytes_cons. split.
    + change 63 with (Z.ones 6). rewrite Z.land_ones by lia.
      pose proof (Z.mod_pos_bound (len lb) (2 ^ 6) ltac:(lia)).
      change (2 ^ 6) with 64 in *. lia.
    + apply is_bytes_app. split;
        [apply (ascii_encode_bytes _ _ El)
        | apply (utf8_encode_bytes _ _ Et)].
  - unfold encode_vcard in Hx.
    apply bind_ok in Hx. destruct Hx as (block & Eb & Hx).
    apply bind_ok in Hx. destruct Hx as (pb & Ep & Hx).
    apply (framed_is_bytes 2 _ _ _ ltac:(lia) Hx); [apply lit_bytes |].
    apply (utf8_encode_bytes _ _ Ep).
  - unfold encode_phone in Hx.
    apply bind_ok in Hx. destruct Hx as (pb & Ep & Hx).
    apply (framed_is_bytes 1 _ _ _ ltac:(lia) Hx); [apply lit_bytes |].
    cbn [app]. apply is_bytes_cons. split; [lia |].
    apply (utf8_encode_bytes _ _ Ep).
  - unfold encode_email in Hx.
    apply bind_ok in Hx. destruct Hx as (mb & Em & Hx).
    apply (framed_is_bytes 1 _ _ _ ltac:(lia) Hx); [apply lit_bytes |].
    cbn [app]. apply is_bytes_cons. split; [lia |].
    apply (utf8_encode_bytes _ _ Em).
  - unfold encode_social in Hx.
    destruct (lookup SOCIAL_PLATFORMS _); [| discriminate].
    apply (encode_url_bytes _ _ Hx).
  - unfold encode_wifi in Hx.
    apply bind_ok in Hx. destruct Hx as (pb & Ep & Hx).
    apply (framed_is_bytes 2 _ _ _ ltac:(lia) Hx); [apply lit_bytes |].
    apply (wifi_payload_bytes _ _ _ _ Ep).
Qed.

(** X4.  What an encoder returns holds bytes and nothing else: every
    element of the output of each of the seven encoders is a number from
    0 to 255, so that its hexadecimal text is read back as the output. *)
Theorem encoders_produce_bytes (U : UnicodeData) (x : content_kind)
    (out : bytes) :
  encode x = Ok out ->
  is_bytes out /\ hex_to_bytes (bytes_to_hex out) = Ok out.
Proof.
  intros Hx. pose proof (encoded_bytes x out Hx) as Hb.
  split; [exact Hb |]. apply HexProps.upper_hex_read_back, Hb.
Qed.

Lemma encoders_produce_bytes_witness :
  is_bytes [3; 8; 209; 1; 4; 85; 4; 97; 46; 98; 254] /\
  hex_to_bytes (bytes_to_hex [3; 8; 209; 1; 4; 85; 4; 97; 46; 98; 254])
  = Ok [3; 8; 209; 1; 4; 85; 4; 97; 46; 98; 254].
Proof.
  apply (encoders_produce_bytes ascii_case (Url (lit "https://a.b"))).
  vm_compute. reflexivity.
Defined.

End BytesProps.

(* ===================================================================== *)
(** * What the decoder reads                                            *)
(* ===================================================================== *)

Module DecoderProps.

Import NdefEncoder HexBytes Codec Protocol CodecProps BytesProps.

Lemma parse_behind_short `{UnicodeData} L F TL PL ty p tail :
  (L =? 255) = false -> (Z.land F 16 =? 0) = false ->
  TL = len ty -> PL = len p ->
  parse_ndef (3 :: L :: F :: TL :: PL :: (ty ++ p) ++ tail)
  = interpret (ascii_decode_replace ty) (Z.land F 7) p.
Proof.
  intros HL HF HT HP.
  unfold parse_ndef, parse_header.
  rewrite !len_cons.
  pose proof (len_nonneg ((ty ++ p) ++ tail)).
  destruct (_ <? 5) eqn:E; [apply Z.ltb_lt in E; lia|]. clear E.
  idx. rewrite Z.eqb_refl. cbn [negb]. idx. rewrite HL. idx.
  rewrite HF. cbn [negb]. idx.
  rewrite <- app_assoc. f_equal; [f_equal |].
  - apply (slice_mid [3; L; F; TL; PL] ty (p ++ tail));
      [reflexivity | subst; reflexivity].
  - apply (slice_mid ([3; L; F; TL; PL] ++ ty) p tail).
    + rewrite len_app. subst. reflexivity.
    + subst. reflexivity.
Qed.

Lemma parse_behind_short_long `{UnicodeData} L F TL b3 b2 b1 b0 ty p tail :
  (L =? 255) = false -> (Z.land F 16 =? 0) = true ->
  TL = len ty -> b3 * 16777216 + b2 * 65536 + b1 * 256 + b0 = len p ->
  parse_ndef (3 :: L :: F :: TL :: b3 :: b2 :: b1 :: b0 :: (ty ++ p) ++ tail)
  = interpret (ascii_decode_replace ty) (Z.land F 7) p.
Proof.
  intros HL HF HT HP.
  unfold parse_ndef, parse_header.
  rewrite !len_cons.
  pose proof (len_nonneg ((ty ++ p) ++ tail)).
  destruct (_ <? 5) eqn:E; [apply Z.ltb_lt in E; lia|]. clear E.
  idx. rewrite Z.eqb_refl. cbn [negb]. idx. rewrite HL. idx.
  rewrite HF. cbn [negb]. header_slice. idx. rewrite HP.
  rewrite <- app_assoc. f_equal; [f_equal |].
  - apply (slice_mid [3; L; F; TL; b3; b2; b1; b0] ty (p ++ tail));
      [reflexivity | subst; reflexivity].
  - apply (slice_mid ([3; L; F; TL; b3; b2; b1; b0] ++ ty) p tail).
    + rewrite len_app. subst. reflexivity.
    + subst. reflexivity.
Qed.

Lemma parse_behind_long `{UnicodeData} h l F TL PL ty p tail :
  (Z.land F 16 =? 0) = false ->
  TL = len ty -> PL = len p ->
  parse_ndef (3 :: 255 :: h :: l :: F :: TL :: PL :: (ty ++ p) ++ tail)
  = interpret (ascii_decode_replace ty) (Z.land F 7) p.
Proof.
  intros HF HT HP.
  unfold parse_ndef, parse_header.
  rewrite !len_cons.
  pose proof (len_nonneg ((ty ++ p) ++ tail)).
  destruct (_ <? 5) eqn:E; [apply Z.ltb_lt in E; lia|]. clear E.
  idx. rewrite !Z.eqb_refl. cbn [negb]. header_slice. idx.
  rewrite HF. cbn [negb]. idx.
  rewrite <- app_assoc. f_equal; [f_equal |].
  - apply (slice_mid [3; 255; h; l; F; TL; PL] ty (p ++ tail));
      [reflexivity | subst; reflexivity].
  - apply (slice_mid ([3; 255; h; l; F; TL; PL] ++ ty) p tail).
    + rewrite len_app. subst. reflexivity.
    + subst. reflexivity.
Qed.

Lemma parse_behind_long_long `{UnicodeData} h l F TL b3 b2 b1 b0 ty p tail :
  (Z.land F 16 =? 0) = true ->
  TL = len ty -> b3 * 16777216 + b2 * 65536 + b1 * 256 + b0 = len p ->
  parse_ndef (3 :: 255 :: h :: l :: F :: TL :: b3 :: b2 :: b1 :: b0
                :: (ty ++ p) ++ tail)
  = interpret (ascii_decode_replace ty) (Z.land F 7) p.
Proof.
  intros HF HT HP.
  unfold parse_ndef, parse_header.
  rewrite !len_cons.
  pose proof (len_nonneg ((ty ++ p) ++ tail)).
  destruct (_ <? 5) eqn:E; [apply Z.ltb_lt in E; lia|]. clear E.
  idx. rewrite !Z.eqb_refl. cbn [negb]. header_slice. idx.
  rewrite HF. cbn [negb]. header_slice. idx. rewrite HP.
  rewrite <- app_assoc. f_equal; [f_equal |].
  - apply (slice_mid [3; 255; h; l; F; TL; b3; b2; b1; b0] ty (p ++ tail));
      [reflexivity | subst; reflexivity].
  - apply (slice_mid ([3; 255; h; l; F; TL; b3; b2; b1; b0] ++ ty) p tail).
    + rewrite len_app. subst. reflexivity.
    + subst. reflexivity.
Qed.

(** The record of the specification, behind a container header with any
    length field and in front of any bytes. *)
Lemma parse_record_behind `{UnicodeData} (tnf : Z) (ty p tail : bytes) :
  0 <= tnf < 8 ->
  (forall L, L <> 255 ->
     parse_ndef ([3; L] ++ record_bytes tnf ty p ++ tail)
     = interpret (ascii_decode_replace ty) tnf p) /\
  (forall h l,
     parse_ndef ([3; 255; h; l] ++ record_bytes tnf ty p ++ tail)
     = interpret (ascii_decode_replace ty) tnf p).
Proof.
  intros Ht. destruct (flag_bits tnf Ht) as (S1 & S2 & L1 & L2).
  unfold record_bytes. split.
  - intros L HL. apply Z.eqb_neq in HL.
    destruct (len p <=? 255); cbn [app].
    + rewrite <- S2 at 2. apply parse_behind_short; auto.
    + rewrite <- L2 at 2. apply parse_behind_short_long; auto.
      apply be32_sum.
  - intros h l.
    destruct (len p <=? 255); cbn [app].
    + rewrite <- S2 at 2. apply parse_behind_long; auto.
    + rewrite <- L2 at 2. apply parse_behind_long_long; auto.
      apply be32_sum.
Qed.

(** X5.  The decoder looks neither at the length the container declares
    nor at what follows the record: behind the type byte 0x03, any length
    field in front of a record and any bytes behind it, the terminator or
    something else or nothing, give the summary of the well-formed
    container. *)
Theorem decoder_ignores_length_and_trailer (U : UnicodeData) (tnf : Z)
    (rec_type payload tail : bytes) :
  0 <= tnf < 8 ->
  (forall L, L <> 255 ->
     get_ndef_payload_info ([3; L] ++ record_bytes tnf rec_type payload ++ tail)
     = get_ndef_payload_info (tlv_bytes (record_bytes tnf rec_type payload))) /\
  (forall h l,
     get_ndef_payload_info
       ([3; 255; h; l] ++ record_bytes tnf rec_type payload ++ tail)
     = get_ndef_payload_info (tlv_bytes (record_bytes tnf rec_type payload))).
Proof.
  intros Ht.
  destruct (parse_record_behind tnf rec_type payload tail Ht) as [P1 P2].
  split; intros; unfold get_ndef_payload_info;
    rewrite (parse_framed tnf rec_type payload Ht); [rewrite P1 | rewrite P2];
    auto.
Qed.

Lemma decoder_ignores_length_and_trailer_witness :
  (forall L, L <> 255 ->
     get_ndef_payload_info
       ([3; L] ++ record_bytes 1 (lit "U") [4; 97; 46; 98] ++ [])
     = get_ndef_payload_info
         (tlv_bytes (record_bytes 1 (lit "U") [4; 97; 46; 98]))) /\
  (forall h l,
     get_ndef_payload_info
       ([3; 255; h; l] ++ record_bytes 1 (lit "U") [4; 97; 46; 98] ++ [])
     = get_ndef_payload_info
         (tlv_bytes (record_bytes 1 (lit "U") [4; 97; 46; 98]))).
Proof.
  apply (decoder_ignores_length_and_trailer ascii_case 1 (lit "U")
           [4; 97; 46; 98] []).
  lia.
Defined.

Lemma land_7_range (x : Z) : 0 <= Z.land x 7 < 8.
Proof.
  change 7 with (Z.ones 3). rewrite Z.land_ones by lia.
  apply Z.mod_pos_bound. lia.
Qed.

Lemma slice_segment {A} (i j : Z) (l : list A) :
  exists pre post, l = pre ++ slice i j l ++ post.
Proof.
  unfold slice. exists (firstn (Z.to_nat i) l).
  exists (skipn (Z.to_nat (j - i)) (skipn (Z.to_nat i) l)).
  rewrite firstn_skipn, firstn_skipn. reflexivity.
Qed.

Lemma parse_header_some (data : bytes) (ty : str) (tnf : Z) (p : bytes) :
  parse_header data = Ok (Some (ty, tnf, p)) ->
  0 <= tnf < 8 /\ exists i j, p = slice i j data.
Proof.
  unfold parse_header. intros Hp.
  destruct (len data <? 5); [discriminate |].
  ok_all.
  destruct (negb (v =? 3)); [discriminate |].
  ok_all.
  match goal with
  | H : (let (_, _) := ?x in _) = Ok _ |- _ => destruct x as [msg_len idx]
  end.
  ok_all.
  match goal with
  | H : (let (_, _) := ?x in _) = Ok _ |- _ => destruct x as [plen idx2]
  end.
  injection Hp as <- <- <-. split; [apply land_7_range |].
  eexists. eexists. reflexivity.
Qed.

Lemma interpret_some `{UnicodeData} (ty : str) (tnf : Z) (p : bytes)
    (i : info) :
  interpret ty tnf p = Ok (Some i) ->
  info_tnf i = tnf /\ raw_payload i = p /\
  In (content_type i)
    [lit "URL"; lit "Text"; lit "vCard"; lit "WiFi"; lit "Unknown"] /\
  (language i <> None <-> content_type i = lit "Text") /\
  (content_type i = lit "Unknown" -> content i = hex p).
Proof.
  unfold interpret. intros Hi.
  destruct (list_eqb ty (lit "U") && (tnf =? 1)).
  { ok_all. injection Hi as <-. cbn.
    repeat split; auto 6; try discriminate; try congruence;
      try (intros [= ]). }
  destruct (list_eqb ty (lit "T") && (tnf =? 1)).
  { ok_all. injection Hi as <-. cbn.
    repeat split; auto 6; try discriminate; try congruence;
      try (intros [= ]). }
  destruct (contains (lower ty) (lit "vcard")).
  { injection Hi as <-. cbn.
    repeat split; auto 6; try discriminate; try congruence;
      try (intros [= ]). }
  destruct (contains (lower ty) (lit "wfa.wsc")).
  { injection Hi as <-. cbn.
    repeat split; auto 6; try discriminate; try congruence;
      try (intros [= ]). }
  injection Hi as <-. cbn.
  repeat split; auto 6; try discriminate; try congruence;
    try (intros [= ]).
Qed.

(** X6.  What a summary of the decoder always holds: one of the five
    content kinds, a TNF of three bits, a raw payload that is a stretch of
    the input, a language for text records and for no others, and for an
    unknown kind the payload in hexadecimal digits that [hex_to_bytes]
    reads back. *)
Theorem decoder_summary_invariants (U : UnicodeData) (data : bytes)
    (i : info) :
  is_bytes data ->
  get_ndef_payload_info data = Ok (Some i) ->
  In (content_type i)
    [lit "URL"; lit "Text"; lit "vCard"; lit "WiFi"; lit "Unknown"] /\
  0 <= info_tnf i < 8 /\
  (exists before behind, data = before ++ raw_payload i ++ behind) /\
  (language i <> None <-> content_type i = lit "Text") /\
  (content_type i = lit "Unknown" ->
   hex_to_bytes (content i) = Ok (raw_payload i)).
Proof.
  intros Hd Hg. unfold get_ndef_payload_info in Hg.
  assert (Hp : parse_ndef data = Ok (Some i)).
  { destruct (parse_ndef data) as [r | e]; [exact Hg |].
    destruct e; discriminate. }
  clear Hg. unfold parse_ndef in Hp. ok_all.
  destruct v as [[[ty tnf] p] |]; [| discriminate].
  destruct (parse_header_some _ _ _ _ E) as (Ht & a & b & ->).
  destruct (interpret_some _ _ _ _ Hp) as (-> & -> & Hc & Hl & Hu).
  destruct (slice_segment a b data) as (pre & post & Hseg).
  repeat split; auto; try lia.
  - exists pre, post. exact Hseg.
  - apply Hl.
  - apply Hl.
  - intros Hk. rewrite (Hu Hk). apply HexProps.lower_hex_read_back.
    rewrite Hseg in Hd. apply is_bytes_app in Hd. destruct Hd as [_ Hd].
    apply is_bytes_app in Hd. apply Hd.
Qed.

Lemma decoder_summary_invariants_witness :
  exists i,
    get_ndef_payload_info [3; 7; 0xD4; 1; 3; 0x78; 1; 2; 3; 0xFE]
      = Ok (Some i) /\
    content_type i = lit "Unknown" /\
    hex_to_bytes (content i) = Ok [1; 2; 3].
Proof.
  eexists. split; [vm_compute; reflexivity |]. split; [reflexivity |].
  refine (proj2 (proj2 (proj2 (proj2
    (decoder_summary_invariants ascii_case
       [3; 7; 0xD4; 1; 3; 0x78; 1; 2; 3; 0xFE] _ _ _)))) _).
  - repeat constructor; lia.
  - vm_compute. reflexivity.
  - reflexivity.
Defined.

End DecoderProps.

(* ===================================================================== *)
(** * White space and names in the encoders                             *)
(* ===================================================================== *)

Module EncoderProps.

Import NdefEncoder HexBytes Codec Protocol CodecProps.

(** ** White space at the ends *)

Lemma rstrip_cons (c : Z) (s : str) :
  isspace c = false -> rstrip (c :: s) = c :: rstrip s.
Proof.
  intros Hc. cbn [rstrip]. destruct (rstrip s); [rewrite Hc |]; reflexivity.
Qed.

Lemma rstrip_idem (s : str) : rstrip (rstrip s) = rstrip s.
Proof.
  induction s as [| c s IH]; [reflexivity |].
  cbn [rstrip]. destruct (rstrip s) as [| r0 r] eqn:E.
  - destruct (isspace c) eqn:Hc; [reflexivity |].
    cbn [rstrip]. rewrite Hc. reflexivity.
  - change (rstrip (c :: r0 :: r))
      with (match rstrip (r0 :: r) with
            | [] => if isspace c then [] else [c]
            | x :: y => c :: x :: y
            end).
    rewrite IH. reflexivity.
Qed.

Lemma lstrip_head (s : str) :
  lstrip s = [] \/ exists c t, lstrip s = c :: t /\ isspace c = false.
Proof.
  unfold lstrip. induction s as [| c s IH]; [left; reflexivity |].
  cbn [dropwhile]. destruct (isspace c) eqn:Hc; [exact IH |].
  right. exists c, s. auto.
Qed.

Lemma strip_stripped (s : str) :
  lstrip (strip s) = strip s /\ rstrip (strip s) = strip s.
Proof.
  unfold strip. split; [| apply rstrip_idem].
  destruct (lstrip_head s) as [-> | (c & t & -> & Hc)]; [reflexivity |].
  rewrite (rstrip_cons c t Hc). unfold lstrip. cbn [dropwhile].
  rewrite Hc. reflexivity.
Qed.

Lemma strip_idem (s : str) : strip (strip s) = strip s.
Proof.
  unfold strip at 1. rewrite (proj1 (strip_stripped s)).
  apply (proj2 (strip_stripped s)).
Qed.

(** X7.  White space around the argument never reaches the tag: each
    encoder gives for a URL, a text, a phone number, an e-mail address, a
    platform with a user name and the name of a contact what it gives for
    the stripped argument. *)
Theorem surrounding_white_space_is_dropped (U : UnicodeData) :
  (forall url, encode_url (strip url) = encode_url url) /\
  (forall text lang, encode_text (strip text) lang = encode_text text lang) /\
  (forall phone, encode_phone (strip phone) = encode_phone phone) /\
  (forall email subject body,
     encode_email (strip email) subject body
     = encode_email email subject body) /\
  (forall platform username,
     encode_social (strip platform) (strip username)
     = encode_social platform username) /\
  (forall name phone email org title url address note,
     encode_vcard (strip name) phone email org title url address note
     = encode_vcard name phone email org title url address note).
Proof.
  repeat split; intros.
  - unfold encode_url. rewrite strip_idem. reflexivity.
  - unfold encode_text. rewrite strip_idem. reflexivity.
  - unfold encode_phone. rewrite strip_idem. reflexivity.
  - unfold encode_email. rewrite strip_idem. reflexivity.
  - unfold encode_social. rewrite !strip_idem. reflexivity.
  - unfold encode_vcard, vcard_text. rewrite strip_idem. reflexivity.
Qed.

(** ** The name of a contact *)

Lemma split_blank (s : str) : split_max1 (strip s) = [] <-> strip s = [].
Proof.
  unfold split_max1.
  change (dropwhile isspace (strip s)) with (lstrip (strip s)).
  rewrite (proj1 (strip_stripped s)).
  destruct (strip s) as [| c t] eqn:E; [tauto |].
  split; [| discriminate].
  destruct (dropwhile isspace _); discriminate.
Qed.

Lemma vcard_text_raise (name phone email org title url address note : str)
    (e : exn) :
  vcard_text name phone email org title url address note = Raise e ->
  e = IndexError /\ strip name = [].
Proof.
  unfold vcard_text. intros Hx. apply bind_raise in Hx.
  destruct Hx as [Hx | (a & _ & Hx)]; [| discriminate].
  destruct (split_max1 (strip name)) as [| p0 [| p1 [| p2 ps]]] eqn:E;
    try discriminate.
  injection Hx as <-. split; [reflexivity |]. apply split_blank. exact E.
Qed.

Lemma vcard_text_blank (name phone email org title url address note : str) :
  strip name = [] ->
  vcard_text name phone email org title url address note = Raise IndexError.
Proof.
  intros Hn. unfold vcard_text.
  rewrite (proj2 (split_blank name) Hn). reflexivity.
Qed.

(** [encode_vcard] raises IndexError for a name that is empty or white
    space, and for no other. *)
Lemma encode_vcard_index_error
    (name phone email org title url address note : str) :
  encode_vcard name phone email org title url address note = Raise IndexError
  <-> strip name = [].
Proof.
  unfold encode_vcard. split.
  - intros Hx. apply bind_raise in Hx.
    destruct Hx as [Hx | (block & _ & Hx)].
    + apply (vcard_text_raise _ _ _ _ _ _ _ _ _ Hx).
    + apply bind_raise in Hx. destruct Hx as [Hx | (fb & _ & Hx)].
      * apply utf8_encode_raise in Hx. discriminate.
      * apply framed_raise in Hx. discriminate.
  - intros Hn. rewrite (vcard_text_blank _ _ _ _ _ _ _ _ Hn). reflexivity.
Qed.

Import NdefEncoder HexBytes Utils CliHandlers Codec Protocol CodecProps.

(** X8.  [encode_vcard] raises IndexError for a name that is empty or
    white space and for no other input; the contact handler of the menu
    answers such a name with "Name is required." and never lets the
    IndexError out. *)
Theorem blank_name_is_the_index_error (U : UnicodeData) (D : UnicodeDigits)
    (name phone email org title url address note : str) :
  (encode_vcard name phone email org title url address note
   = Raise IndexError <-> strip name = []) /\
  (strip name = [] ->
   handle_write_vcard name phone email org title url
   = ShowsError (lit "Name is required.")) /\
  (forall warnings,
     handle_write_vcard name phone email org title url
     <> Raises warnings IndexError).
Proof.
  split; [apply encode_vcard_index_error |]. unfold handle_write_vcard.
  split.
  - intros ->. reflexivity.
  - intros warnings.
    destruct (strip name) as [| c t] eqn:En; cbn [given negb];
      [discriminate |].
    match goal with
    | |- written_with ?w ?enc _ _ <> _ =>
        destruct enc as [out | e] eqn:Ee; cbn [written_with];
          [discriminate |]
    end.
    intros [= _ ->]. apply encode_vcard_index_error in Ee. congruence.
Qed.

(** ** The N line of a contact *)

Lemma takewhile_app (p : Z -> bool) (a : str) (x : Z) (t : str) :
  forallb p a = true -> p x = false -> takewhile p (a ++ x :: t) = a.
Proof.
  intros Ha Hx. induction a as [| c a IH]; cbn [app takewhile].
  - rewrite Hx. reflexivity.
  - cbn [forallb] in Ha. apply andb_true_iff in Ha. destruct Ha as [Hc Ha].
    rewrite Hc, (IH Ha). reflexivity.
Qed.

Lemma dropwhile_app (p : Z -> bool) (a : str) (t : str) :
  forallb p a = true -> dropwhile p (a ++ t) = dropwhile p t.
Proof.
  intros Ha. induction a as [| c a IH]; cbn [app dropwhile]; [reflexivity |].
  cbn [forallb] in Ha. apply andb_true_iff in Ha. destruct Ha as [Hc Ha].
  rewrite Hc. apply IH, Ha.
Qed.

Lemma rstrip_app (a b : str) :
  b <> [] -> rstrip b = b -> rstrip (a ++ b) = a ++ b.
Proof.
  intros Hb Hr. induction a as [| c a IH]; [exact Hr |].
  cbn [app rstrip]. rewrite IH.
  destruct (a ++ b) eqn:E; [| reflexivity].
  apply app_eq_nil in E. tauto.
Qed.

Lemma stripped_ends (s : str) :
  strip s = s -> lstrip s = s /\ rstrip s = s.
Proof.
  intros Hs. pose proof (strip_stripped s) as [L R].
  rewrite Hs in L, R. auto.
Qed.

Lemma lstrip_nonspace (a t : str) :
  a <> [] -> forallb (fun c => negb (isspace c)) a = true ->
  lstrip (a ++ t) = a ++ t.
Proof.
  intros Ha Hn. destruct a as [| c a]; [congruence |].
  cbn [forallb] in Hn. apply andb_true_iff in Hn. destruct Hn as [Hc _].
  unfold lstrip. cbn [app dropwhile].
  apply negb_true_iff in Hc. rewrite Hc. reflexivity.
Qed.

Lemma takewhile_all (p : Z -> bool) (a : str) :
  forallb p a = true -> takewhile p a = a /\ dropwhile p a = [].
Proof.
  induction a as [| c a IH]; cbn [forallb takewhile dropwhile]; [auto |].
  intros Ha. apply andb_true_iff in Ha. destruct Ha as [Hc Ha].
  rewrite Hc. destruct (IH Ha) as [-> ->]. auto.
Qed.

Lemma strip_word (a : str) :
  a <> [] -> forallb (fun c => negb (isspace c)) a = true -> strip a = a.
Proof.
  intros Ha Hn. unfold strip. rewrite <- (app_nil_r a) at 1.
  rewrite (lstrip_nonspace a [] Ha Hn), app_nil_r. clear Ha.
  induction a as [| c a IH]; [reflexivity |].
  cbn [forallb] in Hn. apply andb_true_iff in Hn. destruct Hn as [Hc Hn].
  apply negb_true_iff in Hc. rewrite (rstrip_cons c a Hc), (IH Hn).
  reflexivity.
Qed.

Lemma split_max1_eq (s : str) :
  split_max1 s
  = match lstrip s with
    | [] => []
    | _ :: _ =>
        match lstrip (dropwhile (fun c => negb (isspace c)) (lstrip s)) with
        | [] => [takewhile (fun c => negb (isspace c)) (lstrip s)]
        | _ :: _ =>
            [takewhile (fun c => negb (isspace c)) (lstrip s);
             lstrip (dropwhile (fun c => negb (isspace c)) (lstrip s))]
        end
    end.
Proof.
  unfold split_max1, lstrip. destruct (dropwhile isspace s); [reflexivity |].
  cbv zeta. destruct (dropwhile isspace _); reflexivity.
Qed.

Lemma split_one_word (a : str) :
  a <> [] -> forallb (fun c => negb (isspace c)) a = true ->
  split_max1 a = [a].
Proof.
  intros Ha Hn. rewrite split_max1_eq.
  assert (L : lstrip a = a).
  { rewrite <- (app_nil_r a) at 1.
    rewrite (lstrip_nonspace a [] Ha Hn). apply app_nil_r. }
  rewrite !L. destruct (takewhile_all _ a Hn) as [-> ->].
  destruct a; [congruence | reflexivity].
Qed.

Lemma split_two_parts (first gap rest : str) :
  first <> [] -> forallb (fun c => negb (isspace c)) first = true ->
  gap <> [] -> forallb isspace gap = true ->
  rest <> [] -> lstrip rest = rest ->
  split_max1 (first ++ gap ++ rest) = [first; rest].
Proof.
  intros Hf Hn Hgap Hg Hr Lr. rewrite split_max1_eq.
  rewrite !(lstrip_nonspace first _ Hf Hn).
  rewrite !(dropwhile_app _ first (gap ++ rest) Hn).
  destruct gap as [| g gap']; [congruence |].
  cbn [forallb] in Hg. apply andb_true_iff in Hg. destruct Hg as [Hg0 Hg'].
  cbn [app].
  rewrite !(takewhile_app _ first g (gap' ++ rest) Hn)
    by (rewrite Hg0; reflexivity).
  assert (Hd : lstrip (dropwhile (fun c => negb (isspace c))
                         (g :: gap' ++ rest)) = rest).
  { cbn [dropwhile]. rewrite Hg0. cbn [negb]. unfold lstrip.
    cbn [dropwhile]. rewrite Hg0.
    rewrite (dropwhile_app isspace gap' rest Hg'). exact Lr. }
  rewrite !Hd.
  destruct first; [congruence |]. destruct rest; [congruence |]. reflexivity.
Qed.

(** X9.  The N line of a contact takes the first word of the name as the
    given name and all that follows the first run of white space as the
    family name; a name of one word is the family name. *)
Theorem contact_name_parts
    (first gap rest phone email org title url address note : str) :
  first <> [] ->
  forallb (fun c => negb (isspace c)) first = true ->
  forallb isspace gap = true ->
  (vcard_text first phone email org title url address note
   = Ok (join [13; 10]
           ([lit "BEGIN:VCARD"; lit "VERSION:3.0"; lit "FN:" ++ first;
             lit "N:" ++ first ++ lit ";;;;"]
            ++ optional_line (lit "TEL;TYPE=CELL:") phone []
            ++ optional_line (lit "EMAIL:") email []
            ++ optional_line (lit "ORG:") org []
            ++ optional_line (lit "TITLE:") title []
            ++ optional_line (lit "URL:") url []
            ++ optional_line (lit "ADR;TYPE=HOME:;;") address (lit ";;;;")
            ++ optional_line (lit "NOTE:") note []
            ++ [lit "END:VCARD"]))) /\
  (gap <> [] -> rest <> [] -> strip rest = rest ->
   vcard_text (first ++ gap ++ rest) phone email org title url address note
   = Ok (join [13; 10]
           ([lit "BEGIN:VCARD"; lit "VERSION:3.0";
             lit "FN:" ++ first ++ gap ++ rest;
             lit "N:" ++ rest ++ lit ";" ++ first ++ lit ";;;"]
            ++ optional_line (lit "TEL;TYPE=CELL:") phone []
            ++ optional_line (lit "EMAIL:") email []
            ++ optional_line (lit "ORG:") org []
            ++ optional_line (lit "TITLE:") title []
            ++ optional_line (lit "URL:") url []
            ++ optional_line (lit "ADR;TYPE=HOME:;;") address (lit ";;;;")
            ++ optional_line (lit "NOTE:") note []
            ++ [lit "END:VCARD"]))).
Proof.
  intros Hf Hn Hg. split.
  - unfold vcard_text.
    rewrite (strip_word first Hf Hn), (split_one_word first Hf Hn).
    cbn [bind]. rewrite <- !app_assoc. reflexivity.
  - intros Hgap Hr Hrest. destruct (stripped_ends rest Hrest) as [Lr Rr].
    assert (Hs : strip (first ++ gap ++ rest) = first ++ gap ++ rest).
    { unfold strip. rewrite (lstrip_nonspace first _ Hf Hn).
      rewrite (app_assoc first), rstrip_app; auto. }
    unfold vcard_text.
    rewrite Hs, (split_two_parts first gap rest Hf Hn Hgap Hg Hr Lr).
    cbn [bind]. rewrite <- !app_assoc. reflexivity.
Qed.

Lemma contact_name_parts_witness :
  vcard_text (lit "Mary" ++ lit " " ++ lit "Ann Smith") [] [] [] [] [] [] []
  = Ok (join [13; 10]
          [lit "BEGIN:VCARD"; lit "VERSION:3.0"; lit "FN:Mary Ann Smith";
           lit "N:Ann Smith;Mary;;;"; lit "END:VCARD"]).
Proof.
  refine (proj2 (contact_name_parts (lit "Mary") (lit " ") (lit "Ann Smith")
                   [] [] [] [] [] [] [] _ _ _) _ _ _);
    solve [reflexivity | discriminate].
Defined.

End EncoderProps.

(* ===================================================================== *)
(** * The capacity of the tags                                          *)
(* ===================================================================== *)

Module CapacityProps.

Import NdefEncoder HexBytes Utils Codec Protocol CodecProps.

Lemma len_tlv_bytes (message : bytes) :
  len (tlv_bytes message)
  = len message + (if len message <? 255 then 3 else 5).
Proof.
  unfold tlv_bytes. destruct (len message <? 255); cbn [app];
    rewrite !len_cons, len_app; change (len [254]) with 1; lia.
Qed.

(** The size of an encoded URL in terms of the UTF-8 bytes behind the
    prefix code. *)
Lemma len_encoded_url `{UnicodeData} (url : str) (out : bytes) (code : Z)
    (field : str) :
  encode_url url = Ok out ->
  scan_prefixes (strip url) (sorted (fun x => - len (fst x)) URI_PREFIXES)
    = (code, field) ->
  exists fb,
    utf8_encode field = Ok fb /\
    len out = len fb + (if len fb <=? 249 then 8
                        else if len fb <=? 254 then 10 else 13).
Proof.
  unfold encode_url. intros He Hs. rewrite Hs in He.
  apply bind_ok in He. destruct He as (fb & Hf & He). exists fb.
  split; [exact Hf |].
  apply framed_inv in He; [| lia]. destruct He as (-> & _ & _).
  rewrite len_tlv_bytes, len_record_bytes.
  change (len (lit "U")) with 1. cbn [app]. rewrite len_cons.
  pose proof (len_nonneg fb).
  destruct (Z.leb_spec (len fb) 249), (Z.leb_spec (len fb) 254),
    (Z.leb_spec (1 + len fb) 255); try lia;
    match goal with
    | |- context [?x <? 255] => destruct (Z.ltb_spec x 255); lia
    end.
Qed.

Section Capacity.

Context {U : UnicodeData}.
Variable usage_percent : Z -> Z -> value.

Lemma capacity_of_known (name : str) (spec : ntag_spec) (data_size : Z) :
  lookup NTAG_SPECS (upper name) = Some spec ->
  get (check_tag_capacity usage_percent name data_size) (lit "fits") VNone
  = VBool (data_size <=? user_bytes spec).
Proof.
  intros Hl. unfold check_tag_capacity. rewrite Hl. reflexivity.
Qed.

(** X10.  The capacity check of the preview: a tag type that is none of
    the three names is checked as an NTAG215; what remains is the capacity
    less the size, and nothing when the data does not fit; and an encoded
    URL fits an NTAG213, an NTAG215 or an NTAG216 exactly when the part
    behind its prefix takes at most 136, 491 or 875 bytes of UTF-8. *)
Theorem tag_capacity_check :
  (forall tag_type data_size,
     lookup NTAG_SPECS (upper tag_type) = None ->
     check_tag_capacity usage_percent tag_type data_size
     = [ (lit "tag_type", VStr (upper tag_type));
         (lit "capacity", VInt 504);
         (lit "data_size", VInt data_size);
         (lit "fits", VBool (data_size <=? 504));
         (lit "remaining", VInt (Z.max 0 (504 - data_size)));
         (lit "usage_percent", usage_percent data_size 504) ]) /\
  (forall tag_type data_size,
     exists capacity,
       get (check_tag_capacity usage_percent tag_type data_size)
         (lit "capacity") VNone = VInt capacity /\
       In capacity [144; 504; 888] /\
       get (check_tag_capacity usage_percent tag_type data_size)
         (lit "fits") VNone = VBool (data_size <=? capacity) /\
       get (check_tag_capacity usage_percent tag_type data_size)
         (lit "remaining") VNone
       = VInt (if data_size <=? capacity then capacity - data_size else 0)) /\
  (forall url out code field,
     encode_url url = Ok out ->
     scan_prefixes (strip url) (sorted (fun x => - len (fst x)) URI_PREFIXES)
       = (code, field) ->
     exists fb,
       utf8_encode field = Ok fb /\
       get (check_tag_capacity usage_percent (lit "NTAG213") (len out))
         (lit "fits") VNone = VBool (len fb <=? 136) /\
       get (check_tag_capacity usage_percent (lit "NTAG215") (len out))
         (lit "fits") VNone = VBool (len fb <=? 491) /\
       get (check_tag_capacity usage_percent (lit "NTAG216") (len out))
         (lit "fits") VNone = VBool (len fb <=? 875)).
Proof.
  split; [| split].
  - intros tag_type data_size Hl. unfold check_tag_capacity. rewrite Hl.
    reflexivity.
  - intros tag_type data_size. unfold check_tag_capacity.
    assert (Hs : exists spec,
               match lookup NTAG_SPECS (upper tag_type) with
               | Some spec => spec
               | None => NTAG215
               end = spec /\ In (user_bytes spec) [144; 504; 888]).
    { unfold NTAG_SPECS. cbn [lookup].
      repeat match goal with
             | |- context [if ?b then _ else _] => destruct b
             end; eexists; (split; [reflexivity |]); cbn; auto. }
    destruct Hs as (spec & -> & Hin). exists (user_bytes spec).
    split; [reflexivity |]. split; [exact Hin |]. split; [reflexivity |].
    cbn [get lookup]. change (list_eqb (lit "tag_type") (lit "remaining"))
      with false.
    cbn. f_equal.
    destruct (Z.leb_spec data_size (user_bytes spec)); lia.
  - intros url out code field He Hs.
    destruct (len_encoded_url url out code field He Hs) as (fb & Hf & Hl).
    exists fb. split; [exact Hf |].
    rewrite (capacity_of_known (lit "NTAG213")
               {| user_bytes := 144; pages := 45; total_memory := 180 |})
      by reflexivity.
    rewrite (capacity_of_known (lit "NTAG215")
               {| user_bytes := 504; pages := 135; total_memory := 540 |})
      by reflexivity.
    rewrite (capacity_of_known (lit "NTAG216")
               {| user_bytes := 888; pages := 231; total_memory := 924 |})
      by reflexivity.
    cbn [user_bytes]. rewrite Hl. pose proof (len_nonneg fb).
    repeat split; f_equal;
      destruct (Z.leb_spec (len fb) 249), (Z.leb_spec (len fb) 254);
      try lia;
      repeat match goal with
             | |- context [?x <=? ?y] => destruct (Z.leb_spec x y); try lia
             end; reflexivity.
Qed.

End Capacity.

Lemma tag_capacity_check_witness :
  exists fb,
    utf8_encode (lit "example.com/path") = Ok fb /\
    get (check_tag_capacity (fun _ _ => VNone) (lit "NTAG213")
           (len (tlv_bytes (record_bytes 1 (lit "U")
                              ([4] ++ lit "example.com/path")))))
      (lit "fits") VNone = VBool (len fb <=? 136) /\
    get (check_tag_capacity (fun _ _ => VNone) (lit "NTAG215")
           (len (tlv_bytes (record_bytes 1 (lit "U")
                              ([4] ++ lit "example.com/path")))))
      (lit "fits") VNone = VBool (len fb <=? 491) /\
    get (check_tag_capacity (fun _ _ => VNone) (lit "NTAG216")
           (len (tlv_bytes (record_bytes 1 (lit "U")
                              ([4] ++ lit "example.com/path")))))
      (lit "fits") VNone = VBool (len fb <=? 875).
Proof.
  refine (proj2 (proj2 (@tag_capacity_check ascii_case (fun _ _ => VNone)))
            (lit "https://example.com/path") _ 4 (lit "example.com/path")
            _ _);
    vm_compute; reflexivity.
Defined.

End CapacityProps.

(* ===================================================================== *)
(** * The commands for the phone                                        *)
(* ===================================================================== *)

Module WebNfcProps.

Import NdefEncoder HexBytes PhoneNfc Codec Protocol Notions CodecProps.

(** What the decoder makes of the output of an encoder. *)
Lemma encoded_is_decoded `{UnicodeData} (x : content_kind) (out : bytes) :
  encode x = Ok out ->
  language_fits x ->
  exists i,
    get_ndef_payload_info out = Ok (Some i) /\ recovers x i /\
    content_type i
    = match x with
      | Text _ _ => lit "Text"
      | VCard _ _ _ _ _ _ _ _ => lit "vCard"
      | Wifi _ _ _ _ => lit "WiFi"
      | _ => lit "URL"
      end.
Proof.
  intros Hx Hfit.
  destruct x; cbn [encode] in Hx; cbn [recovers]; cbn [language_fits] in Hfit.
  - apply url_decoded in Hx. destruct Hx as (i & Hi & Ht & Hr).
    exists i. auto.
  - destruct (text_decoded _ _ _ Hx Hfit) as (i & Hi & Ht & Hr).
    exists i. auto.
  - apply vcard_decoded in Hx. destruct Hx as (i & Hi & Ht & Hr).
    exists i. auto.
  - apply phone_decoded in Hx. destruct Hx as (i & Hi & Ht & Hr).
    exists i. auto.
  - apply email_decoded in Hx. destruct Hx as (i & Hi & Ht & Hr).
    exists i. auto.
  - unfold encode_social in Hx.
    destruct (lookup SOCIAL_PLATFORMS _) as [template |] eqn:Et;
      [| discriminate].
    apply url_decoded in Hx. destruct Hx as (i & Hi & Ht & Hr & _).
    exists i. split; [exact Hi |]. split; [| exact Ht].
    exists template. auto.
  - apply wifi_decoded in Hx. destruct Hx as (i & Hi & Ht & Hr).
    exists i. auto.
Qed.

(** X11.  What the phone is asked to write for the output of an encoder:
    the URL with its prefix written out for a URL, a phone number, an
    e-mail address and a social handle; the text and its language for a
    text; the vCard block as text of MIME type text/vcard for a contact;
    the WSC payload in hexadecimal digits as MIME type
    application/vnd.wfa.wsc for a WiFi credential. *)
Theorem web_nfc_command_of_encoded (U : UnicodeData) (x : content_kind)
    (out : bytes) (record_type : str) :
  encode x = Ok out ->
  language_fits x ->
  exists i,
    get_ndef_payload_info out = Ok (Some i) /\
    recovers x i /\
    _ndef_to_web_nfc out record_type = Ok (web_command x i).
Proof.
  intros Hx Hfit.
  destruct (encoded_is_decoded x out Hx Hfit) as (i & Hi & Hr & Hk).
  exists i. split; [exact Hi |]. split; [exact Hr |].
  unfold _ndef_to_web_nfc. rewrite Hi. cbn [bind]. rewrite Hk.
  destruct x; cbn [web_command]; try reflexivity.
  cbn [recovers] in Hr. destruct Hr as (_ & _ & ->). reflexivity.
Qed.

Lemma web_nfc_command_of_encoded_witness :
  exists i,
    get_ndef_payload_info [3; 8; 209; 1; 4; 85; 4; 97; 46; 98; 254]
      = Ok (Some i) /\
    recovers (Url (lit "https://a.b")) i /\
    _ndef_to_web_nfc [3; 8; 209; 1; 4; 85; 4; 97; 46; 98; 254] (lit "URL")
    = Ok (web_command (Url (lit "https://a.b")) i).
Proof.
  apply (web_nfc_command_of_encoded ascii_case (Url (lit "https://a.b")));
    [vm_compute; reflexivity | exact I].
Defined.

Lemma all_decoded_raise (l : list (option Z)) (e : exn) :
  all_decoded l = Raise e -> e = UnicodeDecodeError.
Proof.
  induction l as [| [c |] l IH]; cbn [all_decoded]; [discriminate | |].
  - destruct (all_decoded l); cbn [bind]; [discriminate |].
    intros [= <-]. apply IH. reflexivity.
  - intros [= <-]. reflexivity.
Qed.

Lemma get_info_raise `{UnicodeData} (data : bytes) (e : exn) :
  get_ndef_payload_info data = Raise e -> e = UnicodeDecodeError.
Proof.
  unfold get_ndef_payload_info, parse_ndef. intros Hg.
  destruct (parse_header data) as [[[[ty tnf] p] |] | e'] eqn:Eh;
    cbn [bind] in Hg.
  - destruct (interpret ty tnf p) as [r | e''] eqn:Ei; [discriminate |].
    destruct (interpret_raise _ _ _ _ Ei) as [-> | (-> & _)];
      [discriminate |].
    injection Hg as <-. reflexivity.
  - discriminate.
  - destruct (parse_header_raise _ _ Eh) as [-> | ->]; discriminate.
Qed.

(** X12.  The translation for the phone never fails on bytes it cannot
    read: a command it returns is a write command of one of four types,
    the only exception that leaves it is the UnicodeDecodeError of the
    decoder, and bytes the decoder has no summary for go to the phone as
    they are, in hexadecimal digits that [hex_to_bytes] reads back. *)
Theorem web_nfc_command_shape (U : UnicodeData) (data : bytes)
    (record_type : str) :
  match _ndef_to_web_nfc data record_type with
  | Ok cmd =>
      get cmd (lit "cmd") VNone = VStr (lit "write") /\
      exists t,
        get cmd (lit "type") VNone = VStr t /\
        In t [lit "raw"; lit "url"; lit "text"; lit "mime"]
  | Raise e =>
      e = UnicodeDecodeError /\
      get_ndef_payload_info data = Raise UnicodeDecodeError
  end /\
  (get_ndef_payload_info data = Ok None ->
   is_bytes data ->
   _ndef_to_web_nfc data record_type
   = Ok [ (lit "cmd", VStr (lit "write")); (lit "type", VStr (lit "raw"));
          (lit "hex_data", VStr (bytes_to_hex data)) ] /\
   hex_to_bytes (bytes_to_hex data) = Ok data).
Proof.
  split.
  - unfold _ndef_to_web_nfc.
    destruct (get_ndef_payload_info data) as [[i |] | e] eqn:Eg; cbn [bind].
    + repeat match goal with
             | |- context [if ?b then _ else _] => destruct b
             end;
        try (split; [reflexivity |]; eexists; split; [reflexivity |];
             cbn; auto 6).
      destruct (utf8_decode (raw_payload i)) as [t | e] eqn:Ed.
      * split; [reflexivity |]. eexists. split; [reflexivity |]. cbn. auto 6.
      * unfold utf8_decode in Ed. apply all_decoded_raise in Ed. subst e.
        split; [reflexivity |]. eexists. split; [reflexivity |]. cbn. auto 6.
    + split; [reflexivity |]. eexists. split; [reflexivity |]. cbn. auto.
    + pose proof (get_info_raise _ _ Eg). subst e. auto.
  - intros Hn Hd. unfold _ndef_to_web_nfc. rewrite Hn. cbn [bind].
    split; [reflexivity |]. apply HexProps.upper_hex_read_back, Hd.
Qed.

End WebNfcProps.

(* ===================================================================== *)
(** * More on the serial transport                                      *)
(* ===================================================================== *)

Module SerialExtras.

Import NdefEncoder RfidReader Protocol Notions CodecProps.

Lemma lines_read_app (a b : list read_event) :
  lines_read (a ++ b) = lines_read a ++ lines_read b.
Proof. unfold lines_read. apply flat_map_app. Qed.

(** The loop of [_wait_for_response], from any point of it. *)
Lemma wait_loop_result (expected : list str) (timeout : Z) :
  forall (pending : list read_event) (elapsed : Z) (lines : list str)
         (resp : response) (rest : list read_event),
    wait_loop expected timeout elapsed lines pending = (resp, rest) ->
    exists consumed,
      pending = consumed ++ rest /\
      resp_raw resp = lines ++ lines_read consumed /\
      ((status resp = TIMEOUT /\ resp_data resp = []) \/
       (exists before ev line,
          consumed = before ++ [ev] /\ line_of ev = Some line /\
          status_and_data line = (status resp, resp_data resp) /\
          (In (status resp) expected \/ status resp = RESP_ERROR))).
Proof.
  induction pending as [| ev pending IH]; intros elapsed lines resp rest Hw;
    cbn [wait_loop] in Hw.
  - exists []. destruct (elapsed <? timeout); injection Hw as <- <-;
      cbn; rewrite app_nil_r; auto.
  - destruct (elapsed <? timeout).
    2:{ injection Hw as <- <-. exists []. cbn. rewrite app_nil_r. auto. }
    destruct (line_of ev) as [line |] eqn:El.
    + destruct (status_and_data line) as [st data] eqn:Es.
      destruct (existsb (list_eqb st) expected) eqn:Ee.
      { injection Hw as <- <-. exists [ev]. cbn [app].
        split; [reflexivity |]. split.
        { unfold lines_read. cbn. rewrite El. reflexivity. }
        right. exists [], ev, line. cbn [status resp_data app].
        repeat split; auto. left.
        apply existsb_exists in Ee. destruct Ee as (x & Hx & Hxe).
        apply list_eqb_eq in Hxe. subst x. exact Hx. }
      destruct (list_eqb st RESP_ERROR) eqn:Er.
      { injection Hw as <- <-. exists [ev]. cbn [app].
        split; [reflexivity |]. split.
        { unfold lines_read. cbn. rewrite El. reflexivity. }
        right. exists [], ev, line. cbn [status resp_data app].
        apply list_eqb_eq in Er. subst st. repeat split; auto. }
      destruct (IH _ _ _ _ Hw) as (consumed & Hp & Hr & Hs).
      exists (ev :: consumed). split; [cbn; congruence |]. split.
      { rewrite Hr, <- app_assoc. unfold lines_read at 2. cbn [flat_map].
        rewrite El. reflexivity. }
      destruct Hs as [Hs | (before & ev' & line' & -> & Hs)]; [left; exact Hs |].
      right. exists (ev :: before), ev', line'. auto.
    + destruct (IH _ _ _ _ Hw) as (consumed & Hp & Hr & Hs).
      exists (ev :: consumed). split; [cbn; congruence |]. split.
      { rewrite Hr. unfold lines_read at 2. cbn [flat_map].
        rewrite El. reflexivity. }
      destruct Hs as [Hs | (before & ev' & line' & -> & Hs)]; [left; exact Hs |].
      right. exists (ev :: before), ev', line'. auto.
Qed.

Section Waiting.

Context {Dev : Type}.

(** X13.  What a wait on the serial line returns, for every run of reads:
    the status is TIMEOUT with no data, or the status and the data of the
    last line read, a status that was waited for or ERROR; the raw lines
    are all the lines read; reads that were not needed stay with the port,
    and nothing is written. *)
Theorem wait_for_response_result (expected : list str) (timeout : Z)
    (r : @reader Dev) :
  let resp := fst (_wait_for_response expected timeout r) in
  let r' := snd (_wait_for_response expected timeout r) in
  exists consumed,
    unread r = consumed ++ unread r' /\
    resp_raw resp = lines_read consumed /\
    written_of r' = written_of r /\
    ((status resp = TIMEOUT /\ resp_data resp = []) \/
     (exists before ev line,
        consumed = before ++ [ev] /\ line_of ev = Some line /\
        status_and_data line = (status resp, resp_data resp) /\
        (In (status resp) expected \/ status resp = RESP_ERROR))).
Proof.
  cbv zeta. unfold _wait_for_response, unread, written_of.
  destruct (_serial r) as [p |] eqn:Hs; cbn [fst snd].
  - destruct (wait_loop expected timeout 0 [] (inbox p)) as [resp rest] eqn:Hw.
    cbn [fst snd with_port _serial inbox written].
    destruct (wait_loop_result _ _ _ _ _ _ _ Hw) as (consumed & Hp & Hr & Hc).
    exists consumed. auto.
  - rewrite Hs. exists []. cbn. repeat split; auto.
Qed.

End Waiting.

Import SerialProps.

Section Writing.

Context {Dev : Type}.
Variable firmware : Dev -> bytes -> Dev * write_result.

Lemma send_ok (command : str) (line : bytes) (r r1 : @reader Dev) (u : unit) :
  utf8_encode (command ++ [10]) = Ok line ->
  _send firmware command r = (Ok u, r1) ->
  written_of r1 = written_of r ++ [line].
Proof.
  unfold _send, written_of. intros Hl.
  destruct (_serial r) as [p |]; [| discriminate].
  destruct (is_open p); cbn [negb]; [| discriminate]. rewrite Hl.
  destruct (firmware (device p) line) as [d [answer | msg]];
    [| discriminate].
  intros [= _ <-]. reflexivity.
Qed.

(** A successful result of the attempts: its attempt number, and one line
    written for each attempt up to it. *)
Lemma write_attempts_success (command : str) (line : bytes) (cb : bool) :
  utf8_encode (command ++ [10]) = Ok line ->
  forall (n : nat) (a : Z) (r r' : @reader Dev) (result : dict),
    write_attempts firmware n a command cb r = (Returns result, r') ->
    get result (lit "success") VNone = VBool true ->
    exists k,
      get result (lit "attempts") VNone = VInt k /\
      a <= k < a + Z.of_nat n /\
      written_of r' = written_of r ++ repeat line (Z.to_nat (k - a + 1)).
Proof.
  intros Hl. induction n as [| n IH]; intros a r r' result Hw Hs.
  - cbn [write_attempts] in Hw. injection Hw as <- <-. discriminate.
  - cbn [write_attempts] in Hw.
    destruct (_send firmware command r) as [res r1] eqn:Es.
    destruct res as [u | e]; [| destruct e; discriminate].
    pose proof (send_ok _ _ _ _ _ Hl Es) as W0.
    pose proof (proj1 (wait_written [RESP_TAP_CARD; RESP_ERROR] 5000 r1))
      as W1.
    destruct (_wait_for_response [RESP_TAP_CARD; RESP_ERROR] 5000 r1)
      as [resp r2]. cbn [snd] in W1.
    assert (Next : forall r3 : @reader Dev,
               written_of r3 = written_of r1 ->
               write_attempts firmware n (a + 1) command cb r3
               = (Returns result, r') ->
               exists k,
                 get result (lit "attempts") VNone = VInt k /\
                 a <= k < a + Z.of_nat (S n) /\
                 written_of r'
                 = written_of r ++ repeat line (Z.to_nat (k - a + 1))).
    { intros r3 W3 Hn. destruct (IH _ _ _ _ Hn Hs) as (k & Hk & Hr & Hw').
      exists k. split; [exact Hk |]. split; [lia |].
      rewrite Hw', W3, W0, <- app_assoc. f_equal.
      replace (Z.to_nat (k - a + 1))
        with (S (Z.to_nat (k - (a + 1) + 1))) by lia.
      reflexivity. }
    assert (Here : forall (uid : str) (v : bool) (r3 : @reader Dev),
               written_of r3 = written_of r1 ->
               (Returns [(lit "success", VBool true); (lit "uid", VStr uid);
                         (lit "attempts", VInt a); (lit "verified", VBool v)],
                r3) = (Returns result, r') ->
               exists k,
                 get result (lit "attempts") VNone = VInt k /\
                 a <= k < a + Z.of_nat (S n) /\
                 written_of r'
                 = written_of r ++ repeat line (Z.to_nat (k - a + 1))).
    { intros uid v r3 W3 [= <- <-]. exists a. split; [reflexivity |].
      split; [lia |]. replace (Z.to_nat (a - a + 1)) with 1%nat by lia.
      cbn [repeat]. congruence. }
    destruct (list_eqb (status resp) RESP_TAP_CARD).
    + pose proof (proj1 (tap_prompt_written cb r2)) as W2.
      match type of Hw with
      | context [_wait_for_response ?e ?t (tap_prompt cb r2)] =>
          pose proof (proj1 (wait_written e t (tap_prompt cb r2))) as W3;
          destruct (_wait_for_response e t (tap_prompt cb r2))
            as [res2 r3]
      end.
      cbn [snd] in W3.
      assert (W : written_of r3 = written_of r1) by congruence.
      destruct (list_eqb (status res2) RESP_WRITE_OK);
        [apply (Here _ _ _ W Hw) |].
      destruct (list_eqb (status res2) RESP_VERIFY_OK);
        [apply (Here _ _ _ W Hw) |].
      destruct (list_eqb (status res2) RESP_DUPLICATE).
      { injection Hw as <- <-. discriminate. }
      apply (Next _ W Hw).
    + destruct (list_eqb (status resp) RESP_ERROR).
      * injection Hw as <- <-. discriminate.
      * apply (Next _ W1 Hw).
Qed.

(** X14.  The attempt number of a successful write is the number of
    command lines the call has written, for every device: a result with
    [success] true carries an [attempts] between one and the number of
    retries allowed, and that many lines of WRITE_RAW with the data were
    written, and nothing else. *)
Theorem attempts_count_the_lines (ndef_data : bytes) (record_type : str)
    (cb : bool) (r r' : @reader Dev) (result : dict) :
  is_bytes ndef_data ->
  write_ndef firmware ndef_data record_type cb r = (Returns result, r') ->
  get result (lit "success") VNone = VBool true ->
  exists k,
    get result (lit "attempts") VNone = VInt k /\
    1 <= k <= max_retries r /\
    written_of r'
    = written_of r
      ++ repeat (command_line (write_command ndef_data)) (Z.to_nat k).
Proof.
  intros Hd Hw Hs. unfold write_ndef in Hw.
  destruct (connected r); cbn [negb] in Hw.
  2:{ injection Hw as <- <-. discriminate. }
  destruct (write_attempts_success _ _ cb (write_command_encodes _ Hd)
              _ _ _ _ _ Hw Hs) as (k & Hk & Hr & Hw').
  exists k. split; [exact Hk |]. split; [lia |].
  rewrite Hw'. repeat f_equal. lia.
Qed.

End Writing.

Lemma attempts_count_the_lines_witness :
  exists r' result k,
    write_ndef flaky_device [3; 0; 254] (lit "RAW") true flaky_reader
      = (Returns result, r') /\
    get result (lit "attempts") VNone = VInt k /\
    1 <= k <= 3 /\
    written_of r'
    = written_of flaky_reader
      ++ repeat (command_line (write_command [3; 0; 254])) (Z.to_nat k).
Proof.
  destruct (write_ndef flaky_device [3; 0; 254] (lit "RAW") true flaky_reader)
    as [c r'] eqn:E.
  assert (Hc : exists result,
             c = Returns result /\
             get result (lit "success") VNone = VBool true).
  { vm_compute in E. injection E as <- _. eexists. split; reflexivity. }
  destruct Hc as (result & -> & Hs).
  destruct (attempts_count_the_lines flaky_device [3; 0; 254] (lit "RAW")
              true flaky_reader r' result) as (k & Hk & Hr & Hw).
  - repeat constructor; lia.
  - exact E.
  - exact Hs.
  - exists r', result, k. auto.
Defined.

Section Errors.

Context {Dev : Type}.
Variable firmware : Dev -> bytes -> Dev * write_result.

(** ERROR in reply to the command ends the write. *)
Lemma attempt_refused (k : nat) (a : Z) (command : str) (line : bytes)
    (cb : bool) (r : reader) (p : serial_port) (d' : Dev)
    (e1 : read_event) (more : list read_event) (msg : str) :
  idle r p ->
  utf8_encode (command ++ [10]) = Ok line ->
  firmware (device p) line = (d', Written (e1 :: more)) ->
  says_with RESP_ERROR msg e1 ->
  exists r',
    write_attempts firmware (S k) a command cb r
      = (Returns (failure msg), r') /\
    written_of r' = written_of r ++ [line].
Proof.
  intros (Hs & Ho & Hi) Hl Hf (l1 & H1 & S1).
  cbn [write_attempts]. unfold _send. rewrite Hs, Ho. cbn [negb].
  rewrite Hl, Hf, Hi. cbn [app].
  unfold _wait_for_response at 1. cbn [with_port _serial inbox].
  rewrite (wait_answered _ _ e1 more l1 RESP_ERROR)
    by (lia || assumption || reflexivity || (rewrite S1; reflexivity)).
  cbn [status resp_data]. rewrite S1. cbn [snd].
  change (list_eqb RESP_ERROR RESP_TAP_CARD) with false.
  change (list_eqb RESP_ERROR RESP_ERROR) with true. cbv iota.
  eexists. split; [reflexivity |].
  unfold written_of. rewrite Hs. reflexivity.
Qed.

(** ERROR behind TAP_CARD is tried again. *)
Lemma attempt_error_retried (k : nat) (a : Z) (command : str) (line : bytes)
    (cb : bool) (r : reader) (p : serial_port) (d' : Dev)
    (answer : list read_event) :
  idle r p ->
  utf8_encode (command ++ [10]) = Ok line ->
  firmware (device p) line = (d', Written answer) ->
  tap_then_error answer ->
  exists r' p',
    write_attempts firmware (S k) a command cb r
      = write_attempts firmware k (a + 1) command cb r' /\
    idle r' p' /\ written p' = written p ++ [line] /\
    max_retries r' = max_retries r.
Proof.
  intros (Hs & Ho & Hi) Hl Hf
         (e1 & e2 & -> & (l1 & H1 & S1) & (l2 & H2 & S2)).
  cbn [write_attempts]. unfold _send. rewrite Hs, Ho. cbn [negb].
  rewrite Hl, Hf. rewrite Hi. cbn [app].
  unfold _wait_for_response at 1. cbn [with_port _serial inbox].
  rewrite (wait_answered _ _ e1 [e2] l1 RESP_TAP_CARD)
    by (lia || assumption || reflexivity).
  cbn [status].
  change (list_eqb RESP_TAP_CARD RESP_TAP_CARD) with true. cbv iota.
  unfold _wait_for_response.
  destruct cb; cbn [tap_prompt with_port _serial inbox];
    rewrite (wait_answered _ _ e2 [] l2 RESP_ERROR)
      by (lia || assumption || reflexivity);
    cbn [status];
    change (list_eqb RESP_ERROR RESP_WRITE_OK) with false;
    change (list_eqb RESP_ERROR RESP_VERIFY_OK) with false;
    change (list_eqb RESP_ERROR RESP_DUPLICATE) with false; cbv iota;
    (eexists; eexists; split; [reflexivity |]; cbn;
     repeat split; reflexivity).
Qed.

Lemma error_attempts_used_up (command : str) (line : bytes) (cb : bool) :
  utf8_encode (command ++ [10]) = Ok line ->
  (forall d, exists d' answer,
      firmware d line = (d', Written answer) /\ tap_then_error answer) ->
  forall (n : nat) (a : Z) (r : reader) (p : serial_port),
    idle r p ->
    exists r' p',
      write_attempts firmware n a command cb r
        = (Returns (attempts_exhausted r), r') /\
      _serial r' = Some p' /\ written p' = written p ++ repeat line n.
Proof.
  intros Hl Hdev. induction n as [| n IH]; intros a r p Hidle.
  - exists r, p. cbn [write_attempts repeat]. rewrite app_nil_r.
    repeat split; try reflexivity; apply Hidle.
  - destruct (Hdev (device p)) as (d' & answer & Hf & Hr).
    destruct (attempt_error_retried n a command line cb r p d' answer
                Hidle Hl Hf Hr)
      as (r1 & p1 & Hstep & Hidle1 & Hw1 & Hm1).
    destruct (IH (a + 1) r1 p1 Hidle1) as (r2 & p2 & Hrun & Hs2 & Hw2).
    exists r2, p2. rewrite Hstep, Hrun. unfold attempts_exhausted.
    rewrite Hm1. split; [reflexivity |]. split; [exact Hs2 |].
    rewrite Hw2, Hw1, <- app_assoc. reflexivity.
Qed.

(** X15.  An ERROR of the device ends a write only when it is the reply
    to the command: the message of the device is returned after one line.
    An ERROR behind TAP_CARD is no result that [write_ndef] knows: the
    write is tried again, and a device that goes on like this gets the
    command once per attempt and "Failed after ... attempts", without its
    message. *)
Theorem error_replies_to_write (ndef_data : bytes) (record_type : str)
    (cb : bool) (r : reader) (p : serial_port) :
  is_bytes ndef_data ->
  _connected r = true ->
  idle r p ->
  (forall d' e1 more msg,
     0 < max_retries r ->
     firmware (device p) (command_line (write_command ndef_data))
       = (d', Written (e1 :: more)) ->
     says_with RESP_ERROR msg e1 ->
     exists r',
       write_ndef firmware ndef_data record_type cb r
         = (Returns (failure msg), r') /\
       written_of r'
       = written_of r ++ [command_line (write_command ndef_data)]) /\
  ((forall d, exists d' answer,
       firmware d (command_line (write_command ndef_data))
         = (d', Written answer) /\ tap_then_error answer) ->
   exists r' p',
     write_ndef firmware ndef_data record_type cb r
       = (Returns (attempts_exhausted r), r') /\
     _serial r' = Some p' /\
     written p'
     = written p ++ repeat (command_line (write_command ndef_data))
                      (Z.to_nat (max_retries r))).
Proof.
  intros Hd Hc Hidle.
  pose proof (idle_connected r p Hc Hidle) as Hcon.
  pose proof (write_command_encodes ndef_data Hd) as Hl.
  split.
  - intros d' e1 more msg Hn Hf He. unfold write_ndef. rewrite Hcon.
    cbn [negb].
    destruct (Z.to_nat (max_retries r)) as [| k] eqn:Ek; [lia |].
    apply (attempt_refused k 1 _ _ cb r p d' e1 more msg Hidle Hl Hf He).
  - intros Hdev. unfold write_ndef. rewrite Hcon. cbn [negb].
    apply (error_attempts_used_up _ _ cb Hl Hdev _ 1 r p Hidle).
Qed.

End Errors.

Lemma error_replies_to_write_witness :
  exists r' p',
    write_ndef refusing_device [3; 0; 254] (lit "RAW") true fresh_reader
      = (Returns (attempts_exhausted fresh_reader), r') /\
    _serial r' = Some p' /\
    written p'
    = written fresh_port
      ++ repeat (command_line (write_command [3; 0; 254])) (Z.to_nat 3).
Proof.
  refine (proj2 (error_replies_to_write refusing_device [3; 0; 254]
                   (lit "RAW") true fresh_reader fresh_port _ _ _) _).
  - repeat constructor; lia.
  - reflexivity.
  - repeat split.
  - intros []. eexists. eexists. split; [reflexivity |].
    eexists. eexists. split; [reflexivity |].
    split; eexists; split; vm_compute; reflexivity.
Defined.

Section Single.

Context {Dev : Type}.
Variable firmware : Dev -> bytes -> Dev * write_result.

(** A single command whose tag is found and whose result is an ERROR. *)
Ltac tapped_then_error Hc Hs Ho Hi Hf l1 H1 S1 l2 H2 S2 :=
  unfold connected; rewrite Hc, Hs, Ho; cbn [andb negb];
  unfold _send; rewrite Hs, Ho; cbn [negb];
  match goal with
  | |- context [utf8_encode (?cmd ++ [10])] =>
      change (utf8_encode (cmd ++ [10])) with (@Ok bytes (command_line cmd))
  end;
  cbv beta iota; rewrite Hf, Hi; cbn [app];
  unfold _wait_for_response at 1; cbn [with_port _serial inbox];
  match goal with
  | |- context [wait_loop _ _ _ _ (?e1 :: ?rest)] =>
      rewrite (wait_answered _ _ e1 rest l1 RESP_TAP_CARD)
        by (lia || assumption || reflexivity || (rewrite S1; reflexivity))
  end;
  cbn [status];
  change (list_eqb RESP_TAP_CARD RESP_TAP_CARD) with true; cbv iota;
  unfold _wait_for_response;
  match goal with
  | |- context [tap_prompt ?cb _] =>
      destruct cb; cbn [tap_prompt with_port _serial inbox];
      match goal with
      | |- context [wait_loop _ _ _ _ (?e2 :: ?rest)] =>
          rewrite (wait_answered _ _ e2 rest l2 RESP_ERROR)
            by (lia || assumption || reflexivity
                || (rewrite S2; reflexivity))
      end;
      cbn [status resp_data]; rewrite S1; cbn [snd]; eexists; reflexivity
  end.

(** X16.  When erase, read, lock or info have found the tag and the
    device then reports an ERROR, the message of that ERROR is not what
    the caller gets: the error of the result is the data of the TAP_CARD
    line. *)
Theorem error_after_tap_loses_its_message (cb : bool) (r : reader)
    (p : serial_port) (d' : Dev) (e1 e2 : read_event)
    (more : list read_event) (tap_data message : str) :
  _connected r = true ->
  idle r p ->
  says_with RESP_TAP_CARD tap_data e1 ->
  says_with RESP_ERROR message e2 ->
  (firmware (device p) (command_line CMD_ERASE)
   = (d', Written (e1 :: e2 :: more)) ->
   exists r', erase_tag firmware cb r = (Returns (failure tap_data), r')) /\
  (firmware (device p) (command_line CMD_READ)
   = (d', Written (e1 :: e2 :: more)) ->
   exists r', read_tag firmware cb r = (Returns (failure tap_data), r')) /\
  (firmware (device p) (command_line CMD_LOCK)
   = (d', Written (e1 :: e2 :: more)) ->
   exists r', lock_tag firmware cb r = (Returns (failure tap_data), r')) /\
  (firmware (device p) (command_line CMD_INFO)
   = (d', Written (e1 :: e2 :: more)) ->
   exists r', get_tag_info firmware cb r = (Returns (failure tap_data), r')).
Proof.
  intros Hc (Hs & Ho & Hi) (l1 & H1 & S1) (l2 & H2 & S2).
  repeat split; intros Hf.
  - unfold erase_tag. tapped_then_error Hc Hs Ho Hi Hf l1 H1 S1 l2 H2 S2.
  - unfold read_tag. tapped_then_error Hc Hs Ho Hi Hf l1 H1 S1 l2 H2 S2.
  - unfold lock_tag. tapped_then_error Hc Hs Ho Hi Hf l1 H1 S1 l2 H2 S2.
  - unfold get_tag_info. tapped_then_error Hc Hs Ho Hi Hf l1 H1 S1 l2 H2 S2.
Qed.

End Single.

Lemma error_after_tap_loses_its_message_witness :
  exists r',
    erase_tag refusing_device true fresh_reader = (Returns (failure []), r').
Proof.
  refine (proj1 (error_after_tap_loses_its_message refusing_device true
                   fresh_reader fresh_port tt
                   (Received 120 (lit "TAP_CARD" ++ [10]))
                   (Received 900 (lit "ERROR|Tag is locked" ++ [10]))
                   [] [] (lit "Tag is locked") _ _ _ _) _).
  - reflexivity.
  - repeat split.
  - eexists. split; vm_compute; reflexivity.
  - eexists. split; vm_compute; reflexivity.
  - reflexivity.
Defined.

(** ** The pairs of a TAG_INFO line *)

Lemma split_on_plain (c : Z) (s : str) :
  ~ In c s -> split_on c s = [s].
Proof.
  induction s as [| x s IH]; intros Hc; [reflexivity |].
  cbn [split_on]. destruct (Z.eqb_spec x c) as [-> | Hx].
  - exfalso. apply Hc. left. reflexivity.
  - rewrite IH; [reflexivity |]. intros Hin. apply Hc. right. exact Hin.
Qed.

Lemma split_on_first (c : Z) (s rest : str) :
  ~ In c s -> split_on c (s ++ c :: rest) = s :: split_on c rest.
Proof.
  induction s as [| x s IH]; intros Hc; cbn [app split_on].
  - rewrite Z.eqb_refl. reflexivity.
  - destruct (Z.eqb_spec x c) as [-> | Hx].
    + exfalso. apply Hc. left. reflexivity.
    + rewrite IH; [reflexivity |]. intros Hin. apply Hc. right. exact Hin.
Qed.

Lemma split_on_join (c : Z) (parts : list str) :
  parts <> [] ->
  Forall (fun s => ~ In c s) parts ->
  split_on c (join [c] parts) = parts.
Proof.
  induction parts as [| p ps IH]; intros Hn Hf; [congruence |].
  inversion Hf as [| p' ps' Hp Hps]; subst.
  destruct ps as [| q ps].
  - cbn [join]. apply split_on_plain, Hp.
  - change (join [c] (p :: q :: ps)) with (p ++ [c] ++ join [c] (q :: ps)).
    cbn [app]. rewrite (split_on_first c p _ Hp), IH; [reflexivity | | exact Hps].
    discriminate.
Qed.

Lemma cut_first (c : Z) (k v : str) :
  ~ In c k -> cut c (k ++ c :: v) = Some (k, v).
Proof.
  induction k as [| x k IH]; intros Hc; cbn [app cut].
  - rewrite Z.eqb_refl. reflexivity.
  - destruct (Z.eqb_spec x c) as [-> | Hx].
    + exfalso. apply Hc. left. reflexivity.
    + rewrite IH; [reflexivity |]. intros Hin. apply Hc. right. exact Hin.
Qed.

Lemma tag_info_pairs_plain (pairs : list (str * str)) :
  Forall (fun kv => plain_key (fst kv) /\ plain_value (snd kv)) pairs ->
  forall info,
    tag_info_pairs (map (fun kv => fst kv ++ lit ":" ++ snd kv) pairs) info
    = fold_left (fun d kv => dict_set d (fst kv) (VStr (snd kv))) pairs info.
Proof.
  induction 1 as [| [k v] pairs Hkv _ IH]; intros info; [reflexivity |].
  cbn [fst snd] in Hkv. destruct Hkv as [(_ & Hk & Sk) (_ & Sv)].
  cbn [map tag_info_pairs fold_left fst snd].
  change (k ++ lit ":" ++ v) with (k ++ 58 :: v).
  rewrite (cut_first 58 k v Hk), Sk, Sv. apply IH.
Qed.

Lemma tag_info_data_parsed (pairs : list (str * str)) :
  Forall (fun kv => plain_key (fst kv) /\ plain_value (snd kv)) pairs ->
  tag_info_pairs (split_on 44 (tag_info_data pairs)) [] = dict_of pairs.
Proof.
  intros Hp. unfold tag_info_data, dict_of.
  destruct pairs as [| kv pairs]; [reflexivity |].
  change (lit ",") with [44].
  rewrite split_on_join.
  - apply tag_info_pairs_plain, Hp.
  - discriminate.
  - apply Forall_map. apply (Forall_impl _ (P := fun kv =>
      plain_key (fst kv) /\ plain_value (snd kv))); [| exact Hp].
    intros [k v] [(Ck & _ & _) (Cv & _)]. cbn [fst snd].
    intros Hin. apply in_app_or in Hin. destruct Hin as [Hin | Hin]; [tauto |].
    cbn [lit app] in Hin. destruct Hin as [Hin | Hin]; [discriminate | tauto].
Qed.

Section Info.

Context {Dev : Type}.
Variable firmware : Dev -> bytes -> Dev * write_result.

(** X17.  The keys and values of a TAG_INFO line come back as the
    dictionary of the result: for keys without comma and colon and values
    without comma, none with white space around it, [get_tag_info] returns
    the dictionary of the pairs in their order, a later value for a key in
    the place of an earlier one. *)
Theorem tag_info_is_parsed (cb : bool) (r : reader) (p : serial_port)
    (d' : Dev) (e1 e2 : read_event) (more : list read_event)
    (pairs : list (str * str)) :
  _connected r = true ->
  idle r p ->
  firmware (device p) (command_line CMD_INFO)
    = (d', Written (e1 :: e2 :: more)) ->
  says RESP_TAP_CARD e1 ->
  says_with RESP_TAG_INFO (tag_info_data pairs) e2 ->
  Forall (fun kv => plain_key (fst kv) /\ plain_value (snd kv)) pairs ->
  exists r',
    get_tag_info firmware cb r
    = (Returns [ (lit "success", VBool true);
                 (lit "info", VDict (dict_of pairs)) ], r').
Proof.
  intros Hc (Hs & Ho & Hi) Hf (l1 & H1 & S1) (l2 & H2 & S2) Hp.
  unfold get_tag_info, connected. rewrite Hc, Hs, Ho. cbn [andb negb].
  unfold _send. rewrite Hs, Ho. cbn [negb].
  change (utf8_encode (CMD_INFO ++ [10]))
    with (@Ok bytes (command_line CMD_INFO)).
  cbv beta iota. rewrite Hf, Hi. cbn [app].
  unfold _wait_for_response at 1. cbn [with_port _serial inbox].
  rewrite (wait_answered _ _ e1 (e2 :: more) l1 RESP_TAP_CARD)
    by (lia || assumption || reflexivity).
  cbn [status].
  change (list_eqb RESP_TAP_CARD RESP_TAP_CARD) with true. cbv iota.
  unfold _wait_for_response.
  destruct cb; cbn [tap_prompt with_port _serial inbox];
    rewrite (wait_answered _ _ e2 more l2 RESP_TAG_INFO)
      by (lia || assumption || reflexivity || (rewrite S2; reflexivity));
    cbn [status resp_data]; rewrite S2; cbn [snd];
    change (list_eqb RESP_TAG_INFO RESP_TAG_INFO) with true; cbv iota;
    rewrite (tag_info_data_parsed pairs Hp); eexists; reflexivity.
Qed.

End Info.

Lemma tag_info_is_parsed_witness :
  exists r',
    get_tag_info informing_device true fresh_reader
    = (Returns [ (lit "success", VBool true);
                 (lit "info",
                  VDict [ (lit "uid", VStr (lit "04A1B2C3"));
                          (lit "type", VStr (lit "NTAG215"));
                          (lit "size", VStr (lit "504"));
                          (lit "locked", VStr (lit "0")) ]) ], r').
Proof.
  refine (tag_info_is_parsed informing_device true fresh_reader fresh_port tt
            (Received 120 (lit "TAP_CARD" ++ [10]))
            (Received 300
               (lit "TAG_INFO|uid:04A1B2C3,type:NTAG215,size:504,locked:0"
                ++ [10]))
            []
            [ (lit "uid", lit "04A1B2C3"); (lit "type", lit "NTAG215");
              (lit "size", lit "504"); (lit "locked", lit "0") ]
            _ _ _ _ _ _).
  - reflexivity.
  - repeat split.
  - reflexivity.
  - eexists. split; vm_compute; reflexivity.
  - eexists. split; vm_compute; reflexivity.
  - repeat constructor; cbn;
      try (intros H; repeat destruct H as [H | H]; try discriminate H;
           exact H).
Defined.

End SerialExtras.

(* ===================================================================== *)
(** * More on the phone bridge                                          *)
(* ===================================================================== *)

Module BridgeExtras.

Import NdefEncoder PhoneNfc Protocol Notions CodecProps.
Import BridgeProps.

Section Bridge.

Context {U : UnicodeData}.
Context {Phone : Type}.
Variable browser : Phone -> dict -> Phone * reply.
Variable format_object : value -> str.

Lemma send_command_message (cmd msg : dict) (ph' : Phone)
    (b : @bridge Phone) :
  linked b ->
  browser (phone b) cmd = (ph', Message msg) ->
  exists b',
    _send_command browser cmd b = (Some msg, b') /\
    linked b' /\ sent b' = sent b ++ [cmd] /\
    max_retries b' = max_retries b.
Proof.
  intros (Hc & Hr & Hw & Hl) Hb. unfold _send_command.
  rewrite Hw, Hl, Hb. cbn [andb negb].
  eexists. split; [reflexivity |]. cbn. repeat split; auto.
Qed.

(** Attempts that are all answered with the same error. *)
Lemma write_attempts_error (cmd msg : dict) :
  (forall ph c, exists ph', browser ph c = (ph', Message msg)) ->
  is_str (get msg (lit "event") (VStr [])) (lit "error") = true ->
  forall (n : nat) (a : Z) (b : @bridge Phone),
    linked b ->
    a + Z.of_nat n = max_retries b ->
    exists b',
      write_attempts browser (S n) a cmd b
        = (Returns (failure (get msg (lit "error")
                               (VStr (lit "Unknown error")))), b') /\
      sent b' = sent b ++ repeat cmd (S n).
Proof.
  intros Hb He. induction n as [| n IH]; intros a b Hl Ha.
  - cbn [write_attempts]. destruct (Hb (phone b) cmd) as (ph' & Hp).
    destruct (send_command_message cmd msg ph' b Hl Hp)
      as (b1 & -> & Hl1 & Hs1 & Hm1).
    assert (Hw : is_str (get msg (lit "event") (VStr [])) (lit "write_ok")
                 = false).
    { destruct (get msg (lit "event") (VStr [])) as [| | | s | |];
        try discriminate. cbn [is_str] in *. apply list_eqb_eq in He.
      subst s. reflexivity. }
    rewrite Hw, He. rewrite Hm1.
    destruct (Z.ltb_spec a (max_retries b)); [lia |].
    eexists. split; [reflexivity |]. exact Hs1.
  - cbn [write_attempts]. destruct (Hb (phone b) cmd) as (ph' & Hp).
    destruct (send_command_message cmd msg ph' b Hl Hp)
      as (b1 & -> & Hl1 & Hs1 & Hm1).
    assert (Hw : is_str (get msg (lit "event") (VStr [])) (lit "write_ok")
                 = false).
    { destruct (get msg (lit "event") (VStr [])) as [| | | s | |];
        try discriminate. cbn [is_str] in *. apply list_eqb_eq in He.
      subst s. reflexivity. }
    rewrite Hw, He. rewrite Hm1.
    destruct (Z.ltb_spec a (max_retries b)); [| lia].
    destruct (IH (a + 1) b1 Hl1 ltac:(lia)) as (b2 & Hrun & Hs2).
    exists b2. split; [exact Hrun |].
    rewrite Hs2, Hs1, <- app_assoc. reflexivity.
Qed.

(** X18.  An error of the phone is tried again like a missing reply, but
    the last one is returned: a phone that answers every write with an
    error event gets the command once per attempt, and the result carries
    the error of the phone, not "Failed after ... attempts". *)
Theorem phone_error_is_returned (ndef_data : bytes) (record_type : str)
    (cb : bool) (cmd msg : dict) (b : @bridge Phone) :
  linked b ->
  _nfc_supported b = true ->
  0 < max_retries b ->
  _ndef_to_web_nfc ndef_data record_type = Ok cmd ->
  (forall ph c, exists ph', browser ph c = (ph', Message msg)) ->
  is_str (get msg (lit "event") (VStr [])) (lit "error") = true ->
  exists b',
    write_ndef browser ndef_data record_type cb b
      = (Returns (failure (get msg (lit "error")
                             (VStr (lit "Unknown error")))), b') /\
    sent b' = sent b ++ repeat cmd (Z.to_nat (max_retries b)).
Proof.
  intros Hl Hn Hm Hc Hb He. unfold write_ndef.
  rewrite (linked_connected b Hl), Hn, Hc. cbn [negb].
  destruct (tap_prompt_same cb b) as (Ts & Tm & Tl & _).
  rewrite Tm.
  destruct (Z.to_nat (max_retries b)) as [| n] eqn:En; [lia |].
  destruct (write_attempts_error cmd msg Hb He n 1 (tap_prompt cb b)
              (Tl Hl) ltac:(rewrite Tm; lia)) as (b' & Hrun & Hs).
  exists b'. split; [exact Hrun |]. rewrite Hs, Ts. reflexivity.
Qed.

(** X19.  Only [write_ndef] looks at whether the phone supports Web NFC:
    on a connected bridge whose phone has reported no support it returns
    "Web NFC not supported on phone" and sends nothing, while erase, read,
    lock and info send their command all the same. *)
Theorem nfc_support_is_checked_by_write_only (ndef_data : bytes)
    (record_type : str) (cb : bool) (b : @bridge Phone) :
  linked b ->
  _nfc_supported b = false ->
  write_ndef browser ndef_data record_type cb b
  = (Returns (failure (VStr (lit "Web NFC not supported on phone"))), b) /\
  sent (snd (erase_tag browser cb b))
  = sent b ++ [[(lit "cmd", VStr (lit "erase"))]] /\
  sent (snd (read_tag browser format_object cb b))
  = sent b ++ [[(lit "cmd", VStr (lit "read"))]] /\
  sent (snd (lock_tag browser cb b))
  = sent b ++ [[(lit "cmd", VStr (lit "lock"))]] /\
  sent (snd (get_tag_info browser cb b))
  = sent b ++ [[(lit "cmd", VStr (lit "info"))]].
Proof.
  intros Hl Hn. pose proof (linked_connected b Hl) as Hc.
  destruct (tap_prompt_same cb b) as (Ts & _ & Tl & Tw & Tp & _).
  destruct (Tl Hl) as (_ & _ & Hw & Hp).
  assert (Hsend : forall cmd,
             sent (snd (_send_command browser cmd (tap_prompt cb b)))
             = sent b ++ [cmd]).
  { intros cmd. unfold _send_command. rewrite Hw, Hp. cbn [andb negb].
    destruct (browser (phone (tap_prompt cb b)) cmd) as [ph [| | msg | nfc |]];
      cbn [snd sent]; rewrite Ts; reflexivity. }
  split.
  { unfold write_ndef. rewrite Hc, Hn. reflexivity. }
  repeat split.
  - unfold erase_tag. rewrite Hc. cbn [negb].
    specialize (Hsend [(lit "cmd", VStr (lit "erase"))]).
    destruct (_send_command browser _ (tap_prompt cb b)) as [resp b1].
    cbn [snd] in Hsend. destruct (has_event resp _); exact Hsend.
  - unfold read_tag. rewrite Hc. cbn [negb].
    specialize (Hsend [(lit "cmd", VStr (lit "read"))]).
    destruct (_send_command browser _ (tap_prompt cb b)) as [resp b1].
    cbn [snd] in Hsend. destruct (has_event resp _); [| exact Hsend].
    destruct (lines_of format_object _); exact Hsend.
  - unfold lock_tag. rewrite Hc. cbn [negb].
    specialize (Hsend [(lit "cmd", VStr (lit "lock"))]).
    destruct (_send_command browser _ (tap_prompt cb b)) as [resp b1].
    cbn [snd] in Hsend. destruct (has_event resp _); exact Hsend.
  - unfold get_tag_info. rewrite Hc. cbn [negb].
    specialize (Hsend [(lit "cmd", VStr (lit "info"))]).
    destruct (_send_command browser _ (tap_prompt cb b)) as [resp b1].
    cbn [snd] in Hsend. destruct (has_event resp _); exact Hsend.
Qed.

End Bridge.

Lemma phone_error_is_returned_witness :
  exists b',
    write_ndef failing_phone [3; 0; 254] (lit "RAW") true linked_bridge
      = (Returns (failure (VStr (lit "NotAllowedError"))), b') /\
    sent b'
    = sent linked_bridge
      ++ repeat [ (lit "cmd", VStr (lit "write"));
                  (lit "type", VStr (lit "raw"));
                  (lit "hex_data", VStr (lit "0300FE")) ] (Z.to_nat 3).
Proof.
  refine (phone_error_is_returned failing_phone [3; 0; 254] (lit "RAW") true
            _ [ (lit "event", VStr (lit "error"));
                (lit "error", VStr (lit "NotAllowedError")) ]
            linked_bridge _ _ _ _ _ _).
  - repeat split.
  - reflexivity.
  - reflexivity.
  - vm_compute. reflexivity.
  - intros [] c. exists tt. reflexivity.
  - reflexivity.
Defined.

Lemma nfc_support_is_checked_by_write_only_witness :
  write_ndef mute_phone [3; 0; 254] (lit "RAW") true unsupported_bridge
  = (Returns (failure (VStr (lit "Web NFC not supported on phone"))),
     unsupported_bridge) /\
  sent (snd (erase_tag mute_phone true unsupported_bridge))
  = sent unsupported_bridge ++ [[(lit "cmd", VStr (lit "erase"))]].
Proof.
  destruct (nfc_support_is_checked_by_write_only mute_phone
              (fun _ => []) [3; 0; 254] (lit "RAW") true unsupported_bridge)
    as (Hw & He & _).
  - repeat split.
  - reflexivity.
  - split; [exact Hw | exact He].
Defined.

Section Closing.

Context {U : UnicodeData}.
Context {Phone : Type}.
Variable browser : Phone -> dict -> Phone * reply.

(** Without a socket nothing is sent, and every attempt is a missing
    reply. *)
Lemma write_attempts_without_socket (cmd : dict) :
  forall (n : nat) (a : Z) (b : @bridge Phone),
    _ws_client b = false ->
    write_attempts browser n a cmd b
    = (Returns (failure (VStr (lit "Failed after "
                               ++ str_of_int (max_retries b)
                               ++ lit " attempts"))), b).
Proof.
  induction n as [| n IH]; intros a b Hw; [reflexivity |].
  cbn [write_attempts]. unfold _send_command. rewrite Hw. cbn [andb negb].
  apply IH, Hw.
Qed.

(** X20.  When the socket of the phone closes while a write is under way,
    the attempts that are left send nothing: the command has gone out
    once, the result is "Failed after ... attempts", and the bridge is no
    longer connected. *)
Theorem closed_socket_ends_the_write (ndef_data : bytes) (record_type : str)
    (cb : bool) (cmd : dict) (ph' : Phone) (b : @bridge Phone) :
  linked b ->
  _nfc_supported b = true ->
  0 < max_retries b ->
  _ndef_to_web_nfc ndef_data record_type = Ok cmd ->
  browser (phone b) cmd = (ph', Closes) ->
  exists b',
    write_ndef browser ndef_data record_type cb b
      = (Returns (failure (VStr (lit "Failed after "
                                 ++ str_of_int (max_retries b)
                                 ++ lit " attempts"))), b') /\
    sent b' = sent b ++ [cmd] /\
    connected b' = false.
Proof.
  intros Hl Hn Hm Hc Hb. unfold write_ndef.
  rewrite (linked_connected b Hl), Hn, Hc. cbn [negb].
  destruct (tap_prompt_same cb b) as (Ts & Tm & Tl & Tw & Tp & Tph).
  destruct (Tl Hl) as (_ & _ & Hw & Hp).
  rewrite Tm.
  destruct (Z.to_nat (max_retries b)) as [| n] eqn:En; [lia |].
  cbn [write_attempts]. unfold _send_command at 1.
  rewrite Hw, Hp, Tph, Hb. cbn [andb negb].
  rewrite write_attempts_without_socket by reflexivity.
  cbn [max_retries]. rewrite Tm.
  eexists. split; [reflexivity |]. cbn [sent]. rewrite Ts.
  split; [reflexivity |]. unfold connected. cbn. apply andb_false_r.
Qed.

End Closing.

Lemma closed_socket_ends_the_write_witness :
  exists b',
    write_ndef leaving_phone [3; 0; 254] (lit "RAW") true linked_bridge
      = (Returns (failure (VStr (lit "Failed after 3 attempts"))), b') /\
    sent b'
    = sent linked_bridge
      ++ [[ (lit "cmd", VStr (lit "write")); (lit "type", VStr (lit "raw"));
            (lit "hex_data", VStr (lit "0300FE")) ]] /\
    connected b' = false.
Proof.
  refine (closed_socket_ends_the_write leaving_phone [3; 0; 254] (lit "RAW")
            true _ tt linked_bridge _ _ _ _ _).
  - repeat split.
  - reflexivity.
  - reflexivity.
  - vm_compute. reflexivity.
  - reflexivity.
Defined.

End BridgeExtras.

(* ===================================================================== *)
(** * Finding the port and connecting                                   *)
(* ===================================================================== *)

Module PortProps.

Import NdefEncoder SerialPorts RfidReader Connection Protocol Notions.
Import CodecProps.

Lemma find_first {A} (f : A -> bool) (l : list A) :
  match find f l with
  | Some x =>
      exists before behind,
        l = before ++ x :: behind /\ f x = true /\
        forall q, In q before -> f q = false
  | None => forall q, In q l -> f q = false
  end.
Proof.
  induction l as [| y l IH]; cbn [find]; [intros q [] |].
  destruct (f y) eqn:Hy.
  - exists [], l. repeat split; auto. intros q [].
  - destruct (find f l) as [x |].
    + destruct IH as (before & behind & -> & Hx & Hb).
      exists (y :: before), behind. repeat split; auto.
      intros q [<- | Hq]; auto.
    + intros q [<- | Hq]; auto.
Qed.

(** X21.  [find_arduino_port] gives the device of the first port whose
    vendor and product numbers are in the table; only when no port has
    such numbers, that of the first port whose description holds one of
    the key words, wherever it is in the list; and nothing when no port
    passes either test. *)
Theorem arduino_port_found (U : UnicodeData) (ports : list port_info) :
  match find_arduino_port ports with
  | Some found =>
      exists before port behind,
        ports = before ++ port :: behind /\
        SerialPorts.device port = found /\
        ((listed port = true /\
          forall q, In q before -> listed q = false) \/
         (described port = true /\
          (forall q, In q ports -> listed q = false) /\
          forall q, In q before -> described q = false))
  | None =>
      forall q, In q ports -> listed q = false /\ described q = false
  end.
Proof.
  unfold find_arduino_port.
  pose proof (find_first listed ports) as Hl.
  destruct (find listed ports) as [port |].
  - destruct Hl as (before & behind & Hp & Hx & Hb).
    exists before, port, behind. auto.
  - pose proof (find_first described ports) as Hd.
    destruct (find described ports) as [port |].
    + destruct Hd as (before & behind & Hp & Hx & Hb).
      exists before, port, behind. auto 6.
    + auto.
Qed.

Section Line.

Context {U : UnicodeData}.
Context {Dev : Type}.
Variable firmware : Dev -> bytes -> Dev * write_result.
Variable comports : list port_info.
Variable open_serial : str -> Dev + str.

Lemma ping_writes (r : @reader Dev) (p : serial_port) :
  _serial r = Some p -> is_open p = true ->
  exists p',
    _serial (snd (_ping firmware r)) = Some p' /\ is_open p' = true /\
    written p' = written p ++ [command_line CMD_PING] /\
    max_retries (snd (_ping firmware r)) = max_retries r.
Proof.
  intros Hs Ho. unfold _ping. rewrite Hs, Ho. cbn [negb].
  change (utf8_encode (CMD_PING ++ [10]))
    with (@Ok bytes (command_line CMD_PING)). cbv beta iota.
  destruct (firmware (device p) (command_line CMD_PING))
    as [d [answer | msg]].
  - unfold _read_line. cbn [with_port _serial inbox].
    destruct (inbox p ++ answer) as [| ev rest]; cbn [snd];
      eexists; cbn; auto.
  - cbn [snd]. eexists. cbn. auto.
Qed.

(** [connect] on a port that opens. *)
Lemma connect_opens (port : str) (r : @reader Dev) (d : Dev) :
  connected r = false ->
  port <> lit "auto" ->
  open_serial port = inl d ->
  exists r' p',
    connect firmware comports open_serial port r = (true, port, r') /\
    connected r' = true /\ _serial r' = Some p' /\
    written p' = [command_line CMD_PING] /\
    max_retries r' = max_retries r.
Proof.
  intros Hc Hp Ho. unfold connect. rewrite Hc.
  destruct (list_eqb port (lit "auto")) eqn:Ea.
  { apply list_eqb_eq in Ea. contradiction. }
  rewrite Ho.
  set (r0 := set_link r _ _).
  destruct (ping_writes r0 {| is_open := true; device := d; inbox := [];
                              written := [] |} eq_refl eq_refl)
    as (p' & Hs & Hop & Hw & Hm).
  destruct (_ping firmware r0) as [ok r1]. cbn [snd] in *.
  exists (set_link r1 (_serial r1) true), p'.
  split; [reflexivity |]. unfold connected. cbn. rewrite Hs, Hop.
  repeat split; auto.
Qed.

(** X22.  [connect] takes the port for connected as soon as it opens:
    the PING line is written once, and whatever the device answers, or if
    the write fails, the result is [True] and the reader is connected.  A
    port that does not open leaves the reader without a port; a reader
    that is connected is left as it is; and with the port "auto" and no
    Arduino among the ports nothing is opened. *)
Theorem connect_outcomes (port : str) (r : @reader Dev) :
  (connected r = true ->
   connect firmware comports open_serial port r = (true, port, r)) /\
  (connected r = false ->
   port <> lit "auto" ->
   forall d,
     open_serial port = inl d ->
     exists r' p',
       connect firmware comports open_serial port r = (true, port, r') /\
       connected r' = true /\ _serial r' = Some p' /\
       written p' = [command_line CMD_PING] /\
       max_retries r' = max_retries r) /\
  (connected r = false ->
   port <> lit "auto" ->
   forall msg,
     open_serial port = inr msg ->
     exists r',
       connect firmware comports open_serial port r = (false, port, r') /\
       connected r' = false /\ _serial r' = None) /\
  (connected r = false ->
   port = lit "auto" ->
   find_arduino_port comports = None ->
   connect firmware comports open_serial port r = (false, port, r)).
Proof.
  repeat split.
  - intros Hc. unfold connect. rewrite Hc. reflexivity.
  - intros Hc Hp d Ho. apply (connect_opens port r d Hc Hp Ho).
  - intros Hc Hp msg Ho. unfold connect. rewrite Hc.
    destruct (list_eqb port (lit "auto")) eqn:Ea.
    { apply list_eqb_eq in Ea. contradiction. }
    rewrite Ho. eexists. split; [reflexivity |]. split; reflexivity.
  - intros Hc -> Hf. unfold connect. rewrite Hc, Hf. reflexivity.
Qed.

(** X23.  After [disconnect] the reader has no port: each of the five
    commands returns "Not connected" and leaves the reader as it is.
    [reconnect] closes the port first, so that on a port that opens it
    makes a new session with the PING line as its first line, whether
    the reader was connected or not. *)
Theorem disconnect_ends_the_session (r : @reader Dev) (ndef_data : bytes)
    (record_type : str) (cb : bool) :
  connected (disconnect r) = false /\
  write_ndef firmware ndef_data record_type cb (disconnect r)
  = (Returns (failure (lit "Not connected")), disconnect r) /\
  erase_tag firmware cb (disconnect r)
  = (Returns (failure (lit "Not connected")), disconnect r) /\
  read_tag firmware cb (disconnect r)
  = (Returns (failure (lit "Not connected")), disconnect r) /\
  lock_tag firmware cb (disconnect r)
  = (Returns (failure (lit "Not connected")), disconnect r) /\
  get_tag_info firmware cb (disconnect r)
  = (Returns (failure (lit "Not connected")), disconnect r) /\
  (forall port d,
     port <> lit "auto" ->
     open_serial port = inl d ->
     exists r' p',
       reconnect firmware comports open_serial port r = (true, port, r') /\
       connected r' = true /\ _serial r' = Some p' /\
       written p' = [command_line CMD_PING]).
Proof.
  repeat split.
  intros port d Hp Ho. unfold reconnect.
  destruct (connect_opens port (disconnect r) d eq_refl Hp Ho)
    as (r' & p' & Hc & Hcon & Hs & Hw & _).
  exists r', p'. auto.
Qed.

End Line.

Lemma connect_outcomes_witness :
  exists r' p',
    connect silent_device [] opening (lit "COM3") closed_reader
      = (true, lit "COM3", r') /\
    connected r' = true /\ _serial r' = Some p' /\
    written p' = [command_line CMD_PING] /\
    max_retries r' = max_retries closed_reader.
Proof.
  refine (proj1 (proj2 (connect_outcomes silent_device [] opening
                          (lit "COM3") closed_reader)) _ _ tt _).
  - reflexivity.
  - discriminate.
  - reflexivity.
Defined.

End PortProps.

(* ===================================================================== *)
(** * The devices of ADB                                                *)
(* ===================================================================== *)

Module AdbProps.

Import NdefEncoder PhoneNfc PhoneLink Protocol Notions CodecProps.
Import EncoderProps SerialExtras.

Lemma rstrip_spaces (a ws : str) :
  forallb isspace ws = true -> rstrip (a ++ ws) = rstrip a.
Proof.
  intros Hw. induction a as [| c a IH].
  - cbn [app]. induction ws as [| w ws IHw]; [reflexivity |].
    cbn [forallb] in Hw. apply andb_true_iff in Hw. destruct Hw as [H0 Hw].
    cbn [rstrip]. rewrite (IHw Hw). cbn [rstrip]. rewrite H0. reflexivity.
  - cbn [app rstrip]. rewrite IH. reflexivity.
Qed.

Lemma word_plain (s : str) (c : Z) :
  word s -> isspace c = true -> ~ In c s.
Proof.
  intros [_ Hs] Hc Hin. rewrite forallb_forall in Hs.
  specialize (Hs c Hin). rewrite Hc in Hs. discriminate.
Qed.

Lemma word_stripped (s : str) : word s -> strip s = s.
Proof. intros [Hn Hs]. apply strip_word; assumption. Qed.

(** A line of the table: already stripped, and split by its tab. *)
Lemma device_line (serial state : str) :
  word serial -> word state ->
  strip (serial ++ [9] ++ state) = serial ++ [9] ++ state /\
  split_on 9 (serial ++ [9] ++ state) = [serial; state] /\
  ~ In 10 (serial ++ [9] ++ state).
Proof.
  intros Hs Ht. split; [| split].
  - unfold strip. destruct Hs as [Hn Hs].
    rewrite (lstrip_nonspace serial _ Hn Hs).
    rewrite app_assoc. apply rstrip_app; [apply Ht |].
    apply (stripped_ends state (word_stripped state Ht)).
  - cbn [app]. rewrite split_on_first by (apply word_plain; auto).
    rewrite split_on_plain by (apply word_plain; auto). reflexivity.
  - intros Hin. apply in_app_or in Hin. destruct Hin as [Hin | Hin].
    + revert Hin. apply word_plain; auto.
    + cbn [app] in Hin. destruct Hin as [Hin | Hin]; [discriminate |].
      revert Hin. apply word_plain; auto.
Qed.

Lemma concat_lines (lines : list str) :
  lines <> [] ->
  concat (map (fun l => l ++ [10]) lines) = join [10] lines ++ [10].
Proof.
  induction lines as [| l ls IH]; [congruence |]. intros _.
  destruct ls as [| m ls].
  - cbn. rewrite app_nil_r. reflexivity.
  - change (join [10] (l :: m :: ls)) with (l ++ [10] ++ join [10] (m :: ls)).
    cbn [map concat]. cbn [map concat] in IH. rewrite IH by discriminate.
    rewrite <- !app_assoc. reflexivity.
Qed.

Lemma listed_devices (entries : list (str * str)) :
  Forall (fun e => word (fst e) /\ word (snd e)) entries ->
  flat_map
    (fun line =>
       match split_on 9 (strip line) with
       | [serial; state] =>
           if list_eqb state (lit "device") then [serial] else []
       | _ => []
       end)
    (map (fun e => fst e ++ [9] ++ snd e) entries)
  = map fst (filter (fun e => list_eqb (snd e) (lit "device")) entries).
Proof.
  induction 1 as [| [s t] entries He _ IH]; [reflexivity |].
  cbn [fst snd] in He. destruct He as [Hs Ht].
  destruct (device_line s t Hs Ht) as (L1 & L2 & _).
  cbn [map flat_map filter fst snd]. rewrite L1, L2, IH.
  destruct (list_eqb t (lit "device")); reflexivity.
Qed.

(** X24.  [get_adb_devices] reads the table that [adb devices] prints:
    it gives the serial numbers of the lines whose state is "device", in
    their order, leaves out the devices in any other state and the
    heading, and gives the empty list when [adb] could not be run. *)
Theorem adb_devices_are_listed (entries : list (str * str)) :
  Forall (fun e => word (fst e) /\ word (snd e)) entries ->
  get_adb_devices (Some (adb_output entries))
  = map fst (filter (fun e => list_eqb (snd e) (lit "device")) entries) /\
  get_adb_devices None = [].
Proof.
  intros He. split; [| reflexivity].
  unfold get_adb_devices, adb_output.
  assert (Hh : (forall t, lstrip (lit "List of devices attached" ++ t)
                           = lit "List of devices attached" ++ t) /\
               rstrip (lit "List of devices attached")
               = lit "List of devices attached" /\
               ~ In 10 (lit "List of devices attached")).
  { split; [reflexivity |]. split; [vm_compute; reflexivity |].
    intros Hin. vm_compute in Hin.
    repeat (destruct Hin as [Hin | Hin]; [discriminate Hin |]). exact Hin. }
  destruct Hh as (Hhl & Hhr & Hhn).
  set (heading := lit "List of devices attached") in *.
  destruct entries as [| e entries].
  - cbn [map concat app].
    assert (Hs : strip (heading ++ [10; 10]) = heading).
    { unfold strip. rewrite Hhl.
      rewrite rstrip_spaces by reflexivity. exact Hhr. }
    change (heading ++ [10] ++ [10]) with (heading ++ [10; 10]).
    rewrite Hs. rewrite split_on_plain by exact Hhn.
    reflexivity.
  - set (lines := map (fun e => fst e ++ [9] ++ snd e) (e :: entries)).
    assert (Hc : concat (map (fun e => fst e ++ [9] ++ snd e ++ [10])
                           (e :: entries))
                 = join [10] lines ++ [10]).
    { rewrite <- concat_lines by discriminate. unfold lines.
      rewrite map_map. f_equal. apply map_ext. intros a.
      rewrite <- !app_assoc. reflexivity. }
    rewrite Hc.
    assert (Hl : Forall (fun l => ~ In 10 l) lines).
    { unfold lines. apply Forall_map.
      apply (Forall_impl _ (P := fun e => word (fst e) /\ word (snd e)));
        [| exact He].
      intros a [Ha1 Ha2]. apply (device_line _ _ Ha1 Ha2). }
    assert (Hlast : rstrip (join [10] lines) = join [10] lines /\
                    join [10] lines <> []).
    { clear Hc. unfold lines. clear lines Hl.
      revert e He. induction entries as [| e2 entries IH]; intros e He.
      - inversion He as [| a b [Ha1 Ha2] _]; subst.
        destruct (device_line _ _ Ha1 Ha2) as (L1 & _ & _).
        cbn [map join]. split.
        + apply (stripped_ends _ L1).
        + intros E. apply app_eq_nil in E. destruct E as [_ E]. discriminate E.
      - inversion He as [| a b [Ha1 Ha2] He2]; subst.
        destruct (IH e2 He2) as [R N].
        change (join [10] (map (fun e0 => fst e0 ++ [9] ++ snd e0)
                             (e :: e2 :: entries)))
          with ((fst e ++ [9] ++ snd e) ++ [10]
                ++ join [10] (map (fun e0 => fst e0 ++ [9] ++ snd e0)
                                (e2 :: entries))).
        split.
        + rewrite app_assoc. apply rstrip_app; assumption.
        + intros E. apply app_eq_nil in E. destruct E as [_ E]. discriminate E. }
    destruct Hlast as [Hr Hne].
    assert (Hs : strip (heading ++ [10] ++ (join [10] lines ++ [10]) ++ [10])
                 = heading ++ [10] ++ join [10] lines).
    { unfold strip. rewrite Hhl.
      replace (heading ++ [10] ++ (join [10] lines ++ [10]) ++ [10])
        with ((heading ++ [10] ++ join [10] lines) ++ [10; 10])
        by (rewrite <- !app_assoc; reflexivity).
      rewrite rstrip_spaces by reflexivity.
      rewrite app_assoc. apply rstrip_app; assumption. }
    rewrite Hs. cbn [app].
    rewrite split_on_first by exact Hhn.
    rewrite split_on_join by (auto; discriminate).
    cbn [tl]. apply listed_devices, He.
Qed.

Lemma adb_devices_are_listed_witness :
  get_adb_devices
    (Some (lit "List of devices attached" ++ [10]
           ++ lit "R58M12ABCDE" ++ [9] ++ lit "device" ++ [10]
           ++ lit "emulator-5554" ++ [9] ++ lit "unauthorized" ++ [10]
           ++ [10]))
  = [lit "R58M12ABCDE"].
Proof.
  refine (proj1 (adb_devices_are_listed
                   [ (lit "R58M12ABCDE", lit "device");
                     (lit "emulator-5554", lit "unauthorized") ] _)).
  repeat constructor; cbn; discriminate.
Defined.

End AdbProps.

(* ===================================================================== *)
(** * Validation                                                        *)
(* ===================================================================== *)

Module PatternProps.

Import NdefEncoder HexBytes Utils Notions CodecProps.

(** ** The matcher finds only words of the language *)

Lemma nullable_lang (r : regex) : nullable r = true -> lang r [].
Proof.
  induction r as [| | p | a IHa b IHb | a IHa b IHb | a IHa];
    cbn [nullable]; intros Hn; try discriminate.
  - constructor.
  - apply andb_true_iff in Hn. destruct Hn as [Ha Hb].
    change (@nil Z) with (@nil Z ++ []). constructor; auto.
  - apply orb_true_iff in Hn. destruct Hn as [Ha | Hb].
    + apply lang_or_left; auto.
    + apply lang_or_right; auto.
  - constructor.
Qed.

Lemma derive_lang (c : Z) (r : regex) :
  forall s, lang (derive c r) s -> lang r (c :: s).
Proof.
  induction r as [| | p | a IHa b IHb | a IHa b IHb | a IHa];
    cbn [derive]; intros s Hd.
  - inversion Hd.
  - inversion Hd.
  - destruct (p c) eqn:Hp; inversion Hd; subst. constructor. exact Hp.
  - destruct (nullable a) eqn:Hn.
    + inversion Hd as [| | | a' b' s' Hl | a' b' s' Hr | |]; subst.
      * inversion Hl as [| | a' b' s1 s2 H1 H2 | | | |]; subst.
        change (c :: s1 ++ s2) with ((c :: s1) ++ s2). constructor; auto.
      * change (c :: s) with ([] ++ c :: s). constructor; auto.
        apply nullable_lang, Hn.
    + inversion Hd as [| | a' b' s1 s2 H1 H2 | | | |]; subst.
      change (c :: s1 ++ s2) with ((c :: s1) ++ s2). constructor; auto.
  - inversion Hd; subst; [apply lang_or_left | apply lang_or_right]; auto.
  - inversion Hd as [| | a' b' s1 s2 H1 H2 | | | |]; subst.
    change (c :: s1 ++ s2) with ((c :: s1) ++ s2). constructor; auto.
Qed.

Lemma matches_lang (s : str) : forall r, matches r s = true -> lang r s.
Proof.
  induction s as [| c s IH]; intros r Hm; cbn [matches] in Hm.
  - apply nullable_lang, Hm.
  - apply derive_lang, IH, Hm.
Qed.

(** ** What the words of the patterns look like *)

Lemma lang_seq_inv (a b : regex) (s : str) :
  lang (Seq a b) s -> exists s1 s2, s = s1 ++ s2 /\ lang a s1 /\ lang b s2.
Proof. intros H. inversion H; subst. eauto. Qed.

Lemma lang_class_inv (p : Z -> bool) (s : str) :
  lang (Class p) s -> exists c, s = [c] /\ p c = true.
Proof. intros H. inversion H; subst. eauto. Qed.

Lemma lang_many_class (p : Z -> bool) (s : str) :
  lang (Many (Class p)) s -> forallb p s = true.
Proof.
  intros H. remember (Many (Class p)) as r eqn:Er.
  induction H as [| | | | | a | a s t Hs _ Ht IH]; try discriminate.
  - reflexivity.
  - injection Er as ->. apply lang_class_inv in Hs.
    destruct Hs as (c & -> & Hc). cbn [app forallb]. rewrite Hc.
    apply IH. reflexivity.
Qed.

Lemma lang_some_class (p : Z -> bool) (s : str) :
  lang (some (Class p)) s -> s <> [] /\ forallb p s = true.
Proof.
  unfold some. intros H. apply lang_seq_inv in H.
  destruct H as (s1 & s2 & -> & H1 & H2).
  apply lang_class_inv in H1. destruct H1 as (c & -> & Hc).
  apply lang_many_class in H2. cbn [app forallb]. rewrite Hc, H2.
  split; [discriminate | reflexivity].
Qed.

Lemma lang_times_class (p : Z -> bool) (n : nat) :
  forall s, lang (times n (Class p)) s ->
            length s = n /\ forallb p s = true.
Proof.
  induction n as [| n IH]; cbn [times]; intros s H.
  - inversion H; subst. auto.
  - apply lang_seq_inv in H. destruct H as (s1 & s2 & -> & H1 & H2).
    apply lang_class_inv in H1. destruct H1 as (c & -> & Hc).
    destruct (IH _ H2) as [Hl Hf]. cbn [app length forallb].
    rewrite Hc, Hf, Hl. auto.
Qed.

Lemma lang_upto_class (p : Z -> bool) (n : nat) :
  forall s, lang (upto n (Class p)) s ->
            (length s <= n)%nat /\ forallb p s = true.
Proof.
  induction n as [| n IH]; cbn [upto]; intros s H.
  - inversion H; subst. auto.
  - unfold optional in H. inversion H as [| | | a b s' Hl | a b s' Hr | |];
      subst.
    + inversion Hl; subst. cbn. split; [lia | reflexivity].
    + apply lang_seq_inv in Hr. destruct Hr as (s1 & s2 & -> & H1 & H2).
      apply lang_class_inv in H1. destruct H1 as (c & -> & Hc).
      destruct (IH _ H2) as [Hl Hf]. cbn [app length forallb].
      rewrite Hc, Hf. split; [lia | reflexivity].
Qed.

Lemma lang_optional_char (c : Z) (s : str) :
  lang (optional (char c)) s -> s = [] \/ s = [c].
Proof.
  unfold optional, char. intros H.
  inversion H as [| | | a b s' Hl | a b s' Hr | |]; subst.
  - inversion Hl; subst. auto.
  - apply lang_class_inv in Hr. destruct Hr as (x & -> & Hx).
    apply Z.eqb_eq in Hx. subst. auto.
Qed.

Lemma forallb_app_true {A} (p : A -> bool) (a b : list A) :
  forallb p (a ++ b) = true <-> forallb p a = true /\ forallb p b = true.
Proof. rewrite forallb_app. apply andb_true_iff. Qed.

Lemma filter_all {A} (p : A -> bool) (l : list A) :
  forallb p l = true -> filter p l = l.
Proof.
  induction l as [| x l IH]; cbn [forallb filter]; [reflexivity |].
  intros H. apply andb_true_iff in H. destruct H as [Hx Hl].
  rewrite Hx, (IH Hl). reflexivity.
Qed.

Section Phone.

Context {D : UnicodeDigits}.

(** What [validate_phone] accepts, after the cleaning: a sign or none,
    seven to fifteen digits, and a line feed or none. *)
Lemma validated_phone (phone : str) :
  validate_phone phone = true ->
  exists sign digits ending,
    cleaned phone = sign ++ digits ++ ending /\
    (sign = [] \/ sign = lit "+") /\
    forallb isdecimal digits = true /\ 7 <= len digits <= 15 /\
    (ending = [] \/ ending = [10]).
Proof.
  unfold validate_phone, re_match, PHONE_PATTERN, between. intros Hv.
  apply matches_lang in Hv.
  apply lang_seq_inv in Hv. destruct Hv as (body & ending & -> & Hb & He).
  apply lang_seq_inv in Hb. destruct Hb as (sign & ds & -> & Hs & Hd).
  apply lang_seq_inv in Hd. destruct Hd as (d1 & d2 & -> & H1 & H2).
  apply lang_times_class in H1. destruct H1 as [L1 F1].
  apply lang_upto_class in H2. destruct H2 as [L2 F2].
  apply lang_optional_char in Hs. apply lang_optional_char in He.
  exists sign, (d1 ++ d2), ending. rewrite <- !app_assoc.
  split; [reflexivity |]. split; [exact Hs |].
  split; [apply forallb_app_true; auto |].
  split; [| exact He].
  unfold len. rewrite length_app, L1. cbn in L2. lia.
Qed.

Lemma not_decimal (c : Z) :
  c = 43 \/ c = 10 -> isdecimal c = false.
Proof. intros [-> | ->]; reflexivity. Qed.

(** A validated number after [sanitize_phone]. *)
Lemma sanitize_validated (phone : str) :
  validate_phone phone = true ->
  exists sign digits,
    sanitize_phone phone = sign ++ digits /\
    (sign = [] \/ sign = lit "+") /\
    forallb isdecimal digits = true /\ 7 <= len digits <= 15 /\
    (forall c, In c digits -> In c phone).
Proof.
  intros Hv. destruct (validated_phone phone Hv)
    as (sign & digits & ending & Hc & Hs & Hd & Hl & He).
  assert (Hin : forall c, In c digits -> In c phone).
  { intros c Hi. assert (Hcl : In c (cleaned phone)).
    { rewrite Hc. apply in_or_app. right. apply in_or_app. left. exact Hi. }
    unfold cleaned, remove_char in Hcl.
    repeat (apply filter_In in Hcl; destruct Hcl as [Hcl _]).
    apply In_strip, Hcl. }
  unfold sanitize_phone, digits_of. rewrite Hc.
  assert (Hf : filter isdecimal (digits ++ ending) = digits).
  { rewrite filter_app, (filter_all _ _ Hd).
    destruct He as [-> | ->]; [apply app_nil_r |].
    cbn [filter]. rewrite (not_decimal 10) by auto. apply app_nil_r. }
  destruct Hs as [-> | ->].
  - cbn [app].
    assert (Hst : startswith (digits ++ ending) (lit "+") = false).
    { destruct digits as [| d ds]; [cbn in Hl; lia |].
      cbn [forallb] in Hd. apply andb_true_iff in Hd.
      destruct Hd as [Hd0 _].
      change (startswith ((d :: ds) ++ ending) (lit "+"))
        with ((d =? 43) && true).
      destruct (Z.eqb_spec d 43) as [-> | ]; [| reflexivity].
      rewrite (not_decimal 43) in Hd0 by auto. discriminate. }
    rewrite Hst, Hf. exists [], digits. auto.
  - change (lit "+" ++ digits ++ ending) with (43 :: digits ++ ending).
    change (startswith (43 :: digits ++ ending) (lit "+")) with true.
    cbv iota. change (slice_from 1 (43 :: digits ++ ending))
      with (digits ++ ending).
    rewrite Hf. exists (lit "+"), digits. auto.
Qed.

(** X25.  A phone number that [validate_phone] accepts leaves
    [sanitize_phone] as a plus sign or none and seven to fifteen decimal
    digits; whatever the number, what [sanitize_phone] returns holds
    nothing but decimal digits behind a plus sign or none. *)
Theorem sanitized_phone_is_dialable (phone : str) :
  (validate_phone phone = true -> dialable (sanitize_phone phone)) /\
  exists sign digits,
    sanitize_phone phone = sign ++ digits /\
    (sign = [] \/ sign = lit "+") /\ forallb isdecimal digits = true.
Proof.
  split.
  - intros Hv. destruct (sanitize_validated phone Hv)
      as (sign & digits & Hs & Hg & Hd & Hl & _).
    exists sign, digits. auto.
  - unfold sanitize_phone, digits_of.
    destruct (startswith (cleaned phone) (lit "+")).
    + exists (lit "+"). eexists. split; [reflexivity |]. split; [auto |].
      apply forallb_forall. intros x Hx. apply filter_In in Hx. apply Hx.
    + exists []. eexists. split; [reflexivity |]. split; [auto |].
      apply forallb_forall. intros x Hx. apply filter_In in Hx. apply Hx.
Qed.

End Phone.

Lemma sanitized_phone_is_dialable_witness :
  sanitize_phone (lit "+63 (912) 345-6789") = lit "+639123456789" /\
  dialable (sanitize_phone (lit "+63 (912) 345-6789")).
Proof.
  split; [vm_compute; reflexivity |].
  apply (proj1 (@sanitized_phone_is_dialable ascii_digits
                  (lit "+63 (912) 345-6789"))).
  vm_compute. reflexivity.
Defined.

End PatternProps.

(* ===================================================================== *)
(** * The menu handlers                                                 *)
(* ===================================================================== *)

Module HandlerProps.

Import NdefEncoder HexBytes Utils CliHandlers Codec Protocol Notions.
Import CodecProps EncoderProps PatternProps.

Lemma remove_char_absent (c : Z) (s : str) :
  ~ In c s -> remove_char c s = s.
Proof.
  intros Hn. unfold remove_char. apply filter_all. apply forallb_forall.
  intros x Hx. apply negb_true_iff, Z.eqb_neq. intros ->. auto.
Qed.

Lemma rstrip_last (a : str) (w : Z) :
  isspace w = true -> rstrip (a ++ [w]) = rstrip a.
Proof.
  intros Hw. induction a as [| c a IH]; cbn [app rstrip].
  - rewrite Hw. reflexivity.
  - rewrite IH. reflexivity.
Qed.

(** A stripped string does not end in white space. *)
Lemma strip_no_space_last (s a : str) (w : Z) :
  isspace w = true -> strip s <> a ++ [w].
Proof.
  intros Hw E. pose proof (proj2 (strip_stripped s)) as R.
  rewrite E, (rstrip_last a w Hw) in R.
  pose proof (len_rstrip a) as L. rewrite R, len_app in L.
  change (len [w]) with 1 in L. lia.
Qed.

(** ** Phone numbers *)

Lemma sign_or_digit_plain (c : Z) :
  c = 43 \/ 48 <= c <= 57 ->
  isspace c = false /\ is_ascii c = true /\ c <> 32 /\ c <> 45.
Proof.
  intros Hc. unfold isspace, is_ascii. repeat split; lia.
Qed.

Lemma ascii_decimal `{UnicodeDigits} (c : Z) :
  is_ascii c = true -> isdecimal c = true -> 48 <= c <= 57.
Proof.
  unfold isdecimal, char_range. intros ->. intros Hd.
  apply andb_true_iff in Hd. lia.
Qed.

(** The record of a URI whose field is ASCII and short. *)
Lemma uri_record_ascii (code : Z) (field : str) :
  forallb is_ascii field = true -> len field <= 65527 ->
  (fb <- utf8_encode field ;;
   record <- _make_ndef_record 0x01 (lit "U") ([code] ++ fb) true true ;;
   _wrap_tlv record)
  = Ok (tlv_bytes (record_bytes 1 (lit "U") ([code] ++ field))).
Proof.
  intros Ha Hl. rewrite (SerialProps.utf8_encode_ascii field Ha).
  cbn [bind]. apply framed_ok; [lia | vm_compute; discriminate |].
  change (len (lit "U")) with 1. rewrite len_app.
  change (len [code]) with 1. lia.
Qed.

(** X26.  A phone number of ASCII characters that [validate_phone]
    accepts is always written: the handler shows no error and no
    exception leaves it, the summary of the write is the number as
    [sanitize_phone] leaves it, and the tag reads back as tel: and that
    number. *)
Theorem validated_phone_is_written (U : UnicodeData) (D : UnicodeDigits)
    (phone : str) :
  forallb is_ascii phone = true ->
  validate_phone phone = true ->
  exists data i,
    handle_write_phone phone
    = CallsDoWrite [] data (lit "Phone") (sanitize_phone phone) /\
    get_ndef_payload_info data = Ok (Some i) /\
    content i = lit "tel:" ++ sanitize_phone phone.
Proof.
  intros Ha Hv. unfold handle_write_phone. rewrite Hv. cbn [negb].
  destruct (sanitize_validated phone Hv)
    as (sign & digits & -> & Hs & Hd & Hl & Hin).
  assert (Hc : forall c, In c (sign ++ digits) -> c = 43 \/ 48 <= c <= 57).
  { intros c Hi. apply in_app_or in Hi. destruct Hi as [Hi | Hi].
    - destruct Hs as [-> | ->]; [destruct Hi |].
      destruct Hi as [<- | []]. left. reflexivity.
    - right. apply ascii_decimal.
      + apply (proj1 (forallb_forall _ _) Ha), Hin, Hi.
      + apply (proj1 (forallb_forall _ _) Hd), Hi. }
  assert (Hne : sign ++ digits <> []).
  { intros E. apply app_eq_nil in E. destruct E as [_ ->]. cbn in Hl. lia. }
  assert (Hw : strip (sign ++ digits) = sign ++ digits).
  { apply strip_word; [exact Hne |]. apply forallb_forall. intros c Hi.
    rewrite (proj1 (sign_or_digit_plain c (Hc c Hi))). reflexivity. }
  assert (Hr : remove_char 45 (remove_char 32 (sign ++ digits))
               = sign ++ digits).
  { rewrite (remove_char_absent 32).
    - apply remove_char_absent. intros Hi.
      apply (proj2 (proj2 (proj2 (sign_or_digit_plain 45 (Hc 45 Hi))))).
      reflexivity.
    - intros Hi.
      apply (proj1 (proj2 (proj2 (sign_or_digit_plain 32 (Hc 32 Hi))))).
      reflexivity. }
  assert (Hx : encode_phone (sign ++ digits)
               = Ok (tlv_bytes (record_bytes 1 (lit "U")
                                  ([5] ++ sign ++ digits)))).
  { unfold encode_phone. rewrite Hw, Hr. apply uri_record_ascii.
    - apply forallb_forall. intros c Hi.
      apply (proj1 (proj2 (sign_or_digit_plain c (Hc c Hi)))).
    - rewrite len_app. destruct Hs as [-> | ->];
        [change (len (@nil Z)) with 0 | change (len (lit "+")) with 1]; lia. }
  rewrite Hx. cbn [written_with].
  destruct (phone_decoded _ _ Hx) as (i & Hi & _ & Hco).
  rewrite Hw, Hr in Hco. eauto.
Qed.

Lemma validated_phone_is_written_witness :
  exists data i,
    handle_write_phone (lit "+63 (912) 345-6789")
    = CallsDoWrite [] data (lit "Phone") (lit "+639123456789") /\
    get_ndef_payload_info data = Ok (Some i) /\
    content i = lit "tel:+639123456789".
Proof.
  apply (validated_phone_is_written ascii_case ascii_digits
           (lit "+63 (912) 345-6789")); vm_compute; reflexivity.
Defined.

(** ** E-mail addresses *)

Lemma lang_at_least_class (p : Z -> bool) (n : nat) (s : str) :
  lang (at_least n (Class p)) s ->
  (n <= length s)%nat /\ forallb p s = true.
Proof.
  unfold at_least. intros H. apply lang_seq_inv in H.
  destruct H as (s1 & s2 & -> & H1 & H2).
  apply lang_times_class in H1. destruct H1 as [L1 F1].
  apply lang_many_class in H2. rewrite length_app.
  split; [lia |]. apply forallb_app_true. auto.
Qed.

Lemma lang_char (c : Z) (s : str) : lang (char c) s -> s = [c].
Proof.
  unfold char. intros H. apply lang_class_inv in H.
  destruct H as (x & -> & Hx). apply Z.eqb_eq in Hx. subst. reflexivity.
Qed.

(** What [validate_email] accepts. *)
Lemma validated_email (email : str) :
  validate_email email = true ->
  exists box domain top,
    strip email = box ++ lit "@" ++ domain ++ lit "." ++ top /\
    box <> [] /\ forallb local_char box = true /\
    domain <> [] /\ forallb domain_char domain = true /\
    2 <= len top /\ forallb letter top = true.
Proof.
  unfold validate_email, re_match, EMAIL_PATTERN. intros Hv.
  apply matches_lang in Hv.
  apply lang_seq_inv in Hv. destruct Hv as (body & ending & Hs & Hb & He).
  apply lang_optional_char in He. destruct He as [-> | ->].
  - rewrite app_nil_r in Hs.
    apply lang_seq_inv in Hb. destruct Hb as (box & r1 & -> & Hbox & Hb).
    apply lang_seq_inv in Hb. destruct Hb as (at_ & r2 & -> & Hat & Hb).
    apply lang_seq_inv in Hb. destruct Hb as (domain & r3 & -> & Hdom & Hb).
    apply lang_seq_inv in Hb. destruct Hb as (dot & top & -> & Hdot & Htop).
    apply lang_char in Hat, Hdot. subst at_ dot.
    apply lang_some_class in Hbox, Hdom.
    apply lang_at_least_class in Htop.
    exists box, domain, top. split; [exact Hs |].
    unfold len. repeat split; try tauto. lia.
  - exfalso. apply (strip_no_space_last email body 10); [reflexivity | exact Hs].
Qed.

Lemma class_ascii (c : Z) :
  local_char c = true \/ domain_char c = true \/ letter c = true \/
  c = 64 \/ c = 46 ->
  is_ascii c = true.
Proof.
  unfold local_char, domain_char, letter, one_of, char_range, is_ascii.
  cbn [existsb lit map list_ascii_of_string].
  intros Hc. apply andb_true_iff. split; [apply Z.leb_le | apply Z.ltb_lt].
  all: repeat match type of Hc with
              | _ \/ _ => destruct Hc as [Hc | Hc]
              end;
    repeat match type of Hc with
           | (_ || _) = true => apply orb_true_iff in Hc; destruct Hc as [Hc | Hc]
           | (_ && _) = true => apply andb_true_iff in Hc; destruct Hc
           end;
    repeat match goal with
           | H : (_ <=? _) = true |- _ => apply Z.leb_le in H
           | H : (_ =? _) = true |- _ => apply Z.eqb_eq in H
           end;
    try discriminate; cbn in *; lia.
Qed.

(** X27.  An e-mail address that [validate_email] accepts is, without
    the white space around it, a local part, an at sign, a domain, a dot
    and two letters or more, all of ASCII; with no subject and no body the
    handler always writes it, and the tag reads back as mailto: and the
    address without the white space, while the summary keeps the address
    as it was typed. *)
Theorem validated_email_is_written (U : UnicodeData) (email : str) :
  validate_email email = true ->
  len email <= 65527 ->
  exists box domain top data i,
    strip email = box ++ lit "@" ++ domain ++ lit "." ++ top /\
    box <> [] /\ forallb local_char box = true /\
    domain <> [] /\ forallb domain_char domain = true /\
    2 <= len top /\ forallb letter top = true /\
    handle_write_email email [] []
    = CallsDoWrite [] data (lit "Email") email /\
    get_ndef_payload_info data = Ok (Some i) /\
    content i = lit "mailto:" ++ strip email.
Proof.
  intros Hv Hl. unfold handle_write_email. rewrite Hv. cbn [negb].
  destruct (validated_email email Hv)
    as (box & domain & top & Hs & Hb & Fb & Hd & Fd & Lt & Ft).
  exists box, domain, top.
  assert (Ha : forallb is_ascii (strip email) = true).
  { rewrite Hs. rewrite !forallb_app. cbn [forallb lit map
      list_ascii_of_string].
    repeat (apply andb_true_iff; split); try reflexivity.
    - apply forallb_forall. intros c Hi. apply class_ascii. left.
      apply (proj1 (forallb_forall _ _) Fb), Hi.
    - apply forallb_forall. intros c Hi. apply class_ascii. right. left.
      apply (proj1 (forallb_forall _ _) Fd), Hi.
    - apply forallb_forall. intros c Hi. apply class_ascii. right. right.
      left. apply (proj1 (forallb_forall _ _) Ft), Hi. }
  assert (Hx : encode_email email [] []
               = Ok (tlv_bytes (record_bytes 1 (lit "U")
                                  ([6] ++ strip email)))).
  { unfold encode_email. cbn [app]. apply uri_record_ascii; [exact Ha |].
    pose proof (len_strip email). lia. }
  rewrite Hx. cbn [written_with].
  pose proof Hx as Hy. unfold encode_email in Hy. cbn [app] in Hy.
  apply uri_record_decoded in Hy. destruct Hy as (i & Hi & _ & Hc).
  eexists. exists i. repeat split; try assumption; try reflexivity.
Qed.

Lemma validated_email_is_written_witness :
  exists box domain top data i,
    strip (lit " me@host.org ") = box ++ lit "@" ++ domain ++ lit "." ++ top /\
    box <> [] /\ forallb local_char box = true /\
    domain <> [] /\ forallb domain_char domain = true /\
    2 <= len top /\ forallb letter top = true /\
    handle_write_email (lit " me@host.org ") [] []
    = CallsDoWrite [] data (lit "Email") (lit " me@host.org ") /\
    get_ndef_payload_info data = Ok (Some i) /\
    content i = lit "mailto:" ++ strip (lit " me@host.org ").
Proof.
  apply (validated_email_is_written ascii_case (lit " me@host.org "));
    vm_compute; [reflexivity | discriminate].
Defined.

(** ** Reading back *)

(** X28.  What an encoder has produced is shown by the read handler:
    from the hexadecimal data of the reader it makes the table of the
    type, the content and the size in bytes of the encoded output, the
    content being the one the decoder recovers. *)
Theorem written_tag_is_read_back (U : UnicodeData) (x : content_kind)
    (out : bytes) :
  encode x = Ok out ->
  language_fits x ->
  exists i,
    get_ndef_payload_info out = Ok (Some i) /\
    recovers x i /\
    read_summary (bytes_to_hex out)
    = Some [ (lit "Type", content_type i); (lit "Content", content i);
             (lit "Size", str_of_int (len out) ++ lit " bytes") ].
Proof.
  intros Hx Hfit.
  destruct (WebNfcProps.encoded_is_decoded x out Hx Hfit) as (i & Hi & Hr & _).
  exists i. split; [exact Hi |]. split; [exact Hr |].
  unfold read_summary.
  rewrite (HexProps.upper_hex_read_back out (BytesProps.encoded_bytes x out Hx)).
  rewrite Hi.
  destruct out as [| b out]; [| reflexivity].
  unfold get_ndef_payload_info in Hi. cbn in Hi. discriminate.
Qed.

Lemma written_tag_is_read_back_witness :
  exists i,
    get_ndef_payload_info [3; 8; 209; 1; 4; 85; 4; 97; 46; 98; 254]
    = Ok (Some i) /\
    recovers (Url (lit "https://a.b")) i /\
    read_summary (lit "0308D101045504612E62FE")
    = Some [ (lit "Type", content_type i); (lit "Content", content i);
             (lit "Size", lit "11 bytes") ].
Proof.
  apply (written_tag_is_read_back ascii_case (Url (lit "https://a.b"))
           [3; 8; 209; 1; 4; 85; 4; 97; 46; 98; 254]);
    [vm_compute; reflexivity | exact I].
Defined.

End HandlerProps.

(* ===================================================================== *)
(** * The database                                                      *)
(* ===================================================================== *)

Module DatabaseProps.

Import NdefEncoder Database Notions CodecProps EncoderProps.

(** ** The UID as the tables hold it *)

Lemma ascii_upper_fixed (c : Z) : ascii_upper (ascii_upper c) = ascii_upper c.
Proof.
  unfold ascii_upper.
  destruct ((97 <=? c) && (c <=? 122)) eqn:E; [| rewrite E; reflexivity].
  apply andb_true_iff in E. destruct E as [E1 E2].
  apply Z.leb_le in E1, E2.
  destruct (Z.leb_spec 97 (c - 32)); [lia |]. reflexivity.
Qed.

Lemma ascii_upper_is_ascii (c : Z) :
  is_ascii c = true -> is_ascii (ascii_upper c) = true.
Proof.
  unfold is_ascii, ascii_upper.
  destruct ((97 <=? c) && (c <=? 122)) eqn:E; [| auto]. lia.
Qed.

Lemma normalized_fixed `{UnicodeData} (uid : str) :
  forallb is_ascii uid = true -> normalized (normalized uid) = normalized uid.
Proof.
  intros Ha.
  assert (E : normalized uid = strip (map ascii_upper uid)).
  { unfold normalized, upper. rewrite Ha. reflexivity. }
  rewrite E.
  set (k := strip (map ascii_upper uid)).
  assert (Hin : forall c, In c k -> exists x, In x uid /\ c = ascii_upper x).
  { intros c Hc. apply In_strip in Hc. apply in_map_iff in Hc.
    destruct Hc as (x & <- & Hx). eauto. }
  assert (Hk : forallb is_ascii k = true).
  { apply forallb_forall. intros c Hc. destruct (Hin c Hc) as (x & Hx & ->).
    apply ascii_upper_is_ascii, (proj1 (forallb_forall _ _) Ha), Hx. }
  unfold normalized, upper. rewrite Hk.
  assert (Hm : map ascii_upper k = k).
  { rewrite <- (map_id k) at 2. apply map_ext_in. intros c Hc.
    destruct (Hin c Hc) as (x & _ & ->). apply ascii_upper_fixed. }
  rewrite Hm. apply strip_idem.
Qed.

(** ** The tags and the log *)

Lemma successes_more `{UnicodeData} (key : str) (calls : list logged)
    (c : logged) :
  successes key (calls ++ [c])
  = successes key calls
    + (if l_success c && list_eqb (normalized (l_uid c)) key then 1 else 0).
Proof.
  unfold successes. rewrite filter_app, len_app. cbn [filter].
  destruct (l_success c && list_eqb (normalized (l_uid c)) key); reflexivity.
Qed.

Lemma NoDup_last {A} (l : list A) (x : A) :
  NoDup l -> ~ In x l -> NoDup (l ++ [x]).
Proof.
  induction 1 as [| y l Hy Hl IH]; intros Hx; cbn [app].
  - constructor; [intros [] | constructor].
  - constructor.
    + intros Hi. apply in_app_or in Hi. destruct Hi as [Hi | [-> | []]].
      * auto.
      * apply Hx. left. reflexivity.
    + apply IH. intros Hi. apply Hx. right. exact Hi.
Qed.

Lemma select_tag_some `{UnicodeData} (db : database) (key : str)
    (row : tag_row) :
  select_tag db key = Some row -> In row (tags db) /\ uid row = key.
Proof.
  unfold select_tag. intros Hf. apply find_some in Hf.
  destruct Hf as [Hi He]. apply list_eqb_eq in He. auto.
Qed.

Lemma select_tag_none `{UnicodeData} (db : database) (key : str) :
  select_tag db key = None -> ~ In key (map uid (tags db)).
Proof.
  unfold select_tag. intros Hf Hi. apply in_map_iff in Hi.
  destruct Hi as (row & <- & Hr).
  pose proof (find_none _ _ Hf row Hr) as E. cbv beta in E.
  rewrite list_eqb_refl in E. discriminate.
Qed.

(** One call of [log_write] keeps the table in agreement with the calls. *)
Lemma log_call_counted `{UnicodeData} (calls : list logged) (c : logged)
    (db : database) :
  forallb is_ascii (l_uid c) = true ->
  counted calls db -> counted (calls ++ [c]) (log_call c db).
Proof.
  intros Ha (Hrows & Hkeys & Hnd & Hlog).
  unfold log_call, log_write. cbv zeta.
  destruct (l_success c) eqn:Es.
  - pose proof (normalized_fixed (l_uid c) Ha) as Hfix.
    set (key := normalized (l_uid c)) in *.
    unfold register_tag. cbv zeta. rewrite !Hfix.
    unfold select_tag at 1. cbn [tags].
    change (find (fun row => list_eqb (uid row) key) (tags db))
      with (select_tag db key).
    assert (Hs : forall k, successes k (calls ++ [c])
                           = successes k calls
                             + (if list_eqb key k then 1 else 0)).
    { intros k. rewrite successes_more, Es. reflexivity. }
    destruct (select_tag db key) as [existing |] eqn:Ef.
    + apply select_tag_some in Ef. destruct Ef as [Hin Hu].
      unfold update_tag_write, update_tags, with_tags, counted.
      cbn [tags write_log].
      rewrite ?Hfix.
      repeat split.
      * intros row Hr. apply in_map_iff in Hr. destruct Hr as (r0 & <- & Hr0).
        rewrite Hs. destruct (list_eqb (uid r0) key) eqn:Ek.
        -- cbn [write_count uid]. rewrite list_eqb_sym, Ek.
           rewrite (Hrows r0 Hr0). reflexivity.
        -- rewrite list_eqb_sym, Ek. rewrite (Hrows r0 Hr0). lia.
      * intros k Hk. rewrite map_map.
        rewrite (map_ext_in _ uid);
          [| intros r _; destruct (list_eqb (uid r) key); reflexivity].
        rewrite Hs in Hk. destruct (list_eqb key k) eqn:Ek.
        -- apply list_eqb_eq in Ek. subst k. rewrite <- Hu.
           apply in_map, Hin.
        -- apply Hkeys. lia.
      * rewrite map_map.
        rewrite (map_ext_in _ uid);
          [exact Hnd
          | intros r _; destruct (list_eqb (uid r) key); reflexivity].
      * rewrite !len_app, Hlog. reflexivity.
    + pose proof (select_tag_none _ _ Ef) as Hno.
      assert (H0 : successes key calls = 0).
      { destruct (Z.eq_dec (successes key calls) 0) as [E | E]; [exact E |].
        exfalso. apply Hno, Hkeys, E. }
      unfold update_tag_write, update_tags, with_tags, counted.
      cbn [tags write_log].
      rewrite ?Hfix.
      repeat split.
      * intros row Hr. apply in_map_iff in Hr. destruct Hr as (r0 & <- & Hr0).
        rewrite Hs. apply in_app_or in Hr0. destruct Hr0 as [Hr0 | [<- | []]].
        -- destruct (list_eqb (uid r0) key) eqn:Ek.
           ++ cbn [write_count uid]. rewrite list_eqb_sym, Ek.
              rewrite (Hrows r0 Hr0). reflexivity.
           ++ rewrite list_eqb_sym, Ek. rewrite (Hrows r0 Hr0). lia.
        -- cbn [uid]. rewrite list_eqb_refl. cbn [write_count uid].
           rewrite list_eqb_refl, H0. reflexivity.
      * intros k Hk. rewrite map_map.
        rewrite (map_ext_in _ uid);
          [| intros r _; destruct (list_eqb (uid r) key); reflexivity].
        rewrite map_app. apply in_or_app.
        rewrite Hs in Hk. destruct (list_eqb key k) eqn:Ek.
        -- apply list_eqb_eq in Ek. subst k. right. left. reflexivity.
        -- left. apply Hkeys. lia.
      * rewrite map_map.
        rewrite (map_ext_in _ uid);
          [| intros r _; destruct (list_eqb (uid r) key); reflexivity].
        rewrite map_app. apply NoDup_last; assumption.
      * rewrite !len_app, Hlog. reflexivity.
  - unfold counted. cbn [tags write_log]. repeat split.
    + intros row Hr. rewrite successes_more, Es. cbn [andb].
      rewrite (Hrows row Hr). lia.
    + intros k Hk. rewrite successes_more, Es in Hk. cbn [andb] in Hk.
      apply Hkeys. lia.
    + exact Hnd.
    + rewrite !len_app, Hlog. reflexivity.
Qed.

Lemma replay_counted `{UnicodeData} (rest : list logged) :
  forall (calls : list logged) (db : database),
    Forall (fun c => forallb is_ascii (l_uid c) = true) rest ->
    counted calls db -> counted (calls ++ rest) (replay rest db).
Proof.
  induction rest as [| c rest IH]; intros calls db Ha Hc.
  - rewrite app_nil_r. exact Hc.
  - inversion Ha as [| c' rest' Hc1 Hrest]; subst.
    change (calls ++ c :: rest) with (calls ++ [c] ++ rest).
    rewrite app_assoc. cbn [replay fold_left].
    apply (IH (calls ++ [c]) (log_call c db) Hrest).
    apply log_call_counted; assumption.
Qed.

(** X29.  The table of the tags agrees with the log.  After any calls of
    [log_write] on a new database, with UIDs of ASCII characters, no UID
    is twice in the table, the log has a row for each call, and for any
    UID the write count that [get_tag] returns is the number of
    successful calls for that UID in upper case and without the white
    space around it, whatever the operation of the call was; [get_tag]
    returns nothing and [tag_has_data] is false exactly when there was no
    such call. *)
Theorem write_count_is_the_number_of_successes (U : UnicodeData)
    (calls : list logged) (tag_uid : str) :
  Forall (fun c => forallb is_ascii (l_uid c) = true) calls ->
  NoDup (map uid (tags (replay calls _init_db))) /\
  len (write_log (replay calls _init_db)) = len calls /\
  tag_has_data tag_uid (replay calls _init_db)
  = (0 <? successes (normalized tag_uid) calls) /\
  match get_tag tag_uid (replay calls _init_db) with
  | Some tag =>
      get tag (lit "uid") VNone = VStr (normalized tag_uid) /\
      get tag (lit "write_count") (VInt 0)
      = VInt (successes (normalized tag_uid) calls)
  | None => successes (normalized tag_uid) calls = 0
  end.
Proof.
  intros Ha.
  assert (Hc : counted calls (replay calls _init_db)).
  { apply (replay_counted calls [] _init_db Ha).
    repeat split; cbn; try tauto; try constructor. }
  destruct Hc as (Hrows & Hkeys & Hnd & Hlog).
  split; [exact Hnd |]. split; [exact Hlog |].
  unfold tag_has_data, get_tag.
  destruct (select_tag (replay calls _init_db) (normalized tag_uid))
    as [row |] eqn:Ef.
  - apply select_tag_some in Ef. destruct Ef as [Hin Hu].
    change (get (tag_dict row) (lit "write_count") (VInt 0))
      with (VInt (write_count row)).
    change (get (tag_dict row) (lit "uid") VNone) with (VStr (uid row)).
    rewrite (Hrows row Hin), Hu. auto.
  - pose proof (select_tag_none _ _ Ef) as Hno.
    assert (H0 : successes (normalized tag_uid) calls = 0).
    { destruct (Z.eq_dec (successes (normalized tag_uid) calls) 0)
        as [E | E]; [exact E |].
      exfalso. apply Hno, Hkeys, E. }
    rewrite H0. auto.
Qed.

Lemma write_count_is_the_number_of_successes_witness :
  successes (normalized (lit " 04a1b2c3")) three_calls = 2 /\
  NoDup (map uid (tags (replay three_calls _init_db))) /\
  len (write_log (replay three_calls _init_db)) = len three_calls /\
  tag_has_data (lit " 04a1b2c3") (replay three_calls _init_db)
  = (0 <? successes (normalized (lit " 04a1b2c3")) three_calls) /\
  match get_tag (lit " 04a1b2c3") (replay three_calls _init_db) with
  | Some tag =>
      get tag (lit "uid") VNone = VStr (normalized (lit " 04a1b2c3")) /\
      get tag (lit "write_count") (VInt 0)
      = VInt (successes (normalized (lit " 04a1b2c3")) three_calls)
  | None => successes (normalized (lit " 04a1b2c3")) three_calls = 0
  end.
Proof.
  split; [vm_compute; reflexivity |].
  apply (write_count_is_the_number_of_successes ascii_case three_calls
           (lit " 04a1b2c3")).
  repeat constructor.
Defined.

(** ** Bulk sessions *)

Section Sessions.

Variable float_sum : number -> Z -> number.

Lemma sql_add_within (t n : Z) :
  int64 (t + n) = true -> sql_add float_sum (Integer t) n = Integer (t + n).
Proof. intros Hs. unfold sql_add. rewrite Hs. reflexivity. Qed.

Lemma session_run_cons (s : session_step) (steps : list session_step)
    (db : database) :
  session_run float_sum (s :: steps) db
  = session_run float_sum steps
      match s with
      | Counted id written failed =>
          match update_bulk_session float_sum id written failed db with
          | Ok db' => db'
          | Raise _ => db
          end
      end.
Proof. reflexivity. Qed.

Lemma update_bulk_session_bound (id written failed : Z) (db : database) :
  update_bulk_session float_sum id written failed db
  = if bound (Counted id written failed)
    then Ok (update_sessions db id
               (fun row =>
                  {| session_id := session_id row;
                     started_at := started_at row;
                     ended_at := ended_at row;
                     session_record_type := session_record_type row;
                     content_template := content_template row;
                     total_written :=
                       sql_add float_sum (total_written row) written;
                     total_failed :=
                       sql_add float_sum (total_failed row) failed |}))
    else Raise OverflowError.
Proof. reflexivity. Qed.

(** The rows of a table of sessions whose last row is the session [id]
    and which has no other row of that number, after some calls. *)
Lemma session_run_last (id : Z) (steps : list session_step) :
  forall (db : database) (front : list session_row) (row : session_row)
         (w f : Z),
    bulk_sessions db = front ++ [row] ->
    session_id row = id ->
    total_written row = Integer w ->
    total_failed row = Integer f ->
    ~ In id (map session_id front) ->
    (forall k,
       int64 (w + counted_written id (firstn k steps)) = true /\
       int64 (f + counted_failed id (firstn k steps)) = true) ->
    exists front',
      map session_id front' = map session_id front /\
      bulk_sessions_seq (session_run float_sum steps db)
      = bulk_sessions_seq db /\
      bulk_sessions (session_run float_sum steps db)
      = front'
        ++ [ {| session_id := id; started_at := started_at row;
                ended_at := ended_at row;
                session_record_type := session_record_type row;
                content_template := content_template row;
                total_written := Integer (w + counted_written id steps);
                total_failed := Integer (f + counted_failed id steps) |} ].
Proof.
  induction steps as [| s steps IH]; intros db front row w f Hb Hid Hw Hf Hno Hin.
  - exists front. cbn [session_run fold_left counted_written counted_failed
                      fold_right].
    rewrite !Z.add_0_r, Hb, <- Hid, <- Hw, <- Hf. destruct row; auto.
  - destruct s as [i written failed].
    assert (Hnext : forall w' f',
               w' + counted_written id steps
               = w + counted_written id (Counted i written failed :: steps) ->
               f' + counted_failed id steps
               = f + counted_failed id (Counted i written failed :: steps) ->
               (forall k, w' + counted_written id (firstn k steps)
                          = w + counted_written id
                                  (firstn (S k)
                                     (Counted i written failed :: steps))) ->
               (forall k, f' + counted_failed id (firstn k steps)
                          = f + counted_failed id
                                  (firstn (S k)
                                     (Counted i written failed :: steps))) ->
               forall k,
                 int64 (w' + counted_written id (firstn k steps)) = true /\
                 int64 (f' + counted_failed id (firstn k steps)) = true).
    { intros w' f' _ _ Ew Ef k. rewrite Ew, Ef. apply Hin. }
    rewrite session_run_cons, update_bulk_session_bound.
    change (counted_written id (Counted i written failed :: steps))
      with (if bound (Counted i written failed) && (i =? id)
            then written + counted_written id steps
            else counted_written id steps) in *.
    change (counted_failed id (Counted i written failed :: steps))
      with (if bound (Counted i written failed) && (i =? id)
            then failed + counted_failed id steps
            else counted_failed id steps) in *.
    assert (Hpre : forall k,
               counted_written id
                 (firstn (S k) (Counted i written failed :: steps))
               = (if bound (Counted i written failed) && (i =? id)
                  then written + counted_written id (firstn k steps)
                  else counted_written id (firstn k steps)) /\
               counted_failed id
                 (firstn (S k) (Counted i written failed :: steps))
               = (if bound (Counted i written failed) && (i =? id)
                  then failed + counted_failed id (firstn k steps)
                  else counted_failed id (firstn k steps))).
    { intros k. split; reflexivity. }
    destruct (bound (Counted i written failed)) eqn:Eb; cbn [andb] in *.
    + set (change := fun r : session_row =>
                       if session_id r =? i
                       then {| session_id := session_id r;
                               started_at := started_at r;
                               ended_at := ended_at r;
                               session_record_type := session_record_type r;
                               content_template := content_template r;
                               total_written :=
                                 sql_add float_sum (total_written r) written;
                               total_failed :=
                                 sql_add float_sum (total_failed r) failed |}
                       else r).
      assert (Hch : forall r, session_id (change r) = session_id r).
      { intros r. unfold change. destruct (session_id r =? i); reflexivity. }
      destruct (Z.eqb_spec i id) as [-> | Hne].
      * pose proof (Hin 1%nat) as [H1w H1f].
        destruct (Hpre 0%nat) as [P1 P2]. rewrite P1 in H1w. rewrite P2 in H1f.
        cbn [firstn counted_written counted_failed fold_right] in H1w, H1f.
        rewrite Z.add_0_r in H1w, H1f.
        destruct (IH (update_sessions db id
                        (fun row0 =>
                           {| session_id := session_id row0;
                              started_at := started_at row0;
                              ended_at := ended_at row0;
                              session_record_type := session_record_type row0;
                              content_template := content_template row0;
                              total_written :=
                                sql_add float_sum (total_written row0) written;
                              total_failed :=
                                sql_add float_sum (total_failed row0) failed |}))
                    (map change front) (change row) (w + written)
                    (f + failed))
          as (front' & Hfr & Hq & Hr).
        -- unfold update_sessions, with_sessions. cbn [bulk_sessions].
           rewrite Hb, map_app. reflexivity.
        -- rewrite Hch. exact Hid.
        -- unfold change. rewrite Hid, Z.eqb_refl. cbn [total_written].
           rewrite Hw. apply sql_add_within. exact H1w.
        -- unfold change. rewrite Hid, Z.eqb_refl. cbn [total_failed].
           rewrite Hf. apply sql_add_within. exact H1f.
        -- rewrite map_map. rewrite (map_ext _ session_id Hch). exact Hno.
        -- intros k. destruct (Hin (S k)) as [Hkw Hkf].
           destruct (Hpre k) as [Q1 Q2]. rewrite Q1 in Hkw. rewrite Q2 in Hkf.
           rewrite <- !Z.add_assoc. split; assumption.
        -- exists front'. split.
           { rewrite Hfr, map_map. apply map_ext, Hch. }
           split; [exact Hq |].
           rewrite Hr. f_equal. f_equal. unfold change.
           rewrite Hid, Z.eqb_refl.
           cbn [started_at ended_at session_record_type
                Database.content_template].
           rewrite <- !Z.add_assoc. reflexivity.
      * destruct (IH (update_sessions db i
                        (fun row0 =>
                           {| session_id := session_id row0;
                              started_at := started_at row0;
                              ended_at := ended_at row0;
                              session_record_type := session_record_type row0;
                              content_template := content_template row0;
                              total_written :=
                                sql_add float_sum (total_written row0) written;
                              total_failed :=
                                sql_add float_sum (total_failed row0) failed |}))
                    (map change front) (change row) w f)
          as (front' & Hfr & Hq & Hr).
        -- unfold update_sessions, with_sessions. cbn [bulk_sessions].
           rewrite Hb, map_app. reflexivity.
        -- rewrite Hch. exact Hid.
        -- unfold change. rewrite Hid.
           destruct (Z.eqb_spec id i); [congruence | exact Hw].
        -- unfold change. rewrite Hid.
           destruct (Z.eqb_spec id i); [congruence | exact Hf].
        -- rewrite map_map. rewrite (map_ext _ session_id Hch). exact Hno.
        -- intros k. destruct (Hin (S k)) as [Hkw Hkf].
           destruct (Hpre k) as [Q1 Q2]. rewrite Q1 in Hkw. rewrite Q2 in Hkf.
           split; assumption.
        -- exists front'. split.
           { rewrite Hfr, map_map. apply map_ext, Hch. }
           split; [exact Hq |].
           rewrite Hr. f_equal. f_equal. unfold change. rewrite Hid.
           destruct (Z.eqb_spec id i); [congruence | reflexivity].
    + destruct (IH db front row w f Hb Hid Hw Hf Hno) as (front' & Hfr & Hq & Hr).
      * intros k. destruct (Hin (S k)) as [Hkw Hkf].
        destruct (Hpre k) as [Q1 Q2]. rewrite Q1 in Hkw. rewrite Q2 in Hkf.
        split; assumption.
      * exists front'. auto.
Qed.

Lemma find_last (id : Z) (front : list session_row) (row : session_row) :
  ~ In id (map session_id front) -> session_id row = id ->
  find (fun r => session_id r =? id) (front ++ [row]) = Some row.
Proof.
  intros Hno Hid. induction front as [| r front IH]; cbn [app find].
  - rewrite Hid, Z.eqb_refl. reflexivity.
  - destruct (Z.eqb_spec (session_id r) id) as [E | _].
    + exfalso. apply Hno. left. exact E.
    + apply IH. intros Hi. apply Hno. right. exact Hi.
Qed.

Lemma numbered_fresh (db : database) :
  numbered db ->
  ~ In (bulk_sessions_seq db + 1) (map session_id (bulk_sessions db)).
Proof.
  unfold numbered. intros Hn Hi. apply in_map_iff in Hi.
  destruct Hi as (row & E & Hr).
  pose proof (proj1 (Forall_forall _ _) Hn row Hr) as Hle. cbv beta in Hle.
  lia.
Qed.

Lemma int64_range (n : Z) : int64 n = true <-> - 2 ^ 63 <= n < 2 ^ 63.
Proof.
  unfold int64. rewrite andb_true_iff, Z.leb_le, Z.ltb_lt. reflexivity.
Qed.

(** X30.  The summary of a bulk session is that of its own counts, as
    long as they fit the 64 bits of an INTEGER.  In a database whose
    session numbers have not reached the largest INTEGER, a session that
    is started gets a number no other session has.  Whatever is then
    counted for it or for other sessions, a call with an argument outside
    64 bits being refused and counting nothing: when the two counters of
    the session fit 64 bits after every call, [end_bulk_session] returns
    for it the row with the time of the start, the time of the end, the
    record type, the template, and as totals the sums of what was counted
    for this session. *)
Theorem bulk_session_totals
    (record_type content_template now ended : str)
    (steps : list session_step) (db : database) :
  numbered db ->
  0 <= bulk_sessions_seq db < 2 ^ 63 - 1 ->
  within_int64 (bulk_sessions_seq db + 1) steps ->
  exists id db1 db2,
    start_bulk_session record_type content_template now db = Ok (id, db1) /\
    ~ In id (map session_id (bulk_sessions db)) /\
    end_bulk_session id ended (session_run float_sum steps db1)
    = Ok (session_dict
            {| session_id := id; started_at := now; ended_at := Some ended;
               session_record_type := record_type;
               content_template := content_template;
               total_written := Integer (counted_written id steps);
               total_failed := Integer (counted_failed id steps) |}, db2) /\
    numbered db2.
Proof.
  intros Hn Hseq Hin. unfold start_bulk_session.
  destruct (Z.ltb_spec (bulk_sessions_seq db) (2 ^ 63 - 1)); [| lia].
  pose proof (numbered_fresh db Hn) as Hfresh.
  set (id := bulk_sessions_seq db + 1) in *.
  set (row := {| session_id := id; started_at := now; ended_at := None;
                 session_record_type := record_type;
                 content_template := content_template;
                 total_written := Integer 0; total_failed := Integer 0 |}).
  destruct (session_run_last id steps
              (with_sessions db (bulk_sessions db ++ [row]) id)
              (bulk_sessions db) row 0 0 eq_refl eq_refl eq_refl eq_refl
              Hfresh)
    as (front' & Hf & Hq & Hr).
  { intros k. rewrite !Z.add_0_l. apply Hin. }
  cbn [started_at ended_at session_record_type Database.content_template
       row] in Hr.
  rewrite !Z.add_0_l in Hr.
  exists id. eexists. eexists. split; [reflexivity |].
  split; [exact Hfresh |].
  unfold end_bulk_session.
  assert (Hid : int64 id = true) by (apply int64_range; unfold id; lia).
  rewrite Hid.
  unfold update_sessions, with_sessions in *.
  cbn [bulk_sessions bulk_sessions_seq].
  rewrite Hr, Hq. cbn [bulk_sessions_seq with_sessions].
  rewrite map_app. cbn [map session_id]. rewrite Z.eqb_refl.
  split.
  - rewrite find_last; [reflexivity | | reflexivity].
    rewrite map_map.
    rewrite (map_ext _ session_id);
      [rewrite Hf; exact Hfresh
      | intros r; destruct (session_id r =? id); reflexivity].
  - unfold numbered. cbn [bulk_sessions bulk_sessions_seq].
    apply Forall_app. split.
    + apply Forall_forall. intros r Hi. apply in_map_iff in Hi.
      destruct Hi as (r0 & <- & Hr0).
      assert (Hle : session_id r0 <= id).
      { assert (Hi0 : In (session_id r0) (map session_id (bulk_sessions db))).
        { rewrite <- Hf. apply in_map, Hr0. }
        apply in_map_iff in Hi0. destruct Hi0 as (r1 & E & Hr1).
        pose proof (proj1 (Forall_forall _ _) Hn r1 Hr1) as Hle.
        cbv beta in Hle. unfold id. lia. }
      destruct (session_id r0 =? id); exact Hle.
    + constructor; [cbn [session_id]; lia | constructor].
Qed.

End Sessions.

Lemma bulk_session_totals_witness :
  counted_written 1 bulk_steps = 2 /\
  counted_failed 1 bulk_steps = 1 /\
  exists id db1 db2,
    start_bulk_session (lit "url") (lit "https://a.b")
      (lit "2024-05-01T10:00:00") _init_db = Ok (id, db1) /\
    ~ In id (map session_id (bulk_sessions _init_db)) /\
    end_bulk_session id (lit "2024-05-01T11:00:00")
      (session_run no_float_sum bulk_steps db1)
    = Ok (session_dict
            {| session_id := id; started_at := lit "2024-05-01T10:00:00";
               ended_at := Some (lit "2024-05-01T11:00:00");
               session_record_type := lit "url";
               content_template := lit "https://a.b";
               total_written := Integer (counted_written id bulk_steps);
               total_failed := Integer (counted_failed id bulk_steps) |},
          db2) /\
    numbered db2.
Proof.
  split; [vm_compute; reflexivity |]. split; [vm_compute; reflexivity |].
  apply (bulk_session_totals no_float_sum (lit "url") (lit "https://a.b")
           (lit "2024-05-01T10:00:00") (lit "2024-05-01T11:00:00")
           bulk_steps _init_db).
  - constructor.
  - vm_compute. split; [discriminate | reflexivity].
  - intros k.
    do 6 (destruct k as [| k]; [split; vm_compute; reflexivity |]).
    split; vm_compute; reflexivity.
Defined.

End DatabaseProps.
